(* ===== verification/_CoqProject ===== *)
-Q . S2P
Prelude.v
GoLib.v
Sha256.v
Effects.v
Startup.v
Concurrent.v
WorkerPool.v
Sql.v
Proto.v
Float64.v
Json.v
Http.v
Redis.v
JsonFacts.v
HttpFacts.v
Float64Facts.v
WalletProto.v
Wallet.v
WalletFacts.v
WalletProps.v
Ledger.v
LedgerFacts.v
LedgerProps.v
IntentDb.v
System.v
SystemRules.v
IntentStore.v
Crypto.v
IntentHandler.v
Gateway.v
Concrete.v
LoadTest.v
IntentFacts.v
GatewayFacts.v
GatewayTokens.v
GatewayLimit.v
GatewayIntents.v
ListFacts.v
Outbox.v
Scheduler.v
Engine.v
Validator.v
Certs.v
Mains.v
MainsFacts.v
CertsFacts.v
EnginePool.v
Metrics.v
Pipeline.v
PipelineFacts.v
PipelineSafe.v
PipelineProps.v
Typed.v
OutboxFacts.v
ServiceFacts.v
PipelineLive.v
LoadTestFacts.v
LoadMain.v
LoadMainFacts.v
Keygen.v
KeygenFacts.v
GatewayLedger.v
Platform.v
PlatformFacts.v
Acks.v
PlatformLive.v
LoadPlatform.v
PlatformTyped.v
GatewayRun.v
PlatformRun.v
