(* ===== verification/Prelude.v ===== *)
(** * AIEN: a verification of the intent platform

    AIEN takes signed intents over HTTP, stores them, schedules and executes them,
    moves money between wallet accounts for those that are transfers, and writes
    what became of each to a hash-chained ledger file.  Six services do this with
    a PostgreSQL database, the NATS JetStream message streams, a Redis
    cache and a ledger file between them:

<<
    client -> gateway -> intent service -> (database: intents, outbox)
                                             |  outbox worker
              intents.submitted.*  <---------+
              scheduler -> tasks.scheduled.* -> execution engine -> wallet
              intents.executed.*   <------------------+
              validator -> ledger file  <- gateway (/api/ledger)
>>

    ** How a program is modelled

    A function that talks to the outside is a [proc] (Effects.v): a finite tree
    of events, one per SQL statement, message, RPC, file or cache operation,
    with the Go control flow between them, early returns and deferred calls
    included.  [run] executes one under a schedule that gives every event an
    outcome: done, lost, done with the answer lost, or cut short.  [wp] is the
    statement about all schedules, [pool_step] and [system_step] (Effects.v,
    Concurrent.v) interleave any number of programs event by event, with crashes
    and an environment; WorkerPool.v is a fixed number of goroutines that serve
    one channel, alone or next to others.  [safe] (Concurrent.v) is the proof
    obligation of one program among others, under a rely and an invariant;
    [succeeds] (Effects.v) speaks about runs in which nothing fails.  Everything else is an ordinary function on records and
    inductive types with the names of the source.  Times are nanoseconds since
    the epoch in [Z]; machine integers are [Z] with [wrapU] and [wrapS] where
    they can overflow; Go strings and byte slices are [string], one character a
    byte; float64 is SpecFloat's binary64, computed exactly.

    ** Files and the code they model

    - Prelude, GoLib, Sha256, Float64, Json, Http: what the code uses of the Go
      language and standard library, executable: integers, strings, UTF-8, hex,
      strconv, bufio.Scanner, SHA-256 and HMAC, floating point, encoding/json,
      base64, net/url and net/http (requests, response writer, ServeMux).
      JsonFacts, HttpFacts, Float64Facts: their lemmas.
    - Sql, IntentDb: transactions, sessions and driver errors of database/sql,
      text columns (VARCHAR(n), well-formed UTF-8 without NUL);
      intent-service/store/schema.sql with the statements of all services on it.
      Redis: the four commands of the gateway.  System, SystemRules: the world
      the services share, its events and their proof rules.
    - WalletProto, Wallet: proto/wallet/v1 (messages), wallet/store, and
      wallet/handler.  [wallet_db] is schema.sql, [wallet_exec] the statements;
      Credit, Debit, Transfer, GetBalance and their handlers keep their names.
    - Ledger: validator/ledger; the file is its bytes, or absent.
    - Proto, IntentStore, Crypto, IntentHandler: proto/intent/v1 (messages),
      intent-service/store (modules MemoryStore and PostgresStore of one [Store]
      interface), shared/crypto, intent-service/handler and the interceptor.
    - Outbox, Scheduler, Engine, Validator: intent-service/outbox, and the
      message handlers of scheduler, execution-engine and validator.
      EnginePool: the engine's workers on their channel.
    - Gateway: gateway/main.go: handlers, middleware, token and routes.
    - LoadTest, LoadMain: scripts/load_test_csv.go, its parts and its main
      function.  Keygen, Certs: scripts/keygen.go and generate_certs.go.
    - Startup: shared/config, shared/db.  Mains: the main functions of the six
      services, ending in an exit code.  Metrics: shared/metrics and what the
      init functions register, the monitoring loop and the metrics server.
    - Pipeline: all services together: which handlers may start ([starts]), what
      the environment may do ([moves]), the invariant [good] and the guarantee
      [grows] that every handler keeps.
    - Platform: the pipeline with the requests of the gateway as threads next to
      it, on one state and one cache: what may start ([enters]), what the
      surroundings may do ([shifts]) and what a thread that has ended promises
      ([end_promise]).  LoadPlatform: the load tester's workers submitting to it.
      [starts] and [enters] may deliver every message of the stream at any time,
      acknowledged or not: more runs than the services have, which makes what is
      shown of all runs stronger.
    - Acks: the platform that keeps account of what each durable consumer has
      acknowledged and delivers only what it has not ([due], [acked_step]); its
      runs are runs of the platform.  What is shown to be possible is shown here.
    - Concrete: one instance of every external component, for witnesses only.

    ** What is proved

    - Wallet (WalletFacts, WalletProps): the Transfer RPC refines an atomic
      specification under every schedule of failures; no double spend; money is
      conserved and balances reconcile with the audit log for whole amounts;
      balances stay non-negative; without failures the stores compute their
      specification.  Two counterexamples: a NaN amount passes the guards, and
      small fractions create money.
    - Ledger (LedgerFacts, LedgerProps): Verify answers nil exactly for chains;
      Append extends a chain or leaves one; the last hash determines the
      history; a torn write, or a missing newline at the end, makes the file
      unverifiable for good once Append has gone over it; field boundaries are
      not hashed.
    - Intents (IntentFacts, ListFacts): Create is atomic, SubmitIntent stores
      nothing without a valid signature, stored intents are read back (against
      the class StoreContract, which both stores implement), what the signature
      binds and what it does not, pagination of both stores.
    - Services (OutboxFacts, ServiceFacts): every outcome of one batch, one
      submission, one task, one notification; the outbox drains to the rows
      that were given up.
    - Pipeline (PipelineFacts, PipelineSafe, PipelineProps): in every reachable
      world of the concurrent system a COMPLETED transfer has been paid exactly
      once, no accepted intent is forgotten, and later steps only add; with
      counterexamples to what one may expect beyond that.  PipelineLive: what
      the handlers bring about when nothing fails.
    - Platform (PlatformFacts, LoadPlatform, PlatformRun): a 201 is kept whatever
      runs next to the request and after it: the intent of its body stays
      stored and announced, and is paid at most once; what the load tester counts
      as a success is in the database.  When acknowledged messages are not
      delivered again, an intent that is PENDING, or SCHEDULED with its event,
      its submission or its task still to come, can be settled from every state
      (PlatformLive); a SCHEDULED intent can also be stranded without any of the
      three, since the scheduler ignores that publishing again failed
      (PlatformRun, Stranded).
    - Worker pools (WorkerPool, EnginePool): every run ends, each item is served
      once, one worker is the sequential loop, and pools that share their state
      with others keep their promises.
    - Gateway (GatewayFacts, GatewayTokens, GatewayLimit, GatewayIntents,
      GatewayLedger, GatewayRun): nothing is reached without a valid token; what
      login gives; at most ten submissions a minute under concurrency, and one
      more for each increment that fails; 201
      means stored; the idempotency cache and how duplicates pass it; the ledger
      page; the load tester's transfers arrive as they were (LoadTestFacts).
    - Start-up (Startup, MainsFacts, Metrics): connecting is bounded; TLS is used
      exactly when configured; the validator refuses a broken ledger; nothing
      takes work before what it needs is there, and the order in which services
      can start; registering metrics never panics, the gauges show the latest
      statistics, and only /metrics shows them.
    - Types (Typed, PlatformTyped): a discipline on handlers, kept by each of them, from which
      every stored status and metric is a declared one, and every stored type and
      message subject is made with the text of a type number.
    - Scripts (LoadMainFacts, KeygenFacts, CertsFacts): what the load tester reads,
      seeds and counts; the requests keygen prints are never accepted; the
      generated certificates fit the services for two years.

    ** Fuel and bounds

    Recursion is structural except in the number printers (fuel: bits of the
    number, [scan_utoa]), the JSON parser (twice the length, enough by
    [parse_fuel]), SHA-256's block loop (fuel: the words of the message),
    [reverse_blocks] (fuel: the length, enough by [reverse_blocks_rev]) and
    [follow], the client of the page tokens (one page per row and one more,
    enough by the completeness theorems).  The polling loop of the outbox
    worker is a number of polls; ConnectPostgres is bounded by its own argument.

    ** What is assumed of code outside the repository

    Each is a class whose laws are the documented behaviour, and has an instance
    (in Concrete.v, [exact_codec] in Float64Facts.v, [concrete_float_text] in
    GatewayRun.v, [toy_x509] in CertsFacts.v): [Postgres] (UUID and timestamp input,
    ORDER BY), [NumericCodec] (NUMERIC(20,8) parameters), [ProtoCodec] (an
    encoded Intent is decoded to itself), [TimeText] (RFC 3339 of the years 1 to
    9999), [Ed25519] (correctness, lengths), [Redis] (SET, INCR, EXPIRE, expiry),
    [FloatText] (json.Marshal of a float64) and [X509] (RSA keys, certificates
    and PEM can be read back).  Identifiers from uuid.New are
    arguments; Pipeline.v and Platform.v ([drawn]) take the outbox id as drawn for
    one intent.  PlatformLive.v assumes that an intent that was decoded can be
    encoded again with another status.  The texts of library errors,
    the static file server, the Prometheus handler and redirections are fields
    of [libraries].

    ** Not modelled

    What the libraries do inside a call of a main function (sockets, TLS
    handshakes, the reconnecting of NATS).  Logging, which has no effect on the
    state.  The parsing of flags, and the console output of the load tester and
    of the certificate generator.  What Prometheus makes of the
    updates: each is an event with its labels and value.  shared/ids: its values
    are arguments.  The generated code of proto/ and intent/v1 but for the messages
    and enumerations; the wire format is [ProtoCodec].  The web user interface,
    the Docker and Kubernetes files, the shell scripts.  Contexts: a cancelled
    or timed out call is an outcome of its event. *)
From stdpp Require Export base gmap strings list fin_maps.
From Stdlib Require Export ZArith Lia.
Abbreviation ascii := Ascii.ascii.

#[global] Open Scope Z_scope.

(** The development's notations, and its hint databases: [ascii] decides that a
    built text is ASCII, [pipeline] carries facts along the growth of the world,
    [world] simplifies updates of the world. *)
Declare Scope go_scope.
Delimit Scope go_scope with go.
#[global] Open Scope go_scope.
Create HintDb ascii.
Create HintDb pipeline.
#[global] Arguments String.append !_ _ / : simpl nomatch.

(** ** Machine integers
    Go integers of width [w], stored as the [Z] they denote. *)
Definition wrapU (w z : Z) : Z := z `mod` 2 ^ w.
Definition wrapS (w z : Z) : Z :=
  let u := z `mod` 2 ^ w in if u <? 2 ^ (w - 1) then u else u - 2 ^ w.

Lemma wrapU_range w z : 0 <= w -> 0 <= wrapU w z < 2 ^ w.
Proof. intros. apply Z.mod_pos_bound. lia. Qed.

Lemma wrapU_small w z : 0 <= z < 2 ^ w -> wrapU w z = z.
Proof. apply Z.mod_small. Qed.

(** ** Fallible results
    A Go function returning [(T, error)]: exactly one of the two is meaningful. *)
Inductive result (E A : Type) : Type :=
| Ok (a : A)
| Err (e : E).
Arguments Ok {_ _} _.
Arguments Err {_ _} _.

#[export] Instance result_ret {E} : MRet (result E) := fun A a => Ok a.
#[export] Instance result_bind {E} : MBind (result E) := fun A B f m =>
  match m with Ok a => f a | Err e => Err e end.
#[export] Instance result_fmap {E} : FMap (result E) := fun A B f m =>
  match m with Ok a => Ok (f a) | Err e => Err e end.

#[export] Instance result_eq_dec {E A} `{EqDecision E, EqDecision A} :
  EqDecision (result E A).
Proof. solve_decision. Defined.

Definition is_ok {E A} (r : result E A) : bool :=
  match r with Ok _ => true | Err _ => false end.

Lemma result_bind_Ok {E A B} (m : result E A) (f : A -> result E B) b :
  m ≫= f = Ok b <-> exists a, m = Ok a /\ f a = Ok b.
Proof. destruct m; cbn; naive_solver. Qed.

(** Invert a successful computation in the [result] monad. *)
Ltac bind_inv :=
  repeat match goal with
  | H : _ ≫= _ = Ok _ |- _ => apply result_bind_Ok in H as (? & ? & H)
  | H : context [let '(_, _) := ?x in _] |- _ => is_var x; destruct x
  | H : Ok _ = Ok _ |- _ => injection H; clear H; intros; subst
  | H : Err _ = Ok _ |- _ => discriminate H
  end.

(** ** Sums over finite maps *)
Section map_sum.
Context {K : Type} `{Countable K} {A : Type} (f : A -> Z).
Implicit Types m : gmap K A.

Definition map_sum m : Z := foldr (fun kv acc => f kv.2 + acc) 0 (map_to_list m).

Lemma map_sum_perm (l1 l2 : list (K * A)) :
  l1 ≡ₚ l2 -> foldr (fun kv acc => f kv.2 + acc) 0 l1 = foldr (fun kv acc => f kv.2 + acc) 0 l2.
Proof. induction 1; cbn; lia. Qed.

Lemma map_sum_insert m k x : m !! k = None -> map_sum (<[k:=x]> m) = f x + map_sum m.
Proof.
  intros Hk. unfold map_sum.
  by rewrite (map_sum_perm _ _ (map_to_list_insert m k x Hk)).
Qed.

Lemma map_sum_update m k x y :
  m !! k = Some x -> map_sum (<[k:=y]> m) = map_sum m - f x + f y.
Proof.
  intros Hk. assert (Hm : map_sum m = f x + map_sum (delete k m)).
  { rewrite <-(insert_delete_id m k x Hk) at 1. apply map_sum_insert, lookup_delete_eq. }
  rewrite <-insert_delete_eq, map_sum_insert by apply lookup_delete_eq. lia.
Qed.
End map_sum.

(** ** A disjunct that holds once holds once for all *)
Lemma forall_or (n : nat) (P : nat -> Prop) (Q : Prop) :
  (forall i, (i < n)%nat -> P i \/ Q) -> (forall i, (i < n)%nat -> P i) \/ Q.
Proof.
  induction n as [|n IH]; intros H; [left; lia|].
  destruct IH as [IH|]; [auto with lia| |by right].
  destruct (H n) as [Hn|]; [lia| |by right].
  left. intros i Hi. destruct (decide (i = n)) as [->|]; [done|apply IH; lia].
Qed.

Lemma map_eq_pointwise {A B C} (f : A -> C) (g : B -> C) (l : list A) (l' : list B) :
  length l = length l' ->
  (forall i x y, l !! i = Some x -> l' !! i = Some y -> f x = g y) -> map f l = map g l'.
Proof.
  revert l'; induction l as [|x l IH]; intros [|y l'] Hlen H; try done. cbn. f_equal.
  - by apply (H 0%nat).
  - apply IH; [by injection Hlen|]. intros i. apply (H (S i)).
Qed.

Lemma list_delete_updated {A} (l : list A) i x : delete i (<[i := x]> l) = delete i l.
Proof. revert i; induction l as [|y l IH]; intros [|i]; cbn; [done..|]. f_equal. apply IH. Qed.
