(* ===== verification/GoLib.v ===== *)
(** * The parts of the Go standard library the services use

    Go strings and byte slices are both sequences of bytes; both are Rocq
    [string]s here (a [string] is a list of 8-bit characters).  This file holds
    [strconv]/[fmt] decimal printing and scanning, the [strings] helpers,
    [encoding/hex], and [bufio.Scanner] in its default line mode. *)
From S2P Require Import Prelude.

(** ** Bytes *)
Definition byteZ (c : ascii) : Z := Z.of_N (Ascii.N_of_ascii c).
Definition Zbyte (z : Z) : ascii := Ascii.ascii_of_N (Z.to_N z).

Lemma byteZ_range c : 0 <= byteZ c < 256.
Proof.
  unfold byteZ. pose proof (Ascii.N_ascii_bounded c) as H. lia.
Qed.

Lemma Zbyte_byteZ c : Zbyte (byteZ c) = c.
Proof. unfold Zbyte, byteZ. rewrite N2Z.id. apply Ascii.ascii_N_embedding. Qed.

Lemma byteZ_Zbyte z : 0 <= z < 256 -> byteZ (Zbyte z) = z.
Proof.
  intros H. unfold Zbyte, byteZ. rewrite Ascii.N_ascii_embedding; lia.
Qed.

Lemma byteZ_inj c d : byteZ c = byteZ d -> c = d.
Proof. intros H. by rewrite <-(Zbyte_byteZ c), <-(Zbyte_byteZ d), H. Qed.

(** ** [strings] *)
Definition slen (s : string) : Z := Z.of_nat (String.length s).

Fixpoint string_forall (p : ascii -> bool) (s : string) : bool :=
  match s with
  | EmptyString => true
  | String c s' => p c && string_forall p s'
  end.

(** [strings.HasPrefix(s, p)], with the rest of [s] when it holds. *)
Fixpoint strip_prefix (p s : string) : option string :=
  match p, s with
  | EmptyString, _ => Some s
  | String c p', String d s' => if Ascii.eqb c d then strip_prefix p' s' else None
  | String _ _, EmptyString => None
  end.
Definition has_prefix (s p : string) : bool := bool_decide (is_Some (strip_prefix p s)).
(** [strings.TrimPrefix(s, p)] *)
Definition trim_prefix (s p : string) : string := default s (strip_prefix p s).

(** [strings.Split(s, sep)] for a one-byte separator. *)
Fixpoint split_on (sep : ascii) (s : string) : list string :=
  match s with
  | EmptyString => [""%string]
  | String c s' =>
      if Ascii.eqb c sep then ""%string :: split_on sep s'
      else match split_on sep s' with
           | x :: xs => String c x :: xs
           | [] => [String c EmptyString]
           end
  end.

Lemma string_app_nil_r (s : string) : (s +:+ "" = s)%string.
Proof. induction s as [|c s IH]; [done|]. cbn. by rewrite IH. Qed.
Lemma string_app_assoc (a b c : string) : ((a +:+ b) +:+ c = a +:+ (b +:+ c))%string.
Proof. induction a as [|x a IH]; [done|]. cbn. f_equal. exact IH. Qed.

Lemma strip_prefix_app p s : strip_prefix p (p +:+ s) = Some s.
Proof.
  induction p as [|c p IH]; [done|].
  change (String c p +:+ s)%string with (String c (p +:+ s)). cbn.
  by rewrite Ascii.eqb_refl.
Qed.

Lemma strip_prefix_Some p s r : strip_prefix p s = Some r -> s = (p +:+ r)%string.
Proof.
  revert s; induction p as [|c p IH]; intros s; cbn; [congruence|].
  destruct s as [|d s]; [done|].
  destruct (Ascii.eqb_spec c d) as [->|]; [|done].
  intros ->%IH. done.
Qed.

(** ** Decimal integers: [%d], [strconv.Itoa] and [Sscanf("%d")] *)
Definition digit (d : Z) : ascii := Zbyte (48 + d).
Definition digit_val (c : ascii) : option Z :=
  let v := byteZ c - 48 in if (0 <=? v) && (v <=? 9) then Some v else None.

Fixpoint dec_digits (fuel : nat) (n : Z) (rest : string) : string :=
  match fuel with
  | O => rest
  | S f =>
      let s := String (digit (n mod 10)) rest in
      if n / 10 =? 0 then s else dec_digits f (n / 10) s
  end.

Definition utoa (n : Z) : string := dec_digits (S (Z.to_nat (Z.log2 n))) n "".
Definition itoa (n : Z) : string :=
  if n <? 0 then ("-" +:+ utoa (- n))%string else utoa n.

(** The maximal run of digits of [s], read from accumulator [a]. *)
Fixpoint scan_digits (a : Z) (s : string) : Z * string :=
  match s with
  | String c s' =>
      match digit_val c with
      | Some d => scan_digits (a * 10 + d) s'
      | None => (a, s)
      end
  | EmptyString => (a, s)
  end.

Lemma digit_val_digit d : 0 <= d <= 9 -> digit_val (digit d) = Some d.
Proof.
  intros H. unfold digit_val, digit. rewrite byteZ_Zbyte by lia.
  replace (48 + d - 48) with d by lia.
  by replace ((0 <=? d) && (d <=? 9)) with true by lia.
Qed.

Lemma scan_dec_digits fuel n :
  0 <= n < 10 ^ Z.of_nat fuel ->
  exists k, forall a rest,
    scan_digits a (dec_digits fuel n rest) = scan_digits (a * k + n) rest.
Proof.
  revert n; induction fuel as [|f IH]; intros n Hn.
  - exists 1. intros a rest. cbn in *. f_equal. lia.
  - cbn [dec_digits].
    assert (Hm : 0 <= n mod 10 <= 9) by (pose proof (Z.mod_pos_bound n 10); lia).
    assert (Hd := Z.div_mod n 10 ltac:(lia)).
    destruct (n / 10 =? 0) eqn:E.
    + exists 10. intros a rest. cbn. rewrite digit_val_digit by lia. f_equal; lia.
    + destruct (IH (n / 10)) as [k Hk].
      { rewrite Nat2Z.inj_succ, Z.pow_succ_r in Hn by lia.
        split; [apply Z.div_pos; lia|]. apply Z.div_lt_upper_bound; lia. }
      exists (k * 10). intros a rest. rewrite Hk. cbn.
      rewrite digit_val_digit by lia. f_equal. lia.
Qed.

Lemma dec_digits_length_fuel n : 0 <= n -> n < 10 ^ Z.of_nat (S (Z.to_nat (Z.log2 n))).
Proof.
  intros Hn. rewrite Nat2Z.inj_succ, Z2Nat.id by apply Z.log2_nonneg.
  destruct (Z.eq_dec n 0) as [->|]; [done|].
  apply Z.lt_le_trans with (2 ^ Z.succ (Z.log2 n)).
  - apply Z.log2_spec; lia.
  - apply Z.pow_le_mono_l. lia.
Qed.

Lemma scan_utoa n : 0 <= n -> scan_digits 0 (utoa n) = (n, ""%string).
Proof.
  intros Hn. destruct (scan_dec_digits (S (Z.to_nat (Z.log2 n))) n) as [k Hk].
  { split; [done|]. by apply dec_digits_length_fuel. }
  unfold utoa. by rewrite Hk.
Qed.

(** Go's [a > b] on strings: byte-wise lexicographic order. *)
Definition string_gtb (a b : string) : bool :=
  match String.compare a b with Gt => true | _ => false end.

(** ** UTF-8
    [utf8_map] walks a byte sequence the way [utf8.DecodeRune] does: valid
    multi-byte sequences are taken whole, any other byte of 128 or more is
    invalid and is taken alone. *)
Definition cont_in (lo hi : Z) (c : ascii) : bool := (lo <=? byteZ c) && (byteZ c <=? hi).
Definition utf8_two (a b : ascii) : bool := cont_in 194 223 a && cont_in 128 191 b.
Definition utf8_three (a b c : ascii) : bool :=
  cont_in 128 191 c &&
  ((cont_in 224 224 a && cont_in 160 191 b) || (cont_in 225 236 a && cont_in 128 191 b) ||
   (cont_in 237 237 a && cont_in 128 159 b) || (cont_in 238 239 a && cont_in 128 191 b)).
Definition utf8_four (a b c d : ascii) : bool :=
  cont_in 128 191 c && cont_in 128 191 d &&
  ((cont_in 240 240 a && cont_in 144 191 b) || (cont_in 241 243 a && cont_in 128 191 b) ||
   (cont_in 244 244 a && cont_in 128 143 b)).

Section utf8_map.
Context (one : ascii -> string) (many : string -> string) (bad : ascii -> string).

Fixpoint utf8_map (s : string) : string :=
  match s with
  | EmptyString => ""
  | String a s1 =>
      if byteZ a <? 128 then (one a +:+ utf8_map s1)%string else
      match s1 with
      | String b s2 =>
          if utf8_two a b then (many (String a (String b "")) +:+ utf8_map s2)%string else
          match s2 with
          | String c s3 =>
              if utf8_three a b c
              then (many (String a (String b (String c ""))) +:+ utf8_map s3)%string else
              match s3 with
              | String d s4 =>
                  if utf8_four a b c d
                  then (many (String a (String b (String c (String d "")))) +:+ utf8_map s4)%string
                  else (bad a +:+ utf8_map s1)%string
              | EmptyString => (bad a +:+ utf8_map s1)%string
              end
          | EmptyString => (bad a +:+ utf8_map s1)%string
          end
      | EmptyString => (bad a +:+ utf8_map s1)%string
      end
  end.
End utf8_map.

Definition chr (z : Z) : string := String (Zbyte z) "".
Definition newline : string := chr 10.

(** [utf8.EncodeRune]: surrogates and numbers out of range give U+FFFD. *)
Definition encode_rune (r : Z) : string :=
  let b3 r := (chr (224 + r / 4096) +:+ chr (128 + r / 64 mod 64) +:+ chr (128 + r mod 64))%string in
  if r <? 128 then chr r
  else if r <? 2048 then (chr (192 + r / 64) +:+ chr (128 + r mod 64))%string
  else if (55296 <=? r) && (r <=? 57343) then b3 65533
  else if r <? 65536 then b3 r
  else if r <=? 1114111 then
    (chr (240 + r / 262144) +:+ chr (128 + r / 4096 mod 64) +:+ chr (128 + r / 64 mod 64)
     +:+ chr (128 + r mod 64))%string
  else b3 65533.

(** Every invalid byte replaced by U+FFFD. *)
Definition to_valid_utf8 : string -> string := utf8_map (fun c => String c "") id (fun _ => encode_rune 65533).

Definition is_ascii (s : string) : bool := string_forall (fun c => byteZ c <? 128) s.

Lemma string_forall_app p a b : string_forall p (a +:+ b) = string_forall p a && string_forall p b.
Proof. induction a as [|c a IH]; [done|]. cbn. by rewrite IH, andb_assoc. Qed.

Lemma is_ascii_app a b : is_ascii a = true -> is_ascii b = true -> is_ascii (a +:+ b)%string = true.
Proof. unfold is_ascii. intros Ha Hb. by rewrite string_forall_app, Ha, Hb. Qed.
#[export] Hint Resolve is_ascii_app : ascii.
#[export] Hint Extern 1 (is_ascii _ = true) => reflexivity : ascii.

Lemma utf8_map_ascii one many bad c s :
  byteZ c <? 128 = true ->
  utf8_map one many bad (String c s) = (one c +:+ utf8_map one many bad s)%string.
Proof. intros Hc. cbn [utf8_map]. by rewrite Hc. Qed.

Lemma to_valid_utf8_ascii s : is_ascii s = true -> to_valid_utf8 s = s.
Proof.
  unfold to_valid_utf8. induction s as [|c s IH]; [done|]. intros [Hc Hs]%andb_true_iff.
  rewrite utf8_map_ascii by done. by rewrite (IH Hs).
Qed.

(** ** [encoding/hex] *)
Definition hex_digit (v : Z) : ascii := if v <? 10 then Zbyte (48 + v) else Zbyte (87 + v).
Definition hex_val (c : ascii) : option Z :=
  let v := byteZ c in
  if (48 <=? v) && (v <=? 57) then Some (v - 48)
  else if (97 <=? v) && (v <=? 102) then Some (v - 87)
  else if (65 <=? v) && (v <=? 70) then Some (v - 55)
  else None.

Fixpoint hex_encode (s : string) : string :=
  match s with
  | EmptyString => ""
  | String c s' => String (hex_digit (byteZ c / 16)) (String (hex_digit (byteZ c mod 16)) (hex_encode s'))
  end.
Fixpoint hex_decode (s : string) : option string :=
  match s with
  | EmptyString => Some ""%string
  | String a (String b s') =>
      match hex_val a, hex_val b, hex_decode s' with
      | Some x, Some y, Some r => Some (String (Zbyte (x * 16 + y)) r)
      | _, _, _ => None
      end
  | String _ EmptyString => None
  end.

Lemma hex_val_digit v : 0 <= v < 16 -> hex_val (hex_digit v) = Some v.
Proof.
  intros H. unfold hex_digit, hex_val.
  destruct (Z.ltb_spec v 10); rewrite byteZ_Zbyte by lia; repeat case_match; try lia; f_equal; lia.
Qed.

Lemma nibbles c :
  0 <= byteZ c / 16 < 16 /\ 0 <= byteZ c mod 16 < 16 /\
  byteZ c = 16 * (byteZ c / 16) + byteZ c mod 16.
Proof.
  pose proof (byteZ_range c). pose proof (Z.mod_pos_bound (byteZ c) 16 ltac:(lia)).
  pose proof (Z.div_mod (byteZ c) 16 ltac:(lia)). lia.
Qed.

Lemma hex_decode_encode s : hex_decode (hex_encode s) = Some s.
Proof.
  induction s as [|c s IH]; [done|]. cbn. destruct (nibbles c) as (Hd & Hm & Hdm).
  rewrite (hex_val_digit _ Hd), (hex_val_digit _ Hm), IH.
  replace (byteZ c / 16 * 16 + byteZ c mod 16) with (byteZ c) by lia. by rewrite Zbyte_byteZ.
Qed.

Lemma hex_encode_inj s t : hex_encode s = hex_encode t -> s = t.
Proof. intros H. apply (f_equal hex_decode) in H. rewrite !hex_decode_encode in H. congruence. Qed.

Lemma hex_encode_length s : String.length (hex_encode s) = (2 * String.length s)%nat.
Proof. induction s as [|c s IH]; [done|]. cbn. rewrite IH. lia. Qed.

Lemma hex_digit_ascii v : 0 <= v < 16 -> byteZ (hex_digit v) <? 128 = true.
Proof. intros. unfold hex_digit. case_match; rewrite byteZ_Zbyte; lia. Qed.

Lemma hex_encode_ascii s : is_ascii (hex_encode s) = true.
Proof.
  induction s as [|c s IH]; [done|]. unfold is_ascii in *. cbn. destruct (nibbles c) as (Hd & Hm & _).
  by rewrite (hex_digit_ascii _ Hd), (hex_digit_ascii _ Hm).
Qed.
#[export] Hint Resolve hex_encode_ascii : ascii.

(** ** [bufio.Scanner] with the default split function and buffer
    The lines of the input without their terminators, in order; [true] at the
    end when a line did not fit the 64 KiB buffer, where scanning stops. *)
Fixpoint cut_lines (cur : string) (s : string) : list string :=
  match s with
  | EmptyString => match cur with EmptyString => [] | _ => [cur] end
  | String c s' =>
      if byteZ c =? 10 then cur :: cut_lines "" s' else cut_lines (cur +:+ String c "") s'
  end.
Definition max_token : Z := 65536.

Fixpoint drop_cr (s : string) : string :=
  match s with
  | EmptyString => ""
  | String c EmptyString => if byteZ c =? 13 then "" else s
  | String c s' => String c (drop_cr s')
  end.

Fixpoint take_tokens (l : list string) : list string * bool :=
  match l with
  | [] => ([], false)
  | x :: l' =>
      if max_token <=? slen x then ([], true)
      else let '(xs, b) := take_tokens l' in (drop_cr x :: xs, b)
  end.
Definition scan_lines (s : string) : list string * bool := take_tokens (cut_lines "" s).

(** Text without line breaks is one token. *)
Definition no_break (s : string) : bool :=
  string_forall (fun c => negb (byteZ c =? 10) && negb (byteZ c =? 13)) s.

Lemma cut_lines_line cur line s :
  no_break line = true -> cut_lines cur (line +:+ String (Zbyte 10) s) = (cur +:+ line)%string :: cut_lines "" s.
Proof.
  revert cur; induction line as [|c line IH]; intros cur; cbn.
  - intros _. by rewrite string_app_nil_r.
  - intros [[Hc _]%andb_true_iff Hl]%andb_true_iff. apply negb_true_iff in Hc. rewrite Hc.
    rewrite IH by done. by rewrite string_app_assoc.
Qed.

Lemma drop_cr_no_break s : no_break s = true -> drop_cr s = s.
Proof.
  induction s as [|c s IH]; [done|]. unfold no_break. cbn.
  intros [[_ Hc]%andb_true_iff Hs]%andb_true_iff. apply negb_true_iff in Hc. rewrite Hc.
  rewrite (IH Hs). by destruct s.
Qed.

(** ** [fmt.Sscanf(s, "%d", &x)] into an [int]
    Blanks are skipped, then comes an optional sign and decimal digits; [None]
    is an error, which leaves [x] alone. *)
Definition go_spaces : list string :=
  map chr [32; 9; 11; 12; 13] ++
  map encode_rune ([133; 160; 5760] ++ map (Z.add 8192) [0;1;2;3;4;5;6;7;8;9;10] ++
                   [8232; 8233; 8239; 8287; 12288]).
Fixpoint skip_spaces (fuel : nat) (s : string) : string :=
  match fuel with
  | O => s
  | S f =>
      match strip_prefix (chr 13 +:+ chr 10) s with
      | Some r => skip_spaces f r
      | None =>
          match foldr (fun sp acc => match strip_prefix sp s with Some r => Some r | None => acc end)
                  None go_spaces with
          | Some r => skip_spaces f r
          | None => s
          end
      end
  end.
Definition sscanf_d (s : string) : option Z :=
  let s := skip_spaces (String.length s) s in
  let '(neg, s) := match s with
                   | String c s' => if byteZ c =? 45 then (true, s')
                                    else if byteZ c =? 43 then (false, s') else (false, s)
                   | EmptyString => (false, s)
                   end in
  match s with
  | EmptyString => None
  | String c _ =>
      match digit_val c with
      | None => None
      | Some _ =>
          let z := (scan_digits 0 s).1 in
          let z := if neg then - z else z in
          if (- 2 ^ 63 <=? z) && (z <? 2 ^ 63) then Some z else None
      end
  end.

Lemma dec_digits_leading fuel n rest :
  0 <= n -> exists d r, 0 <= d <= 9 /\ dec_digits (S fuel) n rest = String (digit d) r.
Proof.
  revert n rest; induction fuel as [|f IH]; intros n rest Hn.
  - cbn. exists (n mod 10), rest. split; [pose proof (Z.mod_pos_bound n 10); lia|]. by case_match.
  - cbn [dec_digits]. case_match.
    + exists (n mod 10), rest. split; [pose proof (Z.mod_pos_bound n 10); lia|done].
    + apply IH. apply Z.div_pos; lia.
Qed.

Lemma itoa_nonneg n : 0 <= n -> itoa n = utoa n.
Proof. intros Hn. unfold itoa. by rewrite (proj2 (Z.ltb_ge n 0)). Qed.

Lemma itoa_head n : 0 <= n -> exists d r, 0 <= d <= 9 /\ itoa n = String (digit d) r.
Proof.
  intros Hn. unfold itoa. rewrite (proj2 (Z.ltb_ge n 0)) by done. by apply dec_digits_leading.
Qed.

Lemma itoa_nonempty n : 0 <= n -> itoa n <> ""%string.
Proof. intros (d & r & _ & ->)%itoa_head. done. Qed.

Lemma skip_spaces_digit fuel d r :
  0 <= d <= 9 -> skip_spaces fuel (String (digit d) r) = String (digit d) r.
Proof.
  intros Hd. destruct fuel as [|f]; [done|].
  assert (Hcases : d = 0 \/ d = 1 \/ d = 2 \/ d = 3 \/ d = 4 \/ d = 5 \/ d = 6 \/ d = 7 \/ d = 8 \/ d = 9) by lia.
  repeat (destruct Hcases as [->|Hcases]; [vm_compute; reflexivity|]). by rewrite Hcases; vm_compute.
Qed.

(** What [Itoa] prints, [Sscanf("%d")] reads back. *)
Lemma sscanf_d_itoa n : 0 <= n < 2 ^ 63 -> sscanf_d (itoa n) = Some n.
Proof.
  intros Hn. destruct (itoa_head n) as (d & r & Hd & Hr); [lia|].
  assert (Hscan : scan_digits 0 (itoa n) = (n, ""%string)).
  { unfold itoa. rewrite (proj2 (Z.ltb_ge n 0)) by lia. apply scan_utoa. lia. }
  rewrite Hr in *. unfold sscanf_d. rewrite skip_spaces_digit by done.
  assert (Hb : byteZ (digit d) = 48 + d) by (unfold digit; rewrite byteZ_Zbyte; lia).
  rewrite Hb. rewrite (proj2 (Z.eqb_neq (48 + d) 45)) by lia.
  rewrite (proj2 (Z.eqb_neq (48 + d) 43)) by lia.
  rewrite digit_val_digit by done. rewrite Hscan. cbn [fst].
  by rewrite (proj2 (Z.leb_le (- 2 ^ 63) n)), (proj2 (Z.ltb_lt n (2 ^ 63))) by lia.
Qed.
