(* ===== verification/Sha256.v ===== *)
(** * crypto/sha256 and crypto/hmac: FIPS 180-4 and RFC 2104, executable

    Words are 32-bit integers stored in [Z]; messages and digests are byte
    strings. *)
From S2P Require Import Prelude GoLib.

Definition w32 (z : Z) : Z := Z.land z 4294967295.
Definition rotr (n x : Z) : Z := Z.lor (Z.shiftr x n) (w32 (Z.shiftl x (32 - n))).
Definition xor3 (a b c : Z) : Z := Z.lxor a (Z.lxor b c).
Definition Ch (x y z : Z) : Z := Z.lxor (Z.land x y) (Z.land (4294967295 - x) z).
Definition Maj (x y z : Z) : Z := xor3 (Z.land x y) (Z.land x z) (Z.land y z).
Definition bsig0 (x : Z) : Z := xor3 (rotr 2 x) (rotr 13 x) (rotr 22 x).
Definition bsig1 (x : Z) : Z := xor3 (rotr 6 x) (rotr 11 x) (rotr 25 x).
Definition ssig0 (x : Z) : Z := xor3 (rotr 7 x) (rotr 18 x) (Z.shiftr x 3).
Definition ssig1 (x : Z) : Z := xor3 (rotr 17 x) (rotr 19 x) (Z.shiftr x 10).

(** The constants are, as the standard defines them, the first 32 bits of the
    fractional parts of the cube roots of the first 64 primes, and of the square
    roots of the first 8. *)
Fixpoint cbrt_bits (fuel : nat) (n lo bit : Z) : Z :=
  match fuel with
  | O => lo
  | S f =>
      let x := lo + bit in
      cbrt_bits f n (if x * x * x <=? n then x else lo) (bit / 2)
  end.
Definition cbrt (n : Z) : Z := cbrt_bits 40 n 0 (2 ^ 39).
Definition is_prime (n : Z) : bool :=
  forallb (fun d => negb (n mod d =? 0)) (seqZ 2 (n - 2)).
Definition primes : list Z := Eval vm_compute in filter (fun n => is_prime n) (seqZ 2 310).
Definition sha256_k : list Z :=
  Eval vm_compute in map (fun p => w32 (cbrt (p * 2 ^ 96))) (take 64 primes).
Definition sha256_h0 : list Z :=
  Eval vm_compute in map (fun p => w32 (Z.sqrt (p * 2 ^ 64))) (take 8 primes).

(** Bytes to 32-bit words and back, big endian. *)
Fixpoint words_of (l : list Z) : list Z :=
  match l with
  | a :: b :: c :: d :: l' => (a * 16777216 + b * 65536 + c * 256 + d) :: words_of l'
  | _ => []
  end.
Fixpoint bytes_of (s : string) : list Z :=
  match s with EmptyString => [] | String c s' => byteZ c :: bytes_of s' end.
Fixpoint string_of (l : list Z) : string :=
  match l with [] => "" | b :: l' => String (Zbyte b) (string_of l') end.
Definition word_bytes (w : Z) : list Z :=
  [Z.shiftr w 24; Z.land (Z.shiftr w 16) 255; Z.land (Z.shiftr w 8) 255; Z.land w 255].

(** The message followed by 1, zeros, and its length in bits. *)
Definition sha256_pad (l : list Z) : list Z :=
  let n := Z.of_nat (length l) in
  l ++ 128 :: replicate (Z.to_nat ((55 - n) mod 64)) 0
    ++ word_bytes (Z.shiftr (8 * n) 32) ++ word_bytes (w32 (8 * n)).

(** Message schedule: [rev_w] holds the words computed so far, last first. *)
Fixpoint extend (n : nat) (rev_w : list Z) : list Z :=
  match n with
  | O => rev rev_w
  | S n' =>
      let at_ k := nth k rev_w 0 in
      extend n' (w32 (ssig1 (at_ 1%nat) + at_ 6%nat + ssig0 (at_ 14%nat) + at_ 15%nat) :: rev_w)
  end.

Definition sha256_round (st : list Z) (kw : Z * Z) : list Z :=
  match st with
  | [a; b; c; d; e; f; g; h] =>
      let t1 := h + bsig1 e + Ch e f g + kw.1 + kw.2 in
      let t2 := bsig0 a + Maj a b c in
      [w32 (t1 + t2); a; b; c; w32 (d + t1); e; f; g]
  | _ => st
  end.

Definition sha256_block (st : list Z) (ws : list Z) : list Z :=
  let out := fold_left sha256_round (combine sha256_k (extend 48 (rev ws))) st in
  map (fun p => w32 (p.1 + p.2)) (combine st out).

Fixpoint sha256_blocks (fuel : nat) (st : list Z) (ws : list Z) : list Z :=
  match fuel, ws with
  | S f, _ :: _ => sha256_blocks f (sha256_block st (take 16 ws)) (drop 16 ws)
  | _, _ => st
  end.

(** [sha256.Sum256]: 32 bytes. *)
Definition sha256 (s : string) : string :=
  let ws := words_of (sha256_pad (bytes_of s)) in
  string_of (concat (map word_bytes (sha256_blocks (length ws) sha256_h0 ws))).

(** The test vectors of FIPS 180-4. *)
Example sha256_empty :
  hex_encode (sha256 "") = "e3b0c44298fc1c149afbf4c8996fb92427ae41e4649b934ca495991b7852b855".
Proof. vm_compute. reflexivity. Qed.
Example sha256_abc :
  hex_encode (sha256 "abc") = "ba7816bf8f01cfea414140de5dae2223b00361a396177a9cb410ff61f20015ad".
Proof. vm_compute. reflexivity. Qed.
Example sha256_two_blocks :
  hex_encode (sha256 "abcdbcdecdefdefgefghfghighijhijkijkljklmklmnlmnomnopnopq")
  = "248d6a61d20638b8e5c026930c3e6039a33ce45964ff2167f6ecedd419db06c1".
Proof. vm_compute. reflexivity. Qed.

(** ** The digest is always 32 bytes *)
Lemma string_of_length l : String.length (string_of l) = length l.
Proof. induction l as [|b l IH]; [done|]. cbn. by rewrite IH. Qed.

Lemma sha256_round_length st kw : length (sha256_round st kw) = length st.
Proof. by do 9 (destruct st as [|? st]; [done|]). Qed.

Lemma sha256_block_length st ws : length (sha256_block st ws) = length st.
Proof.
  unfold sha256_block. rewrite length_map, length_combine.
  assert (H : forall l s, length (fold_left sha256_round l s) = length s).
  { intros l. induction l as [|x l IH]; intros s; [done|]. cbn. by rewrite IH, sha256_round_length. }
  rewrite H. lia.
Qed.

Lemma sha256_blocks_length fuel st ws : length (sha256_blocks fuel st ws) = length st.
Proof.
  revert st ws; induction fuel as [|f IH]; intros st ws; [done|]. cbn. destruct ws; [done|].
  by rewrite IH, sha256_block_length.
Qed.

Lemma sha256_length s : String.length (sha256 s) = 32%nat.
Proof.
  unfold sha256. rewrite string_of_length.
  assert (H : forall l, length (concat (map word_bytes l)) = (4 * length l)%nat).
  { induction l as [|x l IH]; [done|]. cbn [map concat]. rewrite length_app, IH. cbn. lia. }
  by rewrite H, sha256_blocks_length.
Qed.

(** ** HMAC-SHA256 (block size 64) *)
Definition xor_pad (b : Z) (l : list Z) : list Z := map (fun x => Z.lxor x b) l.
Definition hmac_key (key : string) : list Z :=
  let k := bytes_of (if 64 <? slen key then sha256 key else key) in
  k ++ replicate (64 - length k) 0.
Definition hmac_sha256 (key msg : string) : string :=
  let inner := sha256 (string_of (xor_pad 54 (hmac_key key)) +:+ msg)%string in
  sha256 (string_of (xor_pad 92 (hmac_key key)) +:+ inner)%string.

(** RFC 4231, test case 2. *)
Example hmac_rfc4231 :
  hex_encode (hmac_sha256 "Jefe" "what do ya want for nothing?")
  = "5bdcc146bf60754e6a042426089575c75a003f089d2739839dec58b964ec3843".
Proof. vm_compute. reflexivity. Qed.
