(* ===== verification/Effects.v ===== *)
(** * Effectful Go code as finite interaction programs

    A handler is a [proc]: a tree of external events (SQL statements, NATS
    publications, RPCs, file operations) with the Go control flow between
    them.  [run] executes one against a deterministic state under a schedule
    of outcomes, one per event, so that every place where the environment may
    fail is quantified over; [pool_step] interleaves many of them. *)
From S2P Require Import Prelude.

(** A program that performs events of [E] and returns [R]. *)
Inductive proc (E : Type -> Type) (R : Type) : Type :=
| Ret (r : R)
| Vis (X : Type) (e : E X) (k : X -> proc E R).
Arguments Ret {_ _} _.
Arguments Vis {_ _ _} _ _.

Fixpoint proc_bind {E A B} (f : A -> proc E B) (p : proc E A) : proc E B :=
  match p with
  | Ret r => f r
  | Vis e k => Vis e (fun x => proc_bind f (k x))
  end.
#[export] Instance proc_ret {E} : MRet (proc E) := fun A a => Ret a.
#[export] Instance proc_mbind {E} : MBind (proc E) := @proc_bind E.

Definition trigger {E X} (e : E X) : proc E X := Vis e Ret.

(** What the environment does with one event: it takes effect and is
    acknowledged; it has no effect and the caller sees an error; it takes
    effect but the acknowledgement is lost and the caller sees an error (a
    timeout, a dropped connection); only its first [n] bytes take effect (a
    short write or read). *)
Inductive outcome : Type :=
| Done
| Lost (e : string)
| AckLost (e : string)
| Torn (n : nat) (e : string).
#[export] Instance outcome_eq_dec : EqDecision outcome.
Proof. solve_decision. Defined.

Section run.
Context {E : Type -> Type} {S : Type}.
Context (exec : forall X, E X -> outcome -> S -> X * S).

(** The schedule supplies one outcome per event; an exhausted schedule means
    that nothing fails any more. *)
Fixpoint run {R} (p : proc E R) (sched : list outcome) (s : S)
  : R * S * list outcome :=
  match p with
  | Ret r => (r, s, sched)
  | Vis e k =>
      let '(x, s') := exec _ e (hd Done sched) s in
      run (k x) (tl sched) s'
  end.

Definition run_result {R} (p : proc E R) sched s : R := (run p sched s).1.1.
Definition run_state {R} (p : proc E R) sched s : S := (run p sched s).1.2.

Lemma run_bind {A B} (p : proc E A) (f : A -> proc E B) sched s :
  run (proc_bind f p) sched s =
  let '(a, s', sched') := run p sched s in run (f a) sched' s'.
Proof.
  revert sched s; induction p as [a|X e k IH]; intros sched s; cbn; [done|].
  destruct (exec X e (hd Done sched) s) as [x s']. apply IH.
Qed.

Lemma run_nil {R} (p : proc E R) s : (run p [] s).2 = [].
Proof.
  revert s; induction p as [r|X e k IH]; intros s; cbn; [done|].
  destruct (exec X e Done s) as [x s']. apply IH.
Qed.

(** A preorder on states that every event respects relates the initial and
    the final state of every run. *)
Lemma run_preorder (R : S -> S -> Prop) `{!PreOrder R} {A} (p : proc E A) sched s :
  (forall X (e : E X) o t, R t (exec X e o t).2) -> R s (run_state p sched s).
Proof.
  intros H. unfold run_state. revert sched s; induction p as [a|X e k IH]; intros sched s; cbn.
  - reflexivity.
  - specialize (H X e (hd Done sched) s) as H1.
    destruct (exec X e (hd Done sched) s) as [x s'].
    etransitivity; [exact H1|]. apply IH.
Qed.

Lemma run_invariant (P : S -> Prop) {A} (p : proc E A) sched s :
  (forall X (e : E X) o t, P t -> P (exec X e o t).2) -> P s -> P (run_state p sched s).
Proof.
  intros H. unfold run_state. revert sched s; induction p as [a|X e k IH]; intros sched s HP; cbn.
  - done.
  - specialize (H X e (hd Done sched) s HP) as H1.
    destruct (exec X e (hd Done sched) s) as [x s']. by apply IH.
Qed.

(** ** Reasoning about every schedule at once
    [wp p Q s]: whatever the outcomes, [p] from [s] ends with [Q]. *)
Fixpoint wp {R} (p : proc E R) (Q : R -> S -> Prop) (s : S) : Prop :=
  match p with
  | Ret r => Q r s
  | Vis e k => forall o, wp (k (exec _ e o s).1) Q (exec _ e o s).2
  end.

Lemma wp_run {R} (p : proc E R) Q s sched :
  wp p Q s -> Q (run_result p sched s) (run_state p sched s).
Proof.
  unfold run_result, run_state. revert sched s; induction p as [r|X e k IH]; intros sched s; cbn.
  - done.
  - intros Hw. specialize (Hw (hd Done sched)).
    destruct (exec X e (hd Done sched) s) as [x s']. by apply IH.
Qed.

Lemma wp_bind {A B} (p : proc E A) (f : A -> proc E B) Q s :
  wp p (fun a s' => wp (f a) Q s') s -> wp (proc_bind f p) Q s.
Proof.
  revert s; induction p as [a|X e k IH]; intros s; cbn; [done|].
  intros Hw o. apply IH, Hw.
Qed.

Lemma wp_mono {R} (p : proc E R) (Q Q' : R -> S -> Prop) s :
  (forall r s', Q r s' -> Q' r s') -> wp p Q s -> wp p Q' s.
Proof.
  intros HQ. revert s; induction p as [r|X e k IH]; intros s; cbn; [apply HQ|].
  intros Hw o. apply IH, Hw.
Qed.

Lemma wp_and {R} (p : proc E R) (Q Q' : R -> S -> Prop) s :
  wp p Q s -> wp p Q' s -> wp p (fun r s' => Q r s' /\ Q' r s') s.
Proof.
  revert s; induction p as [r|X e k IH]; intros s; cbn; [done|].
  intros Hw Hw' o. apply IH; [apply Hw|apply Hw'].
Qed.

(** ** Interleaving: any thread performs its next event, with any outcome. *)
Inductive pool_step {R} : list (proc E R) * S -> list (proc E R) * S -> Prop :=
| pool_event ps s i X (e : E X) k o :
    ps !! i = Some (Vis e k) ->
    pool_step (ps, s)
      (<[i := k (exec X e o s).1]> ps, (exec X e o s).2).

Definition pool_steps {R} := rtc (@pool_step R).
End run.

(** ** Runs in which nothing fails *)
Section succeeds.
Context {E : Type -> Type} {S : Type} (exec : forall X, E X -> outcome -> S -> X * S).
Definition succeeds {R} (p : proc E R) (Q : R -> S -> Prop) (s : S) : Prop :=
  Q (run_result exec p [] s) (run_state exec p [] s).

Lemma succeeds_bind {A B} (p : proc E A) (f : A -> proc E B) Q s :
  succeeds p (fun a s' => succeeds (f a) Q s') s -> succeeds (p ≫= f) Q s.
Proof.
  unfold succeeds, run_result, run_state, mbind, proc_mbind. rewrite run_bind.
  pose proof (run_nil exec p s) as Hn. by destruct (run exec p [] s) as [[a s'] sc]; cbn in *; subst sc.
Qed.
Lemma succeeds_vis {X R} (e : E X) (k : X -> proc E R) Q s :
  succeeds (k (exec _ e Done s).1) Q (exec _ e Done s).2 -> succeeds (Vis e k) Q s.
Proof. unfold succeeds, run_result, run_state. cbn. by destruct (exec X e Done s). Qed.
Lemma succeeds_mono {R} (p : proc E R) (Q Q' : R -> S -> Prop) s :
  (forall r s', Q r s' -> Q' r s') -> succeeds p Q s -> succeeds p Q' s.
Proof. intros HQ. apply HQ. Qed.
End succeeds.

(** ** Programs of a component inside a larger one *)
Fixpoint proc_map {E F : Type -> Type} {R} (f : forall X, E X -> F X) (p : proc E R) : proc F R :=
  match p with
  | Ret r => Ret r
  | Vis e k => Vis (f _ e) (fun x => proc_map f (k x))
  end.

Lemma wp_proc_map {E F : Type -> Type} {S T R} (f : forall X, E X -> F X)
    (execE : forall X, E X -> outcome -> S -> X * S) (execF : forall X, F X -> outcome -> T -> X * T)
    (get : T -> S) (put : T -> S -> T) (p : proc E R) Q t :
  (forall X (e : E X) o t, execF _ (f _ e) o t
     = ((execE _ e o (get t)).1, put t (execE _ e o (get t)).2)) ->
  (forall t s, get (put t s) = s) -> (forall t s s', put (put t s) s' = put t s') ->
  (forall t, put t (get t) = t) ->
  wp execE p (fun r s => Q r (put t s)) (get t) -> wp execF (proc_map f p) Q t.
Proof.
  intros He Hgp Hpp Hpg. revert t; induction p as [r|X e k IH]; intros t; cbn.
  - by rewrite Hpg.
  - intros Hw o. rewrite He. cbn. apply IH. rewrite Hgp. eapply wp_mono; [|apply Hw].
    intros r s'. by rewrite Hpp.
Qed.
