(* ===== verification/Startup.v ===== *)
(** * Start-up helpers: shared/config/config.go and shared/db/postgres.go *)
From S2P Require Import Prelude GoLib Effects.

(** [os.LookupEnv] is the argument [lookup]. *)
Definition GetEnv (lookup : string -> option string) (key fallback : string) : string :=
  match lookup key with
  | Some value => if negb (bool_decide (value = "")) then value else fallback
  | None => fallback
  end.

(** ** ConnectPostgres *)
Inductive connE : Type -> Type :=
| OpenPool : connE (result string unit)
| PingPool : connE (result string unit)
| ClosePool : connE unit
| SetLimits (maxOpen maxIdle lifetime : Z) : connE unit
| Sleep (d : Z) : connE unit.

(** Pools open, pings sent, time slept. *)
Record conn_state := mk_conn { pools : Z; tries : Z; slept : Z }.
Definition conn_exec X (e : connE X) (o : outcome) (s : conn_state) : X * conn_state :=
  match e in connE X return X * conn_state with
  | OpenPool =>
      match o with
      | Done => (Ok tt, mk_conn (pools s + 1) (tries s + 1) (slept s))
      | Lost e | AckLost e | Torn _ e => (Err e, mk_conn (pools s) (tries s + 1) (slept s))
      end
  | PingPool =>
      match o with
      | Done => (Ok tt, s)
      | Lost e | AckLost e | Torn _ e => (Err e, s)
      end
  | ClosePool => (tt, mk_conn (pools s - 1) (tries s) (slept s))
  | SetLimits _ _ _ => (tt, s)
  | Sleep d => (tt, mk_conn (pools s) (tries s) (slept s + d))
  end.

Section connect.
Context (maxRetries retryInterval : Z).

(** [%w] of a nil error prints as below. *)
Definition connect_error (err : option string) : string :=
  ("failed to connect to PostgreSQL after " +:+ itoa maxRetries +:+ " attempts: " +:+
   default "%!w(<nil>)" err)%string.

(** The loop, with the attempts that are left. *)
Fixpoint connect_loop (left : nat) (err : option string) : proc connE (result string unit) :=
  match left with
  | O => Ret (Err (connect_error err))
  | S left' =>
      let again err :=
        match left' with
        | O => connect_loop left' (Some err)
        | S _ => Vis (Sleep retryInterval) (fun _ => connect_loop left' (Some err))
        end in
      Vis OpenPool (fun r =>
      match r with
      | Err err => again err
      | Ok _ =>
          Vis PingPool (fun r =>
          match r with
          | Ok _ => Vis (SetLimits 10 5 300000000000) (fun _ => Ret (Ok tt))
          | Err err => Vis ClosePool (fun _ => again err)
          end)
      end)
  end.
Definition ConnectPostgres : proc connE (result string unit) := connect_loop (Z.to_nat maxRetries) None.

(** What a run of [n] allowed attempts may leave behind. *)
Definition connected (left : nat) (s : conn_state) (r : result string unit) (s' : conn_state) : Prop :=
  exists n, (n <= left)%nat /\ tries s' = tries s + Z.of_nat n /\
    slept s' = slept s + retryInterval * Z.of_nat (n - 1) /\
    match r with
    | Ok _ => (1 <= n)%nat /\ pools s' = pools s + 1
    | Err _ => n = left /\ pools s' = pools s
    end.

(** One failed attempt, then the rest. *)
Lemma connected_again left s s1 r s' :
  connected left s1 r s' -> pools s1 = pools s -> tries s1 = tries s + 1 ->
  slept s1 = slept s + (match left with O => 0 | S _ => retryInterval end) ->
  (left <> 0%nat -> forall n, tries s' = tries s1 + Z.of_nat n -> n <> 0%nat) ->
  connected (S left) s r s'.
Proof.
  intros (n & Hn & Ht & Hsl & Hr) Hp Ht1 Hs1 Hpos. exists (S n). split; [lia|]. split; [lia|]. split.
  - destruct left as [|left]; [assert (n = 0)%nat as -> by lia; cbn in *; lia|].
    specialize (Hpos ltac:(lia) n Ht). replace (S n - 1)%nat with (S (n - 1))%nat by lia. lia.
  - destruct r; [split; [lia|]|split; [lia|]]; lia.
Qed.

Lemma connect_loop_tries left err s :
  wp conn_exec (connect_loop left err) (fun _ s' => left <> 0%nat -> tries s < tries s') s.
Proof.
  revert err s; induction left as [|left IH]; intros err s; [by intros []|]. intros o.
  assert (Hagain : forall err s1, tries s < tries s1 ->
    wp conn_exec (match left with
                  | O => connect_loop left (Some err)
                  | S _ => Vis (Sleep retryInterval) (fun _ => connect_loop left (Some err))
                  end) (fun _ s' => S left <> 0%nat -> tries s < tries s') s1).
  { intros err1 s1 Ht. destruct left as [|left]; [by intros _|]. intros o1.
    eapply wp_mono; [|apply IH]. intros r s' Hlt _. specialize (Hlt ltac:(lia)). cbn in Hlt. lia. }
  destruct o; cbn [conn_exec fst snd]; try (apply Hagain; cbn; lia).
  intros o2. destruct o2; cbn [conn_exec fst snd]; try (intros o3; apply Hagain; cbn; lia).
  intros o3 _. cbn. lia.
Qed.

Lemma wp_connect left err s :
  wp conn_exec (connect_loop left err) (fun r s' => connected left s r s') s.
Proof.
  revert err s; induction left as [|left IH]; intros err s.
  { exists 0%nat. cbn. split_and!; lia. }
  intros o.
  assert (Hagain : forall err s1, pools s1 = pools s -> tries s1 = tries s + 1 -> slept s1 = slept s ->
    wp conn_exec (match left with
                  | O => connect_loop left (Some err)
                  | S _ => Vis (Sleep retryInterval) (fun _ => connect_loop left (Some err))
                  end) (fun r s' => connected (S left) s r s') s1).
  { intros err1 s1 Hp Ht Hs. destruct left as [|left].
    - exists 1%nat. cbn. split_and!; lia.
    - intros o1. cbn [conn_exec fst snd]. set (s2 := mk_conn _ _ _).
      eapply wp_mono; [|exact (wp_and _ _ _ _ _ (IH (Some err1) s2) (connect_loop_tries (S left) (Some err1) s2))].
      intros r s' [Hc Hlt]. eapply connected_again; [exact Hc|done|done|cbn; lia|].
      intros _ n Hn ->. specialize (Hlt ltac:(lia)). lia. }
  destruct o; cbn [conn_exec fst snd]; try (apply Hagain; cbn; lia).
  intros o2. destruct o2; cbn [conn_exec fst snd]; try (intros o3; apply Hagain; cbn; lia).
  intros o3. exists 1%nat. cbn. split_and!; lia.
Qed.

(** ConnectPostgres always returns.  After at most maxRetries attempts, one
    constant interval apart, it has either connected, and exactly one new pool is
    open, or it reports the error of the last attempt after exactly maxRetries
    failures, none for a number that is not positive, and every pool it opened
    is closed. *)
Theorem connect_bounded sched s :
  connected (Z.to_nat maxRetries) s
    (run_result conn_exec ConnectPostgres sched s) (run_state conn_exec ConnectPostgres sched s).
Proof. apply wp_run, wp_connect. Qed.
End connect.

(** The environment of a process is fixed: an unset and an empty variable both
    give the default. *)
Lemma GetEnv_default lookup key fallback :
  GetEnv lookup key fallback = fallback \/ lookup key = Some (GetEnv lookup key fallback).
Proof. unfold GetEnv. destruct (lookup key) as [v|]; [|by left]. case_bool_decide; [by left|by right]. Qed.
