(* ===== verification/Concurrent.v ===== *)
(** * Concurrent handlers: rely-guarantee reasoning

    Any number of handlers run at once over one shared state; new ones are
    started at any moment, any of them may crash between two events, and the
    environment acts on the state too.  [safe] is the proof obligation of one
    handler: before each of its events the others may have moved the state
    along the rely [R] within the invariant [I]; its own events must keep both.
    [system_safe] composes the obligations: the invariant holds in every
    reachable state, and so does the postcondition of every handler that has
    finished.  [safe_proc_map] carries an obligation from a component to a
    larger system. *)
From S2P Require Import Prelude Effects.

Section rely.
Context {E : Type -> Type} {S : Type}.
Context (exec : forall X, E X -> outcome -> S -> X * S).
Context (I : S -> Prop) (R : S -> S -> Prop) `{!PreOrder R}.

Fixpoint safe {A} (p : proc E A) (Q : A -> S -> Prop) (s : S) : Prop :=
  match p with
  | Ret a => forall s', R s s' -> I s' -> Q a s'
  | Vis e k => forall o s', R s s' -> I s' ->
      let '(x, s'') := exec _ e o s' in I s'' /\ R s' s'' /\ safe (k x) Q s''
  end.

Lemma safe_mono {A} (p : proc E A) Q s s' : R s s' -> safe p Q s -> safe p Q s'.
Proof.
  destruct p as [a|X e k]; cbn.
  - intros HR HQ t Ht. apply HQ. by etransitivity.
  - intros HR Hp o t Ht. apply Hp. by etransitivity.
Qed.

Lemma safe_weaken {A} (p : proc E A) (Q Q' : A -> S -> Prop) s :
  (forall a s', Q a s' -> Q' a s') -> safe p Q s -> safe p Q' s.
Proof.
  intros HQ. revert s; induction p as [a|X e k IH]; intros s; cbn; [eauto|].
  intros Hp o t Ht HI. specialize (Hp o t Ht HI). destruct (exec X e o t) as [x t']. naive_solver.
Qed.

(** The end of a handler lies on the rely, within the invariant. *)
Lemma safe_frame {A} (p : proc E A) Q s :
  safe p Q s -> safe p (fun a s' => Q a s' /\ R s s' /\ I s') s.
Proof.
  enough (Hgen : forall s0, R s0 s -> safe p Q s -> safe p (fun a s' => Q a s' /\ R s0 s' /\ I s') s).
  { apply Hgen. reflexivity. }
  revert s; induction p as [a|X e k IH]; intros s s0 H0; cbn.
  - intros HQ s' HR HI. split_and!; [by apply HQ|by etransitivity|done].
  - intros Hp o t Ht HI. specialize (Hp o t Ht HI). destruct (exec X e o t) as [x t'].
    destruct Hp as (HI' & HR & Hp). split_and!; [done..|]. apply IH; [|done].
    etransitivity; [exact H0|]. by etransitivity.
Qed.

Lemma safe_bind {A B} (p : proc E A) (f : A -> proc E B) Q s :
  I s -> safe p (fun a s' => safe (f a) Q s') s -> safe (proc_bind f p) Q s.
Proof.
  revert s; induction p as [a|X e k IH]; intros s HI; cbn.
  - intros Hp. by apply Hp.
  - intros Hp o t Ht HI'. specialize (Hp o t Ht HI'). destruct (exec X e o t) as [x t']. naive_solver.
Qed.

Lemma safe_ret {A} (a : A) (Q : A -> S -> Prop) s :
  (forall s', R s s' -> I s' -> Q a s') -> safe (Ret a) Q s.
Proof. done. Qed.

(** An event that keeps invariant and guarantee in every state. *)
Definition neutral {X} (e : E X) : Prop :=
  forall o s, I s -> I (exec _ e o s).2 /\ R s (exec _ e o s).2.

Lemma safe_neutral {A X} (e : E X) (k : X -> proc E A) Q s :
  neutral e ->
  (forall o s', R s s' -> I s' -> let '(x, s'') := exec _ e o s' in
     R s s'' -> I s'' -> safe (k x) Q s'') ->
  safe (Vis e k) Q s.
Proof.
  intros Hn Hk o s' HR HI. specialize (Hn o s' HI). specialize (Hk o s' HR HI).
  destruct (exec X e o s') as [x s'']. cbn in Hn. destruct Hn as [HI2 HR2]. split_and!; [done..|].
  apply Hk; [|done]. by etransitivity.
Qed.

(** A handler all of whose events are neutral. *)
Fixpoint all_neutral {A} (p : proc E A) : Prop :=
  match p with
  | Ret _ => True
  | Vis e k => neutral e /\ forall x, all_neutral (k x)
  end.
Lemma all_neutral_bind {A B} (p : proc E A) (f : A -> proc E B) :
  all_neutral p -> (forall a, all_neutral (f a)) -> all_neutral (proc_bind f p).
Proof. induction p as [a|X e k IH]; cbn; [eauto|]. intros [Hn Hk] Hf. split; [done|]. intros x. by apply IH. Qed.

Lemma safe_all_neutral {A} (p : proc E A) s : all_neutral p -> safe p (fun _ _ => True) s.
Proof.
  revert s; induction p as [a|X e k IH]; intros s; cbn; [done|].
  intros [Hn Hk] o s' HR HI. specialize (Hn o s' HI). destruct (exec X e o s') as [x s''].
  destruct Hn. split_and!; [done..|]. by apply IH.
Qed.

(** ** The system *)
Context {A : Type} (spawn : S -> proc E A -> Prop) (env : S -> S -> Prop).

Inductive system_step : list (proc E A) * S -> list (proc E A) * S -> Prop :=
| system_event c c' : pool_step exec c c' -> system_step c c'
| system_spawn ps s p : spawn s p -> system_step (ps, s) (p :: ps, s)
| system_crash ps s i : system_step (ps, s) (delete i ps, s)
| system_env ps s s' : env s s' -> system_step (ps, s) (ps, s').

(** Every thread keeps its obligation; [Q] is what a thread that has finished
    promises of its result, from then on. *)
Context (Q : A -> S -> Prop).
Definition pool_safe (c : list (proc E A) * S) : Prop :=
  I c.2 /\ Forall (fun p => safe p Q c.2) c.1.

Lemma pool_finished a ps s : pool_safe (ps, s) -> Ret a ∈ ps -> Q a s.
Proof.
  intros [HI Hps] Ha. rewrite Forall_forall in Hps. specialize (Hps _ Ha). apply Hps; [reflexivity|done].
Qed.

Lemma pool_safe_moves (ps : list (proc E A)) s s' : I s' -> R s s' -> pool_safe (ps, s) -> pool_safe (ps, s').
Proof.
  intros HI HR [_ Hps]. split; [done|]. eapply Forall_impl; [exact Hps|]. intros p. by apply safe_mono.
Qed.

Lemma pool_safe_step c c' :
  (forall s p, I s -> spawn s p -> safe p Q s) ->
  (forall s s', I s -> env s s' -> I s' /\ R s s') ->
  system_step c c' -> pool_safe c -> pool_safe c' /\ R c.2 c'.2.
Proof.
  intros Hspawn Henv Hstep Hc. destruct Hstep as [c c' Hev|ps s p Hp|ps s i|ps s s' Hs].
  - destruct Hev as [ps s i X e k o Hi]. pose proof Hc as [HI Hps]. cbn [fst snd] in *.
    pose proof (Forall_lookup_1 _ _ _ _ Hps Hi) as Hp. cbn in Hp.
    specialize (Hp o s ltac:(reflexivity) HI). destruct (exec X e o s) as [x s']. cbn [fst snd].
    destruct Hp as (HI' & HR & Hk). split; [|done].
    destruct (pool_safe_moves ps s s' HI' HR Hc) as [_ Hps']. split; [done|]. by apply Forall_insert.
  - destruct Hc as [HI Hps]. split; [split; [done|]|reflexivity]. constructor; auto.
  - destruct Hc as [HI Hps]. split; [split; [done|]|reflexivity]. by apply Forall_delete.
  - destruct (Henv s s' (proj1 Hc) Hs) as [HI' HR]. split; [by eapply pool_safe_moves|done].
Qed.

Theorem system_safe c c' :
  (forall s p, I s -> spawn s p -> safe p Q s) ->
  (forall s s', I s -> env s s' -> I s' /\ R s s') ->
  pool_safe c -> rtc system_step c c' -> pool_safe c' /\ R c.2 c'.2.
Proof.
  intros Hspawn Henv Hc Hr. revert Hc. induction Hr as [c|c1 c2 c3 Hs _ IH]; intros Hc.
  - split; [done|reflexivity].
  - destruct (pool_safe_step c1 c2 Hspawn Henv Hs Hc) as [Hc2 HR].
    destruct (IH Hc2) as [Hc3 HR2]. split; [done|]. by etransitivity.
Qed.

(** ** Sequential runs inside the system
    [run_n] performs the next [n] events of a handler. *)
Fixpoint run_n (n : nat) (p : proc E A) (sched : list outcome) (s : S) : proc E A * S :=
  match n, p with
  | Datatypes.S n', Vis e k =>
      let '(x, s') := exec _ e (hd Done sched) s in run_n n' (k x) (tl sched) s'
  | _, _ => (p, s)
  end.

Lemma run_n_pool n ps i p sched s :
  ps !! i = Some p ->
  rtc (pool_step exec) (ps, s) (<[i := (run_n n p sched s).1]> ps, (run_n n p sched s).2).
Proof.
  revert ps p sched s; induction n as [|n IH]; intros ps p sched s Hi; cbn.
  - by rewrite list_insert_id.
  - destruct p as [a|X e k]; [by rewrite list_insert_id|].
    pose proof (pool_event exec ps s i X e k (hd Done sched) Hi) as Hstep.
    destruct (exec X e (hd Done sched) s) as [x s']. cbn in Hstep.
    eapply rtc_l; [exact Hstep|].
    replace (<[i := (run_n n (k x) (tl sched) s').1]> ps)
      with (<[i := (run_n n (k x) (tl sched) s').1]> (<[i := k x]> ps)) by apply list_insert_insert_eq.
    apply IH. apply list_lookup_insert_eq. by eapply lookup_lt_Some.
Qed.
Lemma run_n_steps n ps i p sched s :
  ps !! i = Some p ->
  rtc system_step (ps, s) (<[i := (run_n n p sched s).1]> ps, (run_n n p sched s).2).
Proof.
  intros Hi. eapply rtc_subrel; [|by apply run_n_pool]. intros c c' Hs. by constructor.
Qed.

Fixpoint run_all_steps (p : proc E A) (sched : list outcome) (s : S) : nat :=
  match p with
  | Ret _ => 0
  | Vis e k => let '(x, s') := exec _ e (hd Done sched) s in Datatypes.S (run_all_steps (k x) (tl sched) s')
  end.
Lemma run_n_all p sched s :
  run_n (run_all_steps p sched s) p sched s = (Ret (run_result exec p sched s), run_state exec p sched s).
Proof.
  unfold run_result, run_state. revert sched s; induction p as [a|X e k IH]; intros sched s; cbn; [done|].
  destruct (exec X e (hd Done sched) s) as [x s'] eqn:Hx. cbn. rewrite Hx. apply IH.
Qed.

(** The rest of a thread, in one go. *)
Lemma run_pool (ps : list (proc E A)) i (p : proc E A) sched s :
  ps !! i = Some p ->
  rtc (pool_step exec) (ps, s) (<[i := Ret (run_result exec p sched s)]> ps, run_state exec p sched s).
Proof.
  intros Hi. pose proof (run_n_pool (run_all_steps p sched s) ps i p sched s Hi) as Hr. by rewrite run_n_all in Hr.
Qed.

Lemma run_system (ps : list (proc E A)) i (p : proc E A) sched s :
  ps !! i = Some p ->
  rtc system_step (ps, s) (<[i := Ret (run_result exec p sched s)]> ps, run_state exec p sched s).
Proof. intros Hi. eapply rtc_subrel; [|by apply run_pool]. intros c c' Hs. by constructor. Qed.

Lemma finish_thread ps i p sched s :
  ps !! i = Some p -> rtc system_step (ps, s) (delete i ps, run_state exec p sched s).
Proof.
  intros Hi. eapply rtc_r; [by apply run_system|].
  rewrite <-(list_delete_updated ps i (Ret (run_result exec p sched s))). apply system_crash.
Qed.

(** A handler that starts may run to its end before anything else happens. *)
Lemma run_to_end ps s p sched :
  spawn s p -> rtc system_step (ps, s) (ps, run_state exec p sched s).
Proof.
  intros Hp. eapply rtc_l; [by apply system_spawn|]. by apply (finish_thread (p :: ps) 0).
Qed.
End rely.

#[global] Arguments safe : simpl never.

(** ** Obligations of a component inside a larger system *)
Section lift.
Context {E F : Type -> Type} {S T : Type} (f : forall X, E X -> F X).
Context (execE : forall X, E X -> outcome -> S -> X * S) (execF : forall X, F X -> outcome -> T -> X * T).
Context (get : T -> S) (put : T -> S -> T).
Context (Hexec : forall X (e : E X) o t, execF _ (f _ e) o t
                   = ((execE _ e o (get t)).1, put t (execE _ e o (get t)).2)).
Context (Hget : forall t s, get (put t s) = s).
Context (I : S -> Prop) (R : S -> S -> Prop).
Definition on_part : T -> Prop := fun t => I (get t).
Definition part_grows : T -> T -> Prop := fun t t' => R (get t) (get t').

Lemma safe_proc_map {A} (p : proc E A) Q t :
  safe execE I R p Q (get t) -> safe execF on_part part_grows (proc_map f p) (fun a t' => Q a (get t')) t.
Proof.
  revert t; induction p as [a|X e k IH]; intros t Hp; cbn [proc_map].
  - intros t' HR HI. by apply Hp.
  - intros o t' HR HI. specialize (Hp o (get t') HR HI). rewrite Hexec.
    destruct (execE X e o (get t')) as [x s']. cbn [fst snd]. destruct Hp as (HI' & HR' & Hk).
    unfold on_part, part_grows. rewrite !Hget. split_and!; [done..|]. apply IH. by rewrite Hget.
Qed.

Lemma neutral_map {X} (e : E X) : neutral execE I R e -> neutral execF on_part part_grows (f _ e).
Proof. intros He o t Ht. rewrite Hexec. cbn. unfold on_part, part_grows. rewrite Hget. by apply He. Qed.

Lemma all_neutral_map {A} (p : proc E A) :
  all_neutral execE I R p -> all_neutral execF on_part part_grows (proc_map f p).
Proof. induction p as [a|X e k IH]; [done|]. intros [He Hk]. split; [by apply neutral_map|]. intros x. by apply IH. Qed.
End lift.
#[global] Instance part_grows_preorder {S T} (get : T -> S) (R : S -> S -> Prop) : PreOrder R -> PreOrder (part_grows get R).
Proof. intros HR. split; [intros t; by unfold part_grows|intros t1 t2 t3; apply HR]. Qed.
