(* ===== verification/WorkerPool.v ===== *)
(** * Worker pools: goroutines that serve one channel

    The engine and the load tester start a fixed number of goroutines, each a
    loop [for x := range ch] around a handler.  A step hands the head of the
    channel to a goroutine that waits for it, performs one event of a handler
    that runs, or ends a handler and sends its goroutine back to the channel.
    Handlers of different goroutines interleave event by event.  Every run ends
    with each item served once; one goroutine is a loop; and goroutines that
    share their state with others keep what their items promise. *)
From stdpp Require Import relations.
From S2P Require Import Prelude Effects Concurrent.

Section pool.
Context {E : Type -> Type} {S A R : Type}.
Context (exec : forall X, E X -> outcome -> S -> X * S).
Context (serve : A -> proc E R).

(** A goroutine waits ([None]) or serves an item. *)
Abbreviation worker := (option (A * proc E R)).
Record pool := mk_pool {
  queue : list A;
  workers : list worker;
  served : list (A * R);
  shared : S;
}.
Definition start (n : nat) (jobs : list A) (s : S) : pool := mk_pool jobs (replicate n None) [] s.

Inductive step : pool -> pool -> Prop :=
| take_item a q ws d s i :
    ws !! i = Some None -> step (mk_pool (a :: q) ws d s) (mk_pool q (<[i := Some (a, serve a)]> ws) d s)
| do_event q ws d s i a X (e : E X) k o :
    ws !! i = Some (Some (a, Vis e k)) ->
    step (mk_pool q ws d s)
      (mk_pool q (<[i := Some (a, k (exec X e o s).1)]> ws) d (exec X e o s).2)
| end_item q ws d s i a r :
    ws !! i = Some (Some (a, Ret r)) ->
    step (mk_pool q ws d s) (mk_pool q (<[i := None]> ws) (d ++ [(a, r)]) s).

(** ** Every item is somewhere, once *)
Definition in_hand (ws : list worker) : list A := omap (fmap fst) ws.
Definition items (c : pool) : list A := queue c ++ in_hand (workers c) ++ map fst (served c).

Lemma in_hand_split ws i w :
  ws !! i = Some w -> exists l1 l2, in_hand ws = l1 ++ option_list (fst <$> w) ++ l2 /\
    forall w', in_hand (<[i := w']> ws) = l1 ++ option_list (fst <$> w') ++ l2.
Proof.
  intros Hi. exists (in_hand (take i ws)), (in_hand (drop (Datatypes.S i) ws)). unfold in_hand. split.
  - transitivity (omap (fmap fst) (take i ws ++ w :: drop (Datatypes.S i) ws)); [by rewrite take_drop_middle|].
    rewrite omap_app. f_equal. cbn. by destruct w.
  - intros w'. rewrite insert_take_drop by (by eapply lookup_lt_Some). rewrite omap_app. f_equal. cbn. by destruct w'.
Qed.

Lemma step_items c c' : step c c' -> items c ≡ₚ items c'.
Proof.
  intros Hs. destruct Hs as [a q ws d s i Hi|q ws d s i a X e k o Hi|q ws d s i a r Hi]; unfold items; cbn [queue workers served];
    destruct (in_hand_split _ _ _ Hi) as (l1 & l2 & Heq & Hins); rewrite Heq, Hins; cbn [fmap option_fmap option_map option_list fst app].
  - solve_Permutation.
  - done.
  - rewrite map_app. cbn. solve_Permutation.
Qed.

Lemma steps_items c c' : rtc step c c' -> items c ≡ₚ items c'.
Proof. induction 1 as [|c c' c'' Hs _ IH]; [done|]. by rewrite (step_items _ _ Hs). Qed.

Lemma in_hand_idle n : in_hand (replicate n None) = [].
Proof. by induction n. Qed.

Lemma items_start n jobs s : items (start n jobs s) = jobs.
Proof. unfold items. cbn. by rewrite in_hand_idle, !app_nil_r. Qed.

Lemma step_workers c c' : step c c' -> length (workers c') = length (workers c).
Proof. destruct 1; cbn; by rewrite length_insert. Qed.
Lemma steps_workers c c' : rtc step c c' -> length (workers c') = length (workers c).
Proof. induction 1 as [|c c' c'' Hs _ IH]; [done|]. by rewrite IH, (step_workers _ _ Hs). Qed.

(** ** The pool stops
    A program with more events is above its continuations, a goroutine that
    serves is above one that waits; one channel item is above everything the
    goroutines can do without taking another. *)
Definition later (w w' : worker) : Prop :=
  match w with
  | None => False
  | Some (a, Ret _) => w' = None
  | Some (a, Vis _ k) => exists x, w' = Some (a, k x)
  end.

Lemma later_sn w : sn later w.
Proof.
  assert (Hn : sn later None) by by constructor.
  destruct w as [[a p]|]; [|exact Hn]. induction p as [r|X e k IH]; constructor; intros w' Hw.
  - by rewrite Hw.
  - destruct Hw as [x ->]. apply IH.
Qed.

(** One goroutine of many moves on. *)
Definition one_later (ws ws' : list worker) : Prop :=
  exists i w w', ws !! i = Some w /\ later w w' /\ ws' = <[i := w']> ws.

Lemma one_later_sn ws : sn one_later ws.
Proof.
  induction ws as [|w ws IH].
  { constructor. intros ws' (i & w & w' & Hi & _). discriminate Hi. }
  revert ws IH. induction (later_sn w) as [w _ IHw]. intros ws Hws. pose proof Hws as Hws'.
  induction Hws' as [ws _ IHws]. constructor. intros ws' ([|i] & v & v' & Hi & Hl & ->); cbn in *.
  - injection Hi as <-. by apply IHw.
  - assert (Hone : one_later ws (<[i := v']> ws)) by (by exists i, v, v').
    apply IHws; [exact Hone|]. eapply sn_step; [exact Hws|exact Hone].
Qed.

Lemma pool_sn c : sn step c.
Proof.
  destruct c as [q ws d s]. revert ws d s; induction q as [|a q IHq]; intros ws;
    induction (one_later_sn ws) as [ws _ IHws]; intros d s; constructor; intros c' Hs; inversion Hs; subst;
    try (apply IHws; eexists _, _, _; split_and!; [eassumption|cbn; by try eexists|reflexivity]).
  apply IHq.
Qed.

(** ** Where it stops *)
Definition idle (c : pool) : Prop := queue c = [] /\ Forall (fun w => w = None) (workers c).

Lemma pool_progress c : workers c <> [] -> idle c \/ exists c', step c c'.
Proof.
  destruct c as [q ws d s]. unfold idle. cbn [queue workers]. intros Hws.
  destruct (decide (Forall (fun w => w = None) ws)) as [Hn|Hn].
  - destruct q as [|a q]; [by left|]. right. destruct ws as [|w ws]; [done|]. apply Forall_cons in Hn as [-> _].
    eexists. by apply (take_item a q _ d s 0).
  - right. apply not_Forall_Exists, Exists_exists in Hn as (w & (i & Hi)%list_elem_of_lookup & Hw); [|apply _].
    destruct w as [[a [r|X e k]]|]; [eexists; by eapply end_item|eexists; by eapply (do_event _ _ _ _ _ _ _ _ _ Done)|by destruct Hw].
Qed.

(** Every run ends, and a run that has ended with at least one goroutine has
    served every item once. *)
Lemma pool_ends n jobs s c :
  rtc step (start n jobs s) c -> nf step c -> n <> 0%nat -> queue c = [] /\ map fst (served c) ≡ₚ jobs.
Proof.
  intros Hs Hnf Hn. pose proof (steps_items _ _ Hs) as Hitems. pose proof (steps_workers _ _ Hs) as Hlen.
  cbn in Hlen. rewrite length_replicate in Hlen.
  destruct (pool_progress c) as [[Hq Hidle]|[c' Hc]]; [by destruct (workers c)| |by destruct Hnf; exists c'].
  split; [exact Hq|]. rewrite items_start in Hitems. unfold items in Hitems. rewrite Hq in Hitems. cbn in Hitems.
  assert (Hnone : in_hand (workers c) = []).
  { revert Hidle. generalize (workers c). intros ws Hall. induction Hall as [|w ws -> _ IH]; [done|exact IH]. }
  rewrite Hnone in Hitems. by symmetry.
Qed.

(** Some run ends. *)
Lemma pool_finishes n jobs s : n <> 0%nat -> exists c, rtc step (start n jobs s) c /\ nf step c.
Proof.
  intros Hn. assert (Hw : workers (start n jobs s) <> []) by (by destruct n). revert Hw.
  induction (pool_sn (start n jobs s)) as [c _ IH]. intros Hw. destruct (pool_progress c Hw) as [[Hq Hidle]|[c' Hc]].
  - exists c. split; [reflexivity|]. intros [c' Hc]. destruct Hc; cbn in *; try done;
      rewrite Forall_lookup in Hidle; eapply Hidle in H; done.
  - destruct (IH c' Hc) as (c2 & Hr & Hnf).
    + pose proof (step_workers _ _ Hc) as Hl. by destruct (workers c'), (workers c).
    + exists c2. split; [by eapply rtc_l|exact Hnf].
Qed.

(** No goroutines, no work. *)
Lemma pool_empty jobs s c : rtc step (start 0 jobs s) c -> c = start 0 jobs s.
Proof. intros Hr. inversion Hr as [|? c' ? Hs]; subst; [done|]. inversion Hs; subst; done. Qed.

(** ** One item after the other
    A goroutine may serve the head of the channel to its end before anything else
    happens. *)
Lemma run_worker q ws d s i a p sched :
  ws !! i = Some (Some (a, p)) ->
  rtc step (mk_pool q ws d s)
    (mk_pool q (<[i := Some (a, Ret (run_result exec p sched s))]> ws) d (run_state exec p sched s)).
Proof.
  unfold run_result, run_state. revert ws sched s; induction p as [r|X e k IH]; intros ws sched s Hi; cbn.
  - by rewrite list_insert_id.
  - pose proof (do_event q ws d s i a X e k (hd Done sched) Hi) as Hs.
    destruct (exec X e (hd Done sched) s) as [x s']. cbn [fst snd] in Hs. eapply rtc_l; [exact Hs|].
    specialize (IH x (<[i := Some (a, k x)]> ws) (tl sched) s'). rewrite list_insert_insert_eq in IH.
    apply IH, list_lookup_insert_eq. by eapply lookup_lt_Some.
Qed.

Lemma serve_head a q ws d s i sched :
  ws !! i = Some None ->
  rtc step (mk_pool (a :: q) ws d s)
    (mk_pool q ws (d ++ [(a, run_result exec (serve a) sched s)]) (run_state exec (serve a) sched s)).
Proof.
  intros Hi. assert (Hlt : (i < length ws)%nat) by by eapply lookup_lt_Some.
  eapply rtc_l; [by apply (take_item a q ws d s i)|].
  etransitivity; [apply (run_worker q _ d s i a (serve a) sched); by apply list_lookup_insert_eq|].
  apply rtc_once. rewrite list_insert_insert_eq.
  set (ws' := <[i := Some (a, Ret _)]> ws).
  assert (Hws : <[i := None]> ws' = ws) by (unfold ws'; by rewrite list_insert_insert_eq, list_insert_id).
  pose proof (end_item q ws' d (run_state exec (serve a) sched s) i a (run_result exec (serve a) sched s)) as He.
  rewrite Hws in He. apply He. by apply list_lookup_insert_eq.
Qed.

(** ** One goroutine is a loop
    [loop q]: the items in order, and what each came to.  With one goroutine the
    pool does nothing else. *)
Fixpoint loop (q : list A) : proc E (list R) :=
  match q with
  | [] => Ret []
  | a :: q' => r ← serve a; rs ← loop q'; Ret (r :: rs)
  end.
(** What a pool of one goroutine has still to run. *)
Definition remaining (c : pool) : proc E (list R) :=
  match workers c with
  | [Some (a, p)] => r ← p; rs ← loop (queue c); Ret (r :: rs)
  | _ => loop (queue c)
  end.
Definition order (c : pool) : list A := map fst (served c) ++ in_hand (workers c) ++ queue c.

Lemma one_worker_step c c' sched' :
  step c c' -> length (workers c) = 1%nat -> order c = order c' /\
  exists sched, run_state exec (remaining c) sched (shared c) = run_state exec (remaining c') sched' (shared c') /\
    map snd (served c) ++ run_result exec (remaining c) sched (shared c)
    = map snd (served c') ++ run_result exec (remaining c') sched' (shared c').
Proof.
  intros Hs Hlen. destruct Hs as [a q ws d s i Hi|q ws d s i a X e k o Hi|q ws d s i a r Hi]; cbn [workers] in Hlen;
    destruct ws as [|w [|]]; try done; destruct i; try done; cbn in Hi; injection Hi as ->;
    unfold order, remaining, run_state, run_result; cbn [workers queue served shared list_insert insert list_insert in_hand omap];
    (split; [cbn; rewrite ?map_app, <-?app_assoc; done|]).
  - by exists sched'.
  - exists (o :: sched'). cbn. by destruct (exec X e o s).
  - exists sched'. cbn. unfold mbind, proc_mbind. rewrite run_bind. destruct (run exec (loop q) sched' s) as [[rs s'] sc].
    cbn. by rewrite map_app, <-app_assoc.
Qed.

Lemma one_worker_runs jobs s c :
  rtc step (start 1 jobs s) c -> nf step c ->
  map fst (served c) = jobs /\
  exists sched, run_state exec (loop jobs) sched s = shared c /\ run_result exec (loop jobs) sched s = map snd (served c).
Proof.
  intros Hr Hnf.
  enough (Hgen : forall c0, rtc step c0 c -> length (workers c0) = 1%nat -> order c0 = map fst (served c) /\
    exists sched, run_state exec (remaining c0) sched (shared c0) = shared c /\
      map snd (served c0) ++ run_result exec (remaining c0) sched (shared c0) = map snd (served c)).
  { destruct (Hgen _ Hr eq_refl) as (Ho & sched & Hs & Hres). split; [done|by exists sched]. }
  clear Hr. intros c0 Hr. induction Hr as [c|c1 c2 c Hs _ IH]; intros Hlen.
  - destruct (pool_progress c) as [[Hq Hidle]|[c' Hc]]; [by destruct (workers c)| |by destruct Hnf; exists c'].
    unfold order, remaining. rewrite Hq. destruct (workers c) as [|w [|]]; try done.
    apply Forall_cons in Hidle as [-> _]. cbn. rewrite ?app_nil_r. split; [done|]. exists []. cbn. rewrite ?app_nil_r. by split.
  - destruct (IH Hnf) as (Ho & sched' & Hs' & Hres'); [by rewrite (step_workers _ _ Hs)|].
    destruct (one_worker_step c1 c2 sched' Hs Hlen) as (Ho' & sched & Hs1 & Hres1).
    split; [congruence|]. exists sched. split; congruence.
Qed.

(** ** Goroutines that share their state with others
    [I] and [G] are the invariant and the rely of Concurrent.v; [Q] is what one
    served item promises. *)
Context (I : S -> Prop) (G : S -> S -> Prop) `{!PreOrder G} (Q : A -> R -> S -> Prop).
Definition with_shared (s : S) (c : pool) : pool := mk_pool (queue c) (workers c) (served c) s.

Definition worker_sound (s : S) (w : worker) : Prop :=
  match w with Some (a, p) => safe exec I G p (Q a) s | None => True end.
Definition served_sound (s : S) (ar : A * R) : Prop := safe exec I G (Ret ar.2) (Q ar.1) s.
Record pool_sound (c : pool) : Prop := {
  sound_shared : I (shared c);
  sound_workers : Forall (worker_sound (shared c)) (workers c);
  sound_served : Forall (served_sound (shared c)) (served c);
}.

Lemma start_sound n jobs s : I s -> pool_sound (start n jobs s).
Proof. intros HI. split; [done| |constructor]. by apply Forall_replicate. Qed.

(** The others move. *)
Lemma pool_sound_moves s c : I s -> G (shared c) s -> pool_sound c -> pool_sound (with_shared s c).
Proof.
  intros HI HG [_ Hw Hd]. split; [done|..]; cbn.
  - eapply Forall_impl; [exact Hw|]. intros [[a p]|]; [by apply safe_mono|done].
  - eapply Forall_impl; [exact Hd|]. intros ar. by apply safe_mono.
Qed.

Lemma pool_sound_step c c' :
  (forall a s, a ∈ items c -> I s -> safe exec I G (serve a) (Q a) s) ->
  step c c' -> pool_sound c -> pool_sound c' /\ G (shared c) (shared c').
Proof.
  intros Hserve Hs Hc. pose proof Hc as [HI Hw Hd].
  destruct Hs as [a q ws d s i Hi|q ws d s i a X e k o Hi|q ws d s i a r Hi]; cbn [shared workers served] in *;
    pose proof (Forall_lookup_1 _ _ _ _ Hw Hi) as Hp; cbn [worker_sound] in Hp.
  - split; [|reflexivity]. split; [done| |done]. apply Forall_insert; [done|]. apply Hserve; [left|done].
  - specialize (Hp o s ltac:(reflexivity) HI). destruct (exec X e o s) as [x s']. cbn [fst snd].
    destruct Hp as (HI' & HG & Hk). split; [|done].
    destruct (pool_sound_moves s' (mk_pool q ws d s) HI' HG Hc) as [_ Hw' Hd']. split; [done| |done]. by apply Forall_insert.
  - split; [|reflexivity]. split; [done|by apply Forall_insert|]. apply Forall_app. split; [done|]. by constructor.
Qed.

Lemma pool_served c a r : pool_sound c -> (a, r) ∈ served c -> Q a r (shared c).
Proof.
  intros [HI _ Hd] Hin. rewrite Forall_forall in Hd. apply (Hd _ Hin); [reflexivity|done].
Qed.
End pool.
