(* ===== verification/Sql.v ===== *)
(** * What the services use of database/sql and of SQL

    Errors of the driver, the column type VARCHAR(n), and the [call] that
    every Go fragment [x, err := stmt; if err != nil { return ... }] becomes. *)
From S2P Require Import Prelude GoLib Effects.

Inductive sqlerr : Type :=
| ErrNoRows
| SqlError (msg : string).
#[export] Instance sqlerr_eq_dec : EqDecision sqlerr.
Proof. solve_decision. Defined.

(** [err.Error()] *)
Definition sql_msg (e : sqlerr) : string :=
  match e with ErrNoRows => "sql: no rows in result set" | SqlError m => m end.

Definition ErrTxDone : sqlerr :=
  SqlError "sql: transaction has already been committed or rolled back".

(** What PostgreSQL takes as a text in a UTF-8 database: well-formed UTF-8
    without the character NUL. *)
Fixpoint text_ok (s : string) : bool :=
  match s with
  | EmptyString => true
  | String a s1 =>
      if byteZ a <? 128 then negb (byteZ a =? 0) && text_ok s1 else
      match s1 with
      | String b s2 =>
          if utf8_two a b then text_ok s2 else
          match s2 with
          | String c s3 =>
              if utf8_three a b c then text_ok s3 else
              match s3 with
              | String d s4 => utf8_four a b c d && text_ok s4
              | EmptyString => false
              end
          | EmptyString => false
          end
      | EmptyString => false
      end
  end.
Definition err_encoding : sqlerr := SqlError "pq: invalid byte sequence for encoding UTF8".
Definition text_in (s : string) : result sqlerr string := if text_ok s then Ok s else Err err_encoding.

(** Storing a text in a VARCHAR(n) column: at most [n] characters (UTF-8
    continuation bytes do not count), except that excess blanks are cut off. *)
Definition utf8_cont (c : ascii) : bool := (128 <=? byteZ c) && (byteZ c <? 192).
Definition blank (c : ascii) : bool := byteZ c =? 32.
Fixpoint varchar_chars (n : nat) (s : string) : option string :=
  match s with
  | EmptyString => Some EmptyString
  | String c s' =>
      if utf8_cont c then String c <$> varchar_chars n s'
      else match n with
           | S n' => String c <$> varchar_chars n' s'
           | O => if string_forall blank s then Some EmptyString else None
           end
  end.
Definition err_too_long : sqlerr := SqlError "pq: value too long for type character varying".
Definition varchar (n : nat) (s : string) : result sqlerr string :=
  if text_ok s then
    match varchar_chars n s with Some s' => Ok s' | None => Err err_too_long end
  else Err err_encoding.
(** What is stored, if anything. *)
Definition varchar_in (n : nat) (s : string) : option string :=
  if text_ok s then varchar_chars n s else None.

Lemma varchar_Ok n s s' : varchar n s = Ok s' <-> varchar_in n s = Some s'.
Proof. unfold varchar, varchar_in. destruct (text_ok s); [|done]. destruct (varchar_chars n s); naive_solver. Qed.
Lemma varchar_in_Some n s s' : varchar_in n s = Some s' <-> text_ok s = true /\ varchar_chars n s = Some s'.
Proof. unfold varchar_in. destruct (text_ok s); naive_solver. Qed.

Lemma text_ok_ascii c s : byteZ c < 128 -> byteZ c <> 0 -> text_ok (String c s) = text_ok s.
Proof.
  intros Hc H0. cbn [text_ok]. destruct (Z.ltb_spec (byteZ c) 128); [|lia].
  by destruct (Z.eqb_spec (byteZ c) 0).
Qed.

(** *** Cutting blanks off *)
Lemma varchar_chars_cut n s s' :
  varchar_chars n s = Some s' -> exists b, s = (s' +:+ b)%string /\ string_forall blank b = true.
Proof.
  revert n s'; induction s as [|c s IH]; intros n s'; cbn [varchar_chars].
  - intros [= <-]. by exists ""%string.
  - assert (Hkeep : forall m, String c <$> varchar_chars m s = Some s' ->
      exists b, String c s = (s' +:+ b)%string /\ string_forall blank b = true).
    { intros m (x & Hx & ->)%fmap_Some. destruct (IH _ _ Hx) as (b & -> & Hb). by exists b. }
    destruct (utf8_cont c); [apply Hkeep|]. destruct n as [|n]; [|apply Hkeep].
    destruct (string_forall _ _) eqn:Hb; [|done]. intros [= <-]. by exists (String c s).
Qed.

Lemma blank_not_cont c lo hi : blank c = true -> 128 <= lo -> cont_in lo hi c = false.
Proof. intros Hc%Z.eqb_eq Hl. unfold cont_in. destruct (Z.leb_spec lo (byteZ c)); [lia|done]. Qed.
Lemma blank_not_two a c : blank c = true -> utf8_two a c = false.
Proof. intros Hc. unfold utf8_two. by rewrite (blank_not_cont c), andb_false_r by done. Qed.
Lemma blank_not_three a b c : blank b = true \/ blank c = true -> utf8_three a b c = false.
Proof.
  intros [Hb|Hc]; unfold utf8_three; [|by rewrite (blank_not_cont c) by done].
  by rewrite !(blank_not_cont b), !andb_false_r by done.
Qed.
Lemma blank_not_four a b c d : blank b = true \/ blank c = true \/ blank d = true -> utf8_four a b c d = false.
Proof.
  intros [Hb|[Hc|Hd]]; unfold utf8_four; [|by rewrite (blank_not_cont c) by done|].
  - by rewrite !(blank_not_cont b), !andb_false_r by done.
  - by rewrite (blank_not_cont d), andb_false_r by done.
Qed.
Ltac no_rune := rewrite ?blank_not_two, ?blank_not_three, ?blank_not_four by auto.

(** A blank ends the character before it. *)
Lemma text_ok_cut s c b : blank c = true -> text_ok (s +:+ String c b) = true -> text_ok s = true.
Proof.
  intros Hc. remember (String.length s) as n eqn:Hn. revert s Hn.
  induction (lt_wf n) as [n _ IH]. intros s ->.
  assert (Hrest : forall t, (String.length t < String.length s)%nat -> text_ok (t +:+ String c b) = true -> text_ok t = true).
  { intros t Ht. by apply (IH _ Ht). }
  clear IH. destruct s as [|x s]; [done|]. cbn [String.append text_ok]. destruct (byteZ x <? 128).
  { intros [-> Ht]%andb_true_iff. apply Hrest; [cbn; lia|exact Ht]. }
  destruct s as [|y s]; cbn [String.append].
  { no_rune. destruct b as [|z [|w b]]; no_rune; done. }
  destruct (utf8_two x y); [apply Hrest; cbn; lia|]. destruct s as [|z s]; cbn [String.append].
  { no_rune. destruct b as [|w b]; no_rune; done. }
  destruct (utf8_three x y z); [apply Hrest; cbn; lia|]. destruct s as [|w s]; cbn [String.append]; [by no_rune|].
  intros [-> Ht]%andb_true_iff. apply Hrest; [cbn; lia|exact Ht].
Qed.

Lemma varchar_chars_idemp n s s' : varchar_chars n s = Some s' -> varchar_chars n s' = Some s'.
Proof.
  revert n s'; induction s as [|c s IH]; intros n s'; cbn [varchar_chars]; [by intros [= <-]|].
  destruct (utf8_cont c) eqn:Hc.
  - intros (x & Hx & ->)%fmap_Some. cbn [varchar_chars]. by rewrite Hc, (IH _ _ Hx).
  - destruct n as [|n].
    + case_match; [|done]. by intros [= <-].
    + intros (x & Hx & ->)%fmap_Some. cbn [varchar_chars]. by rewrite Hc, (IH _ _ Hx).
Qed.
Lemma varchar_in_idemp n s s' : varchar_in n s = Some s' -> varchar_in n s' = Some s'.
Proof.
  rewrite !varchar_in_Some. intros [Ht Hs]. split; [|by eapply varchar_chars_idemp].
  destruct (varchar_chars_cut _ _ _ Hs) as ([|c b] & -> & Hb); [by rewrite string_app_nil_r in Ht|].
  apply andb_true_iff in Hb as [Hc _]. by eapply text_ok_cut.
Qed.

(** The program [e] followed by Go's [if err != nil { return onerr(err) }]. *)
Definition call {E X R} (e : E (result sqlerr X)) (onerr : sqlerr -> R) (k : X -> proc E R)
  : proc E R :=
  Vis e (fun r => match r with Ok x => k x | Err err => Ret (onerr err) end).
Notation "'let?' x ':=' e 'else' h 'in' k" := (call e h (fun x => k))
  (at level 10, x name, e at level 99, h at level 99, k at level 200) : go_scope.

(** A statement that runs outside any transaction commits by itself; when its
    acknowledgement is lost its effect stays.  It leaves the state alone when
    it fails. *)
Definition autocommit {S A} (o : outcome) (s : S) (f : S -> result sqlerr (A * S))
  : result sqlerr A * S :=
  match o with
  | Lost e | Torn _ e => (Err (SqlError e), s)
  | Done => match f s with Ok (a, s') => (Ok a, s') | Err e => (Err e, s) end
  | AckLost e => (Err (SqlError e), match f s with Ok (_, s') => s' | Err _ => s end)
  end.

(** One connection: the committed database, and the private view of the open
    transaction, if any. *)
Record session (D : Type) := mk_session { committed : D; open_tx : option D }.
Arguments mk_session {_} _ _.
Arguments committed {_} _.
Arguments open_tx {_} _.

Section session.
Context {D : Type}.

Definition begin_tx (o : outcome) (s : session D) : result sqlerr unit * session D :=
  match o with
  | Done => (Ok tt, mk_session (committed s) (Some (committed s)))
  | Lost e | AckLost e | Torn _ e => (Err (SqlError e), s)
  end.

(** Commit publishes the private view; when its acknowledgement is lost the
    transaction is committed although the caller sees an error. *)
Definition commit_tx (o : outcome) (s : session D) : result sqlerr unit * session D :=
  match open_tx s with
  | None => (Err ErrTxDone, s)
  | Some d =>
      match o with
      | Done => (Ok tt, mk_session d None)
      | Lost e | Torn _ e => (Err (SqlError e), mk_session (committed s) None)
      | AckLost e => (Err (SqlError e), mk_session d None)
      end
  end.

(** [tx.Rollback()] discards the private view; after a commit it is a no-op. *)
Definition rollback_tx (s : session D) : result sqlerr unit * session D :=
  (Ok tt, mk_session (committed s) None).

(** A statement inside the open transaction. *)
Definition stmt_tx {A} (o : outcome) (s : session D) (f : D -> result sqlerr (A * D))
  : result sqlerr A * session D :=
  match o with
  | Lost e | AckLost e | Torn _ e => (Err (SqlError e), s)
  | Done =>
      match open_tx s with
      | None => (Err ErrTxDone, s)
      | Some d =>
          match f d with
          | Ok (a, d') => (Ok a, mk_session (committed s) (Some d'))
          | Err e => (Err e, s)
          end
      end
  end.

(** A statement of a session without transaction. *)
Definition stmt_auto {A} (o : outcome) (s : session D) (f : D -> result sqlerr (A * D))
  : result sqlerr A * session D :=
  let '(r, d) := autocommit o (committed s) f in (r, mk_session d (open_tx s)).
End session.

(** ** Rules for [wp] of the statements above *)
Lemma wp_call {E : Type -> Type} {S X R} (exec : forall X, E X -> outcome -> S -> X * S)
    (e : E (result sqlerr X)) (onerr : sqlerr -> R) (k : X -> proc E R) Q s :
  (forall o, match (exec _ e o s).1 with
             | Ok x => wp exec (k x) Q (exec _ e o s).2
             | Err err => Q (onerr err) (exec _ e o s).2
             end) ->
  wp exec (call e onerr k) Q s.
Proof. intros H o. specialize (H o). by destruct (exec _ e o s) as [[x|err] s']. Qed.

Section wp_rules.
Context {E : Type -> Type} {D : Type}.
Context (exec : forall X, E X -> outcome -> session D -> X * session D).
Implicit Types s : session D.

(** A statement inside a transaction either fails and changes nothing, or
    changes the private view as the statement says. *)
Lemma wp_stmt_tx {X R} (e : E (result sqlerr X)) (f : D -> result sqlerr (X * D)) onerr
    (k : X -> proc E R) Q c d :
  (forall o s, exec _ e o s = stmt_tx o s f) ->
  (forall err, Q (onerr err) (mk_session c (Some d))) ->
  (forall x d', f d = Ok (x, d') -> wp exec (k x) Q (mk_session c (Some d'))) ->
  wp exec (call e onerr k) Q (mk_session c (Some d)).
Proof.
  intros He Herr Hok. apply wp_call. intros o. rewrite He.
  destruct o; cbn; try apply Herr. destruct (f d) as [[x d']|err] eqn:E0; cbn; eauto.
Qed.

Lemma wp_begin {R} (e : E (result sqlerr unit)) onerr (k : unit -> proc E R) Q c :
  (forall o s, exec _ e o s = begin_tx o s) ->
  (forall err, Q (onerr err) (mk_session c None)) ->
  wp exec (k tt) Q (mk_session c (Some c)) ->
  wp exec (call e onerr k) Q (mk_session c None).
Proof. intros He Herr Hok. apply wp_call. intros o. rewrite He. destruct o; cbn; auto. Qed.

Lemma wp_commit {R} (e : E (result sqlerr unit)) onerr (k : unit -> proc E R) Q c d :
  (forall o s, exec _ e o s = commit_tx o s) ->
  (forall err, Q (onerr err) (mk_session c None)) ->
  (forall err, Q (onerr err) (mk_session d None)) ->
  wp exec (k tt) Q (mk_session d None) ->
  wp exec (call e onerr k) Q (mk_session c (Some d)).
Proof.
  intros He Hlost Hack Hok. apply wp_call. intros o. rewrite He. destruct o; cbn; auto.
Qed.
End wp_rules.
