(* ===== verification/Proto.v ===== *)
(** * Protocol messages: proto/intent/v1 and proto/wallet/v1

    Each message is a record in a module of its own, with the field names of
    the generated Go structs.  A Go pointer field is an [option]; a protobuf
    [int32] is a [Z] in range; a proto3 enum is an open [int32], so it is a
    [Z] and not a closed inductive type: a client may send any number.
    Timestamps are nanoseconds since the epoch. *)
From S2P Require Import Prelude GoLib.

(** Name table of a generated enum, and [protoimpl.X.EnumStringOf], which
    prints an unknown number in decimal. *)
Definition enum_table := list (Z * string).
Fixpoint enum_lookup (t : enum_table) (n : Z) : option string :=
  match t with
  | [] => None
  | (m, s) :: t' => if n =? m then Some s else enum_lookup t' n
  end.
Definition EnumStringOf (t : enum_table) (n : Z) : string :=
  default (itoa n) (enum_lookup t n).

Abbreviation IntentType := Z (only parsing).
Definition INTENT_TYPE_UNSPECIFIED : IntentType := 0.
Definition INTENT_TYPE_TRANSFER : IntentType := 1.
Definition INTENT_TYPE_COMPUTE : IntentType := 2.
Definition INTENT_TYPE_QUERY : IntentType := 3.
Definition INTENT_TYPE_SCHEDULED : IntentType := 4.

Definition IntentType_name : enum_table :=
  [ (0, "INTENT_TYPE_UNSPECIFIED");
    (1, "INTENT_TYPE_TRANSFER");
    (2, "INTENT_TYPE_COMPUTE");
    (3, "INTENT_TYPE_QUERY");
    (4, "INTENT_TYPE_SCHEDULED") ].
Definition IntentType_String (x : IntentType) : string := EnumStringOf IntentType_name x.

Abbreviation IntentStatus := Z (only parsing).
Definition INTENT_STATUS_UNSPECIFIED : IntentStatus := 0.
Definition INTENT_STATUS_PENDING : IntentStatus := 1.
Definition INTENT_STATUS_VALIDATED : IntentStatus := 2.
Definition INTENT_STATUS_SCHEDULED : IntentStatus := 3.
Definition INTENT_STATUS_EXECUTING : IntentStatus := 4.
Definition INTENT_STATUS_COMPLETED : IntentStatus := 5.
Definition INTENT_STATUS_FAILED : IntentStatus := 6.
Definition INTENT_STATUS_REJECTED : IntentStatus := 7.
Definition INTENT_STATUS_CANCELLED : IntentStatus := 8.

Definition IntentStatus_name : enum_table :=
  [ (0, "INTENT_STATUS_UNSPECIFIED");
    (1, "INTENT_STATUS_PENDING");
    (2, "INTENT_STATUS_VALIDATED");
    (3, "INTENT_STATUS_SCHEDULED");
    (4, "INTENT_STATUS_EXECUTING");
    (5, "INTENT_STATUS_COMPLETED");
    (6, "INTENT_STATUS_FAILED");
    (7, "INTENT_STATUS_REJECTED");
    (8, "INTENT_STATUS_CANCELLED") ].
Definition IntentStatus_String (x : IntentStatus) : string := EnumStringOf IntentStatus_name x.

Module IntentConstraints.
Record t := mk {
  Deadline : option Z;
  Priority : Z;
  MaxRetries : Z;
  Idempotent : bool;
}.
#[global] Instance t_eq_dec : EqDecision t.
Proof. solve_decision. Defined.
End IntentConstraints.

Module Intent.
Record t := mk {
  Id : string;
  Type_ : IntentType;
  Status : IntentStatus;
  SubmitterId : string;
  Payload : string;
  Constraints : option IntentConstraints.t;
  Signature : string;
  SubmitterPublicKey : string;
  CreatedAt : option Z;
  UpdatedAt : option Z;
}.
#[global] Instance t_eq_dec : EqDecision t.
Proof. solve_decision. Defined.

(** The assignment [intent.Status = s]. *)
Definition set_Status (s : IntentStatus) (i : t) : t :=
  mk (Id i) (Type_ i) s (SubmitterId i) (Payload i) (Constraints i)
     (Signature i) (SubmitterPublicKey i) (CreatedAt i) (UpdatedAt i).
End Intent.

Module SubmitIntentRequest.
Record t := mk {
  Type_ : IntentType;
  Payload : string;
  Constraints : option IntentConstraints.t;
  SubmitterId : string;
  Signature : string;
  SubmitterPublicKey : string;
}.
End SubmitIntentRequest.

Module SubmitIntentResponse.
Record t := mk { IntentId : string; Status : IntentStatus; CreatedAt : option Z }.
End SubmitIntentResponse.

Module GetIntentRequest.
Record t := mk { IntentId : string }.
End GetIntentRequest.

Module GetIntentResponse.
Record t := mk { Intent : option Intent.t }.
End GetIntentResponse.

Module ListIntentsRequest.
Record t := mk {
  StatusFilter : IntentStatus;
  SubmitterIdFilter : string;
  PageSize : Z;
  PageToken : string;
}.
End ListIntentsRequest.

Module ListIntentsResponse.
Record t := mk {
  Intents : list Intent.t;
  NextPageToken : string;
  TotalCount : Z;
}.
End ListIntentsResponse.

(** ** gRPC status codes and errors *)
Module codes.
Definition InvalidArgument : Z := 3.
Definition DeadlineExceeded : Z := 4.
Definition NotFound : Z := 5.
Definition PermissionDenied : Z := 7.
Definition FailedPrecondition : Z := 9.
Definition Unimplemented : Z := 12.
Definition Internal : Z := 13.
Definition Unavailable : Z := 14.
Definition Unauthenticated : Z := 16.
End codes.

(** [status.Error(code, msg)] *)
Record grpc_status := status_Error { st_code : Z; st_message : string }.
#[export] Instance grpc_status_eq_dec : EqDecision grpc_status.
Proof. solve_decision. Defined.

(** Enum names are the decimal-free strings of their table: two distinct known
    numbers never print alike. *)
Lemma enum_lookup_in t n s : enum_lookup t n = Some s -> (n, s) ∈ t.
Proof.
  induction t as [|[m x] t IH]; cbn; [done|].
  destruct (Z.eqb_spec n m) as [->|]; intros H.
  - injection H as ->. left.
  - right. by apply IH.
Qed.
