(* ===== verification/Float64.v ===== *)
(** * Go [float64] and PostgreSQL [NUMERIC(20,8)]

    Amounts are [float64] in Go and [NUMERIC(20,8)] in the wallet tables.  A
    [float64] is the Standard Library's executable IEEE-754 datum with
    precision 53 and exponent bound 1024; comparison is comparison of the
    denoted values.  A [NUMERIC(20,8)] value is NaN or an integer count of
    units of 1e-8. *)
From S2P Require Import Prelude GoLib.
From Corelib Require Import SpecFloat.

Abbreviation float64 := spec_float.
Definition fzero : float64 := S754_zero false.
Definition fadd : float64 -> float64 -> float64 := SFadd 53 1024.
Definition fsub : float64 -> float64 -> float64 := SFsub 53 1024.
(** The float nearest to an integer (a Go constant or conversion). *)
Definition f_of_Z (z : Z) : float64 := binary_normalize 53 1024 z 0 false.

#[export] Instance float64_eq_dec : EqDecision float64.
Proof. solve_decision. Defined.

(** The two finite operands as integers over a common power of two. *)
Definition falign (s1 : bool) (m1 : positive) (e1 : Z)
    (s2 : bool) (m2 : positive) (e2 : Z) : Z * Z :=
  let e := Z.min e1 e2 in
  (cond_Zopp s1 (Zpos (shl_align m1 e1 e).1), cond_Zopp s2 (Zpos (shl_align m2 e2 e).1)).

(** Go's [x < y]: false as soon as an operand is NaN. *)
Definition fltb (x y : float64) : bool :=
  match x, y with
  | S754_nan, _ | _, S754_nan => false
  | S754_infinity true, S754_infinity true => false
  | S754_infinity true, _ => true
  | S754_infinity false, _ => false
  | _, S754_infinity s => negb s
  | S754_zero _, S754_zero _ => false
  | S754_zero _, S754_finite s _ _ => negb s
  | S754_finite s _ _, S754_zero _ => s
  | S754_finite s1 m1 e1, S754_finite s2 m2 e2 =>
      let '(z1, z2) := falign s1 m1 e1 s2 m2 e2 in z1 <? z2
  end.
Definition feqb (x y : float64) : bool :=
  match x, y with
  | S754_nan, _ | _, S754_nan => false
  | _, _ => negb (fltb x y) && negb (fltb y x)
  end.
(** Go's [x <= y]. *)
Definition fleb (x y : float64) : bool := fltb x y || feqb x y.

(** ** [fmt.Sprintf("%.4f", x)]: the exact value, rounded half to even. *)
Definition round_half_even (num den : Z) : Z :=
  let q := num / den in
  let r := num mod den in
  if 2 * r <? den then q
  else if den <? 2 * r then q + 1
  else if Z.even q then q else q + 1.

Fixpoint pad_zeros (k : nat) (s : string) : string :=
  match k with O => s | S k' => String (digit 0) (pad_zeros k' s) end.

Definition fmt_fixed4 (x : float64) : string :=
  let body (n : Z) : string :=
    let frac := utoa (n mod 10000) in
    (utoa (n / 10000) +:+ "." +:+ pad_zeros (4 - String.length frac) frac)%string in
  let signed (s : bool) (b : string) : string := if s then ("-" +:+ b)%string else b in
  match x with
  | S754_nan => "NaN"
  | S754_infinity s => if s then "-Inf" else "+Inf"
  | S754_zero s => signed s (body 0)
  | S754_finite s m e =>
      signed s (body (if 0 <=? e then Zpos m * 2 ^ e * 10000
                      else round_half_even (Zpos m * 10000) (2 ^ (- e))))
  end.

(** ** NUMERIC(20,8) *)
Inductive numeric : Type :=
| NumNaN
| Num (units : Z).
#[export] Instance numeric_eq_dec : EqDecision numeric.
Proof. solve_decision. Defined.

Definition units_per_one : Z := 100000000.

(** [Scan(&f)]: the driver hands over the decimal text and [database/sql] calls
    [strconv.ParseFloat], which rounds the exact decimal correctly. *)
Definition float_of_num (n : numeric) : float64 :=
  match n with
  | NumNaN => S754_nan
  | Num Z0 => fzero
  | Num (Zpos p) => SFdiv 53 1024 (S754_finite false p 0) (S754_finite false 100000000 0)
  | Num (Zneg p) => SFdiv 53 1024 (S754_finite true p 0) (S754_finite false 100000000 0)
  end.

Definition fnonneg (x : float64) : bool :=
  match x with
  | S754_zero _ | S754_infinity false | S754_finite false _ _ => true
  | _ => false
  end.
Definition num_nonneg (n : numeric) : bool :=
  match n with NumNaN => false | Num u => 0 <=? u end.

(** Binding a [float64] to a NUMERIC(20,8) parameter is the work of the
    lib/pq driver and of PostgreSQL's input function; [None] is "numeric field
    overflow".  The laws are their documented behaviour: NaN is stored as NaN,
    an infinity does not fit, the sign is kept, and a whole number that fits
    is stored exactly, one that does not fit is refused. *)
Class NumericCodec := {
  num_of_float : float64 -> option numeric;
  num_of_nan : num_of_float S754_nan = Some NumNaN;
  num_of_inf : forall s, num_of_float (S754_infinity s) = None;
  num_of_nonneg : forall x n,
    fnonneg x = true -> num_of_float x = Some n -> num_nonneg n = true;
  num_of_whole : forall z, Z.abs z < 10 ^ 12 ->
    num_of_float (f_of_Z z) = Some (Num (z * units_per_one));
  num_of_too_large : forall z, 10 ^ 12 <= Z.abs z < 2 ^ 53 ->
    num_of_float (f_of_Z z) = None;
}.
