(* ===== verification/Json.v ===== *)
(** * encoding/json

    The values, [json.Marshal] of strings, and the decoder: a parser to a
    syntax tree and the assignment of tree members to struct fields.  Strings
    are decoded as [unquoteBytes] does (escapes, surrogate pairs, replacement
    of invalid UTF-8), numbers keep their literal until a field asks for an
    integer or a float. *)
From S2P Require Import Prelude GoLib Float64.
From Corelib Require Import SpecFloat.

(** A number literal: sign, integer part, fraction digits, exponent. *)
Record num_lit := mk_num_lit {
  nl_neg : bool;
  nl_int : string;
  nl_frac : option string;
  nl_exp : option (bool * string);
}.

Inductive json : Type :=
| JNull
| JBool (b : bool)
| JNum (lit : num_lit)
| JStr (s : string)
| JArr (l : list json)
| JObj (l : list (string * json)).

(** ** Lexical elements *)
Definition is_ws (c : ascii) : bool :=
  let b := byteZ c in (b =? 32) || (b =? 9) || (b =? 10) || (b =? 13).
Fixpoint skip_ws (s : string) : string :=
  match s with String c s' => if is_ws c then skip_ws s' else s | EmptyString => "" end.

Definition hex4 (a b c d : ascii) : option Z :=
  match hex_val a, hex_val b, hex_val c, hex_val d with
  | Some a, Some b, Some c, Some d => Some (a * 4096 + b * 256 + c * 16 + d)
  | _, _, _, _ => None
  end.
(** A [\uXXXX] at the head of the input. *)
Definition getu4 (s : string) : option Z :=
  match s with
  | String x (String u (String a (String b (String c (String d _))))) =>
      if (byteZ x =? 92) && (byteZ u =? 117) then hex4 a b c d else None
  | _ => None
  end.
Definition is_surrogate (r : Z) : bool := (55296 <=? r) && (r <=? 57343).
(** [utf16.DecodeRune], [None] for its U+FFFD. *)
Definition decode_surrogates (r1 r2 : Z) : option Z :=
  if (55296 <=? r1) && (r1 <=? 56319) && (56320 <=? r2) && (r2 <=? 57343)
  then Some ((r1 - 55296) * 1024 + (r2 - 56320) + 65536) else None.

Definition simple_escape (c : ascii) : option ascii :=
  let b := byteZ c in
  if (b =? 34) || (b =? 92) || (b =? 47) then Some c
  else if b =? 98 then Some (Zbyte 8)
  else if b =? 102 then Some (Zbyte 12)
  else if b =? 110 then Some (Zbyte 10)
  else if b =? 114 then Some (Zbyte 13)
  else if b =? 116 then Some (Zbyte 9)
  else None.

(** The body of a string after its opening quote: its bytes, before invalid
    UTF-8 is replaced, and the input after the closing quote. *)
Definition prepend (p : string) (r : option (string * string)) : option (string * string) :=
  match r with Some (s, rest) => Some ((p +:+ s)%string, rest) | None => None end.
Fixpoint scan_string (s : string) : option (string * string) :=
  match s with
  | EmptyString => None
  | String c s1 =>
      if byteZ c =? 34 then Some (""%string, s1)
      else if byteZ c <? 32 then None
      else if byteZ c =? 92 then
        match s1 with
        | EmptyString => None
        | String e s2 =>
            if byteZ e =? 117 then
              match s2 with
              | String a (String b (String x (String d s3))) =>
                  match hex4 a b x d with
                  | None => None
                  | Some r =>
                      if is_surrogate r then
                        match s3 with
                        | String _ (String _ (String _ (String _ (String _ (String _ s4))))) =>
                            match getu4 s3 ≫= decode_surrogates r with
                            | Some r' => prepend (encode_rune r') (scan_string s4)
                            | None => prepend (encode_rune 65533) (scan_string s3)
                            end
                        | _ => prepend (encode_rune 65533) (scan_string s3)
                        end
                      else prepend (encode_rune r) (scan_string s3)
                  end
              | _ => None
              end
            else match simple_escape e with
                 | Some x => prepend (String x "") (scan_string s2)
                 | None => None
                 end
        end
      else prepend (String c "") (scan_string s1)
  end.
Definition parse_string (s : string) : option (string * string) :=
  match scan_string s with Some (x, r) => Some (to_valid_utf8 x, r) | None => None end.

Definition is_digit (c : ascii) : bool := (48 <=? byteZ c) && (byteZ c <=? 57).
Fixpoint span_digits (s : string) : string * string :=
  match s with
  | String c s' =>
      if is_digit c then let '(d, r) := span_digits s' in (String c d, r) else (""%string, s)
  | EmptyString => (""%string, ""%string)
  end.
Definition head_is (z : Z) (s : string) : option string :=
  match s with String c s' => if byteZ c =? z then Some s' else None | EmptyString => None end.

(** One or more digits. *)
Definition digits1 (s : string) : option (string * string) :=
  match span_digits s with
  | (EmptyString, _) => None
  | dr => Some dr
  end.
Definition scan_sign (s : string) : bool * string :=
  match head_is 45 s with Some s' => (true, s') | None => (false, s) end.
Definition scan_int (s : string) : option (string * string) :=
  match head_is 48 s with Some s' => Some ("0"%string, s') | None => digits1 s end.
Definition scan_frac (s : string) : option (option string * string) :=
  match head_is 46 s with
  | Some s' => match digits1 s' with Some (d, r) => Some (Some d, r) | None => None end
  | None => Some (None, s)
  end.
Definition scan_exp (s : string) : option (option (bool * string) * string) :=
  match s with
  | String c s' =>
      if (byteZ c =? 101) || (byteZ c =? 69) then
        let '(neg, s') := match head_is 43 s' with
                          | Some r => (false, r)
                          | None => scan_sign s'
                          end in
        match digits1 s' with Some (d, r) => Some (Some (neg, d), r) | None => None end
      else Some (None, s)
  | EmptyString => Some (None, s)
  end.
Definition scan_number (s : string) : option (num_lit * string) :=
  let '(neg, s) := scan_sign s in
  match scan_int s with
  | None => None
  | Some (ip, s) =>
      match scan_frac s with
      | None => None
      | Some (frac, s) =>
          match scan_exp s with
          | None => None
          | Some (e, s) => Some (mk_num_lit neg ip frac e, s)
          end
      end
  end.

(** ** The parser
    [depth] counts the open arrays and objects; 10000 is the limit. *)
Definition max_depth : Z := 10000.
Section parser.
Fixpoint parse_value (fuel : nat) (depth : Z) (s : string) : option (json * string) :=
  match fuel with
  | O => None
  | S f =>
      match skip_ws s with
      | EmptyString => None
      | String c s' as s0 =>
          let b := byteZ c in
          if b =? 34 then match parse_string s' with Some (x, r) => Some (JStr x, r) | None => None end
          else if b =? 123 then
            if max_depth <=? depth then None else
            match head_is 125 (skip_ws s') with
            | Some r => Some (JObj [], r)
            | None => match parse_members f (depth + 1) s' with
                      | Some (l, r) => Some (JObj l, r)
                      | None => None
                      end
            end
          else if b =? 91 then
            if max_depth <=? depth then None else
            match head_is 93 (skip_ws s') with
            | Some r => Some (JArr [], r)
            | None => match parse_elements f (depth + 1) s' with
                      | Some (l, r) => Some (JArr l, r)
                      | None => None
                      end
            end
          else if b =? 116 then match strip_prefix "rue" s' with Some r => Some (JBool true, r) | None => None end
          else if b =? 102 then match strip_prefix "alse" s' with Some r => Some (JBool false, r) | None => None end
          else if b =? 110 then match strip_prefix "ull" s' with Some r => Some (JNull, r) | None => None end
          else match scan_number s0 with Some (n, r) => Some (JNum n, r) | None => None end
      end
  end
with parse_members (fuel : nat) (depth : Z) (s : string) : option (list (string * json) * string) :=
  match fuel with
  | O => None
  | S f =>
      match head_is 34 (skip_ws s) ≫= parse_string with
      | None => None
      | Some (key, s1) =>
          match head_is 58 (skip_ws s1) ≫= parse_value f depth with
          | None => None
          | Some (v, s2) =>
              match skip_ws s2 with
              | EmptyString => None
              | String c s3 =>
                  if byteZ c =? 125 then Some ([(key, v)], s3)
                  else if byteZ c =? 44 then
                    match parse_members f depth s3 with
                    | Some (l, r) => Some ((key, v) :: l, r)
                    | None => None
                    end
                  else None
              end
          end
      end
  end
with parse_elements (fuel : nat) (depth : Z) (s : string) : option (list json * string) :=
  match fuel with
  | O => None
  | S f =>
      match parse_value f depth s with
      | None => None
      | Some (v, s2) =>
          match skip_ws s2 with
          | EmptyString => None
          | String c s3 =>
              if byteZ c =? 93 then Some ([v], s3)
              else if byteZ c =? 44 then
                match parse_elements f depth s3 with
                | Some (l, r) => Some (v :: l, r)
                | None => None
                end
              else None
          end
      end
  end.
End parser.

(** Every call that does not consume input is followed by one that does. *)
Definition json_fuel (s : string) : nat := 2 * String.length s + 2.
(** A whole document: one value between blanks. *)
Definition parse_json (s : string) : option json :=
  match parse_value (json_fuel s) 0 s with
  | Some (v, r) => match skip_ws r with EmptyString => Some v | _ => None end
  | None => None
  end.

(** ** [json.Marshal] of a string, with HTML escaping *)
Definition hex2 (b : Z) : string := String (hex_digit (b / 16)) (String (hex_digit (b mod 16)) "").
Definition escape_char (c : ascii) : string :=
  let b := byteZ c in
  if (b =? 34) || (b =? 92) then String (Zbyte 92) (String c "")
  else if b =? 8 then "\b"
  else if b =? 12 then "\f"
  else if b =? 10 then "\n"
  else if b =? 13 then "\r"
  else if b =? 9 then "\t"
  else if (b <? 32) || (b =? 60) || (b =? 62) || (b =? 38) then ("\u00" +:+ hex2 b)%string
  else String c "".
Definition escape_rune (r : string) : string :=
  if bool_decide (r = encode_rune 8232) then "\u2028"
  else if bool_decide (r = encode_rune 8233) then "\u2029"
  else r.
Definition quote : string := chr 34.
Definition escape_string : string -> string := utf8_map escape_char escape_rune (fun _ => "\ufffd"%string).
Definition marshal_string (s : string) : string := (quote +:+ escape_string s +:+ quote)%string.

(** ** [json.Marshal] of a flat struct *)
Inductive scalar : Type :=
| SInt (n : Z)
| SStr (s : string).
Definition scalar_json (x : scalar) : json :=
  match x with SInt n => JNum (mk_num_lit (n <? 0) (utoa (Z.abs n)) None None) | SStr s => JStr s end.
Definition print_scalar (x : scalar) : string :=
  match x with SInt n => itoa n | SStr s => marshal_string s end.
Fixpoint print_members (l : list (string * scalar)) : string :=
  match l with
  | [] => "}"
  | [(k, v)] => (marshal_string k +:+ ":" +:+ print_scalar v +:+ "}")%string
  | (k, v) :: l' => (marshal_string k +:+ ":" +:+ print_scalar v +:+ "," +:+ print_members l')%string
  end.
Definition print_object (l : list (string * scalar)) : string := ("{" +:+ print_members l)%string.

(** ** [json.Marshal] of maps, slices and raw messages
    [compact_text]: blanks between tokens go; in strings [<], [>], [&], U+2028
    and U+2029 are escaped.  A raw message that is not JSON is an error, and so
    is all that contains it. *)
Fixpoint compact_text (in_string : bool) (s : string) : string :=
  match s with
  | EmptyString => ""
  | String c s' =>
      let b := byteZ c in
      if negb in_string then
        if is_ws c then compact_text false s' else String c (compact_text (b =? 34) s')
      else if b =? 34 then String c (compact_text false s')
      else if (b =? 60) || (b =? 62) || (b =? 38) then ("\u00" +:+ hex2 b +:+ compact_text true s')%string
      else
        match s' with
        | String d s'' =>
            if b =? 92 then String c (String d (compact_text true s''))
            else
              match s'' with
              | String e s3 =>
                  if bool_decide (String c (String d (String e "")) = encode_rune 8232)
                  then ("\u2028" +:+ compact_text true s3)%string
                  else if bool_decide (String c (String d (String e "")) = encode_rune 8233)
                  then ("\u2029" +:+ compact_text true s3)%string
                  else String c (compact_text true s')
              | EmptyString => String c (compact_text true s')
              end
        | EmptyString => String c ""
        end
  end.
Definition compact_json (s : string) : option string :=
  match parse_json s with Some _ => Some (compact_text false s) | None => None end.

Inductive jv : Type :=
| JvScalar (x : scalar)
| JvRaw (s : string)
| JvArr (l : list jv)
| JvObj (l : list (string * jv)).
Definition JvStr (s : string) : jv := JvScalar (SStr s).
Definition JvInt (n : Z) : jv := JvScalar (SInt n).

(** The encoded items between commas. *)
Fixpoint join_items {A} (enc : A -> option string) (l : list A) : option string :=
  match l with
  | [] => Some ""%string
  | [x] => enc x
  | x :: l' =>
      match enc x, join_items enc l' with
      | Some a, Some b => Some (a +:+ "," +:+ b)%string
      | _, _ => None
      end
  end.
Fixpoint encode_json (v : jv) : option string :=
  match v with
  | JvScalar x => Some (print_scalar x)
  | JvRaw s => compact_json s
  | JvArr l =>
      match join_items encode_json l with Some b => Some ("[" +:+ b +:+ "]")%string | None => None end
  | JvObj l =>
      match join_items (fun kv => match encode_json kv.2 with
                                  | Some b => Some (marshal_string kv.1 +:+ ":" +:+ b)%string
                                  | None => None
                                  end) l with
      | Some b => Some ("{" +:+ b +:+ "}")%string
      | None => None
      end
  end.

(** A Go map is encoded with its keys sorted. *)
Fixpoint insert_key {A} (kv : string * A) (l : list (string * A)) : list (string * A) :=
  match l with
  | [] => [kv]
  | kv' :: l' => if string_gtb kv.1 kv'.1 then kv' :: insert_key kv l' else kv :: l
  end.
Definition sort_keys {A} (l : list (string * A)) : list (string * A) := foldr insert_key [] l.
Definition JvMap (l : list (string * jv)) : jv := JvObj (sort_keys l).

(** ** [json.Unmarshal] into a struct
    [fold_name]: letters compare without case, as Unicode folds the long s and
    the Kelvin sign too. *)
Definition lower (c : ascii) : ascii :=
  if (65 <=? byteZ c) && (byteZ c <=? 90) then Zbyte (byteZ c + 32) else c.
Definition fold_name : string -> string :=
  utf8_map (fun c => String (lower c) "")
    (fun r => if bool_decide (r = encode_rune 383) then "s"
              else if bool_decide (r = encode_rune 8490) then "k" else r)
    (fun _ => encode_rune 65533).

(** The field a key is assigned to: an exact match, else a folded one. *)
Definition field_of (fields : list string) (key : string) : option string :=
  match find (fun f => bool_decide (f = key)) fields with
  | Some f => Some f
  | None => find (fun f => bool_decide (fold_name f = fold_name key)) fields
  end.

Section decode.
Context {A : Type} (fields : list string) (set : string -> json -> A -> option A).

(** Members are assigned in order; a mismatch anywhere makes the call fail. *)
Fixpoint decode_members (l : list (string * json)) (a : A) : option A :=
  match l with
  | [] => Some a
  | (k, v) :: l' =>
      match field_of fields k with
      | None => decode_members l' a
      | Some f => match set f v a with Some a' => decode_members l' a' | None => None end
      end
  end.
Definition decode_struct (v : json) (zero : A) : option A :=
  match v with
  | JNull => Some zero
  | JObj l => decode_members l zero
  | _ => None
  end.
(** [json.Unmarshal(data, &x)] for a struct value. *)
Definition unmarshal_struct (data : string) (zero : A) : option A :=
  match parse_json data with Some v => decode_struct v zero | None => None end.
End decode.

(** [json.NewDecoder(r).Decode(&x)]: the first value of the stream; what follows
    an object or an array is not looked at, and any other value is complete only
    at the next byte or at the end of the stream. *)
Definition decode_stream {A} (fields : list string) (set : string -> json -> A -> option A)
    (content : string) (rerr : option string) (zero : A) : option A :=
  match parse_value (json_fuel content) 0 content with
  | None => None
  | Some (v, rest) =>
      let complete := match v, rest, rerr with
                      | JObj _, _, _ | JArr _, _, _ => true
                      | _, String _ _, _ => true
                      | _, EmptyString, None => true
                      | _, EmptyString, Some _ => false
                      end in
      if complete then decode_struct fields set v zero else None
  end.

(** Setters by field type: null leaves the field alone. *)
Definition set_string {A} (put : string -> A -> A) (v : json) (a : A) : option A :=
  match v with JStr s => Some (put s a) | JNull => Some a | _ => None end.
Definition set_bool {A} (put : bool -> A -> A) (v : json) (a : A) : option A :=
  match v with JBool b => Some (put b a) | JNull => Some a | _ => None end.

(** [strconv.ParseUint(lit, 10, 64)] and [ParseInt(lit, 10, w)]. *)
Definition num_uint (w : Z) (n : num_lit) : option Z :=
  match n with
  | mk_num_lit false ip None None =>
      let z := (scan_digits 0 ip).1 in if z <? 2 ^ w then Some z else None
  | _ => None
  end.
Definition num_int (w : Z) (n : num_lit) : option Z :=
  match n with
  | mk_num_lit neg ip None None =>
      let z := (scan_digits 0 ip).1 in
      let z := if neg then - z else z in
      if (- 2 ^ (w - 1) <=? z) && (z <? 2 ^ (w - 1)) then Some z else None
  | _ => None
  end.

(** [strconv.ParseFloat(lit, 64)]: the decimal value correctly rounded, an
    error when it is out of range.  Magnitudes that cannot matter are cut off
    before the power of ten is computed. *)
Definition decimal_float (neg : bool) (m e : Z) : option float64 :=
  match m with
  | Zpos p =>
      if (309 <? e) then None
      else if Z.log2 m + 1 + 3 * e <? -1100 then Some (S754_zero neg)
      else
        let x := if 0 <=? e
                 then binary_normalize 53 1024 (cond_Zopp neg (m * 10 ^ e)) 0 neg
                 else SFdiv 53 1024 (S754_finite neg p 0)
                        (S754_finite false (Z.to_pos (10 ^ (- e))) 0) in
        match x with S754_infinity _ => None | _ => Some x end
  | _ => Some (S754_zero neg)
  end.
Definition num_float (n : num_lit) : option float64 :=
  let frac := default ""%string (nl_frac n) in
  let m := (scan_digits (scan_digits 0 (nl_int n)).1 frac).1 in
  let e := match nl_exp n with
           | Some (neg, d) => let x := (scan_digits 0 d).1 in if neg then - x else x
           | None => 0
           end in
  decimal_float (nl_neg n) m (e - slen frac).

Definition set_num {A B} (conv : num_lit -> option B) (put : B -> A -> A) (v : json) (a : A) : option A :=
  match v with
  | JNum n => match conv n with Some x => Some (put x a) | None => None end
  | JNull => Some a
  | _ => None
  end.
