(* ===== verification/Http.v ===== *)
(** * HTTP: what the gateway uses of net/http, net/url, net, path, encoding/base64

    Requests, the response writer, ServeMux routing of method-less patterns,
    query strings, host and port, RFC 3339 time stamps and unpadded URL-safe
    base64, as the Go standard library defines them. *)
From S2P Require Import Prelude GoLib Json.

(** ** Percent encoding: net/url *)
(** [url.PathUnescape] ([plus = false]) and [url.QueryUnescape] ([plus = true]). *)
Fixpoint unescape (plus : bool) (s : string) : option string :=
  match s with
  | EmptyString => Some ""%string
  | String c s1 =>
      if byteZ c =? 37 then
        match s1 with
        | String a (String b s2) =>
            match hex_val a, hex_val b, unescape plus s2 with
            | Some x, Some y, Some r => Some (String (Zbyte (x * 16 + y)) r)
            | _, _, _ => None
            end
        | _ => None
        end
      else String (if plus && (byteZ c =? 43) then Zbyte 32 else c) <$> unescape plus s1
  end.
Definition path_unescape : string -> option string := unescape false.

(** [strings.Cut(s, sep)] for a one-byte separator: before, and after if found. *)
Fixpoint cut_at (sep : ascii) (s : string) : string * option string :=
  match s with
  | EmptyString => (""%string, None)
  | String c s' =>
      if Ascii.eqb c sep then (""%string, Some s')
      else let '(a, b) := cut_at sep s' in (String c a, b)
  end.

(** [r.URL.Query()]: a pair with a semicolon or a bad escape is dropped. *)
Definition query_pair (s : string) : option (string * string) :=
  if bool_decide (s = "") || negb (string_forall (fun c => negb (byteZ c =? 59)) s) then None else
  let '(k, v) := cut_at (Zbyte 61) s in
  k ← unescape true k; v ← unescape true (default "" v)%string; Some (k, v).
Definition parse_query (raw : string) : list (string * string) := omap query_pair (split_on (Zbyte 38) raw).
(** [Values.Get]: the first value of the key, or the empty string. *)
Fixpoint query_get (vs : list (string * string)) (key : string) : string :=
  match vs with
  | [] => ""
  | (k, v) :: vs' => if bool_decide (k = key) then v else query_get vs' key
  end.

(** ** Requests and the response writer *)
Record Request := mk_Request {
  Method : string;
  (** [URL.Path] and [URL.EscapedPath()]: the second unescapes to the first. *)
  Path : string;
  EscapedPath : string;
  RawQuery : string;
  Header : gmap string string;
  RemoteAddr : string;
  (** What the body yields, and the error that ended it before its end. *)
  Body : string;
  BodyErr : option string;
  (** The values that middleware put in the context. *)
  Ctx : gmap string string;
}.
Definition header_get (r : Request) (k : string) : string := default ""%string (Header r !! k).
Definition with_value (k v : string) (r : Request) : Request :=
  mk_Request (Method r) (Path r) (EscapedPath r) (RawQuery r) (Header r) (RemoteAddr r) (Body r) (BodyErr r)
    (<[k := v]> (Ctx r)).

Definition MethodGet : string := "GET".
Definition MethodPost : string := "POST".
Definition StatusOK : Z := 200.
Definition StatusCreated : Z := 201.
Definition StatusBadRequest : Z := 400.
Definition StatusUnauthorized : Z := 401.
Definition StatusForbidden : Z := 403.
Definition StatusNotFound : Z := 404.
Definition StatusMethodNotAllowed : Z := 405.
Definition StatusTooManyRequests : Z := 429.
Definition StatusInternalServerError : Z := 500.
Definition StatusServiceUnavailable : Z := 503.
Definition StatusGatewayTimeout : Z := 504.

(** [http.ResponseWriter]: the status line once it is written, the headers and
    the body so far. *)
Record ResponseWriter := mk_ResponseWriter {
  rw_code : option Z;
  rw_header : gmap string string;
  rw_body : string;
}.
Definition new_response : ResponseWriter := mk_ResponseWriter None ∅ "".
(** Headers set after the status line are not sent. *)
Definition rw_set (k v : string) (w : ResponseWriter) : ResponseWriter :=
  match rw_code w with
  | None => mk_ResponseWriter None (<[k := v]> (rw_header w)) (rw_body w)
  | Some _ => w
  end.
Definition rw_WriteHeader (code : Z) (w : ResponseWriter) : ResponseWriter :=
  match rw_code w with
  | None => mk_ResponseWriter (Some code) (rw_header w) (rw_body w)
  | Some _ => w
  end.
Definition rw_Write (data : string) (w : ResponseWriter) : ResponseWriter :=
  let w := rw_WriteHeader StatusOK w in
  mk_ResponseWriter (rw_code w) (rw_header w) (rw_body w +:+ data)%string.
(** The status the client sees: 200 when the handler wrote nothing. *)
Definition rw_status (w : ResponseWriter) : Z := default StatusOK (rw_code w).

(** ** ServeMux *)
(** [path.Clean] of a rooted path, as the list of its elements. *)
Fixpoint clean_elements (stack l : list string) : list string :=
  match l with
  | [] => rev stack
  | x :: l' =>
      if bool_decide (x = "") || bool_decide (x = ".") then clean_elements stack l'
      else if bool_decide (x = "..") then clean_elements (tail stack) l'
      else clean_elements (x :: stack) l'
  end.
Definition slash : ascii := Zbyte 47.
Definition join_path (l : list string) : string :=
  foldr (fun x acc => String slash (x +:+ acc)) ""%string l.
Fixpoint ends_with_slash (s : string) : bool :=
  match s with
  | EmptyString => false
  | String c EmptyString => Ascii.eqb c slash
  | String _ s' => ends_with_slash s'
  end.
(** net/http's [cleanPath]. *)
Definition clean_path (p : string) : string :=
  let p := match p with
           | EmptyString => String slash ""
           | String c _ => if Ascii.eqb c slash then p else String slash p
           end in
  match clean_elements [] (split_on slash p) with
  | [] => String slash ""
  | l => if ends_with_slash p then (join_path l +:+ String slash "")%string else join_path l
  end.

(** A segment is unescaped; a bad escape leaves it as it is. *)
Definition segment (s : string) : string := default s (path_unescape s).
(** The segments of a registered pattern against those of an escaped path; a
    pattern that ends in a slash matches everything below it. *)
Fixpoint match_segments (pat path : list string) : bool :=
  match pat, path with
  | [EmptyString], _ :: _ => true
  | [], [] => true
  | p :: pat', x :: path' => bool_decide (p = segment x) && match_segments pat' path'
  | _, _ => false
  end.
(** What follows the leading slash, in segments.  net/http hands the mux no
    other paths than rooted ones and the empty path. *)
Definition segments (path : string) : list string :=
  match path with
  | String c rest => if Ascii.eqb c slash then split_on slash rest else []
  | EmptyString => []
  end.
Definition pattern_matches (pat path : string) : bool := match_segments (segments pat) (segments path).

Fixpoint mux_match {H} (routes : list (string * H)) (path : string) : option H :=
  match routes with
  | [] => None
  | (pat, h) :: routes' => if pattern_matches pat path then Some h else mux_match routes' path
  end.

(** [/tree] is redirected to a registered [/tree/], and a path that is not
    clean to the clean one, except for CONNECT.  The redirection carries the
    path of its URL. *)
Inductive routed (H : Type) : Type :=
| RHandler (h : H)
| RRedirect (path : string)
| RNotFound.
Arguments RHandler {_} _.
Arguments RRedirect {_} _.
Arguments RNotFound {_}.
Definition mux_route {H} (routes : list (string * H)) (r : Request) : routed H :=
  let connect := bool_decide (Method r = "CONNECT") in
  let path := if connect then EscapedPath r else clean_path (EscapedPath r) in
  match mux_match routes path with
  | Some h => if bool_decide (path = EscapedPath r) then RHandler h else RRedirect path
  | None =>
      let path' := (path +:+ String slash "")%string in
      if bool_decide (is_Some (mux_match routes path')) && negb (ends_with_slash path) then RRedirect (clean_path (Path r) +:+ String slash "")%string
      else if bool_decide (path = EscapedPath r) then RNotFound else RRedirect path
  end.

(** ** net.SplitHostPort: the host, when the address has the form *)
Fixpoint has_char (c : ascii) (s : string) : bool :=
  match s with EmptyString => false | String d s' => Ascii.eqb c d || has_char c s' end.
(** Before and after the last occurrence of a byte. *)
Fixpoint cut_last (c : ascii) (s : string) : option (string * string) :=
  match s with
  | EmptyString => None
  | String d s' =>
      match cut_last c s' with
      | Some (a, b) => Some (String d a, b)
      | None => if Ascii.eqb c d then Some (""%string, s') else None
      end
  end.
Definition colon : ascii := Zbyte 58.
Definition lbracket : ascii := Zbyte 91.
Definition rbracket : ascii := Zbyte 93.
Definition split_host (hostport : string) : option string :=
  match cut_last colon hostport with
  | None => None
  | Some (before, port) =>
      match before with
      | String c rest =>
          if Ascii.eqb c lbracket then
            match cut_at rbracket rest with
            | (host, Some EmptyString) =>
                if has_char lbracket host || has_char lbracket port || has_char rbracket port
                then None else Some host
            | _ => None
            end
          else if has_char colon before || has_char lbracket hostport || has_char rbracket hostport
          then None else Some before
      | EmptyString => if has_char lbracket port || has_char rbracket port then None else Some ""%string
      end
  end.

(** ** [t.Format(time.RFC3339)] in UTC, of nanoseconds since the epoch *)
Definition civil_of_days (days : Z) : Z * Z * Z :=
  let z := days + 719468 in
  let era := z / 146097 in
  let doe := z mod 146097 in
  let yoe := (doe - doe / 1460 + doe / 36524 - doe / 146096) / 365 in
  let doy := doe - (365 * yoe + yoe / 4 - yoe / 100) in
  let mp := (5 * doy + 2) / 153 in
  let m := if mp <? 10 then mp + 3 else mp - 9 in
  (yoe + era * 400 + (if m <=? 2 then 1 else 0), m, doy - (153 * mp + 2) / 5 + 1).
Definition pad (width : nat) (n : Z) : string :=
  let d := utoa n in
  (String.concat "" (repeat "0" (width - String.length d)) +:+ d)%string.
Definition second : Z := 1000000000.
Definition unix (t : Z) : Z := t / second.
Definition format_rfc3339 (t : Z) : string :=
  let s := unix t in
  let '(y, m, d) := civil_of_days (s / 86400) in
  let r := s mod 86400 in
  ((if (y <? 0)%Z then "-" else "") +:+ pad 4 (Z.abs y) +:+ "-" +:+ pad 2 m +:+ "-" +:+ pad 2 d +:+ "T" +:+
   pad 2 (r / 3600)%Z +:+ ":" +:+ pad 2 (r / 60 mod 60)%Z +:+ ":" +:+ pad 2 (r mod 60)%Z +:+ "Z")%string.

Example rfc3339_epoch : format_rfc3339 0 = "1970-01-01T00:00:00Z"%string.
Proof. reflexivity. Qed.
Example rfc3339_leap_day : format_rfc3339 (951827696 * second + 5) = "2000-02-29T12:34:56Z"%string.
Proof. vm_compute. reflexivity. Qed.

(** ** base64.RawURLEncoding *)
Definition b64_char (v : Z) : ascii :=
  if v <? 26 then Zbyte (65 + v) else if v <? 52 then Zbyte (71 + v)
  else if v <? 62 then Zbyte (v - 4) else if v =? 62 then Zbyte 45 else Zbyte 95.
Definition b64_val (c : ascii) : option Z :=
  let b := byteZ c in
  if (65 <=? b) && (b <=? 90) then Some (b - 65)
  else if (97 <=? b) && (b <=? 122) then Some (b - 71)
  else if (48 <=? b) && (b <=? 57) then Some (b + 4)
  else if b =? 45 then Some 62 else if b =? 95 then Some 63 else None.

Fixpoint b64_encode (s : string) : string :=
  match s with
  | EmptyString => ""
  | String a EmptyString => String (b64_char (byteZ a / 4)) (String (b64_char (byteZ a mod 4 * 16)) "")
  | String a (String b EmptyString) =>
      String (b64_char (byteZ a / 4)) (String (b64_char (byteZ a mod 4 * 16 + byteZ b / 16))
        (String (b64_char (byteZ b mod 16 * 4)) ""))
  | String a (String b (String c s')) =>
      String (b64_char (byteZ a / 4)) (String (b64_char (byteZ a mod 4 * 16 + byteZ b / 16))
        (String (b64_char (byteZ b mod 16 * 4 + byteZ c / 64)) (String (b64_char (byteZ c mod 64))
          (b64_encode s'))))
  end.

(** Line breaks are skipped; the bits after the last whole byte are ignored. *)
Fixpoint b64_values (s : string) : option (list Z) :=
  match s with
  | EmptyString => Some []
  | String c s' =>
      if (byteZ c =? 10) || (byteZ c =? 13) then b64_values s'
      else v ← b64_val c; vs ← b64_values s'; Some (v :: vs)
  end.
Fixpoint b64_bytes (l : list Z) : option string :=
  match l with
  | [] => Some ""%string
  | [_] => None
  | [a; b] => Some (chr (a * 4 + b / 16))
  | [a; b; c] => Some (chr (a * 4 + b / 16) +:+ chr (b mod 16 * 16 + c / 4))%string
  | a :: b :: c :: d :: l' =>
      r ← b64_bytes l';
      Some (String (Zbyte (a * 4 + b / 16)) (String (Zbyte (b mod 16 * 16 + c / 4))
              (String (Zbyte (c mod 4 * 64 + d)) r)))
  end.
Definition b64_decode (s : string) : option string := b64_values s ≫= b64_bytes.

Example b64_vector : b64_encode "foobarb?~" = "Zm9vYmFyYj9-"%string /\ b64_decode "Zm9vYmFyYj9-" = Some "foobarb?~"%string.
Proof. by vm_compute. Qed.
