(* ===== verification/Redis.v ===== *)
(** * The Redis cache of the gateway

    The keys and the four commands the gateway sends, with what the Redis
    documentation says of them.  Times are nanoseconds; a key without a deadline
    does not expire. *)
From S2P Require Import Prelude GoLib.

Definition alive (t : Z) (deadline : option Z) : bool :=
  match deadline with Some d => t <? d | None => true end.

(** [key_at t k s]: the value and the deadline of [k] at time [t], if it is
    there. *)
Class Redis := {
  keyspace : Type;
  empty_keyspace : keyspace;
  key_at : Z -> string -> keyspace -> option (string * option Z);
  redis_SET : Z -> string -> string -> Z -> keyspace -> keyspace;
  redis_INCR : Z -> string -> keyspace -> result string Z * keyspace;
  redis_EXPIRE : Z -> string -> Z -> keyspace -> keyspace;
  key_at_empty : forall t k, key_at t k empty_keyspace = None;
  key_at_later : forall t t' k s, t <= t' ->
    key_at t' k s = match key_at t k s with
                    | Some (v, d) => if alive t' d then Some (v, d) else None
                    | None => None
                    end;
  SET_at : forall t k k' v ttl s, 0 < ttl ->
    key_at t k (redis_SET t k' v ttl s) = if decide (k = k') then Some (v, Some (t + ttl)) else key_at t k s;
  INCR_missing : forall t k s, key_at t k s = None ->
    (redis_INCR t k s).1 = Ok 1 /\ key_at t k (redis_INCR t k s).2 = Some (itoa 1, None);
  INCR_number : forall t k s n d, key_at t k s = Some (itoa n, d) -> 0 <= n < 2 ^ 63 - 1 ->
    (redis_INCR t k s).1 = Ok (n + 1) /\ key_at t k (redis_INCR t k s).2 = Some (itoa (n + 1), d);
  INCR_other : forall t k k' s, k <> k' -> key_at t k (redis_INCR t k' s).2 = key_at t k s;
  EXPIRE_at : forall t k k' ttl s, 0 < ttl ->
    key_at t k (redis_EXPIRE t k' ttl s)
    = if decide (k = k') then (fun vd => (vd.1, Some (t + ttl))) <$> key_at t k s else key_at t k s;
}.
