(* ===== verification/JsonFacts.v ===== *)
(** * The JSON parser reads back what the printer wrote

    The parser consumes input at every step, so its fuel is enough; flat
    objects of ASCII strings and unsigned numbers survive printing and
    parsing. *)
From S2P Require Import Prelude GoLib Float64 Json.

(** ** Consumption *)
Lemma skip_ws_length s : (String.length (skip_ws s) <= String.length s)%nat.
Proof. induction s as [|c s IH]; cbn; [lia|]. case_match; cbn; lia. Qed.

Lemma head_is_length z s r : head_is z s = Some r -> String.length s = S (String.length r).
Proof. destruct s; cbn; [done|]. case_match; [|done]. by intros [= ->]. Qed.

Lemma strip_prefix_length p s r : strip_prefix p s = Some r -> (String.length r <= String.length s)%nat.
Proof.
  revert s; induction p as [|c p IH]; intros s; cbn; [by intros [= ->]|].
  destruct s as [|d s]; [done|]. case_match; [|done]. intros ?%IH. cbn. lia.
Qed.

Lemma span_digits_length s d r : span_digits s = (d, r) -> (String.length r <= String.length s)%nat.
Proof.
  revert d r; induction s as [|c s IH]; intros d r; cbn; [by intros [= <- <-]|].
  case_match; [|by intros [= <- <-]]. destruct (span_digits s) as [d' r'].
  specialize (IH d' r' eq_refl). intros [= <- <-]. lia.
Qed.

Lemma digits1_length s d r : digits1 s = Some (d, r) -> (String.length r < String.length s)%nat.
Proof.
  unfold digits1. destruct s as [|c s]; cbn; [done|]. destruct (is_digit c); [|done].
  destruct (span_digits s) as [d' r'] eqn:E. apply span_digits_length in E.
  intros [= <- <-]. lia.
Qed.

Lemma scan_sign_length s n r : scan_sign s = (n, r) -> (String.length r <= String.length s)%nat.
Proof.
  unfold scan_sign. destruct (head_is 45 s) eqn:E; intros [= <- <-]; [|done].
  apply head_is_length in E. lia.
Qed.

Lemma scan_number_length s n r : scan_number s = Some (n, r) -> (String.length r < String.length s)%nat.
Proof.
  unfold scan_number. destruct (scan_sign s) as [neg s1] eqn:E1. apply scan_sign_length in E1.
  destruct (scan_int s1) as [[ip s2]|] eqn:E2; [|done].
  assert (String.length s2 < String.length s1)%nat.
  { unfold scan_int in E2. destruct (head_is 48 s1) eqn:E.
    - apply head_is_length in E. injection E2 as <- <-. lia.
    - by apply digits1_length in E2. }
  destruct (scan_frac s2) as [[fr s3]|] eqn:E3; [|done].
  assert (String.length s3 <= String.length s2)%nat.
  { unfold scan_frac in E3. destruct (head_is 46 s2) eqn:E; [|by injection E3 as <- <-].
    apply head_is_length in E. destruct (digits1 _) as [[d r']|] eqn:Ed; [|done].
    apply digits1_length in Ed. injection E3 as <- <-. lia. }
  destruct (scan_exp s3) as [[ex s4]|] eqn:E4; [|done].
  assert (String.length s4 <= String.length s3)%nat; [|intros [= <- <-]; lia].
  unfold scan_exp in E4. destruct s3 as [|c s3]; [by injection E4 as <- <-|].
  case_match; [|by injection E4 as <- <-].
  destruct (head_is 43 s3) as [r'|] eqn:Eh.
  - apply head_is_length in Eh. destruct (digits1 r') as [[d r2]|] eqn:Ed; [|done].
    apply digits1_length in Ed. injection E4 as <- <-. cbn. lia.
  - destruct (scan_sign s3) as [neg' r'] eqn:Es. apply scan_sign_length in Es.
    destruct (digits1 r') as [[d r2]|] eqn:Ed; [|done].
    apply digits1_length in Ed. injection E4 as <- <-. cbn. lia.
Qed.

Lemma prepend_Some p o x r : prepend p o = Some (x, r) -> exists y, o = Some (y, r).
Proof. destruct o as [[y r']|]; cbn; [|done]. intros [= <- <-]. eauto. Qed.

Lemma scan_string_length n s x r :
  (String.length s <= n)%nat -> scan_string s = Some (x, r) -> (String.length r < String.length s)%nat.
Proof.
  revert s x r; induction n as [|n IH]; intros s x r Hn; destruct s as [|c s]; cbn in *; try done; try lia.
  repeat (case_match; try done); try (intros [= <- <-]; lia);
    intros [? Hs]%prepend_Some; apply IH in Hs; cbn in *; lia.
Qed.

Lemma parse_string_length s x r : parse_string s = Some (x, r) -> (String.length r < String.length s)%nat.
Proof.
  unfold parse_string. destruct (scan_string s) as [[y r']|] eqn:E; [|done].
  intros [= <- <-]. eauto using scan_string_length.
Qed.

Ltac rest_lengths :=
  repeat match goal with
  | H : head_is _ (skip_ws ?s) = Some _ |- _ =>
      apply head_is_length in H; pose proof (skip_ws_length s)
  | H : head_is _ ?s ≫= parse_string = Some _ |- _ =>
      destruct (head_is _ s) eqn:?; cbn in H; [|discriminate H]
  | H : parse_string _ = Some _ |- _ => apply parse_string_length in H
  | H : strip_prefix _ _ = Some _ |- _ => apply strip_prefix_length in H
  | H : scan_number _ = Some _ |- _ => apply scan_number_length in H
  | H : skip_ws ?s = String _ _ |- _ =>
      apply (f_equal String.length) in H; cbn in H; pose proof (skip_ws_length s)
  end.

(** Every successful call consumes input. *)
Lemma parse_length f :
  (forall d s v r, parse_value f d s = Some (v, r) -> (String.length r < String.length s)%nat) /\
  (forall d s l r, parse_members f d s = Some (l, r) -> (String.length r < String.length s)%nat) /\
  (forall d s l r, parse_elements f d s = Some (l, r) -> (String.length r < String.length s)%nat).
Proof.
  induction f as [|f (IHv & IHm & IHe)]; [done|]. split_and!; intros d s v r Hp;
    cbn [parse_value parse_members parse_elements] in Hp.
  - destruct (skip_ws s) as [|c s'] eqn:Hs; [done|]. cbv zeta in Hp.
    repeat (case_match; try discriminate Hp); injection Hp as <- <-; rest_lengths;
      repeat match goal with
      | H : parse_members f _ _ = Some _ |- _ => apply IHm in H
      | H : parse_elements f _ _ = Some _ |- _ => apply IHe in H
      end; cbn in *; lia.
  - destruct (head_is 34 (skip_ws s) ≫= parse_string) as [[k s1]|] eqn:E1; [|done].
    destruct (head_is 58 (skip_ws s1)) as [s1'|] eqn:E2; cbn in Hp; [|done].
    destruct (parse_value f d s1') as [[w s2]|] eqn:E3; [|done]. apply IHv in E3.
    repeat (case_match; try discriminate Hp); injection Hp as <- <-; rest_lengths;
      repeat match goal with
      | H : parse_members f _ _ = Some _ |- _ => apply IHm in H
      end; lia.
  - destruct (parse_value f d s) as [[w s2]|] eqn:E3; [|done]. apply IHv in E3.
    repeat (case_match; try discriminate Hp); injection Hp as <- <-; rest_lengths;
      repeat match goal with
      | H : parse_elements f _ _ = Some _ |- _ => apply IHe in H
      end; lia.
Qed.

(** Any fuel from twice the length on gives the same answer. *)
Lemma parse_fuel f :
  (forall g d s, (2 * String.length s + 1 <= f)%nat -> (2 * String.length s + 1 <= g)%nat ->
     parse_value f d s = parse_value g d s) /\
  (forall g d s, (2 * String.length s + 2 <= f)%nat -> (2 * String.length s + 2 <= g)%nat ->
     parse_members f d s = parse_members g d s) /\
  (forall g d s, (2 * String.length s + 2 <= f)%nat -> (2 * String.length s + 2 <= g)%nat ->
     parse_elements f d s = parse_elements g d s).
Proof.
  induction f as [|f (IHv & IHm & IHe)]; [split_and!; intros; lia|].
  split_and!; intros [|g] d s Hf Hg; try lia; cbn [parse_value parse_members parse_elements].
  - destruct (skip_ws s) as [|c s'] eqn:Hs; [done|]. rest_lengths.
    by rewrite (IHm g), (IHe g) by lia.
  - destruct (head_is 34 (skip_ws s)) as [s0|] eqn:E0; cbn; [|done].
    destruct (parse_string s0) as [[k s1]|] eqn:E1; [|done].
    destruct (head_is 58 (skip_ws s1)) as [s1'|] eqn:E2; cbn; [|done]. rest_lengths.
    rewrite (IHv g) by lia. destruct (parse_value g d s1') as [[w s2]|] eqn:E3; [|done].
    apply parse_length in E3. destruct (skip_ws s2) as [|c s3] eqn:Hs2; [done|]. rest_lengths.
    by rewrite (IHm g) by lia.
  - rewrite (IHv g) by lia. destruct (parse_value g d s) as [[w s2]|] eqn:E3; [|done].
    apply parse_length in E3. destruct (skip_ws s2) as [|c s3] eqn:Hs2; [done|]. rest_lengths.
    by rewrite (IHe g) by lia.
Qed.

Lemma parse_json_fuel s f :
  (json_fuel s <= f)%nat ->
  parse_json s = match parse_value f 0 s with
                 | Some (v, r) => match skip_ws r with EmptyString => Some v | _ => None end
                 | None => None
                 end.
Proof.
  intros Hf. unfold parse_json, json_fuel in *.
  by rewrite (proj1 (parse_fuel (2 * String.length s + 2)) f) by lia.
Qed.

(** ** Strings survive *)
Lemma scan_escape_char c s :
  byteZ c <? 128 = true ->
  scan_string (escape_char c +:+ s) = prepend (String c "") (scan_string s).
Proof.
  destruct c as [[] [] [] [] [] [] [] []]; intros Hc; try discriminate Hc; reflexivity.
Qed.

Lemma scan_escape s rest :
  is_ascii s = true -> scan_string (escape_string s +:+ quote +:+ rest) = Some (s, rest).
Proof.
  induction s as [|c s IH]; [reflexivity|]. intros [Hc Hs]%andb_true_iff.
  unfold escape_string in *. rewrite utf8_map_ascii, string_app_assoc, scan_escape_char by done.
  by rewrite (IH Hs).
Qed.

Lemma parse_marshal_string s rest :
  is_ascii s = true -> parse_string (escape_string s +:+ quote +:+ rest) = Some (s, rest).
Proof. intros Hs. unfold parse_string. rewrite scan_escape by done. by rewrite to_valid_utf8_ascii. Qed.

(** ** Numbers survive *)
Lemma is_digit_digit d : 0 <= d <= 9 -> is_digit (digit d) = true.
Proof. intros H. unfold is_digit, digit. rewrite byteZ_Zbyte by lia. lia. Qed.

Lemma dec_digits_head fuel n rest :
  0 <= n < 10 ^ Z.of_nat fuel ->
  string_forall is_digit rest = true ->
  string_forall is_digit (dec_digits fuel n rest) = true /\
  (0 < n -> exists c s, dec_digits fuel n rest = String c s /\ byteZ c =? 48 = false).
Proof.
  revert n rest; induction fuel as [|f IH]; intros n rest Hn Hr; cbn [dec_digits].
  { split; [done|]. cbn in Hn. lia. }
  assert (Hm : 0 <= n mod 10 <= 9) by (pose proof (Z.mod_pos_bound n 10); lia).
  pose proof (Z.div_mod n 10 ltac:(lia)) as Hd.
  assert (Hc : string_forall is_digit (String (digit (n mod 10)) rest) = true).
  { cbn. by rewrite is_digit_digit. }
  destruct (Z.eqb_spec (n / 10) 0) as [E|E].
  - split; [done|]. intros Hpos. eexists _, _. split; [done|]. unfold digit.
    rewrite byteZ_Zbyte by lia. lia.
  - rewrite Nat2Z.inj_succ, Z.pow_succ_r in Hn by lia.
    assert (0 <= n / 10 < 10 ^ Z.of_nat f).
    { split; [apply Z.div_pos; lia|]. apply Z.div_lt_upper_bound; lia. }
    destruct (IH (n / 10) _ H Hc) as [H1 H2]. split; [done|]. intros _. apply H2. lia.
Qed.

Lemma utoa_digits n :
  0 <= n -> string_forall is_digit (utoa n) = true /\
  (n = 0 \/ exists c s, utoa n = String c s /\ byteZ c =? 48 = false).
Proof.
  intros Hn. unfold utoa.
  destruct (dec_digits_head (S (Z.to_nat (Z.log2 n))) n "") as [H1 H2]; [|done|].
  { split; [done|]. by apply dec_digits_length_fuel. }
  split; [done|]. destruct (Z.eq_dec n 0); [by left|]. right. apply H2. lia.
Qed.

(** What may follow a number: not a digit, a point or an exponent. *)
Definition ends_number (s : string) : bool :=
  match s with
  | String c _ => negb (is_digit c || (byteZ c =? 46) || (byteZ c =? 101) || (byteZ c =? 69))
  | EmptyString => true
  end.

Lemma span_digits_app a r :
  string_forall is_digit a = true -> ends_number r = true -> span_digits (a +:+ r) = (a, r).
Proof.
  induction a as [|c a IH]; cbn.
  - intros _. destruct r as [|c r]; [done|]. cbn. intros H%negb_true_iff.
    rewrite !orb_false_iff in H. by destruct H as [[[-> _] _] _].
  - intros [-> Ha]%andb_true_iff Hr. by rewrite IH.
Qed.

Lemma is_digit_not c z : is_digit c = true -> (z < 48 \/ 57 < z) -> byteZ c =? z = false.
Proof. unfold is_digit. lia. Qed.

Lemma scan_frac_none r : ends_number r = true -> scan_frac r = Some (None, r).
Proof.
  unfold scan_frac. destruct r as [|c r]; [done|]. cbn. intros H%negb_true_iff.
  rewrite !orb_false_iff in H. by destruct H as [[[_ ->] _] _].
Qed.
Lemma scan_exp_none r : ends_number r = true -> scan_exp r = Some (None, r).
Proof.
  destruct r as [|c r]; [done|]. cbn. intros H%negb_true_iff.
  rewrite !orb_false_iff in H. by destruct H as [[_ ->] ->].
Qed.

Lemma scan_number_utoa n r :
  0 <= n -> ends_number r = true ->
  scan_number (utoa n +:+ r) = Some (mk_num_lit false (utoa n) None None, r).
Proof.
  intros Hn Hr. destruct (utoa_digits n Hn) as [Hall [->|(c & s & Hu & Hc)]].
  - change (utoa 0) with "0"%string. unfold scan_number.
    change (scan_sign ("0" +:+ r)) with (false, ("0" +:+ r)%string). cbv iota beta.
    change (scan_int ("0" +:+ r)) with (Some ("0"%string, r)). cbv iota beta.
    by rewrite scan_frac_none, scan_exp_none.
  - unfold scan_number, scan_sign. rewrite Hu. rewrite Hu in Hall.
    assert (Hd : is_digit c = true) by (cbn in Hall; by apply andb_true_iff in Hall as [? _]).
    cbn [String.append head_is]. rewrite (is_digit_not c 45) by (done || lia).
    unfold scan_int. cbn [head_is]. rewrite Hc.
    change (String c (s +:+ r)) with (String c s +:+ r)%string.
    unfold digits1. rewrite span_digits_app by done. cbn match.
    by rewrite scan_frac_none, scan_exp_none.
Qed.

(** ** Flat objects survive *)
Definition scalar_ok (x : scalar) : bool :=
  match x with SInt n => 0 <=? n | SStr s => is_ascii s end.
Definition members_ok (l : list (string * scalar)) : bool :=
  forallb (fun kv => is_ascii kv.1 && scalar_ok kv.2) l.

Lemma marshal_string_app s r :
  (marshal_string s +:+ r = String (Zbyte 34) (escape_string s +:+ quote +:+ r))%string.
Proof. unfold marshal_string. by rewrite !string_app_assoc. Qed.

Lemma parse_scalar f d x r :
  (0 < f)%nat -> scalar_ok x = true -> ends_number r = true ->
  parse_value f d (print_scalar x +:+ r) = Some (scalar_json x, r).
Proof.
  intros Hf Hx Hr. destruct f as [|f]; [lia|]. destruct x as [n|s]; cbn [print_scalar scalar_json].
  - assert (0 <= n) by (cbn in Hx; lia).
    rewrite itoa_nonneg, (proj2 (Z.ltb_ge n 0)), Z.abs_eq by done.
    pose proof (scan_number_utoa n _ ltac:(done) Hr) as Hs.
    destruct (utoa_digits n ltac:(done)) as [Hall Hu].
    assert (Hh : exists h t, utoa n = String h t).
    { destruct Hu as [->|(h & t & -> & _)]; [|eauto]. change (utoa 0) with "0"%string. eauto. }
    destruct Hh as (h & t & Hh). rewrite Hh in Hs, Hall |- *.
    assert (Hd : is_digit h = true) by (cbn in Hall; by apply andb_true_iff in Hall as [? _]).
    cbn [String.append] in Hs |- *. cbn [parse_value skip_ws].
    assert (Hw : is_ws h = false) by (unfold is_ws, is_digit in *; lia). rewrite Hw.
    rewrite !(is_digit_not h) by (done || lia). cbv zeta. by rewrite Hs.
  - rewrite marshal_string_app. cbn [parse_value skip_ws].
    change (is_ws (Zbyte 34)) with false. cbv iota zeta.
    change (byteZ (Zbyte 34) =? 34) with true. cbv iota. by rewrite parse_marshal_string.
Qed.

Lemma parse_print_members l : forall f d r,
  members_ok l = true -> l <> [] -> (2 * length l <= f)%nat ->
  parse_members f d (print_members l +:+ r)
    = Some (map (fun kv => (kv.1, scalar_json kv.2)) l, r).
Proof.
  induction l as [|[k v] l IH]; intros f d r; [done|].
  intros [[Hk Hv]%andb_true_iff Hl]%andb_true_iff _ Hf. cbn in Hk, Hv.
  destruct f as [|f]; cbn in Hf; [lia|].
  set (tail := match l with [] => "}"%string | _ => ("," +:+ print_members l)%string end).
  assert (Hp : (print_members ((k, v) :: l) +:+ r
    = marshal_string k +:+ String (Zbyte 58) (print_scalar v +:+ (tail +:+ r)))%string).
  { unfold tail. destruct l; cbn [print_members]; rewrite !string_app_assoc; done. }
  rewrite Hp, marshal_string_app. cbn [parse_members skip_ws].
  change (is_ws (Zbyte 34)) with false. cbv iota. cbn [head_is].
  change (byteZ (Zbyte 34) =? 34) with true. cbv iota. cbn [mbind option_bind].
  rewrite parse_marshal_string by done. cbn [skip_ws].
  change (is_ws (Zbyte 58)) with false. cbv iota. cbn [head_is].
  change (byteZ (Zbyte 58) =? 58) with true. cbv iota. cbn [mbind option_bind].
  assert (Ht : exists c t, (tail +:+ r)%string = String c t /\ ends_number (String c t) = true /\
    is_ws c = false /\
    ((l = [] /\ byteZ c =? 125 = true /\ t = r) \/
     (l <> [] /\ byteZ c =? 125 = false /\ byteZ c =? 44 = true /\ t = (print_members l +:+ r)%string))).
  { unfold tail. destruct l; eexists _, _; (split; [reflexivity|]); (split; [reflexivity|]);
      (split; [reflexivity|]); [by left|by right]. }
  destruct Ht as (c & t & -> & He & Hw & Hcase).
  rewrite parse_scalar by (done || lia). cbn [skip_ws]. rewrite Hw.
  destruct Hcase as [(-> & -> & ->)|(Hne & -> & -> & ->)]; [done|].
  rewrite IH by (done || lia). done.
Qed.

Lemma print_members_length l : (2 * length l <= 1 + String.length (print_members l))%nat.
Proof.
  assert (Happ : forall a b : string, String.length (a +:+ b) = (String.length a + String.length b)%nat).
  { intros a b. induction a as [|c a IH]; [done|]. cbn. by rewrite IH. }
  induction l as [|[k v] [|kv l] IH]; [cbn; lia| |];
    cbn [print_members length] in *; unfold marshal_string; rewrite !Happ; cbn in *; lia.
Qed.

(** A flat object of ASCII strings and unsigned numbers that json.Marshal
    wrote is read back member by member by json.Unmarshal's parser. *)
Lemma parse_print_object l :
  members_ok l = true ->
  parse_json (print_object l) = Some (JObj (map (fun kv => (kv.1, scalar_json kv.2)) l)).
Proof.
  intros Hl. rewrite (parse_json_fuel _ (S (S (json_fuel (print_object l))))) by lia.
  destruct l as [|kv l]; [reflexivity|].
  assert (Hh : exists t, print_members (kv :: l) = String (Zbyte 34) t).
  { destruct kv as [k v]. destruct l; cbn [print_members]; eexists; reflexivity. }
  pose proof (parse_print_members (kv :: l) (S (json_fuel (print_object (kv :: l)))) (0 + 1) ""
                Hl ltac:(done)) as Hp.
  rewrite string_app_nil_r in Hp.
  unfold print_object at 2. cbn [String.append parse_value skip_ws].
  change (is_ws _) with false. cbv iota zeta.
  rewrite Hp.
  - destruct Hh as [t ->]. reflexivity.
  - pose proof (print_members_length (kv :: l)). unfold json_fuel, print_object. cbn [String.append String.length]. lia.
Qed.

(** More fuel never changes a successful parse. *)
Lemma parse_more_fuel f :
  (forall d s x, parse_value f d s = Some x -> parse_value (S f) d s = Some x) /\
  (forall d s x, parse_members f d s = Some x -> parse_members (S f) d s = Some x) /\
  (forall d s x, parse_elements f d s = Some x -> parse_elements (S f) d s = Some x).
Proof.
  induction f as [|f (IHv & IHm & IHe)]; [done|].
  split_and!; intros d s x Hp; remember (S f) as g eqn:Hg; rewrite Hg in Hp;
    cbn [parse_value parse_members parse_elements] in Hp |- *.
  - destruct (skip_ws s) as [|c s']; [done|]. cbv zeta in Hp |- *.
    repeat case_match; try done;
      repeat match goal with
      | H : parse_members f _ _ = Some _, H2 : parse_members g _ _ = _ |- _ => apply IHm in H; rewrite H in H2
      | H : parse_elements f _ _ = Some _, H2 : parse_elements g _ _ = _ |- _ => apply IHe in H; rewrite H in H2
      end; simplify_eq; done.
  - destruct (head_is 34 (skip_ws s) ≫= parse_string) as [[k s1]|]; [|done].
    destruct (head_is 58 (skip_ws s1)) as [s1'|]; cbn in Hp |- *; [|done].
    destruct (parse_value f d s1') as [[w s2]|] eqn:E; [|done]. apply IHv in E. rewrite E.
    destruct (skip_ws s2) as [|c s3]; [done|]. destruct (byteZ c =? 125); [done|].
    destruct (byteZ c =? 44); [|done].
    destruct (parse_members f d s3) as [[l r]|] eqn:E2; [|done]. apply IHm in E2. by rewrite E2.
  - destruct (parse_value f d s) as [[w s2]|] eqn:E; [|done]. apply IHv in E. rewrite E.
    destruct (skip_ws s2) as [|c s3]; [done|]. destruct (byteZ c =? 93); [done|].
    destruct (byteZ c =? 44); [|done].
    destruct (parse_elements f d s3) as [[l r]|] eqn:E2; [|done]. apply IHe in E2. by rewrite E2.
Qed.

Lemma parse_value_mono f g d s x : (f <= g)%nat -> parse_value f d s = Some x -> parse_value g d s = Some x.
Proof. intros Hle Hp. induction Hle; [done|]. by apply parse_more_fuel. Qed.

(** Whatever fuel reads a printed object reads all of it. *)
Lemma parse_object_rest l f d v r :
  members_ok l = true -> l <> [] -> parse_value f d (print_object l) = Some (v, r) -> r = ""%string.
Proof.
  intros Hl Hne Hp. apply (parse_value_mono _ (S (f + 2 * length l))) in Hp; [|lia].
  revert Hp. unfold print_object. cbn [String.append parse_value skip_ws].
  change (is_ws _) with false. cbv iota zeta. change (byteZ _ =? 34) with false. cbv iota.
  change (byteZ _ =? 123) with true. cbv iota. destruct (max_depth <=? d); [done|].
  pose proof (parse_print_members l (f + 2 * length l) (d + 1) "" Hl Hne ltac:(lia)) as Hm.
  rewrite string_app_nil_r in Hm. rewrite Hm.
  assert (Hh : exists t, print_members l = String (Zbyte 34) t).
  { destruct l as [|[k x] l]; [done|]. destruct l; cbn [print_members]; eexists; reflexivity. }
  destruct Hh as [t Ht]. rewrite Ht. change (head_is 125 (skip_ws (String (Zbyte 34) t))) with (@None string).
  by intros [= _ <-].
Qed.

(** ** A printed object cut short and followed by another one *)
Lemma app_prefix p q a b :
  (p +:+ q = a +:+ b)%string ->
  (exists p', p = (a +:+ p')%string /\ (p' +:+ q = b)%string) \/
  (exists q', q' <> ""%string /\ (p +:+ q' = a)%string /\ q = (q' +:+ b)%string).
Proof.
  revert a; induction p as [|c p IH]; intros [|x a] H.
  - left. by exists ""%string.
  - right. by exists (String x a).
  - left. by exists (String c p).
  - cbn in H. injection H as -> H. destruct (IH a H) as [(p' & -> & Hp)|(q' & Hq & <- & ->)].
    + left. by exists p'.
    + right. by exists q'.
Qed.

Section cut.
(** The text that follows: none, or an object whose first key starts with a
    letter. *)
Context (rest : string) (tl : string).
Hypothesis Htl :
  tl = ""%string \/ tl = String (Zbyte 123) (String (Zbyte 34) (String (Zbyte 105) rest)).
Hypothesis Hrest : forall f d v r, parse_value f d tl = Some (v, r) -> r = ""%string.

Definition string_broken (o : option (string * string)) : Prop :=
  o = None \/ exists x, o = Some (x, String (Zbyte 105) rest).

Lemma prepend_broken p o : string_broken o -> string_broken (prepend p o).
Proof. intros [->|[x ->]]; [by left|right; eexists; reflexivity]. Qed.

Lemma cut_char c p q :
  byteZ c <? 128 = true -> q <> ""%string -> (p +:+ q)%string = escape_char c ->
  string_broken (scan_string (p +:+ tl)).
Proof.
  intros Hc Hq Hp. destruct Htl as [Htl'|Htl']; rewrite Htl'; clear Htl' Hrest;
  destruct c as [[] [] [] [] [] [] [] []]; try discriminate Hc;
    (destruct p as [|c1 p]; [first [left; reflexivity|right; eexists; reflexivity]|]);
    match type of Hp with _ = escape_char ?x =>
      let v := eval vm_compute in (escape_char x) in change (escape_char x) with v in Hp
    end; cbn in Hp; injection Hp as -> Hp;
    repeat (destruct p as [|? p]; [left; first [reflexivity|destruct rest; reflexivity]|cbn in Hp; try discriminate Hp; injection Hp as -> Hp]);
    destruct p, q; cbn in Hp; done.
Qed.

Lemma cut_string s : forall p q,
  is_ascii s = true -> q <> ""%string -> (p +:+ q = escape_string s +:+ quote)%string ->
  string_broken (scan_string (p +:+ tl)).
Proof.
  induction s as [|c s IH]; intros p q.
  - intros _ Hq Hp. destruct p as [|c p]; [destruct Htl as [-> | ->]; [by left|right; eexists; reflexivity]|].
    cbn in Hp. injection Hp as _ Hp. destruct p, q; done.
  - intros [Hc Hs]%andb_true_iff Hq Hp. unfold escape_string in Hp.
    rewrite utf8_map_ascii, string_app_assoc in Hp by done.
    apply app_prefix in Hp as [(p' & -> & Hp)|(q' & Hq' & Hp & _)].
    + rewrite string_app_assoc, scan_escape_char by done. by eapply prepend_broken, IH.
    + by eapply cut_char.
Qed.

Lemma parse_string_broken o :
  string_broken (scan_string o) -> string_broken (parse_string o).
Proof. unfold parse_string. intros [->|[x ->]]; [by left|right; eexists; reflexivity]. Qed.

(** The value a cut can leave: none, or one after which neither a comma nor a
    closing brace follows. *)
Definition value_broken (o : option (json * string)) : Prop :=
  match o with
  | None => True
  | Some (_, r) => match skip_ws r with
                   | EmptyString => True
                   | String c _ => (byteZ c =? 125) || (byteZ c =? 44) = false
                   end
  end.

Lemma value_broken_tl f d : value_broken (parse_value f d tl).
Proof.
  destruct (parse_value f d tl) as [[v r]|] eqn:E; [|done]. by apply Hrest in E as ->.
Qed.

Lemma cut_quoted f d s p q :
  is_ascii s = true -> q <> ""%string -> (p +:+ q = escape_string s +:+ quote)%string ->
  value_broken (parse_value f d (String (Zbyte 34) (p +:+ tl))).
Proof.
  intros Hs Hq Hp. destruct f as [|f]; [done|]. cbn [parse_value skip_ws].
  change (is_ws (Zbyte 34)) with false. cbv iota zeta.
  change (byteZ (Zbyte 34) =? 34) with true. cbv iota.
  destruct (parse_string_broken _ (cut_string s p q Hs Hq Hp)) as [->|[x ->]]; [done|].
  reflexivity.
Qed.

Lemma cut_scalar f d x p q :
  scalar_ok x = true -> q <> ""%string -> (p +:+ q = print_scalar x)%string ->
  value_broken (parse_value f d (p +:+ tl)).
Proof.
  intros Hx Hq Hp. destruct p as [|c p]; [apply value_broken_tl|]. destruct x as [n|s].
  - cbn [print_scalar] in Hp. assert (Hn : 0 <= n) by (cbn in Hx; lia). rewrite itoa_nonneg in Hp by done.
    destruct (utoa_digits n Hn) as [Hall Hu]. rewrite <-Hp, string_forall_app in Hall.
    apply andb_true_iff in Hall as [Hd _]. pose proof Hd as [Hc _]%andb_true_iff.
    assert (Hc0 : byteZ c =? 48 = false).
    { destruct Hu as [->|(c' & s & Hu & Hc')].
      - change (utoa 0) with "0"%string in Hp. cbn in Hp. injection Hp as _ Hp. by destruct p, q.
      - rewrite Hu in Hp. cbn in Hp. by injection Hp as <- _. }
    destruct f as [|f]; [done|]. cbn [String.append parse_value skip_ws].
    assert (Hw : is_ws c = false) by (unfold is_ws, is_digit in *; lia). rewrite Hw.
    rewrite !(is_digit_not c) by (done || lia). cbv zeta iota.
    unfold scan_number, scan_sign. cbn [head_is]. rewrite (is_digit_not c 45) by (done || lia).
    unfold scan_int. cbn [head_is]. rewrite Hc0.
    change (String c (p +:+ tl)) with (String c p +:+ tl)%string.
    assert (He : ends_number tl = true) by (by destruct Htl as [-> | ->]).
    unfold digits1. rewrite span_digits_app by done. cbv iota beta.
    rewrite scan_frac_none, scan_exp_none by done. by destruct Htl as [-> | ->].
  - cbn [print_scalar] in Hp. unfold marshal_string in Hp. change quote with (String (Zbyte 34) "") in Hp at 1.
    cbn [String.append] in Hp. injection Hp as -> Hp. by eapply cut_quoted.
Qed.

Lemma print_members_cons k v l :
  print_members ((k, v) :: l)
  = (marshal_string k +:+ String (Zbyte 58)
       (print_scalar v +:+ match l with [] => "}" | _ => "," +:+ print_members l end))%string.
Proof. destruct l; cbn [print_members]; rewrite ?string_app_assoc; done. Qed.

(** After a value, [tl] instead of a comma or a brace is an error. *)
Lemma members_broken f d v0 r0 (k : string) :
  value_broken (Some (v0, r0)) ->
  match skip_ws r0 with
  | EmptyString => None
  | String c s3 =>
      if byteZ c =? 125 then Some ([(k, v0)], s3)
      else if byteZ c =? 44 then
        match parse_members f d s3 with
        | Some (l, r) => Some ((k, v0) :: l, r)
        | None => None
        end
      else None
  end = None.
Proof. cbn. destruct (skip_ws r0) as [|c s]; [done|]. by intros [-> ->]%orb_false_iff. Qed.

Lemma cut_members l : forall f d p q,
  members_ok l = true -> l <> [] -> q <> ""%string -> (p +:+ q = print_members l)%string ->
  parse_members f d (p +:+ tl) = None.
Proof.
  induction l as [|[k v] l IH]; intros f d p q Hl Hne Hq Hp; [done|].
  apply andb_true_iff in Hl as [[Hk Hv]%andb_true_iff Hl]. cbn [fst snd] in Hk, Hv.
  rewrite print_members_cons, marshal_string_app in Hp.
  destruct f as [|f]; [done|]. destruct p as [|c p]; [by destruct Htl as [-> | ->]|].
  cbn [String.append] in Hp. injection Hp as -> Hp. cbn [String.append parse_members skip_ws].
  change (is_ws _) with false. cbv iota. cbn [head_is].
  change (byteZ _ =? 34) with true. cbv iota. cbn [mbind option_bind].
  match type of Hp with _ = (_ +:+ String _ ?r)%string =>
    change (String (Zbyte 34) r) with (quote +:+ r)%string in Hp
  end.
  rewrite <-string_app_assoc in Hp. apply app_prefix in Hp as [(p2 & -> & Hp)|(q' & Hq' & Hp & _)].
  2: { by destruct (parse_string_broken _ (cut_string k p q' Hk Hq' Hp)) as [->|[x ->]]. }
  rewrite !string_app_assoc, parse_marshal_string by done.
  destruct p2 as [|c p2]; [by destruct Htl as [-> | ->]|]. cbn [String.append] in Hp. injection Hp as -> Hp.
  cbn [String.append skip_ws]. change (is_ws _) with false. cbv iota. cbn [head_is].
  change (byteZ _ =? 58) with true. cbv iota. cbn [mbind option_bind].
  apply app_prefix in Hp as [(p3 & -> & Hp)|(q' & Hq' & Hp & _)].
  2: { pose proof (cut_scalar f d v p2 q' Hv Hq' Hp) as Hb.
       destruct (parse_value f d (p2 +:+ tl)) as [[v0 r0]|]; [|done]. by apply members_broken. }
  rewrite string_app_assoc. destruct f as [|f]; [done|].
  destruct (decide (p3 +:+ tl = "")%string) as [He|He].
  { rewrite He, (parse_scalar (S f) d v "") by (done || lia). done. }
  assert (Ht : exists c t, (p3 +:+ tl)%string = String c t /\ ends_number (String c t) = true /\
    is_ws c = false /\ byteZ c =? 125 = false /\
    (byteZ c =? 44 = false \/ (l <> [] /\ exists p4, t = (p4 +:+ tl)%string /\ (p4 +:+ q = print_members l)%string))).
  { destruct p3 as [|c p3].
    { destruct Htl as [Htl'|Htl']; rewrite Htl' in He |- *; [done|].
      eexists _, _; split_and!; try reflexivity; by left. }
    destruct l as [|kv l]; cbn [String.append] in Hp; injection Hp as -> Hp; [by destruct p3, q|].
    eexists _, _; split_and!; try reflexivity. right. split; [done|]. by exists p3. }
  destruct Ht as (c & t & -> & He' & Hw & Hc1 & Hc2).
  rewrite parse_scalar by (done || lia). cbn [skip_ws]. rewrite Hw, Hc1.
  destruct Hc2 as [->|(Hl' & p4 & -> & Hp4)]; [done|].
  destruct (byteZ c =? 44); [|done]. by rewrite (IH (S f) d p4 q).
Qed.

Lemma print_members_head l : l <> [] -> exists t, print_members l = String (Zbyte 34) t.
Proof. destruct l as [|[k v] l]; [done|]. rewrite print_members_cons, marshal_string_app. eauto. Qed.

(** No beginning of a printed object followed by the text parses, the whole
    object followed by nothing excepted. *)
Lemma cut_object l p q :
  members_ok l = true -> l <> [] -> p <> ""%string -> (tl <> "" \/ q <> "")%string -> (p +:+ q = print_object l)%string ->
  parse_json (p +:+ tl) = None.
Proof.
  intros Hl Hne Hp0 Hcut Hp. destruct (print_members_head l Hne) as [t Ht].
  destruct p as [|c p]; [done|]. unfold print_object in Hp. cbn [String.append] in Hp. injection Hp as -> Hp.
  set (f := S (json_fuel (p +:+ tl) + 2 * length l)).
  rewrite (parse_json_fuel _ (S f)) by (unfold f, json_fuel; cbn [String.append String.length]; lia).
  cbn [String.append parse_value skip_ws]. change (is_ws _) with false. cbv iota zeta.
  change (byteZ _ =? 34) with false. change (byteZ _ =? 123) with true. cbv iota.
  change (max_depth <=? 0) with false. cbv iota.
  assert (Hh : head_is 125 (skip_ws (p +:+ tl)) = None).
  { destruct p as [|c p]; [by destruct Htl as [-> | ->]|]. rewrite Ht in Hp. cbn [String.append] in Hp. by injection Hp as -> _. }
  rewrite Hh. destruct (decide (q = "")%string) as [->|Hq].
  - rewrite string_app_nil_r in Hp. subst p.
    rewrite parse_print_members by (done || (unfold f; lia)).
    destruct Hcut as [Hcut|]; [|done]. by destruct Htl as [? | ->].
  - by rewrite (cut_members l f (0 + 1) p q).
Qed.
End cut.

(** ** Printed strings are ASCII when their text is *)
Lemma escape_char_ascii c : byteZ c <? 128 = true -> is_ascii (escape_char c) = true.
Proof. destruct c as [[] [] [] [] [] [] [] []]; intros Hc; try discriminate Hc; reflexivity. Qed.
Lemma marshal_string_ascii s : is_ascii s = true -> is_ascii (marshal_string s) = true.
Proof.
  intros Hs. assert (He : is_ascii (escape_string s) = true); [|unfold marshal_string; auto with ascii].
  induction s as [|c s IH]; [done|]. apply andb_true_iff in Hs as [Hc Hs]. unfold escape_string in *.
  rewrite utf8_map_ascii by done. auto using escape_char_ascii with ascii.
Qed.
#[export] Hint Resolve marshal_string_ascii : ascii.

(** ** A flat map is encoded as the object it is *)
Definition flat (l : list (string * scalar)) : list (string * jv) := map (fun kv => (kv.1, JvScalar kv.2)) l.
Lemma encode_flat l : encode_json (JvObj (flat l)) = Some (print_object l).
Proof.
  cbn [encode_json]. set (enc := fun kv : string * jv => _).
  destruct l as [|kv l]; [reflexivity|].
  assert (H : exists b, join_items enc (flat (kv :: l)) = Some b /\ (b +:+ "}" = print_members (kv :: l))%string).
  { revert kv. induction l as [|kv' l IH]; intros [k v].
    - eexists. split; [reflexivity|]. cbn. by rewrite !string_app_assoc.
    - destruct (IH kv') as (b & Hb & Hp).
      change (join_items enc (flat ((k, v) :: kv' :: l)))
        with (match join_items enc (flat (kv' :: l)) with
              | Some b => Some ((marshal_string k +:+ ":" +:+ print_scalar v) +:+ "," +:+ b)%string
              | None => None
              end).
      rewrite Hb. eexists. split; [reflexivity|].
      change (print_members ((k, v) :: kv' :: l))
        with (marshal_string k +:+ ":" +:+ print_scalar v +:+ "," +:+ print_members (kv' :: l))%string.
      rewrite <-Hp, !string_app_assoc. done. }
  destruct H as (b & -> & Hb). unfold print_object. by rewrite <-Hb.
Qed.

(** ** What Marshal printed is compact already *)
Lemma compact_escape d rest :
  compact_text true (String (Zbyte 92) (String d rest)) = String (Zbyte 92) (String d (compact_text true rest)).
Proof. reflexivity. Qed.
Lemma compact_plain c rest :
  byteZ c <? 128 = true -> byteZ c <> 34 -> byteZ c <> 92 -> byteZ c <> 60 -> byteZ c <> 62 -> byteZ c <> 38 ->
  compact_text true (String c rest) = String c (compact_text true rest).
Proof.
  intros Ha H34 H92 H60 H62 H38. cbn [compact_text negb].
  repeat (rewrite (proj2 (Z.eqb_neq (byteZ c) _)) by done). cbn [orb].
  destruct rest as [|d [|e rest]]; [done..|].
  assert (Hne : forall r s, String c s <> String (Zbyte 226) r).
  { intros r s [= Hc _]. subst c. discriminate Ha. }
  rewrite !bool_decide_eq_false_2; [done| |]; intros He.
  - exact (Hne (chr 128 +:+ chr 169)%string _ He).
  - exact (Hne (chr 128 +:+ chr 168)%string _ He).
Qed.
Lemma hex_digit_plain v :
  0 <= v < 16 -> let b := byteZ (hex_digit v) in
  b <? 128 = true /\ b <> 34 /\ b <> 92 /\ b <> 60 /\ b <> 62 /\ b <> 38.
Proof.
  intros Hv. unfold hex_digit. destruct (Z.ltb_spec v 10); rewrite byteZ_Zbyte by lia; split_and!; lia.
Qed.
Lemma compact_escape_char c rest :
  byteZ c <? 128 = true -> compact_text true (escape_char c +:+ rest) = (escape_char c +:+ compact_text true rest)%string.
Proof.
  intros Hc. unfold escape_char. pose proof (byteZ_range c) as Hr.
  assert (Hp : forall v s, 0 <= v < 16 ->
    compact_text true (String (hex_digit v) s) = String (hex_digit v) (compact_text true s)).
  { intros v s Hv. destruct (hex_digit_plain v Hv) as (H1 & H2 & H3 & H4 & H5 & H6). by apply compact_plain. }
  destruct (Z.eqb_spec (byteZ c) 34), (Z.eqb_spec (byteZ c) 92); cbn [orb]; [apply compact_escape..|].
  destruct (Z.eqb_spec (byteZ c) 8); [exact (compact_escape (Zbyte 98) rest)|].
  destruct (Z.eqb_spec (byteZ c) 12); [exact (compact_escape (Zbyte 102) rest)|].
  destruct (Z.eqb_spec (byteZ c) 10); [exact (compact_escape (Zbyte 110) rest)|].
  destruct (Z.eqb_spec (byteZ c) 13); [exact (compact_escape (Zbyte 114) rest)|].
  destruct (Z.eqb_spec (byteZ c) 9); [exact (compact_escape (Zbyte 116) rest)|].
  destruct ((byteZ c <? 32) || (byteZ c =? 60) || (byteZ c =? 62) || (byteZ c =? 38)) eqn:Hs.
  - destruct (nibbles c) as (Hd & Hm & _). unfold hex2.
    set (x := hex_digit (byteZ c / 16)). set (y := hex_digit (byteZ c mod 16)).
    assert (Hu : forall r, (("\u00" +:+ String x (String y "")) +:+ r)%string
      = String (Zbyte 92) (String (Zbyte 117) (String (hex_digit 0) (String (hex_digit 0) (String x (String y r))))))
      by reflexivity.
    rewrite !Hu. unfold x, y.
    rewrite compact_escape, !Hp by lia. done.
  - rewrite !orb_false_iff in Hs. destruct Hs as [[[_ H60] H62] H38].
    apply (compact_plain c rest); try done; by apply Z.eqb_neq.
Qed.
Lemma compact_body s rest :
  is_ascii s = true ->
  compact_text true (escape_string s +:+ quote +:+ rest) = (escape_string s +:+ quote +:+ compact_text false rest)%string.
Proof.
  induction s as [|c s IH]; [reflexivity|]. intros [Hc Hs]%andb_true_iff. unfold escape_string in *.
  rewrite utf8_map_ascii, !string_app_assoc by done. by rewrite compact_escape_char, (IH Hs).
Qed.
Lemma compact_string s rest :
  is_ascii s = true -> compact_text false (marshal_string s +:+ rest) = (marshal_string s +:+ compact_text false rest)%string.
Proof.
  intros Hs. rewrite !marshal_string_app. cbn [compact_text negb]. change (is_ws (Zbyte 34)) with false.
  cbv iota. change (byteZ (Zbyte 34) =? 34) with true. by rewrite compact_body.
Qed.
Lemma compact_digits d rest :
  string_forall is_digit d = true -> compact_text false (d +:+ rest) = (d +:+ compact_text false rest)%string.
Proof.
  induction d as [|c d IH]; [done|]. cbn [string_forall]. intros [Hc Hd]%andb_true_iff.
  cbn [String.append compact_text negb].
  assert (Hw : is_ws c = false) by (unfold is_ws, is_digit in *; lia).
  rewrite Hw, (is_digit_not c 34) by (done || lia). by rewrite IH.
Qed.
Lemma compact_scalar x rest :
  scalar_ok x = true -> compact_text false (print_scalar x +:+ rest) = (print_scalar x +:+ compact_text false rest)%string.
Proof.
  destruct x as [n|s]; cbn [scalar_ok print_scalar]; [|apply compact_string].
  intros Hn. rewrite itoa_nonneg by lia. apply compact_digits, utoa_digits. lia.
Qed.
Lemma compact_members l :
  members_ok l = true -> compact_text false (print_members l) = print_members l.
Proof.
  induction l as [|[k v] l IH]; [reflexivity|]. intros [[Hk Hv]%andb_true_iff Hl]%andb_true_iff. cbn in Hk, Hv.
  rewrite print_members_cons, compact_string by done.
  assert (Hcolon : forall r, compact_text false (String (Zbyte 58) r) = String (Zbyte 58) (compact_text false r)) by done.
  rewrite Hcolon, compact_scalar by done. do 3 f_equal. destruct l; [reflexivity|].
  assert (Hcomma : forall r, compact_text false ("," +:+ r) = ("," +:+ compact_text false r)%string) by done.
  by rewrite Hcomma, IH.
Qed.
Lemma compact_object l : members_ok l = true -> compact_json (print_object l) = Some (print_object l).
Proof.
  intros Hl. unfold compact_json. rewrite parse_print_object by done. f_equal. unfold print_object.
  assert (Hbrace : forall r, compact_text false ("{" +:+ r) = ("{" +:+ compact_text false r)%string) by done.
  by rewrite Hbrace, compact_members.
Qed.
