(* ===== verification/HttpFacts.v ===== *)
(** * Facts about the HTTP vocabulary: base64 and percent-encoded paths *)
From S2P Require Import Prelude GoLib Http.

(** ** base64 *)
Lemma b64_val_char v : 0 <= v < 64 -> b64_val (b64_char v) = Some v.
Proof.
  intros H. assert (Hin : In v (seqZ 0 64)) by (apply list_elem_of_In, elem_of_seqZ; lia).
  cbn in Hin. by repeat (destruct Hin as [<-|Hin]; [reflexivity|]).
Qed.
Lemma b64_char_text v :
  0 <= v < 64 ->
  let b := byteZ (b64_char v) in (b =? 10) || (b =? 13) = false /\ b =? 46 = false.
Proof.
  intros H. assert (Hin : In v (seqZ 0 64)) by (apply list_elem_of_In, elem_of_seqZ; lia).
  cbn in Hin. by repeat (destruct Hin as [<-|Hin]; [by vm_compute|]).
Qed.
Lemma b64_values_cons v s vs :
  0 <= v < 64 -> b64_values s = Some vs -> b64_values (String (b64_char v) s) = Some (v :: vs).
Proof.
  intros Hv Hs. cbn [b64_values]. destruct (b64_char_text v Hv) as [-> _]. by rewrite b64_val_char, Hs.
Qed.

(** The 6-bit groups of one, two and three bytes, and back. *)
Lemma sextets x y z :
  0 <= x < 256 -> 0 <= y < 256 -> 0 <= z < 256 ->
  0 <= x / 4 < 64 /\ 0 <= x mod 4 * 16 + y / 16 < 64 /\ 0 <= y mod 16 * 4 + z / 64 < 64 /\ 0 <= z mod 64 < 64 /\
  x / 4 * 4 + (x mod 4 * 16 + y / 16) / 16 = x /\
  (x mod 4 * 16 + y / 16) mod 16 * 16 + (y mod 16 * 4 + z / 64) / 4 = y /\
  (y mod 16 * 4 + z / 64) mod 4 * 64 + z mod 64 = z.
Proof. intros. split_and!; Z.div_mod_to_equations; lia. Qed.

(** Triples of bytes: the induction that base64 follows. *)
Lemma string_triples (P : string -> Prop) :
  P ""%string -> (forall a, P (String a "")) -> (forall a b, P (String a (String b ""))) ->
  (forall a b c s, P s -> P (String a (String b (String c s)))) -> forall s, P s.
Proof.
  intros H0 H1 H2 H3 s. enough (forall n s, (String.length s <= n)%nat -> P s) by eauto.
  induction n as [n IH] using lt_wf_ind. intros [|a [|b [|c s']]] Hn; auto.
  apply H3. cbn in Hn. apply (IH (n - 3)%nat); lia.
Qed.

Lemma b64_roundtrip s : b64_decode (b64_encode s) = Some s.
Proof.
  assert (H0 : 0 <= 0 < 256) by lia.
  induction s as [|a|a b|a b c s IH] using string_triples; [done|..]; unfold b64_decode in *.
  - destruct (sextets (byteZ a) 0 0 (byteZ_range a) H0 H0) as (R1 & R2 & _ & _ & E1 & _).
    rewrite Z.div_0_l, Z.add_0_r in R2, E1 by lia. cbn [b64_encode].
    erewrite b64_values_cons; [|done|by apply b64_values_cons]. cbn. unfold chr. by rewrite E1, Zbyte_byteZ.
  - destruct (sextets (byteZ a) (byteZ b) 0 (byteZ_range a) (byteZ_range b) H0) as (R1 & R2 & R3 & _ & E1 & E2 & _).
    rewrite Z.div_0_l, Z.add_0_r in R3, E2 by lia. cbn [b64_encode].
    erewrite b64_values_cons; [|done|apply b64_values_cons; [done|by apply b64_values_cons]].
    cbn. unfold chr. by rewrite E1, E2, !Zbyte_byteZ.
  - destruct (sextets (byteZ a) (byteZ b) (byteZ c) (byteZ_range a) (byteZ_range b) (byteZ_range c))
      as (R1 & R2 & R3 & R4 & E1 & E2 & E3).
    apply bind_Some in IH as (vs & Hvs & Hbytes). cbn [b64_encode].
    erewrite b64_values_cons; [|done|apply b64_values_cons; [done|apply b64_values_cons; [done|by apply b64_values_cons]]].
    cbn. rewrite Hbytes. cbn. by rewrite E1, E2, E3, !Zbyte_byteZ.
Qed.

Definition no_dot (s : string) : bool := string_forall (fun c => negb (byteZ c =? 46)) s.
Lemma b64_no_dot s : no_dot (b64_encode s) = true.
Proof.
  assert (Hc : forall v s, 0 <= v < 64 -> no_dot s = true -> no_dot (String (b64_char v) s) = true).
  { intros v t Hv Ht. unfold no_dot. cbn [string_forall]. destruct (b64_char_text v Hv) as [_ ->]. exact Ht. }
  assert (H0 : 0 <= 0 < 256) by lia.
  induction s as [|a|a b|a b c s IH] using string_triples; [done|..]; cbn [b64_encode].
  - destruct (sextets (byteZ a) 0 0 (byteZ_range a) H0 H0) as (R1 & R2 & _).
    rewrite Z.div_0_l, Z.add_0_r in R2 by lia. by repeat apply Hc.
  - destruct (sextets (byteZ a) (byteZ b) 0 (byteZ_range a) (byteZ_range b) H0) as (R1 & R2 & R3 & _).
    rewrite Z.div_0_l, Z.add_0_r in R3 by lia. by repeat apply Hc.
  - destruct (sextets (byteZ a) (byteZ b) (byteZ c) (byteZ_range a) (byteZ_range b) (byteZ_range c))
      as (R1 & R2 & R3 & R4 & _). by repeat apply Hc.
Qed.

(** ** Splitting *)
Lemma split_on_nonempty sep s : exists x l, split_on sep s = x :: l.
Proof.
  destruct s as [|c s]; cbn; [eauto|]. case_match; [eauto|]. destruct (split_on sep s); eauto.
Qed.
Lemma split_on_absent sep s :
  string_forall (fun c => negb (Ascii.eqb c sep)) s = true -> split_on sep s = [s].
Proof.
  induction s as [|c s IH]; [done|]. cbn. intros [Hc%negb_true_iff Hs]%andb_true_iff. by rewrite Hc, IH.
Qed.
Lemma split_on_app sep s t :
  string_forall (fun c => negb (Ascii.eqb c sep)) s = true ->
  split_on sep (s +:+ String sep t) = s :: split_on sep t.
Proof.
  induction s as [|c s IH]; cbn.
  - intros _. by rewrite Ascii.eqb_refl.
  - intros [Hc%negb_true_iff Hs]%andb_true_iff. by rewrite Hc, IH.
Qed.
Lemma no_dot_absent s :
  no_dot s = true -> string_forall (fun c => negb (Ascii.eqb c (Zbyte 46))) s = true.
Proof.
  unfold no_dot. induction s as [|c s IH]; [done|]. cbn [string_forall].
  intros [Hc Hs]%andb_true_iff. rewrite IH by done.
  destruct (Ascii.eqb_spec c (Zbyte 46)) as [->|]; [by cbn in Hc|done].
Qed.

(** ** Percent-encoded paths
    The segments of the escaped path, unescaped, are those of the path. *)
Lemma hex_val_slash : hex_val slash = None.
Proof. reflexivity. Qed.

Lemma first_segment s : forall p,
  path_unescape s = Some p ->
  exists x l a, split_on slash s = x :: l /\ path_unescape x = Some a /\
    ((l = [] /\ p = a) \/
     exists s' q, l = split_on slash s' /\ path_unescape s' = Some q /\ p = (a +:+ String slash q)%string).
Proof.
  enough (H : forall n s p, (String.length s <= n)%nat -> path_unescape s = Some p ->
    exists x l a, split_on slash s = x :: l /\ path_unescape x = Some a /\
      ((l = [] /\ p = a) \/
       exists s' q, l = split_on slash s' /\ path_unescape s' = Some q /\ p = (a +:+ String slash q)%string)) by eauto.
  induction n as [|n IH]; intros [|c t] p Hn; cbn in Hn; try lia.
  1,2: intros [= <-]; exists ""%string, [], ""%string; split_and!; [done..|by left].
  unfold path_unescape. cbn [unescape]. destruct (Z.eqb_spec (byteZ c) 37) as [Hc|Hc].
  - destruct t as [|a [|b t]]; [done..|].
    destruct (hex_val a) as [x|] eqn:Ha; [|done]. destruct (hex_val b) as [y|] eqn:Hb; [|done].
    destruct (unescape false t) as [r|] eqn:Ht; [|done]. intros [= <-].
    destruct (IH t r) as (sg & l & u & Hs & Hu & Hcase); [cbn in Hn; lia|done|].
    exists (String c (String a (String b sg))), l, (String (Zbyte (x * 16 + y)) u). split_and!.
    + cbn [split_on]. rewrite Hs.
      assert (Hne : forall d v, hex_val d = Some v -> Ascii.eqb d slash = false).
      { intros d v Hd. destruct (Ascii.eqb_spec d slash) as [->|]; [by rewrite hex_val_slash in Hd|done]. }
      rewrite (Hne _ _ Ha), (Hne _ _ Hb). destruct (Ascii.eqb_spec c slash) as [->|]; [by cbn in Hc|done].
    + unfold path_unescape in *. cbn [unescape]. rewrite Hc. cbn. by rewrite Ha, Hb, Hu.
    + destruct Hcase as [[-> ->]|(s' & q & -> & Hq & ->)]; [by left|]. right. by exists s', q.
  - cbn [andb]. intros (r & Ht & ->)%fmap_Some.
    destruct (IH t r) as (sg & l & u & Hs & Hu & Hcase); [lia|done|]. cbn [split_on]. rewrite Hs.
    destruct (Ascii.eqb_spec c slash) as [->|Hsl].
    + exists ""%string, (sg :: l), ""%string. split_and!; [done..|]. right. exists t, r. by rewrite Hs.
    + exists (String c sg), l, (String c u). split_and!; [done| |].
      * unfold path_unescape in *. cbn [unescape]. rewrite (proj2 (Z.eqb_neq _ _) Hc), Hu. done.
      * destruct Hcase as [[-> ->]|(s' & q & -> & Hq & ->)]; [by left|]. right. by exists s', q.
Qed.
