(* ===== verification/Float64Facts.v ===== *)
(** * Facts about [float64] and NUMERIC(20,8)

    Arithmetic and comparison are exact on whole numbers below 2^53, a whole
    NUMERIC is read back exactly, subtraction of a covered amount keeps the
    sign; and a concrete [NumericCodec] that satisfies the laws. *)
From S2P Require Import Prelude GoLib Float64.
From Corelib Require Import SpecFloat.


(** ** Exactness on whole numbers *)
Definition ndigits (p : positive) : Z := Z.log2 (Zpos p) + 1.

Lemma digits2_pos_log2 p : Zpos (digits2_pos p) = ndigits p.
Proof.
  unfold ndigits. induction p as [p IH|p IH|]; cbn [digits2_pos]; [| |done].
  - rewrite Pos2Z.inj_succ, IH, Pos2Z.inj_xI, Z.log2_succ_double; lia.
  - rewrite Pos2Z.inj_succ, IH, Pos2Z.inj_xO, Z.log2_double; lia.
Qed.

Lemma ndigits_shift p q k : 0 <= k -> Zpos q = Zpos p * 2 ^ k -> ndigits q = ndigits p + k.
Proof. intros Hk E. unfold ndigits. rewrite E, Z.log2_mul_pow2 by lia. lia. Qed.

Lemma iter_pos_iter {A} (f : A -> A) n x : iter_pos f n x = Pos.iter f x n.
Proof.
  revert x; induction n as [n IH|n IH|]; intros x; cbn; [| |done].
  - by rewrite !IH, !Pos.iter_swap.
  - by rewrite !IH.
Qed.

Lemma shr_1_exact n m :
  Pos.iter shr_1 {| shr_m := m * 2 ^ Zpos n; shr_r := false; shr_s := false |} n
  = {| shr_m := m; shr_r := false; shr_s := false |}.
Proof.
  revert m. induction n as [|n IH] using Pos.peano_ind; intros m.
  - rewrite Z.mul_comm. by destruct m.
  - rewrite Pos.iter_succ_r, Pos2Z.inj_succ, Z.pow_succ_r by lia.
    replace (m * (2 * 2 ^ Zpos n)) with (2 * (m * 2 ^ Zpos n)) by lia.
    rewrite <-(IH m). f_equal. by destruct (m * 2 ^ Zpos n).
Qed.

Lemma shr_exact m n e :
  0 <= n ->
  shr {| shr_m := m * 2 ^ n; shr_r := false; shr_s := false |} e n
  = ({| shr_m := m; shr_r := false; shr_s := false |}, e + n).
Proof.
  intros Hn. unfold shr. destruct n as [|n|n]; [|by rewrite iter_pos_iter, shr_1_exact|lia].
  by rewrite Z.mul_1_r, Z.add_0_r.
Qed.

Lemma shl_align_left p d e : Zpos (shl_align p (e + Zpos d) e).1 = Zpos p * 2 ^ Zpos d.
Proof.
  unfold shl_align. replace (e - (e + Zpos d)) with (Zneg d) by lia. cbn [fst].
  fold (Zpower.shift_pos d p). rewrite Zpower.shift_pos_correct.
  change (Z.pow_pos 2 d) with (2 ^ Zpos d). lia.
Qed.

Lemma shl_align_right p e e' : e <= e' -> shl_align p e e' = (p, e).
Proof. intros H. unfold shl_align. by destruct (e' - e) eqn:?; [..|lia]. Qed.

Lemma shr_fexp_exact m n e :
  0 <= n -> fexp 53 1024 (Zdigits2 (m * 2 ^ n) + e) = e + n ->
  shr_fexp 53 1024 (m * 2 ^ n) e loc_Exact
  = ({| shr_m := m; shr_r := false; shr_s := false |}, e + n).
Proof.
  intros Hn He. unfold shr_fexp. rewrite He. replace (e + n - e) with n by lia.
  cbn [shr_record_of_loc]. by apply shr_exact.
Qed.

Definition canon (s : bool) (p : positive) : float64 :=
  S754_finite s (Z.to_pos (Zpos p * 2 ^ (53 - ndigits p))) (ndigits p - 53).

Lemma ndigits_pos p : 0 < ndigits p.
Proof. unfold ndigits. pose proof (Z.log2_nonneg (Zpos p)). lia. Qed.

Lemma fexp_small d : 0 < d -> fexp 53 1024 d = d - 53.
Proof. intros. unfold fexp, emin. lia. Qed.

Lemma binary_round_aux_exact s p j :
  ndigits p <= 53 -> 53 - ndigits p <= j ->
  binary_round_aux 53 1024 s (Zpos p * 2 ^ j) (- j) loc_Exact = canon s p.
Proof.
  intros Hd Hj. pose proof (ndigits_pos p) as Hp.
  set (n := j - (53 - ndigits p)). set (m := Zpos p * 2 ^ (53 - ndigits p)).
  assert (Hm : 0 < m) by (unfold m; apply Z.mul_pos_pos; [lia|apply Z.pow_pos_nonneg; lia]).
  assert (Hj2 : Zpos p * 2 ^ j = m * 2 ^ n).
  { unfold m, n. rewrite <-Z.mul_assoc, <-Z.pow_add_r by lia. do 2 f_equal; lia. }
  assert (Hdig : forall k, 0 <= k -> Zdigits2 (m * 2 ^ k) = 53 + k).
  { intros k Hk. destruct (m * 2 ^ k) as [|q|q] eqn:E.
    - pose proof (Z.pow_pos_nonneg 2 k). nia.
    - cbn. rewrite digits2_pos_log2, (ndigits_shift p q (53 - ndigits p + k)); [lia..|].
      rewrite <-E. unfold m. rewrite Z.pow_add_r by lia. lia.
    - pose proof (Z.pow_pos_nonneg 2 k). nia. }
  unfold binary_round_aux. rewrite Hj2, (shr_fexp_exact m n).
  2: unfold n; lia.
  2:{ rewrite Hdig by (unfold n; lia). rewrite fexp_small; unfold n; lia. }
  cbn [shr_m loc_of_shr_record round_nearest_even].
  assert (Hm1 : m = m * 2 ^ 0) by (rewrite Z.pow_0_r; lia).
  rewrite Hm1 at 1. rewrite (shr_fexp_exact m 0); [|lia|].
  2:{ rewrite Hdig by lia. rewrite fexp_small; unfold n; lia. }
  cbn [shr_m]. destruct m as [|q|q] eqn:E; [lia| |lia].
  replace (- j + n + 0) with (ndigits p - 53) by (unfold n; lia).
  replace (ndigits p - 53 <=? 1024 - 53) with true by lia.
  unfold canon. f_equal. fold m. by rewrite E.
Qed.

Lemma binary_round_exact s p q k :
  0 <= k -> Zpos q = Zpos p * 2 ^ k -> ndigits p <= 53 ->
  binary_round 53 1024 s q (- k) = canon s p.
Proof.
  intros Hk Hq Hd. pose proof (ndigits_pos p).
  unfold binary_round. rewrite digits2_pos_log2, (ndigits_shift p q k) by done.
  replace (ndigits p + k + - k) with (ndigits p) by lia. rewrite fexp_small by done.
  destruct (Z_lt_le_dec (ndigits p - 53) (- k)) as [Hlt|Hle].
  - destruct (- k - (ndigits p - 53)) as [|d|d] eqn:E; try lia.
    pose proof (shl_align_left q d (ndigits p - 53)) as Hs.
    unfold shl_align in *.
    replace (ndigits p - 53 - (ndigits p - 53 + Zpos d)) with (Zneg d) in Hs by lia.
    replace (ndigits p - 53 - - k) with (Zneg d) by lia.
    cbn [fst] in Hs. rewrite Hs, Hq, <-Z.mul_assoc, <-Z.pow_add_r by lia.
    replace (ndigits p - 53) with (- (k + Zpos d)) by lia.
    apply binary_round_aux_exact; lia.
  - rewrite shl_align_right by lia. rewrite Hq. apply binary_round_aux_exact; lia.
Qed.

Definition small_int (z : Z) : Prop := Z.abs z < 2 ^ 53.

Lemma ndigits_small p : small_int (Zpos p) -> ndigits p <= 53.
Proof.
  unfold small_int, ndigits. intros H.
  assert (Z.log2 (Zpos p) < 53); [|lia]. apply Z.log2_lt_pow2; lia.
Qed.

(** Normalising an integer given at a finer scale gives the integer's float. *)
Lemma normalize_exact z k :
  0 <= k -> small_int z -> binary_normalize 53 1024 (z * 2 ^ k) (- k) false = f_of_Z z.
Proof.
  intros Hk Hz. pose proof (Z.pow_pos_nonneg 2 k ltac:(lia) Hk) as Hpow.
  destruct z as [|p|p]; [done|..].
  - destruct (Zpos p * 2 ^ k) as [|q|q] eqn:E; try nia. unfold f_of_Z; cbn [binary_normalize].
    rewrite (binary_round_exact _ p q k) by auto using ndigits_small.
    symmetry. apply (binary_round_exact _ p p 0); auto using ndigits_small; lia.
  - destruct (Zneg p * 2 ^ k) as [|q|q] eqn:E; try nia. unfold f_of_Z; cbn [binary_normalize].
    assert (Hd : ndigits p <= 53) by (apply ndigits_small; unfold small_int in *; lia).
    rewrite (binary_round_exact _ p q k) by (auto; lia).
    symmetry. apply (binary_round_exact _ p p 0); auto; lia.
Qed.

Lemma f_of_Z_pos p : small_int (Zpos p) -> f_of_Z (Zpos p) = canon false p.
Proof. intros H. apply (binary_round_exact _ p p 0); auto using ndigits_small; lia. Qed.
Lemma f_of_Z_neg p : small_int (Zneg p) -> f_of_Z (Zneg p) = canon true p.
Proof.
  intros H. apply (binary_round_exact _ p p 0); [lia|lia|].
  apply ndigits_small; unfold small_int in *; lia.
Qed.

(** The two operands of an operation on whole floats, aligned. *)
Lemma shl_align_canon p e :
  0 <= e <= 1100 -> - e <= ndigits p - 53 -> ndigits p <= 53 ->
  Zpos (shl_align (Z.to_pos (Zpos p * 2 ^ (53 - ndigits p))) (ndigits p - 53) (- e)).1
  = Zpos p * 2 ^ e.
Proof.
  intros He Hle Hd. pose proof (ndigits_pos p).
  assert (Hpos : 0 < Zpos p * 2 ^ (53 - ndigits p))
    by (apply Z.mul_pos_pos; [lia|apply Z.pow_pos_nonneg; lia]).
  destruct (Z.eq_dec (- e) (ndigits p - 53)) as [E|Hne].
  - rewrite shl_align_right by lia. cbn [fst]. rewrite Z2Pos.id by done. do 2 f_equal. lia.
  - destruct (ndigits p - 53 - - e) as [|d|d] eqn:E; try lia.
    replace (ndigits p - 53) with (- e + Zpos d) by lia.
    rewrite shl_align_left.
    replace (- e + Zpos d) with (ndigits p - 53) in * by lia.
    rewrite Z2Pos.id by done. rewrite <-Z.mul_assoc, <-Z.pow_add_r by lia. do 2 f_equal. lia.
Qed.

(** A whole number as the float operand it is: its sign, mantissa and exponent. *)
Definition whole_operand (a : Z) (x : float64) : Prop :=
  exists s m d, x = S754_finite s m (d - 53) /\ 0 < d <= 53 /\
    forall e, 53 - d <= e <= 1100 -> cond_Zopp s (Zpos (shl_align m (d - 53) (- e)).1) = a * 2 ^ e.

Lemma f_of_Z_operand a : small_int a -> a <> 0 -> whole_operand a (f_of_Z a).
Proof.
  intros Ha Hn. destruct a as [|p|p]; [done|..].
  - pose proof (ndigits_pos p). pose proof (ndigits_small p Ha).
    rewrite f_of_Z_pos by done. eexists _, _, (ndigits p). split; [done|]. split; [lia|].
    intros e He. rewrite shl_align_canon by lia. done.
  - assert (Hp : small_int (Zpos p)) by (unfold small_int in *; lia).
    pose proof (ndigits_pos p). pose proof (ndigits_small p Hp).
    rewrite f_of_Z_neg by done. eexists _, _, (ndigits p). split; [done|]. split; [lia|].
    intros e He. rewrite shl_align_canon by lia. cbn. lia.
Qed.

Ltac whole_ops a b Ha Hb :=
  destruct (f_of_Z_operand a Ha ltac:(assumption)) as (? & ? & d1 & -> & Hd1 & Hop1);
  destruct (f_of_Z_operand b Hb ltac:(assumption)) as (? & ? & d2 & -> & Hd2 & Hop2);
  let E := fresh "E" in
  assert (E : Z.min (d1 - 53) (d2 - 53) = - (53 - Z.min d1 d2)) by lia;
  specialize (Hop1 (53 - Z.min d1 d2) ltac:(lia));
  specialize (Hop2 (53 - Z.min d1 d2) ltac:(lia)).

Lemma f_of_Z_add a b :
  small_int a -> small_int b -> small_int (a + b) ->
  fadd (f_of_Z a) (f_of_Z b) = f_of_Z (a + b).
Proof.
  intros Ha Hb Hab.
  destruct (Z.eq_dec a 0) as [->|Hna].
  { destruct (Z.eq_dec b 0) as [->|Hnb]; [done|]. rewrite Z.add_0_l.
    destruct (f_of_Z_operand b Hb Hnb) as (? & ? & ? & -> & _). done. }
  destruct (Z.eq_dec b 0) as [->|Hnb].
  { rewrite Z.add_0_r. destruct (f_of_Z_operand a Ha Hna) as (? & ? & ? & -> & _). done. }
  rewrite <-(normalize_exact (a + b) (53 - 1)) by (done || lia).
  whole_ops a b Ha Hb. unfold fadd. cbn [SFadd]. rewrite E, Hop1, Hop2, <-Z.mul_add_distr_r.
  rewrite !normalize_exact by (done || lia). done.
Qed.

Lemma f_of_Z_sub a b :
  small_int a -> small_int b -> small_int (a - b) ->
  fsub (f_of_Z a) (f_of_Z b) = f_of_Z (a - b).
Proof.
  intros Ha Hb Hab.
  destruct (Z.eq_dec b 0) as [->|Hnb].
  { rewrite Z.sub_0_r. destruct (Z.eq_dec a 0) as [->|Hna]; [done|].
    destruct (f_of_Z_operand a Ha Hna) as (? & ? & ? & -> & _). done. }
  destruct (Z.eq_dec a 0) as [->|Hna].
  { destruct b as [|p|p]; [done|change (0 - Zpos p) with (Zneg p) in *
                          |change (0 - Zneg p) with (Zpos p) in *];
      [rewrite (f_of_Z_pos p Hb), (f_of_Z_neg p Hab)
      |rewrite (f_of_Z_neg p Hb), (f_of_Z_pos p Hab)]; done. }
  whole_ops a b Ha Hb. unfold fsub. cbn [SFsub]. rewrite E, Hop1, Hop2, <-Z.mul_sub_distr_r.
  rewrite !normalize_exact by (done || lia). done.
Qed.

Lemma f_of_Z_lt a b :
  small_int a -> small_int b -> fltb (f_of_Z a) (f_of_Z b) = (a <? b).
Proof.
  intros Ha Hb.
  destruct (Z.eq_dec a 0) as [->|Hna].
  { destruct b as [|p|p]; [done|..]; [rewrite (f_of_Z_pos p Hb)|rewrite (f_of_Z_neg p Hb)]; done. }
  destruct (Z.eq_dec b 0) as [->|Hnb].
  { destruct a as [|p|p]; [done|..]; [rewrite (f_of_Z_pos p Ha)|rewrite (f_of_Z_neg p Ha)]; done. }
  whole_ops a b Ha Hb. cbn [fltb]. unfold falign. rewrite E, Hop1, Hop2.
  pose proof (Z.pow_pos_nonneg 2 (53 - Z.min d1 d2) ltac:(lia) ltac:(lia)).
  destruct (Z.ltb_spec a b); [apply Z.ltb_lt|apply Z.ltb_ge]; nia.
Qed.

(** Reading a whole NUMERIC back gives the whole float. *)
Lemma SFdiv_whole s p q :
  Zpos q = Zpos p * units_per_one -> ndigits p <= 53 ->
  SFdiv 53 1024 (S754_finite s q 0) (S754_finite false 100000000 0) = canon s p.
Proof.
  intros Hq Hd. cbn [SFdiv]. unfold SFdiv_core_binary. cbn [Zdigits2].
  change (digits2_pos 100000000) with 27%positive.
  rewrite digits2_pos_log2.
  set (e' := Z.min _ _).
  assert (Hnq : ndigits q <= ndigits p + 27).
  { unfold ndigits. rewrite Hq.
    pose proof (Z.log2_mul_above (Zpos p) units_per_one ltac:(lia) ltac:(unfold units_per_one; lia)) as H.
    change (Z.log2 units_per_one) with 26 in H. lia. }
  pose proof (ndigits_pos q) as Hq0.
  assert (He : exists j, e' = - j /\ 0 <= j /\ 53 - ndigits p <= j).
  { exists (- e'). unfold e', fexp, emin. lia. }
  destruct He as (j & -> & Hj0 & Hj).
  assert (Hm : (match 0 - 0 - - j with Z0 => Zpos q | Zpos _ => Z.shiftl (Zpos q) (0 - 0 - - j)
                | Zneg _ => 0 end) = Zpos p * 2 ^ j * units_per_one).
  { replace (0 - 0 - - j) with j by lia.
    destruct j as [|j|j]; [rewrite Hq; lia| |lia].
    rewrite Z.shiftl_mul_pow2 by lia. lia. }
  rewrite Hm. change (Zpos 100000000) with units_per_one.
  replace (IntDef.Z.div_eucl (Zpos p * 2 ^ j * units_per_one) units_per_one)
    with (Zpos p * 2 ^ j, 0).
  2:{ change IntDef.Z.div_eucl with Z.div_eucl.
      pose proof (Z.div_mul (Zpos p * 2 ^ j) units_per_one ltac:(done)) as H1.
      pose proof (Z.mod_mul (Zpos p * 2 ^ j) units_per_one ltac:(done)) as H2.
      unfold Z.div, Z.modulo in H1, H2. destruct (Z.div_eucl _ _). congruence. }
  cbn [new_location]. change (new_location units_per_one 0) with loc_Exact.
  replace (xorb s false) with s by (by destruct s).
  by apply binary_round_aux_exact.
Qed.

Lemma float_of_num_whole z : small_int z -> float_of_num (Num (z * units_per_one)) = f_of_Z z.
Proof.
  intros Hz. destruct z as [|p|p]; [done|..].
  - change (Zpos p * units_per_one) with (Zpos (p * 100000000)). cbn [float_of_num].
    rewrite (SFdiv_whole false p), f_of_Z_pos by eauto using ndigits_small. done.
  - change (Zneg p * units_per_one) with (Zneg (p * 100000000)). cbn [float_of_num].
    rewrite (SFdiv_whole true p), f_of_Z_neg; [done..|].
    apply ndigits_small. unfold small_int in *. lia.
Qed.

(** ** Signs *)
Definition rec_nonneg (r : shr_record) : Prop := 0 <= shr_m r.

Lemma shr_1_nonneg r : rec_nonneg r -> rec_nonneg (shr_1 r).
Proof. destruct r as [[|[?|?|]|?] ? ?]; unfold rec_nonneg; cbn; lia. Qed.

Lemma shr_nonneg r e n : rec_nonneg r -> rec_nonneg (shr r e n).1.
Proof.
  intros H. unfold shr. destruct n as [|n|n]; cbn [fst]; try done.
  rewrite iter_pos_iter. induction n as [|n IH] using Pos.peano_ind.
  - by apply shr_1_nonneg.
  - rewrite Pos.iter_succ. by apply shr_1_nonneg.
Qed.

Lemma shr_fexp_nonneg m e l : 0 <= m -> rec_nonneg (shr_fexp 53 1024 m e l).1.
Proof. intros. apply shr_nonneg. unfold rec_nonneg. by destruct l as [|[]]. Qed.

Lemma round_nearest_even_nonneg m l : 0 <= m -> 0 <= round_nearest_even m l.
Proof. intros. destruct l as [|[]]; cbn; [..|lia]; try lia. destruct (IntDef.Z.even m); lia. Qed.

Lemma binary_round_aux_nonneg m e l :
  0 <= m -> fnonneg (binary_round_aux 53 1024 false m e l) = true.
Proof.
  intros Hm. unfold binary_round_aux.
  pose proof (shr_fexp_nonneg m e l Hm) as H1.
  destruct (shr_fexp 53 1024 m e l) as [r e1]; cbn [fst] in H1.
  pose proof (round_nearest_even_nonneg (shr_m r) (loc_of_shr_record r) H1) as H2.
  pose proof (shr_fexp_nonneg _ e1 loc_Exact H2) as H3.
  destruct (shr_fexp 53 1024 _ e1 loc_Exact) as [r2 e2]; cbn [fst] in H3.
  unfold rec_nonneg in H3. destruct (shr_m r2); [done| |lia]. by destruct (e2 <=? 1024 - 53).
Qed.

Lemma binary_normalize_nonneg m e :
  0 <= m -> fnonneg (binary_normalize 53 1024 m e false) = true.
Proof.
  intros Hm. destruct m as [|p|p]; [done| |lia]. cbn [binary_normalize].
  unfold binary_round. destruct (shl_align _ _ _). by apply binary_round_aux_nonneg.
Qed.

Definition ffinite (x : float64) : bool :=
  match x with S754_zero _ | S754_finite _ _ _ => true | _ => false end.

(** Subtracting a finite amount that the balance covers keeps the sign. *)
Lemma fsub_nonneg x y :
  ffinite y = true -> fnonneg x = true -> fnonneg y = true -> fltb x y = false ->
  fnonneg (fsub x y) = true.
Proof.
  intros Hf Hx Hy Hlt. unfold fsub.
  destruct x as [[]|[]| |[] mx ex], y as [[]|[]| |[] my ey]; try done.
  cbn [SFsub fltb] in *. unfold falign in Hlt.
  apply binary_normalize_nonneg. cbn [cond_Zopp] in *. lia.
Qed.

Lemma fadd_nonneg x y :
  fnonneg x = true -> fnonneg y = true -> fnonneg (fadd x y) = true.
Proof.
  intros Hx Hy. unfold fadd.
  destruct x as [[]|[]| |[] ? ?], y as [[]|[]| |[] ? ?]; try done.
  cbn [SFadd]. apply binary_normalize_nonneg. cbn [cond_Zopp]. lia.
Qed.

Lemma float_of_num_nonneg n : num_nonneg n = true -> fnonneg (float_of_num n) = true.
Proof.
  destruct n as [|[|p|p]]; cbn [num_nonneg float_of_num]; try done. intros _.
  cbn [SFdiv]. unfold SFdiv_core_binary. set (e' := Z.min _ _).
  change IntDef.Z.div_eucl with Z.div_eucl.
  match goal with |- context [Z.div_eucl ?n _] => set (m := n) end.
  assert (Hm : 0 <= m) by (unfold m; destruct (0 - 0 - e'); [lia|apply Z.shiftl_nonneg; lia|lia]).
  assert (Hq : 0 <= (Z.div_eucl m 100000000).1) by (apply (Z.div_pos m 100000000); lia).
  destruct (Z.div_eucl m 100000000) as [q r]. by apply binary_round_aux_nonneg.
Qed.

(** ** A concrete codec: round the exact value half away from zero. *)
Definition round_half_away (num den : Z) : Z := (2 * num + den) / (2 * den).

Definition exact_num_of_float (x : float64) : option numeric :=
  match x with
  | S754_nan => Some NumNaN
  | S754_infinity _ => None
  | S754_zero _ => Some (Num 0)
  | S754_finite s m e =>
      let u := if 0 <=? e then Zpos m * 2 ^ e * units_per_one
               else round_half_away (Zpos m * units_per_one) (2 ^ (- e)) in
      if u <? 10 ^ 20 then Some (Num (cond_Zopp s u)) else None
  end.

Lemma exact_units_canon s p :
  small_int (Zpos p) ->
  exact_num_of_float (canon s p) =
  if Zpos p * units_per_one <? 10 ^ 20 then Some (Num (cond_Zopp s (Zpos p * units_per_one)))
  else None.
Proof.
  intros Hp. pose proof (ndigits_small p Hp) as Hd.
  pose proof (ndigits_pos p) as Hd0.
  assert (Hpos : 0 < 2 ^ (53 - ndigits p)) by (apply Z.pow_pos_nonneg; lia).
  assert (Hmul : 0 < Zpos p * 2 ^ (53 - ndigits p)) by (apply Z.mul_pos_pos; lia).
  unfold canon, exact_num_of_float. rewrite Z2Pos.id by done. unfold units_per_one in *.
  destruct (Z.leb_spec 0 (ndigits p - 53)).
  - replace (53 - ndigits p) with 0 by lia. replace (ndigits p - 53) with 0 by lia.
    rewrite !Z.pow_0_r. by replace (Zpos p * 1 * 1 * 100000000) with (Zpos p * 100000000) by lia.
  - replace (- (ndigits p - 53)) with (53 - ndigits p) by lia.
    set (w := 2 ^ (53 - ndigits p)) in *.
    replace (round_half_away (Zpos p * w * 100000000) w) with (Zpos p * 100000000); [done|].
    unfold round_half_away. apply (Z.div_unique_pos _ _ _ w); lia.
Qed.

Lemma exact_whole z :
  small_int z -> exact_num_of_float (f_of_Z z) =
  if Z.abs z <? 10 ^ 12 then Some (Num (z * units_per_one)) else None.
Proof.
  intros Hz. destruct z as [|p|p]; [done|..].
  - rewrite f_of_Z_pos, exact_units_canon by done. unfold units_per_one.
    destruct (Z.ltb_spec (Zpos p * 100000000) (10 ^ 20)), (Z.ltb_spec (Z.abs (Zpos p)) (10 ^ 12));
      try lia; done.
  - rewrite f_of_Z_neg, exact_units_canon by (unfold small_int in *; lia). unfold units_per_one.
    destruct (Z.ltb_spec (Zpos p * 100000000) (10 ^ 20)), (Z.ltb_spec (Z.abs (Zneg p)) (10 ^ 12));
      try lia; done.
Qed.

#[export, refine] Instance exact_codec : NumericCodec :=
  {| num_of_float := exact_num_of_float |}.
Proof.
  - done.
  - done.
  - intros x n Hx. destruct x as [s|s| |s m e]; cbn; try done.
    + by intros [= <-].
    + destruct s; [done|]. case_match; [|done]. intros [= <-]. cbn [cond_Zopp num_nonneg].
      apply Z.leb_le. destruct (0 <=? e) eqn:E.
      * unfold units_per_one. pose proof (Z.pow_nonneg 2 e). lia.
      * unfold round_half_away. apply Z.div_pos; unfold units_per_one;
          pose proof (Z.pow_pos_nonneg 2 (- e)); lia.
  - intros z Hz. rewrite exact_whole by (unfold small_int; lia).
    by replace (Z.abs z <? 10 ^ 12) with true by lia.
  - intros z Hz. rewrite exact_whole by (unfold small_int; lia).
    by replace (Z.abs z <? 10 ^ 12) with false by lia.
Defined.
