(* ===== verification/WalletProto.v ===== *)
(** * Wallet messages: proto/wallet/v1 *)
From S2P Require Import Prelude Float64.

Module GetBalanceRequest.
Record t := mk { AccountId : string }.
End GetBalanceRequest.
Module GetBalanceResponse.
Record t := mk { AccountId : string; Balance : float64 }.
End GetBalanceResponse.
Module CreditRequest.
Record t := mk { AccountId : string; Amount : float64; ReferenceId : string }.
End CreditRequest.
Module CreditResponse.
Record t := mk { AccountId : string; NewBalance : float64 }.
End CreditResponse.
Module DebitRequest.
Record t := mk { AccountId : string; Amount : float64; ReferenceId : string }.
End DebitRequest.
Module DebitResponse.
Record t := mk { AccountId : string; NewBalance : float64 }.
End DebitResponse.
Module TransferRequest.
Record t := mk {
  FromAccountId : string;
  ToAccountId : string;
  Amount : float64;
  ReferenceId : string;
}.
End TransferRequest.
Module TransferResponse.
Record t := mk {
  FromAccountId : string;
  ToAccountId : string;
  FromNewBalance : float64;
  ToNewBalance : float64;
}.
End TransferResponse.
