(* ===== verification/Wallet.v ===== *)
(** * The wallet service: wallet/store/postgres.go and wallet/handler/handler.go

    Tables as in wallet/store/schema.sql, the SQL statements of the store as
    functions on the tables, the four store operations and the four gRPC
    handlers as programs of those statements.  uuid.New() and NOW() are
    arguments, so that a run is a function of its inputs and of the schedule
    of outcomes.  Logging is not modelled. *)
From S2P Require Import Prelude GoLib Effects Sql Proto Float64 WalletProto.

(** ** Tables *)
Record account := mk_account {
  acc_balance : numeric;
  acc_created_at : Z;
  acc_updated_at : Z;
}.
Record transaction := mk_transaction {
  tx_id : string;
  tx_from : option string;
  tx_to : option string;
  tx_amount : numeric;
  tx_reference_id : string;
  tx_created_at : Z;
}.
Record wallet_db := mk_wallet_db {
  wallet_accounts : gmap string account;
  wallet_transactions : list transaction;
}.

(** The accounts the schema pre-seeds. *)
Definition seed_db (now : Z) : wallet_db :=
  mk_wallet_db
    (<["user-alice-001" := mk_account (Num (1000 * units_per_one)) now now]>
      (<["user-bob-001" := mk_account (Num (100 * units_per_one)) now now]> ∅)) [].

Definition err_duplicate : sqlerr :=
  SqlError "pq: duplicate key value violates unique constraint".
Definition err_overflow : sqlerr := SqlError "pq: numeric field overflow".

Section wallet.
Context `{NumericCodec}.

(** ** SQL statements *)

(** SELECT balance FROM wallet_accounts WHERE id = $1 [FOR UPDATE], scanned
    into a float64. *)
Definition sql_select_balance (id : string) (d : wallet_db) : result sqlerr (float64 * wallet_db) :=
  id ← text_in id;
  match wallet_accounts d !! id with
  | Some a => Ok (float_of_num (acc_balance a), d)
  | None => Err ErrNoRows
  end.

(** SELECT EXISTS(SELECT 1 FROM wallet_transactions WHERE reference_id = $1) *)
Definition ref_exists (ref : string) (d : wallet_db) : bool :=
  existsb (fun t => bool_decide (tx_reference_id t = ref)) (wallet_transactions d).
Definition sql_ref_exists (ref : string) (d : wallet_db) : result sqlerr (bool * wallet_db) :=
  ref ← text_in ref;
  Ok (ref_exists ref d, d).

(** INSERT INTO wallet_accounts (id, balance) VALUES ($1, 0.0)
    ON CONFLICT (id) DO NOTHING *)
Definition sql_insert_account (now : Z) (id : string) (d : wallet_db)
  : result sqlerr (unit * wallet_db) :=
  id ← varchar 100 id;
  Ok (tt, match wallet_accounts d !! id with
          | Some _ => d
          | None => mk_wallet_db (<[id := mk_account (Num 0) now now]> (wallet_accounts d))
                                 (wallet_transactions d)
          end).

(** UPDATE wallet_accounts SET balance = $1, updated_at = NOW() WHERE id = $2 *)
Definition sql_update_balance (now : Z) (b : float64) (id : string) (d : wallet_db)
  : result sqlerr (unit * wallet_db) :=
  id ← text_in id;
  match num_of_float b with
  | None => Err err_overflow
  | Some n =>
      Ok (tt, mk_wallet_db
                (alter (fun a => mk_account n (acc_created_at a) now) id (wallet_accounts d))
                (wallet_transactions d))
  end.

(** INSERT INTO wallet_transactions (id, from_account, to_account, amount,
    reference_id) VALUES (...), with the primary key and the unique index. *)
Definition sql_insert_transaction (now : Z) (txID : string) (from to : option string)
    (amount : float64) (ref : string) (d : wallet_db) : result sqlerr (unit * wallet_db) :=
  let opt_varchar o := match o with
                       | Some s => Some <$> varchar 100 s
                       | None => Ok None
                       end in
  from ← opt_varchar from;
  to ← opt_varchar to;
  ref ← varchar 100 ref;
  match num_of_float amount with
  | None => Err err_overflow
  | Some n =>
      if existsb (fun t => bool_decide (tx_id t = txID)) (wallet_transactions d)
         || ref_exists ref d
      then Err err_duplicate
      else Ok (tt, mk_wallet_db (wallet_accounts d)
                     (mk_transaction txID from to n ref now :: wallet_transactions d))
  end.

(** ** The database connection the store talks to *)
Inductive walletE : Type -> Type :=
| BeginTx : walletE (result sqlerr unit)
| Commit : walletE (result sqlerr unit)
| Rollback : walletE (result sqlerr unit)
| QueryBalance (id : string) : walletE (result sqlerr float64)
| QueryRefExists (ref : string) : walletE (result sqlerr bool)
| QueryBalanceForUpdate (id : string) : walletE (result sqlerr float64)
| ExecInsertAccount (id : string) : walletE (result sqlerr unit)
| ExecUpdateBalance (b : float64) (id : string) : walletE (result sqlerr unit)
| ExecInsertTransaction (txID : string) (from to : option string) (amount : float64)
    (ref : string) : walletE (result sqlerr unit).

Definition wallet_exec (now : Z) X (e : walletE X) (o : outcome) (s : session wallet_db)
  : X * session wallet_db :=
  match e in walletE X return X * session wallet_db with
  | BeginTx => begin_tx o s
  | Commit => commit_tx o s
  | Rollback => rollback_tx s
  | QueryBalance id => stmt_auto o s (sql_select_balance id)
  | QueryRefExists ref => stmt_tx o s (sql_ref_exists ref)
  | QueryBalanceForUpdate id => stmt_tx o s (sql_select_balance id)
  | ExecInsertAccount id => stmt_tx o s (sql_insert_account now id)
  | ExecUpdateBalance b id => stmt_tx o s (sql_update_balance now b id)
  | ExecInsertTransaction i f t a r => stmt_tx o s (sql_insert_transaction now i f t a r)
  end.

(** [defer tx.Rollback()] around the rest of a function. *)
Definition defer_rollback {R} (body : proc walletE R) : proc walletE R :=
  r ← body; Vis Rollback (fun _ => Ret r).

(** ** The store *)
Definition GetBalance (accountID : string) : proc walletE (result string float64) :=
  Vis (QueryBalance accountID) (fun r =>
    Ret (match r with
         | Ok balance => Ok balance
         | Err ErrNoRows => Err ("account not found: " +:+ accountID)
         | Err err => Err ("failed to query balance: " +:+ sql_msg err)
         end)).

Definition already_processed (ref : string) : string :=
  ("transaction with reference_id " +:+ ref +:+ " already processed")%string.
Definition raw {A} (e : sqlerr) : result string A := Err (sql_msg e).
(** [if err == sql.ErrNoRows { account not found } ; if err != nil { err }] *)
Definition not_found_or_raw {A} (id : string) (e : sqlerr) : result string A :=
  match e with ErrNoRows => Err ("account not found: " +:+ id)%string | _ => raw e end.

Definition Credit (txID accountID : string) (amount : float64) (referenceID : string)
  : proc walletE (result string float64) :=
  let? _ := BeginTx else raw in
  defer_rollback (
    let? exists_ := QueryRefExists referenceID else raw in
    if exists_ : bool then Ret (Err (already_processed referenceID)) else
    let? _ := ExecInsertAccount accountID else raw in
    let? currentBalance := QueryBalanceForUpdate accountID else raw in
    let newBalance := fadd currentBalance amount in
    let? _ := ExecUpdateBalance newBalance accountID else raw in
    let? _ := ExecInsertTransaction txID None (Some accountID) amount referenceID else raw in
    let? _ := Commit else raw in
    Ret (Ok newBalance)).

Definition Debit (txID accountID : string) (amount : float64) (referenceID : string)
  : proc walletE (result string float64) :=
  let? _ := BeginTx else raw in
  defer_rollback (
    let? exists_ := QueryRefExists referenceID else raw in
    if exists_ : bool then Ret (Err (already_processed referenceID)) else
    let? currentBalance := QueryBalanceForUpdate accountID else not_found_or_raw accountID in
    if fltb currentBalance amount then
      Ret (Err ("insufficient funds: available " +:+ fmt_fixed4 currentBalance
                +:+ ", required " +:+ fmt_fixed4 amount)) else
    let newBalance := fsub currentBalance amount in
    let? _ := ExecUpdateBalance newBalance accountID else raw in
    let? _ := ExecInsertTransaction txID (Some accountID) None amount referenceID else raw in
    let? _ := Commit else raw in
    Ret (Ok newBalance)).

(** The order in which a transfer locks its two rows. *)
Definition lock_order (fromAccount toAccount : string) : string * string :=
  if string_gtb fromAccount toAccount then (toAccount, fromAccount)
  else (fromAccount, toAccount).

Definition Transfer (txID fromAccount toAccount : string) (amount : float64)
    (referenceID : string) : proc walletE (result string (float64 * float64)) :=
  if bool_decide (fromAccount = toAccount) then
    Ret (Err "source and destination accounts must be different") else
  let? _ := BeginTx else raw in
  defer_rollback (
    let? exists_ := QueryRefExists referenceID else raw in
    if exists_ : bool then Ret (Err (already_processed referenceID)) else
    let? _ := ExecInsertAccount toAccount else raw in
    let '(firstLock, secondLock) := lock_order fromAccount toAccount in
    let? bal1 := QueryBalanceForUpdate firstLock else not_found_or_raw firstLock in
    let locks : gmap string float64 := <[firstLock := bal1]> ∅ in
    let? bal2 := QueryBalanceForUpdate secondLock else not_found_or_raw secondLock in
    let locks := <[secondLock := bal2]> locks in
    let fromBalance := default fzero (locks !! fromAccount) in
    let toBalance := default fzero (locks !! toAccount) in
    if fltb fromBalance amount then
      Ret (Err ("insufficient funds: sender balance is " +:+ fmt_fixed4 fromBalance
                +:+ ", required " +:+ fmt_fixed4 amount)) else
    let fromNewBalance := fsub fromBalance amount in
    let toNewBalance := fadd toBalance amount in
    let? _ := ExecUpdateBalance fromNewBalance fromAccount else raw in
    let? _ := ExecUpdateBalance toNewBalance toAccount else raw in
    let? _ := ExecInsertTransaction txID (Some fromAccount) (Some toAccount) amount referenceID
      else raw in
    let? _ := Commit else raw in
    Ret (Ok (fromNewBalance, toNewBalance))).

(** ** The gRPC handlers (wallet/handler/handler.go) *)
Definition invalid {A} (msg : string) : result grpc_status A :=
  Err (status_Error codes.InvalidArgument msg).

Definition Handler_GetBalance (req : GetBalanceRequest.t)
  : proc walletE (result grpc_status GetBalanceResponse.t) :=
  let acc := GetBalanceRequest.AccountId req in
  if bool_decide (acc = "") then Ret (invalid "account_id cannot be empty") else
  r ← GetBalance acc;
  Ret (match r with
       | Ok balance => Ok (GetBalanceResponse.mk acc balance)
       | Err err => Err (status_Error codes.NotFound err)
       end).

Definition Handler_Credit (txID : string) (req : CreditRequest.t)
  : proc walletE (result grpc_status CreditResponse.t) :=
  let acc := CreditRequest.AccountId req in
  if bool_decide (acc = "") then Ret (invalid "account_id cannot be empty") else
  if fleb (CreditRequest.Amount req) fzero then
    Ret (invalid "amount must be greater than zero") else
  if bool_decide (CreditRequest.ReferenceId req = "") then
    Ret (invalid "reference_id cannot be empty") else
  r ← Credit txID acc (CreditRequest.Amount req) (CreditRequest.ReferenceId req);
  Ret (match r with
       | Ok newBalance => Ok (CreditResponse.mk acc newBalance)
       | Err err => Err (status_Error codes.Internal err)
       end).

Definition Handler_Debit (txID : string) (req : DebitRequest.t)
  : proc walletE (result grpc_status DebitResponse.t) :=
  let acc := DebitRequest.AccountId req in
  if bool_decide (acc = "") then Ret (invalid "account_id cannot be empty") else
  if fleb (DebitRequest.Amount req) fzero then
    Ret (invalid "amount must be greater than zero") else
  if bool_decide (DebitRequest.ReferenceId req = "") then
    Ret (invalid "reference_id cannot be empty") else
  r ← Debit txID acc (DebitRequest.Amount req) (DebitRequest.ReferenceId req);
  Ret (match r with
       | Ok newBalance => Ok (DebitResponse.mk acc newBalance)
       | Err err => Err (status_Error codes.FailedPrecondition err)
       end).

Definition Handler_Transfer (txID : string) (req : TransferRequest.t)
  : proc walletE (result grpc_status TransferResponse.t) :=
  let from := TransferRequest.FromAccountId req in
  let to := TransferRequest.ToAccountId req in
  if bool_decide (from = "") || bool_decide (to = "") then
    Ret (invalid "from_account_id and to_account_id cannot be empty") else
  if fleb (TransferRequest.Amount req) fzero then
    Ret (invalid "amount must be greater than zero") else
  if bool_decide (TransferRequest.ReferenceId req = "") then
    Ret (invalid "reference_id cannot be empty") else
  r ← Transfer txID from to (TransferRequest.Amount req) (TransferRequest.ReferenceId req);
  Ret (match r with
       | Ok (fromNewBal, toNewBal) => Ok (TransferResponse.mk from to fromNewBal toNewBal)
       | Err err => Err (status_Error codes.FailedPrecondition err)
       end).
End wallet.

#[global] Arguments sql_select_balance : simpl never.
#[global] Arguments sql_insert_account : simpl never.
#[global] Arguments sql_update_balance : simpl never.
#[global] Arguments sql_insert_transaction : simpl never.
