(* ===== verification/WalletFacts.v ===== *)
(** * Correctness of the wallet service *)
From S2P Require Import Prelude GoLib Effects Sql Proto Float64 Float64Facts WalletProto Wallet.

(** ** Abstract specification: each operation as one atomic step *)
Definition lift_sql {A} (r : result sqlerr A) : result string A :=
  match r with Ok a => Ok a | Err e => Err (sql_msg e) end.

Section spec.
Context `{NumericCodec}.
Implicit Types (d : wallet_db) (amount : float64).

(** A reference is good for one operation. *)
Definition if_unseen {A} (ref : string) d (k : result string A) : result string A :=
  '(seen, _) ← lift_sql (sql_ref_exists ref d);
  if (seen : bool) then Err (already_processed ref) else k.

Lemma if_unseen_Ok {A} ref d (k : result string A) v :
  if_unseen ref d k = Ok v <-> text_ok ref = true /\ ref_exists ref d = false /\ k = Ok v.
Proof.
  unfold if_unseen, sql_ref_exists, text_in. destruct (text_ok ref); cbn; [|naive_solver].
  destruct (ref_exists ref d); naive_solver.
Qed.

Definition spec_credit (now : Z) (txID acc : string) amount (ref : string) d
  : result string (float64 * wallet_db) :=
  if_unseen ref d (
  lift_sql (
    '(_, d) ← sql_insert_account now acc d;
    '(bal, d) ← sql_select_balance acc d;
    '(_, d) ← sql_update_balance now (fadd bal amount) acc d;
    '(_, d) ← sql_insert_transaction now txID None (Some acc) amount ref d;
    Ok (fadd bal amount, d))).

Definition spec_debit (now : Z) (txID acc : string) amount (ref : string) d
  : result string (float64 * wallet_db) :=
  if_unseen ref d (
  '(bal, d) ← lift_sql (sql_select_balance acc d);
  if fltb bal amount then Err "insufficient funds" else
  lift_sql (
    '(_, d) ← sql_update_balance now (fsub bal amount) acc d;
    '(_, d) ← sql_insert_transaction now txID (Some acc) None amount ref d;
    Ok (fsub bal amount, d))).

Definition spec_transfer (now : Z) (txID from to : string) amount (ref : string) d
  : result string ((float64 * float64) * wallet_db) :=
  if bool_decide (from = to) then Err "same account" else
  if_unseen ref d (
  '(_, d) ← lift_sql (sql_insert_account now to d);
  '(fb, _) ← lift_sql (sql_select_balance from d);
  '(tb, _) ← lift_sql (sql_select_balance to d);
  if fltb fb amount then Err "insufficient funds" else
  lift_sql (
    '(_, d) ← sql_update_balance now (fsub fb amount) from d;
    '(_, d) ← sql_update_balance now (fadd tb amount) to d;
    '(_, d) ← sql_insert_transaction now txID (Some from) (Some to) amount ref d;
    Ok ((fsub fb amount, fadd tb amount), d))).

(** All-or-nothing: a success is the specified step; an error left the
    database alone, unless the acknowledgement of the commit was lost. *)
Definition all_or_nothing {A} (spec : wallet_db -> result string (A * wallet_db)) d
    (r : result string A) (s : session wallet_db) : Prop :=
  open_tx s = None /\
  match r with
  | Ok v => spec d = Ok (v, committed s)
  | Err _ => committed s = d \/ exists v, spec d = Ok (v, committed s)
  end.
End spec.


(** The leaf of a failing statement: nothing was published. *)
Ltac unchanged := let err := fresh in intros err; split; [done|destruct err; by left].
(** One statement of a body: its failure leaf, then its success. *)
Tactic Notation "wp_stmt" simple_intropattern(x) simple_intropattern(d) simple_intropattern(Hd) :=
  cbv beta iota zeta; eapply wp_stmt_tx; [reflexivity|unchanged|intros x d Hd].

Section atomic.
Context `{NumericCodec} (now : Z).

Lemma wp_defer_rollback {R} (body : proc walletE R) Q s :
  wp (wallet_exec now) body (fun r s' => Q r (mk_session (committed s') None)) s ->
  wp (wallet_exec now) (defer_rollback body) Q s.
Proof. intros Hw. apply wp_bind. eapply wp_mono; [|exact Hw]. intros r s' HQ o. exact HQ. Qed.

Lemma sql_select_balance_same id d b d' : sql_select_balance id d = Ok (b, d') -> d' = d.
Proof. unfold sql_select_balance, text_in. destruct (text_ok id); cbn; [|done]. case_match; congruence. Qed.
Lemma sql_ref_exists_inv ref d seen d' :
  sql_ref_exists ref d = Ok (seen, d') -> text_ok ref = true /\ seen = ref_exists ref d /\ d' = d.
Proof. unfold sql_ref_exists, text_in. destruct (text_ok ref); cbn; [naive_solver|done]. Qed.

Lemma lock_order_cases from to :
  lock_order from to = (from, to) \/ lock_order from to = (to, from).
Proof. unfold lock_order. destruct (string_gtb from to); auto. Qed.

(** The common end of the three operations: log, commit, return. *)
Lemma wp_log_and_commit {A} (spec : wallet_db -> result string (A * wallet_db)) d0 d
    txID from to amount ref (v : A) :
  (forall d', sql_insert_transaction now txID from to amount ref d = Ok (tt, d') ->
              spec d0 = Ok (v, d')) ->
  wp (wallet_exec now)
    (let? _ := ExecInsertTransaction txID from to amount ref else raw in
     let? _ := Commit else raw in Ret (Ok v))
    (fun r s => all_or_nothing spec d0 r (mk_session (committed s) None))
    (mk_session d0 (Some d)).
Proof.
  intros Hspec. wp_stmt [] d' Hd. specialize (Hspec d' Hd).
  eapply wp_commit; [reflexivity| | |].
  - unchanged.
  - intros err. split; [done|]. right. by exists v.
  - cbn. by split.
Qed.

Lemma wp_transfer txID from to amount ref d :
  wp (wallet_exec now) (Transfer txID from to amount ref)
    (all_or_nothing (spec_transfer now txID from to amount ref) d) (mk_session d None).
Proof.
  unfold Transfer. destruct (bool_decide (from = to)) eqn:Hne.
  { cbn. split; [done|by left]. }
  apply bool_decide_eq_false in Hne.
  eapply wp_begin; [reflexivity|unchanged|].
  apply wp_defer_rollback.
  wp_stmt ex d0 Hex. apply sql_ref_exists_inv in Hex as (Hrt & -> & ->).
  destruct (ref_exists ref d) eqn:Href; [cbn; split; [done|by left]|].
  wp_stmt [] d1 Hins.
  assert (Hgo : forall b1 b2 fb tb k1 k2, lock_order from to = (k1, k2) ->
    sql_select_balance k1 d1 = Ok (b1, d1) -> sql_select_balance k2 d1 = Ok (b2, d1) ->
    fb = default fzero ((<[k2:=b2]> (<[k1:=b1]> ∅) : gmap string float64) !! from) ->
    tb = default fzero ((<[k2:=b2]> (<[k1:=b1]> ∅) : gmap string float64) !! to) ->
    sql_select_balance from d1 = Ok (fb, d1) /\ sql_select_balance to d1 = Ok (tb, d1)).
  { intros b1 b2 fb tb k1 k2 Hlo H1 H2 -> ->.
    destruct (lock_order_cases from to) as [E|E]; rewrite Hlo in E; injection E as -> ->;
      rewrite !lookup_insert; repeat case_decide; simplify_eq; done. }
  destruct (lock_order from to) as [k1 k2].
  wp_stmt b1 d2 Hb1. pose proof (sql_select_balance_same _ _ _ _ Hb1) as ->.
  wp_stmt b2 d2 Hb2. pose proof (sql_select_balance_same _ _ _ _ Hb2) as ->.
  cbv zeta. set (fb := default fzero (_ !! from)). set (tb := default fzero (_ !! to)).
  destruct (Hgo b1 b2 fb tb k1 k2) as [Hfb Htb]; try done. clear Hgo.
  destruct (fltb fb amount) eqn:Hlt; [cbn; split; [done|by left]|].
  wp_stmt [] d2 Hu1. wp_stmt [] d3 Hu2.
  apply wp_log_and_commit. intros d' Hd. unfold spec_transfer.
  rewrite bool_decide_eq_false_2 by done. apply if_unseen_Ok. split_and!; [done..|]. rewrite Hins. cbn.
  rewrite Hfb, Htb. cbn. rewrite Hlt, Hu1. cbn. rewrite Hu2. cbn. by rewrite Hd.
Qed.

Lemma wp_credit txID acc amount ref d :
  wp (wallet_exec now) (Credit txID acc amount ref)
    (all_or_nothing (spec_credit now txID acc amount ref) d) (mk_session d None).
Proof.
  unfold Credit. eapply wp_begin; [reflexivity|unchanged|].
  apply wp_defer_rollback.
  wp_stmt ex d0 Hex. apply sql_ref_exists_inv in Hex as (Hrt & -> & ->).
  destruct (ref_exists ref d) eqn:Href; [cbn; split; [done|by left]|].
  wp_stmt [] d1 Hins.
  wp_stmt b d2 Hb. pose proof (sql_select_balance_same _ _ _ _ Hb) as ->.
  wp_stmt [] d2 Hu.
  apply wp_log_and_commit. intros d' Hd. unfold spec_credit. apply if_unseen_Ok.
  split_and!; [done..|]. rewrite Hins. cbn. rewrite Hb. cbn. rewrite Hu. cbn. by rewrite Hd.
Qed.

Lemma wp_debit txID acc amount ref d :
  wp (wallet_exec now) (Debit txID acc amount ref)
    (all_or_nothing (spec_debit now txID acc amount ref) d) (mk_session d None).
Proof.
  unfold Debit. eapply wp_begin; [reflexivity|unchanged|].
  apply wp_defer_rollback.
  wp_stmt ex d0 Hex. apply sql_ref_exists_inv in Hex as (Hrt & -> & ->).
  destruct (ref_exists ref d) eqn:Href; [cbn; split; [done|by left]|].
  wp_stmt b d2 Hb. pose proof (sql_select_balance_same _ _ _ _ Hb) as ->.
  destruct (fltb b amount) eqn:Hlt; [cbn; split; [done|by left]|].
  wp_stmt [] d2 Hu.
  apply wp_log_and_commit. intros d' Hd. unfold spec_debit. apply if_unseen_Ok.
  split_and!; [done..|]. rewrite Hb. cbn.
  rewrite Hlt. cbn. rewrite Hu. cbn. by rewrite Hd.
Qed.
End atomic.

(** ** Operations of the service *)
Inductive wallet_op : Type :=
| OpCredit (txID acc : string) (amount : float64) (ref : string)
| OpDebit (txID acc : string) (amount : float64) (ref : string)
| OpTransfer (txID from to : string) (amount : float64) (ref : string).

Definition op_amount (o : wallet_op) : float64 :=
  match o with OpCredit _ _ x _ | OpDebit _ _ x _ | OpTransfer _ _ _ x _ => x end.
Definition op_ref (o : wallet_op) : string :=
  match o with OpCredit _ _ _ r | OpDebit _ _ _ r | OpTransfer _ _ _ _ r => r end.
Definition op_id (o : wallet_op) : string :=
  match o with OpCredit i _ _ _ | OpDebit i _ _ _ | OpTransfer i _ _ _ _ => i end.
Definition op_from (o : wallet_op) : option string :=
  match o with OpCredit _ _ _ _ => None | OpDebit _ a _ _ => Some a | OpTransfer _ a _ _ _ => Some a end.
Definition op_to (o : wallet_op) : option string :=
  match o with OpCredit _ a _ _ => Some a | OpDebit _ _ _ _ => None | OpTransfer _ _ b _ _ => Some b end.

Section service.
Context `{NumericCodec}.

(** The handler an operation reaches; the answer is reduced to its success. *)
Definition serve (o : wallet_op) : proc walletE bool :=
  match o with
  | OpCredit i a x r => y ← Handler_Credit i (CreditRequest.mk a x r); Ret (is_ok y)
  | OpDebit i a x r => y ← Handler_Debit i (DebitRequest.mk a x r); Ret (is_ok y)
  | OpTransfer i a b x r => y ← Handler_Transfer i (TransferRequest.mk a b x r); Ret (is_ok y)
  end.

Definition serve_db (now : Z) (o : wallet_op) (sched : list outcome) (d : wallet_db) : wallet_db :=
  committed (run_state (wallet_exec now) (serve o) sched (mk_session d None)).
Definition serve_ok (now : Z) (o : wallet_op) (sched : list outcome) (d : wallet_db) : bool :=
  run_result (wallet_exec now) (serve o) sched (mk_session d None).

(** ON CONFLICT DO NOTHING on the accounts map. *)
Definition ensure_account (now : Z) (id : string) (m : gmap string account) : gmap string account :=
  match m !! id with Some _ => m | None => <[id := mk_account (Num 0) now now]> m end.

(** One request out of [P], under any schedule of failures. *)
Inductive service_step (P : wallet_op -> Prop) : wallet_db -> wallet_db -> Prop :=
| service_request now o sched d : P o -> service_step P d (serve_db now o sched d).

Definition op_effect (now : Z) (o : wallet_op) (d : wallet_db) : result string wallet_db :=
  match o with
  | OpCredit i a x r => snd <$> spec_credit now i a x r d
  | OpDebit i a x r => snd <$> spec_debit now i a x r d
  | OpTransfer i a b x r => snd <$> spec_transfer now i a b x r d
  end.

(** What every request does to the committed tables. *)
Definition served (now : Z) (o : wallet_op) (d : wallet_db) (ok : bool) (s : session wallet_db) : Prop :=
  let effect := fleb (op_amount o) fzero = false /\ op_effect now o d = Ok (committed s) in
  open_tx s = None /\ if ok then effect else committed s = d \/ effect.

Lemma served_of_all_or_nothing {A B} now o d (spec : wallet_db -> result string (A * wallet_db))
    (p : proc walletE (result string A)) (f : result string A -> result grpc_status B) :
  fleb (op_amount o) fzero = false ->
  op_effect now o d = snd <$> spec d ->
  (forall r, is_ok (f r) = is_ok r) ->
  wp (wallet_exec now) p (all_or_nothing spec d) (mk_session d None) ->
  wp (wallet_exec now) (x ← (r ← p; Ret (f r)); Ret (is_ok x)) (served now o d) (mk_session d None).
Proof.
  intros Hpos Heff Hf Hp. apply wp_bind, wp_bind. eapply wp_mono; [|exact Hp].
  intros r s' [Hs Hr]. cbn. rewrite Hf. unfold served. split; [done|]. rewrite Heff.
  destruct r as [v|e]; cbn; [by rewrite Hr|].
  destruct Hr as [Hr|[v Hr]]; [by left|right; by rewrite Hr].
Qed.

Lemma wp_serve now o d : wp (wallet_exec now) (serve o) (served now o d) (mk_session d None).
Proof.
  destruct o as [i a x r|i a x r|i a b x r]; unfold serve;
    unfold Handler_Credit, Handler_Debit, Handler_Transfer;
    cbn [CreditRequest.AccountId CreditRequest.Amount CreditRequest.ReferenceId
         DebitRequest.AccountId DebitRequest.Amount DebitRequest.ReferenceId
         TransferRequest.FromAccountId TransferRequest.ToAccountId
         TransferRequest.Amount TransferRequest.ReferenceId]; cbv zeta;
    do 3 (case_match; [cbn; split; [done|by left]|]).
  - apply served_of_all_or_nothing with (spec_credit now i a x r);
      [done|done|by intros []|apply wp_credit].
  - apply served_of_all_or_nothing with (spec_debit now i a x r);
      [done|done|by intros []|apply wp_debit].
  - apply served_of_all_or_nothing with (spec_transfer now i a b x r);
      [done|done|by intros [[]|]|apply wp_transfer].
Qed.

Lemma serve_effect now o sched d :
  let effect := fleb (op_amount o) fzero = false /\ op_effect now o d = Ok (serve_db now o sched d) in
  if serve_ok now o sched d then effect else serve_db now o sched d = d \/ effect.
Proof. apply (wp_run (wallet_exec now) _ _ _ sched (wp_serve now o d)). Qed.

Lemma service_step_effect P d d' :
  service_step P d d' ->
  d' = d \/ exists now o, P o /\ fleb (op_amount o) fzero = false /\ op_effect now o d = Ok d'.
Proof.
  intros [now o sched d0 HP]. pose proof (serve_effect now o sched d0) as Hs.
  cbv zeta in Hs. destruct (serve_ok now o sched d0); [right; naive_solver|].
  destruct Hs as [Hs|Hs]; [by left|right; naive_solver].
Qed.

(** ** What one statement does *)
Lemma sql_insert_account_inv now id d u d1 :
  sql_insert_account now id d = Ok (u, d1) ->
  wallet_transactions d1 = wallet_transactions d /\
  exists id', varchar_in 100 id = Some id' /\
    wallet_accounts d1 = ensure_account now id' (wallet_accounts d).
Proof.
  unfold sql_insert_account, ensure_account. intros (id' & Hid%varchar_Ok & Heq)%result_bind_Ok.
  injection Heq as _ <-. destruct (wallet_accounts d !! id') eqn:E; cbn; eauto 10.
  - split; [done|]. exists id'. by rewrite E.
  - split; [done|]. exists id'. by rewrite E.
Qed.

Lemma sql_select_balance_inv id d b d1 :
  sql_select_balance id d = Ok (b, d1) ->
  d1 = d /\ exists a, wallet_accounts d !! id = Some a /\ b = float_of_num (acc_balance a).
Proof. unfold sql_select_balance, text_in. destruct (text_ok id); cbn; [|done]. case_match; naive_solver. Qed.

Lemma sql_update_balance_inv now b id d u d1 a :
  wallet_accounts d !! id = Some a ->
  sql_update_balance now b id d = Ok (u, d1) ->
  wallet_transactions d1 = wallet_transactions d /\
  exists n, num_of_float b = Some n /\
    wallet_accounts d1 = <[id := mk_account n (acc_created_at a) now]> (wallet_accounts d).
Proof.
  unfold sql_update_balance, text_in. intros Ha. destruct (text_ok id); cbn; [|done].
  destruct (num_of_float b) as [n|]; [|done].
  intros [= _ <-]. split; [done|]. exists n. split; [done|]. cbn. apply map_eq. intros k.
  rewrite lookup_alter, lookup_insert. case_decide; by simplify_map_eq.
Qed.

Definition opt_stored (o : option string) : option string := o ≫= varchar_in 100.

Lemma sql_insert_transaction_inv now i f t x r d u d1 :
  sql_insert_transaction now i f t x r d = Ok (u, d1) ->
  wallet_accounts d1 = wallet_accounts d /\
  exists row, wallet_transactions d1 = row :: wallet_transactions d /\
    tx_id row = i /\ tx_from row = opt_stored f /\ tx_to row = opt_stored t /\
    num_of_float x = Some (tx_amount row) /\ varchar_in 100 r = Some (tx_reference_id row) /\
    existsb (fun v => bool_decide (tx_id v = i)) (wallet_transactions d) = false /\
    ref_exists (tx_reference_id row) d = false.
Proof.
  unfold sql_insert_transaction.
  assert (Hopt : forall o o', match o with Some s => Some <$> varchar 100 s | None => Ok None end = Ok o'
                              -> o' = opt_stored o).
  { intros [s|] o'; cbn; [|by intros [= <-]]. destruct (varchar 100 s) as [s'|] eqn:Hs; cbn; [|done].
    intros [= <-]. by apply varchar_Ok in Hs. }
  intros (f' & Hf%Hopt & Hd)%result_bind_Ok. apply result_bind_Ok in Hd as (t' & Ht%Hopt & Hd).
  apply result_bind_Ok in Hd as (r' & Hr%varchar_Ok & Hd).
  destruct (num_of_float x) as [n|] eqn:Hn; [|done].
  destruct (_ || _) eqn:Hdup; [done|]. apply orb_false_iff in Hdup as [Hdup1 Hdup2].
  injection Hd as _ <-. split; [done|]. eexists. cbn. by rewrite <-Hf, <-Ht.
Qed.

(** ** What one operation does to the accounts and to the log *)
Definition abal (a : account) : float64 := float_of_num (acc_balance a).
Definition rebalance (n : numeric) (now : Z) (a : account) : account :=
  mk_account n (acc_created_at a) now.

Definition op_accounts (now : Z) (o : wallet_op) (m m' : gmap string account) : Prop :=
  match o with
  | OpCredit _ acc x _ => exists a n,
      ensure_account now acc m !! acc = Some a /\ num_of_float (fadd (abal a) x) = Some n /\
      m' = <[acc := rebalance n now a]> (ensure_account now acc m)
  | OpDebit _ acc x _ => exists a n,
      m !! acc = Some a /\ fltb (abal a) x = false /\ num_of_float (fsub (abal a) x) = Some n /\
      m' = <[acc := rebalance n now a]> m
  | OpTransfer _ from to x _ => exists a b n1 n2,
      from <> to /\ ensure_account now to m !! from = Some a /\
      ensure_account now to m !! to = Some b /\ fltb (abal a) x = false /\
      num_of_float (fsub (abal a) x) = Some n1 /\ num_of_float (fadd (abal b) x) = Some n2 /\
      m' = <[to := rebalance n2 now b]> (<[from := rebalance n1 now a]> (ensure_account now to m))
  end.

Definition op_logged (o : wallet_op) (d d' : wallet_db) : Prop :=
  exists row, wallet_transactions d' = row :: wallet_transactions d /\
    tx_id row = op_id o /\ tx_from row = op_from o /\ tx_to row = op_to o /\
    num_of_float (op_amount o) = Some (tx_amount row) /\
    varchar_in 100 (op_ref o) = Some (tx_reference_id row) /\
    existsb (fun v => bool_decide (tx_id v = op_id o)) (wallet_transactions d) = false /\
    ref_exists (tx_reference_id row) d = false.

(** Every stored account id fits its column. *)
Definition keys_ok (m : gmap string account) : Prop :=
  forall k a, m !! k = Some a -> varchar_in 100 k = Some k.

Lemma keys_ok_insert m k a : varchar_in 100 k = Some k -> keys_ok m -> keys_ok (<[k:=a]> m).
Proof. intros Hk Hm k' a'. rewrite lookup_insert. case_decide; [by intros _; subst|apply Hm]. Qed.

Lemma keys_ok_ensure now k m :
  varchar_in 100 k = Some k -> keys_ok m -> keys_ok (ensure_account now k m).
Proof. intros. unfold ensure_account. case_match; [done|]. by apply keys_ok_insert. Qed.

Lemma insert_account_found now id d u d1 a :
  keys_ok (wallet_accounts d) -> sql_insert_account now id d = Ok (u, d1) ->
  wallet_accounts d1 !! id = Some a ->
  varchar_in 100 id = Some id /\ wallet_transactions d1 = wallet_transactions d /\
  wallet_accounts d1 = ensure_account now id (wallet_accounts d).
Proof.
  intros Hk (Ht & id' & Hid & Hm)%sql_insert_account_inv Ha.
  assert (Hok : varchar_in 100 id = Some id).
  { rewrite Hm in Ha. apply (keys_ok_ensure now id' _ (varchar_in_idemp _ _ _ Hid) Hk id a Ha). }
  split; [done|]. split; [done|]. congruence.
Qed.

(** Chain the inversions of a successful specification. *)
Ltac inv_step :=
  match goal with
  | H : if_unseen _ _ _ = Ok _ |- _ => apply if_unseen_Ok in H as (_ & _ & H)
  | H : lift_sql ?m = Ok _ |- _ => destruct m as [[? ?]|] eqn:?; cbn in H; [|discriminate H]
  | H : (let '(_, _) := ?x in _) = Ok _ |- _ => destruct x
  | H : _ ≫= _ = Ok _ |- _ => apply result_bind_Ok in H as ([? ?] & ? & H)
  | H : snd <$> ?m = Ok _ |- _ => destruct m as [[? ?]|] eqn:?; cbn in H; [|discriminate H]
  | H : (if ?b then Err _ else _) = Ok _ |- _ => destruct b eqn:?; [discriminate H|]
  | H : Ok _ = Ok _ |- _ => injection H as ? ?; subst
  | H : Ok _ = Ok _ |- _ => injection H as ?; subst
  | H : sql_select_balance _ _ = Ok _ |- _ => apply sql_select_balance_inv in H as (-> & ? & ? & ->)
  end.

Lemma op_logged_intro now o d dd u d' :
  wallet_transactions dd = wallet_transactions d ->
  opt_stored (op_from o) = op_from o -> opt_stored (op_to o) = op_to o ->
  sql_insert_transaction now (op_id o) (op_from o) (op_to o) (op_amount o) (op_ref o) dd = Ok (u, d') ->
  wallet_accounts d' = wallet_accounts dd /\ op_logged o d d'.
Proof.
  intros Ht Hf Hto (Ha & row & Hrow)%sql_insert_transaction_inv.
  split; [done|]. exists row. unfold ref_exists in *. rewrite Ht, Hf, Hto in Hrow. naive_solver.
Qed.

Lemma opt_stored_key m k a : keys_ok m -> m !! k = Some a -> opt_stored (Some k) = Some k.
Proof. intros Hm Hk. cbn. apply (Hm k a Hk). Qed.

Lemma op_effect_inv now o d d' :
  keys_ok (wallet_accounts d) -> op_effect now o d = Ok d' ->
  op_accounts now o (wallet_accounts d) (wallet_accounts d') /\ op_logged o d d' /\
  keys_ok (wallet_accounts d').
Proof.
  intros Hk Heff. destruct o as [i acc x r|i acc x r|i from to x r]; cbn in Heff;
    unfold spec_credit, spec_debit, spec_transfer in Heff; repeat inv_step.
  - destruct (insert_account_found _ _ _ _ _ _ Hk H0 H1) as (Hid & Ht1 & Hm1).
    apply (sql_update_balance_inv _ _ _ _ _ _ _ H1) in H2 as (Ht2 & n & Hn & Hm2).
    apply (op_logged_intro now (OpCredit i acc x r) d) in H3 as [Hm3 Hlog]; [|congruence|done|done].
    split; [|split; [done|]].
    + exists x0, n. rewrite <-Hm1. split_and!; [done..|by rewrite Hm3, Hm2].
    + rewrite Hm3, Hm2. apply keys_ok_insert; [done|]. rewrite Hm1. by apply keys_ok_ensure.
  - apply (sql_update_balance_inv _ _ _ _ _ _ _ H0) in H1 as (Ht2 & n & Hn & Hm2).
    apply (op_logged_intro now (OpDebit i acc x r) d) in H2 as [Hm3 Hlog];
      [|congruence|by eapply opt_stored_key|done].
    split; [|split; [done|]].
    + exists x0, n. split_and!; [done..|by rewrite Hm3, Hm2].
    + rewrite Hm3, Hm2. apply keys_ok_insert; [|done]. eapply Hk, H0.
  - apply bool_decide_eq_false in Heqb.
    destruct (insert_account_found _ _ _ _ _ _ Hk Heqr1 H0) as (Hid & Ht1 & Hm1).
    apply (sql_update_balance_inv _ _ _ _ _ _ _ H1) in H3 as (Ht2 & n1 & Hn1 & Hm2).
    assert (H0' : wallet_accounts w7 !! to = Some x0) by (rewrite Hm2, lookup_insert_ne; done).
    apply (sql_update_balance_inv _ _ _ _ _ _ _ H0') in H4 as (Ht3 & n2 & Hn2 & Hm3).
    assert (Hk1 : keys_ok (wallet_accounts w0)) by (rewrite Hm1; by apply keys_ok_ensure).
    apply (op_logged_intro now (OpTransfer i from to x r) d) in H5 as [Hm4 Hlog];
      [|congruence|by eapply opt_stored_key|by eapply opt_stored_key].
    split; [|split; [done|]].
    + exists x1, x0, n1, n2. rewrite <-Hm1.
      split_and!; [done..|]. rewrite Hm4, Hm3, Hm2. done.
    + rewrite Hm4, Hm3, Hm2. apply keys_ok_insert; [done|].
      apply keys_ok_insert; [eapply Hk1, H1|done].
Qed.
End service.
