(* ===== verification/WalletProps.v ===== *)
(** * What the wallet service guarantees

    Theorems about every state the service can reach from the seeded tables,
    whatever requests arrive and whichever statements, commits or
    acknowledgements fail. *)
From S2P Require Import Prelude GoLib Effects Sql Proto Float64 Float64Facts WalletProto Wallet.
From S2P Require Import WalletFacts.
From Corelib Require Import SpecFloat.

Section props.
Context `{NumericCodec}.

Definition any_op (o : wallet_op) : Prop := True.
Definition reachable (P : wallet_op -> Prop) (t0 : Z) (d : wallet_db) : Prop :=
  rtc (service_step P) (seed_db t0) d.

Lemma seed_accounts t0 k a :
  wallet_accounts (seed_db t0) !! k = Some a ->
  (k = "user-alice-001" /\ a = mk_account (Num (1000 * units_per_one)) t0 t0) \/
  (k = "user-bob-001" /\ a = mk_account (Num (100 * units_per_one)) t0 t0).
Proof.
  cbn. rewrite !lookup_insert, lookup_empty. repeat case_decide; naive_solver.
Qed.

(** ** A rule for invariants of the service *)
Lemma service_invariant (P : wallet_op -> Prop) (I : wallet_db -> Prop) t0 d :
  I (seed_db t0) ->
  (forall now o d d', P o -> fleb (op_amount o) fzero = false -> I d ->
     op_accounts now o (wallet_accounts d) (wallet_accounts d') -> op_logged o d d' -> I d') ->
  reachable P t0 d -> keys_ok (wallet_accounts d) /\ I d.
Proof.
  intros H0 Hstep Hr.
  refine (rtc_ind_r (fun d => keys_ok (wallet_accounts d) /\ I d) _ _ _ _ Hr).
  - split; [|done]. intros k a Hk. by destruct (seed_accounts _ _ _ Hk) as [[-> _]|[-> _]].
  - intros d1 d2 _ [->|(now & o & HP & Hpos & He)]%service_step_effect [Hk HI]; [done|].
    apply op_effect_inv in He as (Ha & Hl & Hk'); eauto.
Qed.

Lemma reachable_keys P t0 d : reachable P t0 d -> keys_ok (wallet_accounts d).
Proof. intros Hr. eapply (service_invariant P (fun _ => True)) in Hr; naive_solver. Qed.

Lemma reachable_step P t0 now o sched d :
  P o -> reachable P t0 d -> reachable P t0 (serve_db now o sched d).
Proof. intros HP Hr. eapply rtc_r; [exact Hr|]. by constructor. Qed.

(** ** The audit log *)
Lemma existsb_false_not_elem {A B} `{EqDecision B} (f : A -> B) b (l : list A) :
  existsb (fun t => bool_decide (f t = b)) l = false -> b ∉ f <$> l.
Proof.
  intros He Hin. apply list_elem_of_fmap in Hin as (x & -> & Hx).
  assert (Ht : existsb (fun t => bool_decide (f t = f x)) l = true); [|congruence].
  apply existsb_exists. exists x. split; [by apply list_elem_of_In|by apply bool_decide_eq_true].
Qed.

Lemma reachable_log_unique t0 d :
  reachable any_op t0 d ->
  NoDup (tx_reference_id <$> wallet_transactions d) /\ NoDup (tx_id <$> wallet_transactions d).
Proof.
  intros [_ HI]%(service_invariant any_op (fun d =>
    NoDup (tx_reference_id <$> wallet_transactions d) /\ NoDup (tx_id <$> wallet_transactions d)));
    [done|split; constructor|].
  intros now o d1 d2 _ _ [Hr Hi] _ (row & -> & Hid & _ & _ & _ & _ & Hfi & Hfr). cbn. split.
  - constructor; [|done]. by apply existsb_false_not_elem.
  - constructor; [|done]. rewrite Hid. by apply existsb_false_not_elem.
Qed.

(** In every reachable state no two rows of the audit table share a
    reference id, and no two share a primary key. *)
Theorem audit_log_unique t0 d :
  reachable any_op t0 d ->
  NoDup (tx_reference_id <$> wallet_transactions d) /\ NoDup (tx_id <$> wallet_transactions d).
Proof. apply reachable_log_unique. Qed.

Lemma log_grows P d d' :
  rtc (service_step P) d d' -> keys_ok (wallet_accounts d) ->
  exists rows, wallet_transactions d' = rows ++ wallet_transactions d.
Proof.
  induction 1 as [d|d1 d2 d3 Hs _ IH]; intros Hk; [by exists []|].
  apply service_step_effect in Hs as [->|(now & o & _ & _ & He)]; [auto|].
  apply op_effect_inv in He as (_ & (row & Hrow & _) & Hk2); [|done].
  destruct (IH Hk2) as [rows Hrows]. exists (rows ++ [row]). by rewrite Hrows, Hrow, <-app_assoc.
Qed.

(** C6: double-spend protection.  Once a request with some reference id has
    taken effect, no later request with that reference id succeeds or changes
    the tables, whatever happened in between and whatever fails. *)
Theorem no_double_spend t0 d now o sched d1 now' o' sched' :
  reachable any_op t0 d ->
  serve_ok now o sched d = true \/ serve_db now o sched d <> d ->
  rtc (service_step any_op) (serve_db now o sched d) d1 ->
  op_ref o' = op_ref o ->
  serve_ok now' o' sched' d1 = false /\ serve_db now' o' sched' d1 = d1.
Proof.
  intros Hr Heff Hlater Href.
  assert (He : op_effect now o d = Ok (serve_db now o sched d)).
  { pose proof (serve_effect now o sched d) as Hs. cbv zeta in Hs.
    destruct (serve_ok now o sched d); naive_solver. }
  pose proof (reachable_keys _ _ _ Hr) as Hk.
  apply op_effect_inv in He as (_ & (row & Hrow & _ & _ & _ & _ & Hv & _) & Hk1); [|done].
  destruct (log_grows _ _ _ Hlater Hk1) as [rows Hrows].
  assert (Hkd1 : keys_ok (wallet_accounts d1)).
  { eapply reachable_keys. unfold reachable. etransitivity; [|exact Hlater].
    by apply reachable_step. }
  assert (Hno : forall d2, op_effect now' o' d1 <> Ok d2).
  { intros d2 (_ & (row2 & _ & _ & _ & _ & _ & Hv2 & _ & Hf) & _)%op_effect_inv; [|done].
    apply existsb_false_not_elem in Hf. apply Hf. rewrite Hrows, Hrow.
    assert (tx_reference_id row2 = tx_reference_id row) as -> by congruence.
    rewrite fmap_app. apply elem_of_app. right. cbn. left. }
  pose proof (serve_effect now' o' sched' d1) as Hs. cbv zeta in Hs.
  destruct (serve_ok now' o' sched' d1); [by destruct Hs as [_ []%Hno]|].
  split; [done|]. by destruct Hs as [Hs|[_ []%Hno]].
Qed.

(** ** Balances stay non-negative *)
Definition real_amount (o : wallet_op) : Prop := op_amount o <> S754_nan.
Definition nonneg_accounts (m : gmap string account) : Prop :=
  map_Forall (fun _ a => num_nonneg (acc_balance a) = true) m.

Lemma nonneg_accounts_ensure now k m :
  nonneg_accounts m -> nonneg_accounts (ensure_account now k m).
Proof. intros Hm. unfold ensure_account. case_match; [done|]. by apply map_Forall_insert_2. Qed.

Lemma positive_amount x : fleb x fzero = false -> x <> S754_nan -> fnonneg x = true.
Proof. destruct x as [[]|[]| |[] ? ?]; naive_solver. Qed.

Lemma stored_finite x n : num_of_float x = Some n -> x <> S754_nan -> ffinite x = true.
Proof. destruct x as [s|s| |s m e]; try done. by rewrite num_of_inf. Qed.

(** C17: no sequence of requests with real (non-NaN) amounts and no failure
    makes a stored balance negative or NaN. *)
Theorem balances_nonneg t0 d :
  reachable real_amount t0 d ->
  map_Forall (fun _ a => num_nonneg (acc_balance a) = true) (wallet_accounts d).
Proof.
  intros [_ HI]%(service_invariant real_amount (fun d => nonneg_accounts (wallet_accounts d)));
    [done| |].
  { intros k a Hk. by destruct (seed_accounts _ _ _ Hk) as [[_ ->]|[_ ->]]. }
  intros now o d1 d2 Hnan Hpos Hm Hacc (row & _ & _ & _ & _ & Hx & _).
  pose proof (positive_amount _ Hpos Hnan) as Hx0.
  pose proof (stored_finite _ _ Hx Hnan) as Hxf.
  assert (Hadd : forall a n, num_nonneg (acc_balance a) = true ->
    num_of_float (fadd (abal a) (op_amount o)) = Some n -> num_nonneg n = true).
  { intros a n Ha Hn. eapply num_of_nonneg, Hn. apply fadd_nonneg; [|done].
    by apply float_of_num_nonneg. }
  assert (Hsub : forall a n, num_nonneg (acc_balance a) = true ->
    fltb (abal a) (op_amount o) = false ->
    num_of_float (fsub (abal a) (op_amount o)) = Some n -> num_nonneg n = true).
  { intros a n Ha Hlt Hn. eapply num_of_nonneg, Hn. apply fsub_nonneg; try done.
    by apply float_of_num_nonneg. }
  destruct o as [i acc x r|i acc x r|i from to x r]; cbn in Hacc, Hadd, Hsub.
  - destruct Hacc as (a & n & Ha & Hn & ->).
    pose proof (nonneg_accounts_ensure now acc _ Hm) as Hm'.
    apply map_Forall_insert_2; [eapply Hadd, Hn; eapply Hm', Ha|done].
  - destruct Hacc as (a & n & Ha & Hlt & Hn & ->).
    apply map_Forall_insert_2; [eapply Hsub, Hn; [eapply Hm, Ha|done]|done].
  - destruct Hacc as (a & b & n1 & n2 & Hne & Ha & Hb & Hlt & Hn1 & Hn2 & ->).
    pose proof (nonneg_accounts_ensure now to _ Hm) as Hm'.
    apply map_Forall_insert_2; [eapply Hadd, Hn2; eapply Hm', Hb|].
    apply map_Forall_insert_2; [eapply Hsub, Hn1; [eapply Hm', Ha|done]|done].
Qed.

(** ** Reconciliation: the balances are what the audit log says
    For whole amounts the floating-point arithmetic is exact. *)
Definition whole_amount (o : wallet_op) : Prop :=
  exists z, 0 < z < 10 ^ 12 /\ op_amount o = f_of_Z z.

Definition units (n : numeric) : Z := match n with Num u => u | NumNaN => 0 end.
(** What one audit row says happened to an account. *)
Definition audit_delta (k : string) (t : transaction) : Z :=
  (if bool_decide (tx_to t = Some k) then units (tx_amount t) else 0)
  - (if bool_decide (tx_from t = Some k) then units (tx_amount t) else 0).
Fixpoint audit_total (k : string) (l : list transaction) : Z :=
  match l with [] => 0 | t :: l' => audit_delta k t + audit_total k l' end.
Definition seeded (k : string) : Z :=
  match wallet_accounts (seed_db 0) !! k with Some a => units (acc_balance a) | None => 0 end.

(** A whole balance in range. *)
Definition whole_account (a : account) (u : Z) : Prop :=
  exists z, acc_balance a = Num (z * units_per_one) /\ Z.abs z < 10 ^ 12 /\ u = z * units_per_one.
Definition reconciled (m : gmap string account) (expected : string -> Z) : Prop :=
  forall k, match m !! k with
            | Some a => whole_account a (expected k)
            | None => expected k = 0
            end.
Definition by_log (l : list transaction) (k : string) : Z := seeded k + audit_total k l.

Lemma num_of_whole_inv z n :
  Z.abs z < 2 ^ 53 -> num_of_float (f_of_Z z) = Some n ->
  Z.abs z < 10 ^ 12 /\ n = Num (z * units_per_one).
Proof.
  intros Hz Hn. destruct (Z_lt_ge_dec (Z.abs z) (10 ^ 12)) as [Hlt|Hge].
  - rewrite num_of_whole in Hn by done. split; [done|congruence].
  - rewrite num_of_too_large in Hn by lia. done.
Qed.

Lemma whole_account_update a u z n (op : float64 -> float64 -> float64) (zop : Z -> Z -> Z) :
  (forall p q, small_int p -> small_int q -> small_int (zop p q) ->
     op (f_of_Z p) (f_of_Z q) = f_of_Z (zop p q)) ->
  (forall p q, Z.abs (zop p q) <= Z.abs p + Z.abs q) ->
  (forall p q c, zop p q * c = zop (p * c) (q * c)) ->
  whole_account a u -> Z.abs z < 10 ^ 12 ->
  num_of_float (op (abal a) (f_of_Z z)) = Some n ->
  forall now, whole_account (rebalance n now a) (zop u (z * units_per_one)).
Proof.
  intros Hop Habs Hdist (y & Hy & Hyr & ->) Hz Hn now. unfold abal in Hn.
  specialize (Habs y z). unfold small_int in Hop.
  rewrite Hy, float_of_num_whole, Hop in Hn by (unfold small_int; lia).
  apply num_of_whole_inv in Hn as [Hr ->]; [|lia].
  exists (zop y z). by rewrite <-Hdist.
Qed.

Lemma whole_account_add a u z n now :
  whole_account a u -> Z.abs z < 10 ^ 12 ->
  num_of_float (fadd (abal a) (f_of_Z z)) = Some n ->
  whole_account (rebalance n now a) (u + z * units_per_one).
Proof.
  intros. eapply (whole_account_update a u z n fadd Z.add); eauto using f_of_Z_add; lia.
Qed.
Lemma whole_account_sub a u z n now :
  whole_account a u -> Z.abs z < 10 ^ 12 ->
  num_of_float (fsub (abal a) (f_of_Z z)) = Some n ->
  whole_account (rebalance n now a) (u - z * units_per_one).
Proof.
  intros. eapply (whole_account_update a u z n fsub Z.sub); eauto using f_of_Z_sub; lia.
Qed.

Lemma reconciled_ensure now k m f :
  reconciled m f -> reconciled (ensure_account now k m) f.
Proof.
  intros Hm. unfold ensure_account. destruct (m !! k) eqn:Hk; [done|].
  intros k'. specialize (Hm k'). rewrite lookup_insert. case_decide; [|done]. subst.
  rewrite Hk in Hm. rewrite Hm. exists 0. split; [done|lia].
Qed.

Lemma reconciled_insert m f f' k a a' delta :
  reconciled m f -> m !! k = Some a ->
  (whole_account a (f k) -> whole_account a' (f k + delta)) ->
  (forall k', f' k' = f k' + if bool_decide (k = k') then delta else 0) ->
  reconciled (<[k := a']> m) f'.
Proof.
  intros Hm Hk Ha Hf k'. rewrite Hf, lookup_insert. specialize (Hm k').
  destruct (decide (k = k')) as [->|Hne].
  - rewrite bool_decide_true by done. rewrite Hk in Hm. auto.
  - rewrite bool_decide_false by done. by rewrite Z.add_0_r.
Qed.

(** Compare the log with one more row against the updated expectation. *)
Ltac by_log_step Hf Ht Hamt :=
  unfold by_log; cbn [audit_total]; unfold audit_delta; rewrite Hf, Ht, Hamt; cbn [units];
  repeat case_bool_decide; simplify_eq; try lia.

Lemma reachable_reconciled t0 d :
  reachable whole_amount t0 d -> reconciled (wallet_accounts d) (by_log (wallet_transactions d)).
Proof.
  intros [_ HI]%(service_invariant whole_amount
           (fun d => reconciled (wallet_accounts d) (by_log (wallet_transactions d)))); [done| |].
  - intros k'. unfold by_log, seeded. cbn. rewrite !lookup_insert, lookup_empty.
    repeat case_decide; cbn; try done; eexists; split_and!; try done.
  - intros now o d1 d2 (z & Hz & Hx) _ Hm Hacc (row & -> & _ & Hf & Ht & Hamt & _).
    rewrite Hx in Hamt. apply num_of_whole_inv in Hamt as [_ Hamt]; [|lia].
    assert (Hz' : Z.abs z < 10 ^ 12) by lia.
    destruct o as [i acc x r|i acc x r|i from to x r]; cbn in Hacc, Hx, Hf, Ht; subst x.
    + destruct Hacc as (a0 & n & Ha & Hn & ->).
      eapply reconciled_insert;
        [apply reconciled_ensure, Hm|exact Ha|intros Hw; by eapply whole_account_add|].
      intros k'. by_log_step Hf Ht Hamt.
    + destruct Hacc as (a0 & n & Ha & _ & Hn & ->).
      eapply reconciled_insert; [exact Hm|exact Ha|intros Hw; by eapply whole_account_sub|].
      intros k'. by_log_step Hf Ht Hamt.
    + destruct Hacc as (a0 & b0 & n1 & n2 & Hne & Ha & Hb & _ & Hn1 & Hn2 & ->).
      eapply reconciled_insert;
        [eapply reconciled_insert with (f' := fun k' => by_log (wallet_transactions d1) k' +
           if bool_decide (from = k') then - (z * units_per_one) else 0);
           [apply reconciled_ensure, Hm|exact Ha|intros Hw; by eapply whole_account_sub|done]
        |by rewrite lookup_insert_ne
        |intros Hw; by eapply whole_account_add
        |].
      intros k'. by_log_step Hf Ht Hamt.
Qed.

(** C10: for every sequence of whole-number requests, whatever fails, each
    account's balance is its seeded balance plus the credits and minus the
    debits that the audit table records for it. *)
Theorem audit_reconciles t0 d k a :
  reachable whole_amount t0 d -> wallet_accounts d !! k = Some a ->
  acc_balance a = Num (seeded k + audit_total k (wallet_transactions d)).
Proof.
  intros Hr Hk. pose proof (reachable_reconciled _ _ Hr k) as HI. rewrite Hk in HI.
  destruct HI as (z & -> & _ & Hz). unfold by_log in Hz. by rewrite Hz.
Qed.

(** ** Totals *)
Definition total_units (d : wallet_db) : Z := map_sum (fun a => units (acc_balance a)) (wallet_accounts d).

Lemma ensure_account_sum now k m :
  map_sum (fun a => units (acc_balance a)) (ensure_account now k m)
  = map_sum (fun a => units (acc_balance a)) m.
Proof. unfold ensure_account. case_match; [done|]. by rewrite map_sum_insert. Qed.

End props.

(** ** Runs without faults *)
Section runs.
Context `{NumericCodec} (now : Z).

(** The run agrees with the specification: same value, same tables. *)
Definition agrees {A} (spec : result string (A * wallet_db)) (d : wallet_db)
    (out : result string A * session wallet_db * list outcome) : Prop :=
  match spec, out with
  | Ok (v, d'), (Ok v', s, _) => v' = v /\ s = mk_session d' None
  | Err _, (Err _, s, _) => s = mk_session d None
  | _, _ => False
  end.

(** Case analysis on the next statement of both sides. *)
Ltac run_on e :=
  let E := fresh in destruct e as [[[] ?]|[]] eqn:E; cbn; rewrite ?E; cbn; try done.
Ltac run_stmt :=
  match goal with
  | |- context [if fltb ?x ?y then _ else _] => destruct (fltb x y); cbn; try done
  | |- context [sql_insert_account ?a ?b ?c] => run_on (sql_insert_account a b c)
  | |- context [sql_update_balance ?a ?b ?c ?e] => run_on (sql_update_balance a b c e)
  | |- context [sql_insert_transaction ?a ?b ?c ?e ?f ?g ?h] =>
      run_on (sql_insert_transaction a b c e f g h)
  end.

Ltac select_balance k :=
  match goal with |- context [sql_select_balance k ?d] =>
    let E := fresh in destruct (sql_select_balance k d) as [[? ?]|[]] eqn:E;
    [pose proof (sql_select_balance_same _ _ _ _ E) as ->|..] end.
Ltac use_balances :=
  repeat (cbn; match goal with E : sql_select_balance ?k ?d = _ |- context [sql_select_balance ?k ?d] => rewrite E end); cbn.

Lemma transfer_complete txID from to amount ref d :
  agrees (spec_transfer now txID from to amount ref d) d
    (run (wallet_exec now) (Transfer txID from to amount ref) [] (mk_session d None)).
Proof.
  unfold spec_transfer, Transfer, defer_rollback, call.
  case_bool_decide as Hne; [done|]. cbn.
  unfold if_unseen. destruct (sql_ref_exists ref d) as [[[] ?]|[]] eqn:Href; cbn; try done.
  apply sql_ref_exists_inv in Href as (_ & _ & ->).
  run_stmt. destruct (lock_order_cases from to) as [-> | ->]; cbn; select_balance from; try select_balance to;
    use_balances; try done; rewrite ?lookup_insert; repeat (case_decide; try done); cbn; repeat run_stmt.
Qed.

Lemma credit_complete txID acc amount ref d :
  agrees (spec_credit now txID acc amount ref d) d
    (run (wallet_exec now) (Credit txID acc amount ref) [] (mk_session d None)).
Proof.
  unfold spec_credit, Credit, defer_rollback, call. cbn.
  unfold if_unseen. destruct (sql_ref_exists ref d) as [[[] ?]|[]] eqn:Href; cbn; try done.
  apply sql_ref_exists_inv in Href as (_ & _ & ->). run_stmt. select_balance acc; use_balances; try done; repeat run_stmt.
Qed.

Lemma debit_complete txID acc amount ref d :
  agrees (spec_debit now txID acc amount ref d) d
    (run (wallet_exec now) (Debit txID acc amount ref) [] (mk_session d None)).
Proof.
  unfold spec_debit, Debit, defer_rollback, call. cbn.
  unfold if_unseen. destruct (sql_ref_exists ref d) as [[[] ?]|[]] eqn:Href; cbn; try done.
  apply sql_ref_exists_inv in Href as (_ & _ & ->). select_balance acc; use_balances; try done; repeat run_stmt.
Qed.

(** ** The handlers *)
Definition transfer_request_ok (req : TransferRequest.t) : bool :=
  negb (bool_decide (TransferRequest.FromAccountId req = "")) &&
  negb (bool_decide (TransferRequest.ToAccountId req = "")) &&
  negb (fleb (TransferRequest.Amount req) fzero) &&
  negb (bool_decide (TransferRequest.ReferenceId req = "")).
Definition spec_of_request (txID : string) (req : TransferRequest.t) :=
  spec_transfer now txID (TransferRequest.FromAccountId req) (TransferRequest.ToAccountId req)
    (TransferRequest.Amount req) (TransferRequest.ReferenceId req).

(** The contract of the Transfer RPC: request, tables before, response,
    tables after. *)
Definition transfer_contract (txID : string) (req : TransferRequest.t) (d : wallet_db)
    (r : result grpc_status TransferResponse.t) (d' : wallet_db) : Prop :=
  match r with
  | Ok resp =>
      transfer_request_ok req = true /\
      TransferResponse.FromAccountId resp = TransferRequest.FromAccountId req /\
      TransferResponse.ToAccountId resp = TransferRequest.ToAccountId req /\
      spec_of_request txID req d =
        Ok ((TransferResponse.FromNewBalance resp, TransferResponse.ToNewBalance resp), d')
  | Err st =>
      (transfer_request_ok req = false /\ st_code st = codes.InvalidArgument /\ d' = d) \/
      (transfer_request_ok req = true /\ st_code st = codes.FailedPrecondition /\
       (d' = d \/ exists v, spec_of_request txID req d = Ok (v, d')))
  end.

(** C4: the Transfer RPC refines its atomic specification under every
    schedule of failures.  An invalid request is refused with
    InvalidArgument before any statement; a success has exactly the effect of
    the specification and reports the new balances; any other answer is
    FailedPrecondition and leaves the tables alone, unless only the
    acknowledgement of the commit was lost.  The connection is left without
    an open transaction. *)
Theorem transfer_rpc_refines txID req d sched :
  let r := run_result (wallet_exec now) (Handler_Transfer txID req) sched (mk_session d None) in
  let s := run_state (wallet_exec now) (Handler_Transfer txID req) sched (mk_session d None) in
  open_tx s = None /\ transfer_contract txID req d r (committed s).
Proof.
  apply (wp_run (wallet_exec now) _
           (fun r s => open_tx s = None /\ transfer_contract txID req d r (committed s))).
  unfold Handler_Transfer, transfer_contract, transfer_request_ok.
  destruct (bool_decide (TransferRequest.FromAccountId req = "")),
           (bool_decide (TransferRequest.ToAccountId req = "")); cbn; auto 10.
  destruct (fleb _ _); cbn; auto 10. destruct (bool_decide (TransferRequest.ReferenceId req = "")); cbn; auto 10.
  apply wp_bind. eapply wp_mono; [|apply wp_transfer].
  intros [[fb tb]|e] s' [Hs Hr]; cbn; auto 10.
Qed.

(** Without failures the store's Transfer, Credit and Debit compute
    exactly what their specifications say, in one pass: same value, same
    tables, and an error exactly when the specification has one. *)
Theorem store_complete txID from to amount ref d :
  agrees (spec_transfer now txID from to amount ref d) d
    (run (wallet_exec now) (Transfer txID from to amount ref) [] (mk_session d None)) /\
  agrees (spec_credit now txID to amount ref d) d
    (run (wallet_exec now) (Credit txID to amount ref) [] (mk_session d None)) /\
  agrees (spec_debit now txID from amount ref d) d
    (run (wallet_exec now) (Debit txID from amount ref) [] (mk_session d None)).
Proof. auto using transfer_complete, credit_complete, debit_complete. Qed.

Lemma serve_transfer_ok i from to x r d v d' :
  from <> "" -> to <> "" -> r <> "" -> fleb x fzero = false ->
  spec_transfer now i from to x r d = Ok (v, d') ->
  serve_ok now (OpTransfer i from to x r) [] d = true /\
  serve_db now (OpTransfer i from to x r) [] d = d'.
Proof.
  intros Hf Ht Hr Hx Hs. unfold serve_ok, serve_db, run_result, run_state.
  cbn [serve]. unfold Handler_Transfer.
  cbn [TransferRequest.FromAccountId TransferRequest.ToAccountId
       TransferRequest.Amount TransferRequest.ReferenceId]. cbv zeta.
  rewrite !bool_decide_eq_false_2, Hx by done. cbn [orb].
  pose proof (transfer_complete i from to x r d) as Ha. unfold agrees in Ha. rewrite Hs in Ha.
  unfold mbind, proc_mbind. rewrite !run_bind.
  destruct (run _ (Transfer _ _ _ _ _) _ _) as [[[v'|] s] sc]; [|done].
  destruct Ha as [-> ->]. cbn. by destruct v.
Qed.

(** What a transfer leaves behind, when nothing stands in its way. *)
Definition transferred (i from to r : string) (n n1 n2 : numeric) (a b : account) (d : wallet_db) :=
  mk_wallet_db
    (<[to := rebalance n2 now b]> (<[from := rebalance n1 now a]>
       (ensure_account now to (wallet_accounts d))))
    (mk_transaction i (Some from) (Some to) n r now :: wallet_transactions d).

Lemma spec_transfer_intro i from to x r d a b n n1 n2 :
  from <> to ->
  varchar_in 100 from = Some from -> varchar_in 100 to = Some to -> varchar_in 100 r = Some r ->
  ensure_account now to (wallet_accounts d) !! from = Some a ->
  ensure_account now to (wallet_accounts d) !! to = Some b ->
  ref_exists r d = false ->
  existsb (fun t => bool_decide (tx_id t = i)) (wallet_transactions d) = false ->
  fltb (abal a) x = false ->
  num_of_float x = Some n -> num_of_float (fsub (abal a) x) = Some n1 ->
  num_of_float (fadd (abal b) x) = Some n2 ->
  spec_transfer now i from to x r d
    = Ok ((fsub (abal a) x, fadd (abal b) x), transferred i from to r n n1 n2 a b d).
Proof.
  intros Hne Hfv Htv Hrv Ha Hb Hr Hi Hlt Hn Hn1 Hn2.
  assert (Htext : forall s, varchar_in 100 s = Some s -> text_in s = Ok s).
  { intros s [Hs _]%varchar_in_Some. unfold text_in. by rewrite Hs. }
  pose proof (Htext _ Hfv) as Hfx. pose proof (Htext _ Htv) as Htx.
  apply varchar_in_Some in Hrv as Hrt. destruct Hrt as [Hrt _].
  apply varchar_Ok in Hfv as Hf, Htv as Ht, Hrv.
  unfold spec_transfer. rewrite bool_decide_eq_false_2 by done. apply if_unseen_Ok. split_and!; [done..|].
  set (d1 := mk_wallet_db (ensure_account now to (wallet_accounts d)) (wallet_transactions d)).
  assert (Hins : sql_insert_account now to d = Ok (tt, d1)).
  { unfold sql_insert_account, d1, ensure_account. rewrite Ht. cbn.
    destruct d as [m l]. cbn. by destruct (m !! to). }
  rewrite Hins. cbn. unfold sql_select_balance. rewrite Hfx, Htx. cbn. rewrite Ha, Hb. cbn.
  unfold abal in Hlt, Hn1, Hn2. rewrite Hlt. unfold sql_update_balance. rewrite Hfx, Htx. cbn. rewrite Hn1. cbn.
  rewrite Hn2. cbn. unfold sql_insert_transaction. rewrite Hf, Ht. cbn. rewrite Hrv. cbn.
  rewrite Hn, Hi. unfold ref_exists in *. cbn. rewrite Hr. cbn. unfold transferred. do 4 f_equal. apply map_eq. intros k.
  rewrite !lookup_alter, !lookup_insert. repeat case_decide; simplify_eq; by rewrite ?Ha, ?Hb.
Qed.

Lemma whole_positive z : 0 < z < 10 ^ 12 -> fleb (f_of_Z z) fzero = false.
Proof.
  intros Hz. change fzero with (f_of_Z 0). unfold fleb.
  rewrite f_of_Z_lt by (unfold small_int; lia).
  destruct (Z.ltb_spec z 0); [lia|]. cbn [orb]. unfold feqb.
  rewrite !f_of_Z_lt by (unfold small_int; lia).
  destruct (Z.ltb_spec z 0), (Z.ltb_spec 0 z); try lia. by destruct (f_of_Z z).
Qed.

(** ** Amounts that are not numbers *)
Definition alice : string := "user-alice-001".
Definition bob : string := "user-bob-001".
Definition mallory : string := "user-mallory".

(** C31: a NaN amount passes the handler's [Amount <= 0] guard and the
    store's balance check: on the seeded tables the transfer succeeds and both
    balances become NaN; afterwards the emptied account covers any whole
    amount, to any new account. *)
Theorem nan_transfer_accepted z :
  0 < z < 10 ^ 12 ->
  let poison := OpTransfer "t1" alice bob S754_nan "r1" in
  let drain := OpTransfer "t2" bob mallory (f_of_Z z) "r2" in
  let d1 := serve_db now poison [] (seed_db now) in
  let d2 := serve_db now drain [] d1 in
  serve_ok now poison [] (seed_db now) = true /\
  (acc_balance <$> wallet_accounts d1 !! alice) = Some NumNaN /\
  (acc_balance <$> wallet_accounts d1 !! bob) = Some NumNaN /\
  serve_ok now drain [] d1 = true /\
  (acc_balance <$> wallet_accounts d2 !! mallory) = Some (Num (z * units_per_one)).
Proof.
  intros Hz poison drain d1 d2.
  set (b0 := mk_account (Num (100 * units_per_one)) now now).
  set (a0 := mk_account (Num (1000 * units_per_one)) now now).
  pose proof (spec_transfer_intro "t1" alice bob S754_nan "r1" (seed_db now) a0 b0 NumNaN NumNaN NumNaN
                ltac:(done) eq_refl eq_refl eq_refl eq_refl eq_refl eq_refl eq_refl eq_refl
                num_of_nan num_of_nan num_of_nan) as H1.
  destruct (serve_transfer_ok "t1" alice bob S754_nan "r1" (seed_db now) _ _ ltac:(discriminate)
    ltac:(discriminate) ltac:(discriminate) eq_refl H1) as [Hok1 Hd1]. fold poison d1 in Hok1, Hd1.
  pose proof (spec_transfer_intro "t2" bob mallory (f_of_Z z) "r2" d1) as H2.
  assert (Hz' : Z.abs z < 10 ^ 12) by lia.
  specialize (H2 (rebalance NumNaN now b0) (mk_account (Num 0) now now)
                (Num (z * units_per_one)) NumNaN (Num (z * units_per_one))).
  rewrite Hd1 in H2.
  assert (Hadd : num_of_float (fadd (abal (mk_account (Num 0) now now)) (f_of_Z z))
                 = Some (Num (z * units_per_one))).
  { change (abal _) with (f_of_Z 0). rewrite f_of_Z_add by (unfold small_int; lia).
    by apply num_of_whole. }
  specialize (H2 ltac:(done) eq_refl eq_refl eq_refl eq_refl eq_refl eq_refl eq_refl eq_refl
    (num_of_whole z Hz') num_of_nan Hadd).
  rewrite <-Hd1 in H2.
  destruct (serve_transfer_ok "t2" bob mallory (f_of_Z z) "r2" d1 _ _ ltac:(discriminate)
    ltac:(discriminate) ltac:(discriminate) (whole_positive z Hz) H2) as [Hok2 Hd2].
  fold drain d2 in Hok2, Hd2.
  split_and!; [exact Hok1|rewrite Hd1; reflexivity|rewrite Hd1; reflexivity|exact Hok2|].
  rewrite Hd2. unfold transferred. cbn [wallet_accounts]. by rewrite lookup_insert_eq.
Qed.
End runs.

(** ** Concrete runs, with the exact codec *)
Section concrete.
Definition pay : wallet_op := OpTransfer "t1" alice bob (f_of_Z 5) "r1".
Definition paid : wallet_db := serve_db 7 pay [] (seed_db 7).

(** Outside the whole-number regime conservation fails.  After a credit of
    99999999000 the sender's float64 balance cannot represent a payment of
    2^-20: the payment succeeds, the sender keeps everything, the receiver
    gains 95 units of 1e-8. *)
Theorem small_transfer_creates_money :
  let rich := serve_db 0 (OpCredit "t1" alice (f_of_Z 99999999000) "r1") [] (seed_db 0) in
  let op := OpTransfer "t2" alice bob (S754_finite false 1 (-20)) "r2" in
  reachable any_op 0 rich /\
  serve_ok 1 op [] rich = true /\
  total_units (serve_db 1 op [] rich) = total_units rich + 95.
Proof.
  split; [apply reachable_step; [done|apply rtc_refl]|]. split; vm_compute; reflexivity.
Qed.

Lemma paid_reachable (P : wallet_op -> Prop) : P pay -> reachable P 7 paid.
Proof. intros HP. apply reachable_step; [done|apply rtc_refl]. Qed.
Lemma pay_real : real_amount pay.
Proof. by vm_compute. Qed.
Lemma pay_whole : whole_amount pay.
Proof. by exists 5. Qed.

Lemma audit_log_unique_witness :
  length (wallet_transactions paid) = 1%nat /\ NoDup (tx_reference_id <$> wallet_transactions paid).
Proof.
  split; [by vm_compute|]. apply (audit_log_unique 7 paid), paid_reachable. exact I.
Defined.

Lemma no_double_spend_witness :
  let retry := OpDebit "t2" bob (f_of_Z 1) "r1" in
  serve_ok 9 retry [Lost "x"] paid = false /\ serve_db 9 retry [Lost "x"] paid = paid.
Proof.
  apply (no_double_spend 7 (seed_db 7) 7 pay [] paid).
  - apply rtc_refl.
  - left. by vm_compute.
  - apply rtc_refl.
  - done.
Defined.

Lemma balances_nonneg_witness :
  map_Forall (fun _ a => num_nonneg (acc_balance a) = true) (wallet_accounts paid).
Proof. apply (balances_nonneg 7), paid_reachable, pay_real. Defined.

Lemma audit_reconciles_witness :
  (acc_balance <$> wallet_accounts paid !! bob)
  = Some (Num (seeded bob + audit_total bob (wallet_transactions paid))) /\
  seeded bob + audit_total bob (wallet_transactions paid) = 105 * units_per_one.
Proof.
  split; [|by vm_compute]. destruct (wallet_accounts paid !! bob) as [a|] eqn:E.
  - cbn. f_equal. apply (audit_reconciles 7 paid bob a); [apply paid_reachable, pay_whole|done].
  - exfalso. vm_compute in E. discriminate E.
Defined.


Lemma nan_transfer_accepted_witness :
  let d1 := serve_db 0 (OpTransfer "t1" alice bob S754_nan "r1") [] (seed_db 0) in
  serve_ok 0 (OpTransfer "t2" bob mallory (f_of_Z 1000000) "r2") [] d1 = true.
Proof. apply (nan_transfer_accepted 0 1000000). lia. Defined.
End concrete.
