(* ===== verification/Ledger.v ===== *)
(** * The ledger engine: validator/ledger/ledger.go

    The ledger file is [None] when it does not exist and its bytes otherwise.
    Opening, reading, writing and syncing are events that may fail; a write may
    stop after any number of bytes.  The mutex makes each operation run alone.
    [time.Now().Format(time.RFC3339)] is the argument [ts]. *)
From S2P Require Import Prelude GoLib Sha256 Effects Json.

Record Block := mk_Block {
  Index : Z;
  Timestamp : string;
  IntentID : string;
  Type_ : string;
  Status : string;
  PrevHash : string;
  Hash : string;
}.
#[export] Instance Block_eq_dec : EqDecision Block.
Proof. solve_decision. Defined.
Definition zero_Block : Block := mk_Block 0 "" "" "" "" "" "".

(** ** The JSON form of a block *)
Definition block_members (b : Block) : list (string * scalar) :=
  [ ("index", SInt (Index b)); ("timestamp", SStr (Timestamp b));
    ("intent_id", SStr (IntentID b)); ("type", SStr (Type_ b)); ("status", SStr (Status b));
    ("prev_hash", SStr (PrevHash b)); ("hash", SStr (Hash b)) ]%string.
Definition marshal_block (b : Block) : string := print_object (block_members b).

Definition block_keys : list string :=
  ["index"; "timestamp"; "intent_id"; "type"; "status"; "prev_hash"; "hash"]%string.
Definition set_block_field (f : string) (v : json) (b : Block) : option Block :=
  let '(mk_Block i ts id ty st ph h) := b in
  let named x := bool_decide (f = x) in
  if named "index" then set_num (num_uint 64) (fun x _ => mk_Block x ts id ty st ph h) v b
  else if named "timestamp" then set_string (fun x _ => mk_Block i x id ty st ph h) v b
  else if named "intent_id" then set_string (fun x _ => mk_Block i ts x ty st ph h) v b
  else if named "type" then set_string (fun x _ => mk_Block i ts id x st ph h) v b
  else if named "status" then set_string (fun x _ => mk_Block i ts id ty x ph h) v b
  else if named "prev_hash" then set_string (fun x _ => mk_Block i ts id ty st x h) v b
  else set_string (fun x _ => mk_Block i ts id ty st ph x) v b.
Definition unmarshal_block (line : string) : option Block :=
  unmarshal_struct block_keys set_block_field line zero_Block.

(** ** Hashing *)
Definition genesis_hash : string := "0000000000000000000000000000000000000000000000000000000000000000".

Definition hash_input (b : Block) : string :=
  (utoa (Index b) +:+ Timestamp b +:+ IntentID b +:+ Type_ b +:+ Status b +:+ PrevHash b)%string.
Definition calculateHash (b : Block) : string := hex_encode (sha256 (hash_input b)).

(** ** The file *)
Inductive ledgerE : Type -> Type :=
| OpenRead : ledgerE (result string (option (string * option string)))
| OpenAppend : ledgerE (result string unit)
| WriteFile (data : string) : ledgerE (result string unit)
| SyncFile : ledgerE (result string unit).

(** Reading yields the content and the read error that cut it short, if any;
    [None] is "no such file". *)
Definition ledger_exec X (e : ledgerE X) (o : outcome) (file : option string)
  : X * option string :=
  match e in ledgerE X return X * option string with
  | OpenRead =>
      match o with
      | Done => (Ok ((fun c => (c, None)) <$> file), file)
      | Torn n err => (Ok ((fun c => (String.substring 0 n c, Some err)) <$> file), file)
      | Lost err | AckLost err => (Err err, file)
      end
  | OpenAppend =>
      match o with
      | Done => (Ok tt, Some (default "" file))
      | AckLost err => (Err err, Some (default "" file))
      | Lost err | Torn _ err => (Err err, file)
      end
  | WriteFile data =>
      let old := default "" file in
      match o with
      | Done => (Ok tt, Some (old +:+ data)%string)
      | AckLost err => (Err err, Some (old +:+ data)%string)
      | Torn n err => (Err err, Some (old +:+ String.substring 0 n data)%string)
      | Lost err => (Err err, file)
      end
  | SyncFile =>
      match o with
      | Done => (Ok tt, file)
      | Lost err | AckLost err | Torn _ err => (Err err, file)
      end
  end.

(** The scanner's lines and its error. *)
Definition scan_reader (content : string) (rerr : option string) : list string * option string :=
  let '(lines, too_long) := scan_lines content in
  (lines, if too_long then Some "bufio.Scanner: token too long"%string else rerr).

(** ** readLastBlock *)
Fixpoint last_block (lines : list string) (lastBlock : option Block) : option Block :=
  match lines with
  | [] => lastBlock
  | line :: lines' =>
      match line with
      | EmptyString => last_block lines' lastBlock
      | _ => match unmarshal_block line with
             | Some block => last_block lines' (Some block)
             | None => last_block lines' lastBlock
             end
      end
  end.
Definition readLastBlock : proc ledgerE (result string (option Block)) :=
  Vis OpenRead (fun r =>
    match r with
    | Err err => Ret (Err err)
    | Ok None => Ret (Ok None)
    | Ok (Some (content, rerr)) =>
        let '(lines, serr) := scan_reader content rerr in
        match serr with
        | Some err => Ret (Err err)
        | None => Ret (Ok (last_block lines None))
        end
    end).

(** ** Append *)
Definition next_block (lastBlock : option Block) (ts intentID intentType status : string) : Block :=
  let '(index, prevHash) :=
    match lastBlock with
    | Some b => (wrapU 64 (Index b + 1), Hash b)
    | None => (0, genesis_hash)
    end in
  let block := mk_Block index ts intentID intentType status prevHash "" in
  mk_Block index ts intentID intentType status prevHash (calculateHash block).

(** Steps 3 to 5 of Append: open, write the line, sync. *)
Definition write_block (block : Block) (line : string) : proc ledgerE (result string Block) :=
  Vis OpenAppend (fun r =>
  match r with
  | Err err => Ret (Err ("failed to open ledger file: " +:+ err)%string)
  | Ok _ =>
      Vis (WriteFile line) (fun r =>
      match r with
      | Err err => Ret (Err ("failed to write block to file: " +:+ err)%string)
      | Ok _ =>
          Vis SyncFile (fun r =>
          match r with
          | Err err => Ret (Err ("failed to sync ledger file: " +:+ err)%string)
          | Ok _ => Ret (Ok block)
          end)
      end)
  end).

Definition Append (ts intentID intentType status : string) : proc ledgerE (result string Block) :=
  r ← readLastBlock;
  match r with
  | Err err => Ret (Err ("failed to read last block: " +:+ err)%string)
  | Ok lastBlock =>
      let block := next_block lastBlock ts intentID intentType status in
      write_block block (marshal_block block +:+ newline)%string
  end.

(** ** Verify *)
Fixpoint verify_lines (lines : list string) (expectedIndex : Z) (expectedPrevHash : string)
  : option string :=
  match lines with
  | [] => None
  | line :: lines' =>
      match line with
      | EmptyString => verify_lines lines' expectedIndex expectedPrevHash
      | _ =>
          match unmarshal_block line with
          | None => Some "failed to parse ledger line"%string
          | Some block =>
              if negb (Index block =? expectedIndex) then
                Some ("ledger sequence break at index " +:+ utoa (Index block)
                      +:+ ": expected index " +:+ utoa expectedIndex)%string
              else if negb (bool_decide (PrevHash block = expectedPrevHash)) then
                Some ("ledger chain broken at index " +:+ utoa (Index block)
                      +:+ ": expected prev_hash " +:+ expectedPrevHash
                      +:+ ", got " +:+ PrevHash block)%string
              else if negb (bool_decide (Hash block = calculateHash block)) then
                Some ("ledger data tampered at index " +:+ utoa (Index block)
                      +:+ ": block hash " +:+ Hash block
                      +:+ " does not match recalculated hash " +:+ calculateHash block)%string
              else verify_lines lines' (wrapU 64 (expectedIndex + 1)) (Hash block)
          end
      end
  end.
Definition verify_content (content : string) (rerr : option string) : option string :=
  let '(lines, serr) := scan_reader content rerr in
  match verify_lines lines 0 genesis_hash with
  | Some err => Some err
  | None => serr
  end.
(** The error Verify returns; [None] is nil. *)
Definition Verify : proc ledgerE (option string) :=
  Vis OpenRead (fun r =>
    match r with
    | Err err => Ret (Some ("failed to open ledger file: " +:+ err)%string)
    | Ok None => Ret None
    | Ok (Some (content, rerr)) => Ret (verify_content content rerr)
    end).

#[global] Arguments marshal_block : simpl never.
#[global] Arguments calculateHash : simpl never.
