(* ===== verification/LedgerFacts.v ===== *)
(** * Correctness of the ledger engine *)
From S2P Require Import Prelude GoLib Sha256 Effects Json JsonFacts Ledger.

(** ** The chain a ledger is meant to be
    Stated by position, independently of the loop of Verify. *)
Definition prev_of (bs : list Block) (i : nat) : string :=
  match i with
  | O => genesis_hash
  | S j => match bs !! j with Some b => Hash b | None => "" end
  end.
Definition chain (bs : list Block) : Prop :=
  forall i b, bs !! i = Some b ->
    Index b = wrapU 64 (Z.of_nat i) /\ PrevHash b = prev_of bs i /\ Hash b = calculateHash b.

(** Lines that carry a block, in order. *)
Definition nonblank (lines : list string) : list string :=
  filter (fun l => bool_decide (l <> "")) lines.
Definition parses_to (lines : list string) (bs : list Block) : Prop :=
  Forall2 (fun l b => unmarshal_block l = Some b) (nonblank lines) bs.

(** The same chain from an arbitrary starting point, as the loop sees it. *)
Fixpoint chain_from (i : Z) (prev : string) (bs : list Block) : Prop :=
  match bs with
  | [] => True
  | b :: bs' =>
      Index b = i /\ PrevHash b = prev /\ Hash b = calculateHash b /\
      chain_from (wrapU 64 (i + 1)) (Hash b) bs'
  end.

Lemma verify_lines_spec lines i prev :
  verify_lines lines i prev = None <-> exists bs, parses_to lines bs /\ chain_from i prev bs.
Proof.
  revert i prev; induction lines as [|l lines IH]; intros i prev.
  { split; [|done]. intros _. exists []. split; [constructor|done]. }
  destruct l as [|c l].
  { cbn [verify_lines]. rewrite IH. done. }
  cbn [verify_lines]. set (line := String c l).
  assert (Hnb : nonblank (line :: lines) = line :: nonblank lines) by done.
  unfold parses_to. rewrite Hnb. split.
  - destruct (unmarshal_block line) as [b|] eqn:Hu; [|done].
    destruct (negb (Index b =? i)) eqn:Hi; [done|].
    destruct (negb (bool_decide (PrevHash b = prev))) eqn:Hp; [done|].
    destruct (negb (bool_decide (Hash b = calculateHash b))) eqn:Hh; [done|].
    intros (bs & Hbs & Hc)%IH. apply negb_false_iff, Z.eqb_eq in Hi.
    apply negb_false_iff, bool_decide_eq_true in Hp, Hh.
    exists (b :: bs). split; [by constructor|done].
  - intros (bs & Hbs & Hc). inversion Hbs as [|? b ? bs' Hu Hbs']; subst. rewrite Hu.
    destruct Hc as (-> & -> & <- & Hc). rewrite Z.eqb_refl, !bool_decide_eq_true_2 by done.
    cbn. apply IH. eauto.
Qed.

Lemma wrapU_succ w z : 0 <= w -> wrapU w (wrapU w z + 1) = wrapU w (z + 1).
Proof. intros. unfold wrapU. by rewrite Zplus_mod_idemp_l. Qed.

Lemma chain_from_lookup bs : forall k prev,
  chain_from (wrapU 64 k) prev bs <->
  forall i b, bs !! i = Some b ->
    Index b = wrapU 64 (k + Z.of_nat i) /\
    PrevHash b = match i with O => prev | S _ => prev_of bs i end /\ Hash b = calculateHash b.
Proof.
  induction bs as [|b0 bs IH]; intros k prev; cbn [chain_from].
  { split; [|done]. intros _ i b. done. }
  rewrite wrapU_succ, IH by lia. split.
  - intros (Hi & Hp & Hh & Hrest) [|i] b; cbn.
    + intros [= <-]. by rewrite Z.add_0_r.
    + intros Hb. destruct (Hrest i b Hb) as (H1 & H2 & H3).
      split; [rewrite H1; f_equal; lia|]. split; [|done]. rewrite H2. by destruct i.
  - intros Hall. destruct (Hall 0%nat b0 eq_refl) as (H1 & H2 & H3).
    rewrite Z.add_0_r in H1. split_and!; try done. intros i b Hb.
    destruct (Hall (S i) b Hb) as (H4 & H5 & H6).
    split; [rewrite H4; f_equal; lia|]. split; [|done]. rewrite H5. by destruct i.
Qed.

Lemma chain_from_chain bs : chain_from 0 genesis_hash bs <-> chain bs.
Proof.
  change 0 with (wrapU 64 0). rewrite chain_from_lookup. unfold chain.
  split; intros H i b Hb; destruct (H i b Hb) as (H1 & H2 & H3); (split; [done|]); (split; [|done]);
    rewrite H2; by destruct i.
Qed.

Lemma verify_content_spec content rerr :
  verify_content content rerr = None <->
  rerr = None /\ (scan_lines content).2 = false /\
  exists bs, parses_to (scan_lines content).1 bs /\ chain bs.
Proof.
  unfold verify_content, scan_reader. destruct (scan_lines content) as [lines tl]. cbn [fst snd].
  setoid_rewrite <-chain_from_chain. rewrite <-verify_lines_spec.
  destruct (verify_lines lines 0 genesis_hash); [naive_solver|]. destruct tl; naive_solver.
Qed.

(** What a ledger file says, when it says something consistent. *)
Definition ledger_holds (file : option string) (bs : list Block) : Prop :=
  match file with
  | None => bs = []
  | Some content =>
      (scan_lines content).2 = false /\ parses_to (scan_lines content).1 bs /\ chain bs
  end.

Lemma chain_nil : chain [].
Proof. intros i b Hb. by rewrite lookup_nil in Hb. Qed.

Lemma ledger_holds_chain file bs : ledger_holds file bs -> chain bs.
Proof.
  destruct file as [c|]; cbn; [tauto|]. intros ->. apply chain_nil.
Qed.

(** C20: when no file operation fails, Verify returns nil exactly when the file
    does not exist, or every line is shorter than the scanner's limit of 64 KiB,
    every non-empty line parses as a block, and the i-th block has index i modulo 2^64, carries the hash of its predecessor
    (64 zeros for the first) and its own SHA-256. *)
Theorem verify_iff_chain file :
  run_result ledger_exec Verify [] file = None <-> exists bs, ledger_holds file bs.
Proof.
  unfold run_result. destruct file as [content|]; cbn.
  - rewrite verify_content_spec. naive_solver.
  - naive_solver.
Qed.

(** ** One line per block *)
Definition block_ok (b : Block) : bool :=
  (0 <=? Index b) && (Index b <? 2 ^ 64) && is_ascii (Timestamp b) && is_ascii (IntentID b) &&
  is_ascii (Type_ b) && is_ascii (Status b) && is_ascii (PrevHash b) && is_ascii (Hash b).
(** Text that fits a block comfortably. *)
Definition small_text (s : string) : bool := is_ascii s && (slen s <=? 1000).
Definition block_small (b : Block) : bool :=
  (0 <=? Index b) && (Index b <? 2 ^ 64) && small_text (Timestamp b) && small_text (IntentID b) &&
  small_text (Type_ b) && small_text (Status b) && small_text (PrevHash b) && small_text (Hash b).

Ltac split_andb :=
  repeat match goal with
  | H : _ && _ = true |- _ => apply andb_true_iff in H as [? ?]
  end.

Lemma block_small_ok b : block_small b = true -> block_ok b = true.
Proof. unfold block_small, block_ok, small_text. intros. split_andb. by repeat (apply andb_true_iff; split). Qed.

Lemma num_uint_utoa i :
  0 <= i < 2 ^ 64 -> num_uint 64 (mk_num_lit (i <? 0) (utoa (Z.abs i)) None None) = Some i.
Proof.
  intros Hi. rewrite (proj2 (Z.ltb_ge i 0)), Z.abs_eq by lia. unfold num_uint. rewrite scan_utoa by lia. cbn [fst].
  by destruct (Z.ltb_spec i (2 ^ 64)); [|lia].
Qed.

Lemma unmarshal_marshal_block b : block_ok b = true -> unmarshal_block (marshal_block b) = Some b.
Proof.
  destruct b as [i ts id ty st ph h]. unfold block_ok. cbn [Index Timestamp IntentID Type_ Status PrevHash Hash].
  intros Hok. split_andb. unfold unmarshal_block, unmarshal_struct, marshal_block.
  rewrite parse_print_object.
  - cbn [block_members map scalar_json Index Timestamp IntentID Type_ Status PrevHash Hash fst snd decode_struct].
    assert (Hset : forall k v b l, In k block_keys ->
      decode_members block_keys set_block_field ((k, v) :: l) b
      = match set_block_field k v b with Some b' => decode_members block_keys set_block_field l b' | None => None end).
    { intros k v b l Hk. cbn [decode_members].
      by repeat (destruct Hk as [<-|Hk]; [reflexivity|]). }
    rewrite !Hset by (cbn; tauto). unfold set_block_field at 1. cbn [zero_Block].
    cbv zeta. rewrite bool_decide_eq_true_2 by done. cbn [set_num]. rewrite num_uint_utoa by lia.
    reflexivity.
  - cbn [block_members members_ok forallb scalar_ok fst snd Index Timestamp IntentID Type_ Status PrevHash Hash].
    by repeat (apply andb_true_iff; split).
Qed.

Lemma escape_char_no_break c :
  byteZ c <? 128 = true -> no_break (escape_char c) = true /\ slen (escape_char c) <= 6.
Proof. destruct c as [[] [] [] [] [] [] [] []]; intros Hc; try discriminate Hc; by vm_compute. Qed.

Lemma slen_app a b : slen (a +:+ b) = slen a + slen b.
Proof. unfold slen. induction a as [|c a IH]; [done|]. cbn [String.append String.length]. lia. Qed.

Lemma no_break_app a b : no_break (a +:+ b) = no_break a && no_break b.
Proof. apply string_forall_app. Qed.

Lemma escape_string_small s :
  is_ascii s = true -> no_break (escape_string s) = true /\ slen (escape_string s) <= 6 * slen s.
Proof.
  unfold escape_string. induction s as [|c s IH]; [by vm_compute|]. intros [Hc Hs]%andb_true_iff.
  rewrite utf8_map_ascii by done. destruct (escape_char_no_break c Hc) as [H1 H2].
  destruct (IH Hs) as [H3 H4]. rewrite no_break_app, H1, H3, slen_app. split; [done|].
  unfold slen in *. cbn [String.length]. lia.
Qed.

Lemma marshal_string_small s :
  small_text s = true -> no_break (marshal_string s) = true /\ slen (marshal_string s) <= 6002.
Proof.
  intros [Ha Hl]%andb_true_iff. destruct (escape_string_small s Ha) as [H1 H2].
  unfold marshal_string. rewrite !no_break_app, H1, !slen_app. split; [done|].
  change (slen quote) with 1. lia.
Qed.

Lemma utoa_small i : 0 <= i < 2 ^ 64 -> no_break (utoa i) = true /\ slen (utoa i) <= 64.
Proof.
  intros Hi. destruct (utoa_digits i ltac:(lia)) as [Hd _]. split.
  - revert Hd. generalize (utoa i). intros s. induction s as [|c s IH]; [done|]. unfold no_break in *. cbn.
    intros [Hc Hs]%andb_true_iff. rewrite (IH Hs), andb_true_r.
    by rewrite (is_digit_not c 10), (is_digit_not c 13) by (done || lia).
  - unfold utoa. assert (Hlen : forall f n r, slen (dec_digits f n r) <= Z.of_nat f + slen r).
    { induction f as [|f IH]; intros n r; cbn [dec_digits]; [lia|].
      case_match; [unfold slen; cbn [String.length]; lia|].
      specialize (IH (n / 10) (String (digit (n mod 10)) r)). unfold slen in *.
      cbn [String.length] in IH. lia. }
    specialize (Hlen (S (Z.to_nat (Z.log2 i))) i ""). change (slen "") with 0 in Hlen.
    assert (Z.log2 i < 64); [|lia]. destruct (Z.eq_dec i 0) as [->|]; [done|].
    apply Z.log2_lt_pow2; lia.
Qed.

Lemma marshal_block_line b :
  block_small b = true -> no_break (marshal_block b) = true /\ slen (marshal_block b) < max_token.
Proof.
  unfold block_small. intros Hb. split_andb.
  pose proof (utoa_small (Index b) ltac:(lia)) as [Hi1 Hi2].
  repeat match goal with
  | H : small_text ?s = true |- _ => apply marshal_string_small in H as [? ?]
  end.
  unfold marshal_block, print_object, block_members. cbn [print_members print_scalar].
  rewrite itoa_nonneg by lia.
  rewrite !no_break_app, !slen_app.
  repeat match goal with H : no_break _ = true |- _ => rewrite H; clear H end.
  split; [reflexivity|].
  repeat match goal with
  | |- context [slen (marshal_string ?k)] => lazymatch k with
      | String _ _ => let v := eval vm_compute in (slen (marshal_string k)) in
                      change (slen (marshal_string k)) with v
      end
  | |- context [slen ?k] => lazymatch k with
      | String _ _ => let v := eval vm_compute in (slen k) in change (slen k) with v
      end
  end. unfold max_token. lia.
Qed.

(** ** Appending a line *)
Definition ends_line (c : string) : Prop := c = ""%string \/ exists p, c = (p +:+ newline)%string.

Lemma cut_lines_app p s : forall cur,
  cut_lines cur (p +:+ newline +:+ s) = cut_lines cur (p +:+ newline) ++ cut_lines "" s.
Proof.
  induction p as [|c p IH]; intros cur; [reflexivity|]. cbn.
  destruct (byteZ c =? 10); [by rewrite IH|apply IH].
Qed.

Lemma take_tokens_app l1 l2 :
  (take_tokens l1).2 = false ->
  take_tokens (l1 ++ l2) = ((take_tokens l1).1 ++ (take_tokens l2).1, (take_tokens l2).2).
Proof.
  induction l1 as [|x l1 IH]; cbn; [by destruct (take_tokens l2)|].
  destruct (max_token <=? slen x); [done|]. destruct (take_tokens l1) as [xs b]. cbn in *.
  intros Hb. rewrite IH by done. cbn. done.
Qed.

Lemma cut_lines_append c line :
  ends_line c -> no_break line = true -> cut_lines "" (c +:+ line +:+ newline) = cut_lines "" c ++ [line].
Proof.
  intros Hc Hb.
  assert (Hline : cut_lines "" (line +:+ newline) = [line]).
  { change newline with (String (Zbyte 10) ""). by rewrite cut_lines_line by done. }
  destruct Hc as [->|[p ->]]; [done|]. by rewrite string_app_assoc, cut_lines_app, Hline.
Qed.

Lemma scan_lines_append c line :
  ends_line c -> (scan_lines c).2 = false -> no_break line = true -> slen line < max_token ->
  scan_lines (c +:+ line +:+ newline) = ((scan_lines c).1 ++ [line], false).
Proof.
  intros Hc Hs Hb Hl. unfold scan_lines in *. rewrite cut_lines_append, take_tokens_app by done. cbn.
  destruct (Z.leb_spec max_token (slen line)); [lia|]. by rewrite drop_cr_no_break.
Qed.

Lemma last_block_parses lines bs b0 :
  parses_to lines bs -> last_block lines b0 = match last bs with Some b => Some b | None => b0 end.
Proof.
  revert bs b0; induction lines as [|l lines IH]; intros bs b0 Hp.
  { by inversion Hp. }
  destruct l as [|ch l].
  { cbn [last_block]. by apply IH. }
  unfold parses_to in Hp. cbn in Hp. inversion Hp as [|? b ? bs' Hu Hbs']; subst.
  cbn [last_block]. rewrite Hu, (IH bs' (Some b) Hbs'). destruct bs' as [|b1 bs1]; [done|].
  change (last (b :: b1 :: bs1)) with (last (b1 :: bs1)).
  destruct (last (b1 :: bs1)) eqn:E; [done|]. by apply last_None in E.
Qed.

Lemma last_block_skip lines line b0 :
  unmarshal_block line = None -> last_block (lines ++ [line]) b0 = last_block lines b0.
Proof.
  intros Hu. revert b0; induction lines as [|l lines IH]; intros b0; cbn [app last_block].
  - destruct line; [done|]. by rewrite Hu.
  - destruct l; [apply IH|]. case_match; apply IH.
Qed.

Lemma calculateHash_small b : small_text (calculateHash b) = true.
Proof.
  unfold small_text, calculateHash, slen. rewrite hex_encode_ascii, hex_encode_length, sha256_length. done.
Qed.

Lemma last_lookup_pred {A} (l : list A) x : last l = Some x -> exists n, length l = S n /\ l !! n = Some x.
Proof.
  intros Hl. apply last_Some in Hl as [l' ->]. exists (length l'). rewrite length_app. cbn.
  split; [lia|]. by rewrite lookup_app_r, Nat.sub_diag by lia.
Qed.

(** The block Append builds after a chain continues the chain. *)
Lemma next_block_chain bs ts id ty st :
  chain bs -> chain (bs ++ [next_block (last bs) ts id ty st]).
Proof.
  intros Hc i b Hb. apply lookup_app_Some in Hb as [Hb|[Hlen Hb]].
  - destruct (Hc i b Hb) as (H1 & H2 & H3). split; [done|]. split; [|done]. rewrite H2.
    destruct i as [|j]; [done|]. cbn. apply lookup_lt_Some in Hb. by rewrite lookup_app_l by lia.
  - apply list_lookup_singleton_Some in Hb as [Hi <-].
    assert (i = length bs) as -> by lia. clear Hi Hlen. unfold next_block.
    destruct (last bs) as [b0|] eqn:Hl.
    + apply last_lookup_pred in Hl as (n & -> & Hn). cbn [prev_of Index PrevHash Hash].
      apply lookup_lt_Some in Hn as Hlt. rewrite lookup_app_l, Hn by done.
      destruct (Hc n b0 Hn) as (-> & _). split; [|done].
      rewrite wrapU_succ by lia. f_equal. lia.
    + apply last_None in Hl as ->. done.
Qed.

Lemma next_block_small bs ts id ty st :
  chain bs -> small_text ts = true -> small_text id = true -> small_text ty = true ->
  small_text st = true -> block_small (next_block (last bs) ts id ty st) = true.
Proof.
  intros Hc Hts Hid Hty Hst. unfold next_block, block_small.
  destruct (last bs) as [b0|] eqn:Hl.
  - apply last_lookup_pred in Hl as (n & _ & Hn). destruct (Hc n b0 Hn) as (_ & _ & Hh).
    pose proof (wrapU_range 64 (Index b0 + 1) ltac:(lia)).
    cbn [Index Timestamp IntentID Type_ Status PrevHash Hash].
    rewrite Hts, Hid, Hty, Hst, Hh, !calculateHash_small, !andb_true_r. lia.
  - cbn [Index Timestamp IntentID Type_ Status PrevHash Hash].
    rewrite Hts, Hid, Hty, Hst, !calculateHash_small. by vm_compute.
Qed.

Lemma ledger_holds_lines file bs :
  ledger_holds file bs ->
  (scan_lines (default "" file)).2 = false /\ parses_to (scan_lines (default "" file)).1 bs.
Proof. destruct file as [c|]; cbn; [tauto|]. intros ->. split; [done|constructor]. Qed.
Lemma parses_to_snoc lines bs line b :
  parses_to lines bs -> unmarshal_block line = Some b -> line <> ""%string -> parses_to (lines ++ [line]) (bs ++ [b]).
Proof.
  intros Hp Hu Hne. unfold parses_to, nonblank in *. rewrite filter_app. apply Forall2_app; [done|].
  rewrite filter_cons_True by (by rewrite bool_decide_eq_true_2). by repeat constructor.
Qed.
Lemma marshal_block_nonempty b : block_small b = true -> marshal_block b <> ""%string.
Proof. intros Hb Hm. pose proof (unmarshal_marshal_block b (block_small_ok b Hb)) as Hu. by rewrite Hm in Hu. Qed.

Lemma ledger_holds_append file bs b :
  ledger_holds file bs -> ends_line (default "" file) -> block_small b = true -> chain (bs ++ [b]) ->
  ledger_holds (Some (default "" file +:+ marshal_block b +:+ newline)%string) (bs ++ [b]).
Proof.
  intros Hf He Hb Hc. destruct (marshal_block_line b Hb) as [Hnb Hlen].
  destruct (ledger_holds_lines _ _ Hf) as [Ht Hp]. unfold ledger_holds. rewrite scan_lines_append by done. cbn [fst snd].
  split; [done|]. split; [|done]. apply parses_to_snoc; [done| |by apply marshal_block_nonempty].
  apply unmarshal_marshal_block, block_small_ok, Hb.
Qed.

Lemma substring_full n s : (String.length s <= n)%nat -> String.substring 0 n s = s.
Proof.
  revert n; induction s as [|c s IH]; intros [|n] Hn; cbn in *; try done; try lia.
  by rewrite IH by lia.
Qed.
Lemma substring_zero s : String.substring 0 0 s = ""%string.
Proof. by destruct s. Qed.

(** How the file looks after Append: the block [b] added, or a prefix of its
    line (nothing and everything included). *)
Definition append_contract (file : option string) (bs : list Block) (b : Block)
    (r : result string Block) (file' : option string) : Prop :=
  let line := (marshal_block b +:+ newline)%string in
  match r with
  | Ok b' =>
      b' = b /\ file' = Some (default "" file +:+ line)%string /\
      ledger_holds file' (bs ++ [b]) /\ ends_line (default "" file')
  | Err _ =>
      file' = file \/
      exists n, (n <= String.length line)%nat /\
        file' = Some (default "" file +:+ String.substring 0 n line)%string
  end.

Lemma wp_readLastBlock file bs Q :
  ledger_holds file bs ->
  (forall err, Q (Err err) file) -> Q (Ok (last bs)) file ->
  wp ledger_exec readLastBlock Q file.
Proof.
  intros Hf Herr Hok. unfold readLastBlock. intros o.
  assert (Hread : forall c e, Q (match (let '(lines, serr) := scan_reader c (Some e) in
      match serr with Some err => Err err | None => Ok (last_block lines None) end) with x => x end) file).
  { intros c e. unfold scan_reader. destruct (scan_lines c) as [lines []]; apply Herr. }
  destruct file as [c|]; cbn in Hf.
  - destruct Hf as (Ht & Hp & _). destruct o as [|e|e|n e]; cbn; try apply Herr.
    + unfold scan_reader. destruct (scan_lines c) as [lines tl]. cbn in *. subst tl. cbn.
      rewrite (last_block_parses _ bs) by done. by destruct (last bs).
    + specialize (Hread (String.substring 0 n c) e). unfold scan_reader in *.
      destruct (scan_lines (String.substring 0 n c)) as [lines []]; apply Hread.
  - subst bs. destruct o; cbn; auto.
Qed.

Lemma wp_write_block file b line (Q : result string Block -> option string -> Prop) :
  (forall err, Q (Err err) file) ->
  (forall err n, (n <= String.length line)%nat ->
     Q (Err err) (Some (default "" file +:+ String.substring 0 n line)%string)) ->
  Q (Ok b) (Some (default "" file +:+ line)%string) ->
  wp ledger_exec (write_block b line) Q file.
Proof.
  intros Hsame Hpre Hok.
  assert (Hzero : forall err, Q (Err err) (Some (default "" file))).
  { intros err. specialize (Hpre err 0%nat). rewrite substring_zero, string_app_nil_r in Hpre.
    apply Hpre. lia. }
  assert (Hfull : forall err, Q (Err err) (Some (default "" file +:+ line)%string)).
  { intros err. specialize (Hpre err (String.length line)). rewrite substring_full in Hpre; auto. }
  intros [|e|e|n e]; cbn; auto. intros [|e|e|n e]; cbn; auto.
  - intros [|e|e|n e]; cbn; auto.
  - destruct (Nat.le_ge_cases n (String.length line)) as [Hle|Hge]; [auto|].
    rewrite substring_full by done. auto.
Qed.

Lemma wp_Append file bs ts id ty st :
  ledger_holds file bs -> ends_line (default "" file) ->
  small_text ts = true -> small_text id = true -> small_text ty = true -> small_text st = true ->
  wp ledger_exec (Append ts id ty st)
    (append_contract file bs (next_block (last bs) ts id ty st)) file.
Proof.
  intros Hf He Hts Hid Hty Hst. unfold Append. apply wp_bind.
  eapply wp_readLastBlock; [exact Hf|by left|]. cbv beta iota zeta.
  pose proof (ledger_holds_chain _ _ Hf) as Hc0.
  pose proof (next_block_chain bs ts id ty st Hc0) as Hc.
  pose proof (next_block_small bs ts id ty st Hc0 Hts Hid Hty Hst) as Hb.
  revert Hc Hb. generalize (next_block (last bs) ts id ty st). intros b Hc Hb.
  pose proof (ledger_holds_append file bs b Hf He Hb Hc) as Hh.
  unfold append_contract. apply wp_write_block; [by left|eauto|].
  split; [done|]. split; [done|]. split; [exact Hh|].
  right. exists (default "" file +:+ marshal_block b)%string. symmetry. apply string_app_assoc.
Qed.

(** C19: appending to a verified ledger that is empty or ends in a newline, of
    texts of at most 1000 ASCII characters.  Whatever the file system does, a
    successful Append has added exactly one line whose block has the next
    index, links to the previous hash and keeps the file verified; a failed one
    has left the file as it was or followed by a prefix of that line. *)
Theorem append_correct file bs ts id ty st sched :
  ledger_holds file bs -> ends_line (default "" file) ->
  small_text ts = true -> small_text id = true -> small_text ty = true -> small_text st = true ->
  append_contract file bs (next_block (last bs) ts id ty st)
    (run_result ledger_exec (Append ts id ty st) sched file)
    (run_state ledger_exec (Append ts id ty st) sched file).
Proof. intros. by apply wp_run, wp_Append. Qed.
