(* ===== verification/LedgerProps.v ===== *)
(** * What the hash chain does and does not guarantee *)
From S2P Require Import Prelude GoLib Sha256 Effects Json JsonFacts Ledger LedgerFacts.

(** ** Binding: the last hash commits to the whole history *)
Lemma string_app_inj_r a b x y :
  String.length x = String.length y -> (a +:+ x = b +:+ y)%string -> a = b /\ x = y.
Proof.
  revert b; induction a as [|c a IH]; intros [|d b] Hlen H; cbn in H.
  - done.
  - apply (f_equal slen) in H. unfold slen in H. cbn in H.
    pose proof (slen_app b y) as Hs. unfold slen in Hs. lia.
  - apply (f_equal slen) in H. unfold slen in H. cbn in H.
    pose proof (slen_app a x) as Hs. unfold slen in Hs. lia.
  - injection H as -> H. by destruct (IH b Hlen H) as [-> ->].
Qed.

Lemma chain_prev_length bs i b : chain bs -> bs !! i = Some b -> String.length (PrevHash b) = 64%nat.
Proof.
  intros Hc Hb. destruct (Hc i b Hb) as (_ & -> & _). destruct i as [|j]; [done|]. cbn.
  apply lookup_lt_Some in Hb. destruct (lookup_lt_is_Some_2 bs j) as [b' Hb']; [lia|].
  rewrite Hb'. destruct (Hc j b' Hb') as (_ & _ & ->). unfold calculateHash.
  by rewrite hex_encode_length, sha256_length.
Qed.

(** Everything a block says before its link. *)
Definition hashed_text (b : Block) : string :=
  (utoa (Index b) +:+ Timestamp b +:+ IntentID b +:+ Type_ b +:+ Status b)%string.
Lemma hash_input_split b : hash_input b = (hashed_text b +:+ PrevHash b)%string.
Proof. unfold hash_input, hashed_text. by rewrite !string_app_assoc. Qed.

(** Two different hash inputs of the two ledgers, at one position, with the
    same SHA-256. *)
Definition collision_in (bs bs' : list Block) : Prop :=
  exists i b b', bs !! i = Some b /\ bs' !! i = Some b' /\
    hash_input b <> hash_input b' /\ sha256 (hash_input b) = sha256 (hash_input b').

Lemma same_hash_same_text bs bs' i b b' :
  chain bs -> chain bs' -> bs !! i = Some b -> bs' !! i = Some b' -> Hash b = Hash b' ->
  (hashed_text b = hashed_text b' /\ PrevHash b = PrevHash b') \/ collision_in bs bs'.
Proof.
  intros Hc Hc' Hb Hb' Hh. destruct (Hc i b Hb) as (_ & _ & H1). destruct (Hc' i b' Hb') as (_ & _ & H2).
  rewrite H1, H2 in Hh. apply hex_encode_inj in Hh.
  destruct (decide (hash_input b = hash_input b')) as [Heq|Hne]; [left|right; by exists i, b, b'].
  rewrite !hash_input_split in Heq. apply string_app_inj_r in Heq; [done|].
  by rewrite (chain_prev_length bs i b), (chain_prev_length bs' i b').
Qed.

Definition agree_at (bs bs' : list Block) (i : nat) : Prop :=
  forall b b', bs !! i = Some b -> bs' !! i = Some b' ->
    hashed_text b = hashed_text b' /\ Hash b = Hash b'.

(** Agreement spreads from the last block to every block before it. *)
Lemma agree_backwards bs bs' k : forall i,
  chain bs -> chain bs' -> length bs = length bs' -> Hash <$> last bs = Hash <$> last bs' ->
  (i + S k = length bs)%nat -> agree_at bs bs' i \/ collision_in bs bs'.
Proof.
  intros i Hc Hc' Hlen Hlast. revert i. induction k as [|k IH]; intros i Hi.
  all: destruct (lookup_lt_is_Some_2 bs i) as [b Hb]; [lia|].
  all: destruct (lookup_lt_is_Some_2 bs' i) as [b' Hb']; [lia|].
  all: assert (Hh : Hash b = Hash b' \/ collision_in bs bs').
  { left. rewrite !last_lookup in Hlast. replace (pred (length bs)) with i in Hlast by lia.
    replace (pred (length bs')) with i in Hlast by lia. rewrite Hb, Hb' in Hlast. by injection Hlast. }
  2: { destruct (lookup_lt_is_Some_2 bs (S i)) as [c Hcb]; [lia|].
    destruct (lookup_lt_is_Some_2 bs' (S i)) as [c' Hcb']; [lia|].
    destruct (IH (S i) ltac:(lia)) as [Hok|]; [|by right]. destruct (Hok c c' Hcb Hcb') as [_ Hh].
    destruct (same_hash_same_text bs bs' (S i) c c') as [[_ Hp]|]; try done; [|by right].
    left. destruct (Hc _ _ Hcb) as (_ & Hp1 & _). destruct (Hc' _ _ Hcb') as (_ & Hp2 & _).
    cbn in Hp1, Hp2. rewrite Hb in Hp1. rewrite Hb' in Hp2. congruence. }
  all: destruct Hh as [Hh|]; [|by right].
  all: destruct (same_hash_same_text bs bs' i b b') as [[Ht _]|]; try done; [|by right].
  all: left; intros x x' Hx Hx'; split; congruence.
Qed.

(** C18: two verified ledgers of the same length that end in the same hash say
    the same at every position (index, timestamp, id, type and status run
    together, and the links), or exhibit two inputs with the same SHA-256. *)
Theorem last_hash_binds bs bs' :
  chain bs -> chain bs' -> length bs = length bs' -> Hash <$> last bs = Hash <$> last bs' ->
  (map hashed_text bs = map hashed_text bs' /\ map Hash bs = map Hash bs') \/ collision_in bs bs'.
Proof.
  intros Hc Hc' Hlen Hlast.
  destruct (forall_or (length bs) (agree_at bs bs') (collision_in bs bs')) as [Hall|]; [|left|by right].
  { intros i Hi. apply (agree_backwards _ _ (length bs - S i)); try done. lia. }
  split; apply map_eq_pointwise; try done; intros i b b' Hb Hb';
    by apply (Hall i (lookup_lt_Some _ _ _ Hb) b b').
Qed.

(** The hash does not separate the fields.  Text moved between the intent
    id, the type and the status of any block of a verified ledger leaves every
    hash and every link valid. *)
Theorem field_boundaries_unprotected bs1 b b' bs2 :
  chain (bs1 ++ b :: bs2) ->
  Index b' = Index b -> Timestamp b' = Timestamp b -> PrevHash b' = PrevHash b -> Hash b' = Hash b ->
  (IntentID b' +:+ Type_ b' +:+ Status b' = IntentID b +:+ Type_ b +:+ Status b)%string ->
  chain (bs1 ++ b' :: bs2).
Proof.
  intros Hc Hi Ht Hp Hh Htext.
  assert (Hin : hash_input b' = hash_input b).
  { rewrite !hash_input_split. unfold hashed_text. by rewrite Hi, Ht, Hp, Htext. }
  assert (Hsame : forall i x, (bs1 ++ b' :: bs2) !! i = Some x -> exists y,
    (bs1 ++ b :: bs2) !! i = Some y /\ Index x = Index y /\ PrevHash x = PrevHash y /\
    Hash x = Hash y /\ calculateHash x = calculateHash y).
  { intros i x Hx. apply lookup_app_Some in Hx as [Hx|[Hlen Hx]].
    - exists x. split; [|done]. rewrite lookup_app_l; [done|]. by apply lookup_lt_Some in Hx.
    - rewrite lookup_app_r by done. destruct (i - length bs1)%nat as [|j]; cbn in *.
      + injection Hx as <-. exists b. split_and!; try done. unfold calculateHash. by rewrite Hin.
      + by exists x. }
  intros i x Hx. destruct (Hsame i x Hx) as (y & Hy & -> & -> & -> & ->).
  destruct (Hc i y Hy) as (H1 & H2 & H3). split; [done|]. split; [|done]. rewrite H2.
  destruct i as [|j]; [done|]. cbn.
  apply lookup_lt_Some in Hx. destruct (lookup_lt_is_Some_2 (bs1 ++ b' :: bs2) j) as [z Hz]; [lia|].
  rewrite Hz. destruct (Hsame j z Hz) as (w & -> & _ & _ & -> & _). done.
Qed.

(** ** A rewritten or shortened history *)
Fixpoint render (bs : list Block) : string :=
  match bs with [] => "" | b :: bs' => (marshal_block b +:+ newline +:+ render bs')%string end.
Record entry := mk_entry { en_ts : string; en_id : string; en_type : string; en_status : string }.
Definition entry_ok (e : entry) : bool :=
  small_text (en_ts e) && small_text (en_id e) && small_text (en_type e) && small_text (en_status e).
(** A ledger made up from scratch, hashes recomputed. *)
Definition forge (es : list entry) : list Block :=
  fold_left (fun bs e => bs ++ [next_block (last bs) (en_ts e) (en_id e) (en_type e) (en_status e)]) es [].

Lemma render_snoc bs b : render (bs ++ [b]) = (render bs +:+ marshal_block b +:+ newline)%string.
Proof.
  induction bs as [|b0 bs IH]; [cbn [render app]; by rewrite string_app_nil_r|].
  cbn [render app]. by rewrite IH, !string_app_assoc.
Qed.

Lemma render_holds bs :
  chain bs -> Forall (fun b => block_small b = true) bs ->
  ledger_holds (Some (render bs)) bs /\ ends_line (render bs).
Proof.
  induction bs as [|b bs IH] using rev_ind; intros Hc Hs.
  { split; [|by left]. split; [done|]. split; [constructor|done]. }
  apply Forall_app in Hs as [Hs Hb]. rewrite Forall_singleton in Hb.
  destruct IH as [IH1 IH2]; [|done|].
  { intros i x Hx. destruct (Hc i x) as (H1 & H2 & H3); [by apply lookup_app_l_Some|].
    split; [done|]. split; [|done]. rewrite H2. destruct i as [|j]; [done|]. cbn.
    apply lookup_lt_Some in Hx. by rewrite lookup_app_l by lia. }
  rewrite render_snoc. split.
  - exact (ledger_holds_append (Some (render bs)) bs b IH1 IH2 Hb Hc).
  - right. exists (render bs +:+ marshal_block b)%string. symmetry. apply string_app_assoc.
Qed.

Lemma chain_take bs n : chain bs -> chain (take n bs).
Proof.
  intros Hc i b [Hb Hn]%lookup_take_Some. destruct (Hc i b Hb) as (H1 & H2 & H3).
  split; [done|]. split; [|done]. rewrite H2. destruct i as [|j]; [done|]. cbn.
  by rewrite lookup_take_lt by lia.
Qed.

Lemma forge_ok es :
  forallb entry_ok es = true -> chain (forge es) /\ Forall (fun b => block_small b = true) (forge es).
Proof.
  unfold forge. induction es as [|e es IH] using rev_ind.
  { intros _. split; [apply chain_nil|constructor]. }
  rewrite forallb_app. intros [Hes He]%andb_true_iff. rewrite fold_left_app. cbn [fold_left].
  destruct (IH Hes) as [Hc Hs]. cbn in He. unfold entry_ok in He. split_andb.
  split; [by apply next_block_chain|]. apply Forall_app. split; [done|].
  rewrite Forall_singleton. by apply next_block_small.
Qed.

(** Verify detects neither a recomputed history nor a truncated one: any
    list of entries whatever, with its hashes recomputed, passes, and so does
    every prefix of it. *)
Theorem rewritten_history_verifies es n :
  forallb entry_ok es = true ->
  run_result ledger_exec Verify [] (Some (render (take n (forge es)))) = None.
Proof.
  intros [Hc Hs]%forge_ok. unfold run_result. cbn [run Verify ledger_exec hd fst].
  destruct (render_holds (take n (forge es))) as [[H1 [H2 H3]] _].
  - by apply chain_take.
  - by apply Forall_take.
  - apply verify_content_spec. eauto.
Qed.

(** ** A write cut short *)
(** The line of a block starts an object whose first key is "index". *)
Lemma marshal_block_head b :
  exists rest, marshal_block b = String (Zbyte 123) (String (Zbyte 34) (String (Zbyte 105) rest)).
Proof. eexists. reflexivity. Qed.

Lemma block_members_ok b : block_ok b = true -> members_ok (block_members b) = true.
Proof.
  unfold block_ok. intros. split_andb. unfold members_ok, block_members.
  cbn [forallb fst snd scalar_ok]. by repeat (apply andb_true_iff; split).
Qed.

(** A fragment of one block's line, alone or glued to another block's line,
    is no block. *)
Lemma fragment_no_block b b' p q :
  block_ok b = true -> block_ok b' = true -> p <> ""%string -> (p +:+ q = marshal_block b)%string ->
  unmarshal_block (p +:+ marshal_block b') = None.
Proof.
  intros Hb Hb' Hp Hpq. destruct (marshal_block_head b') as [rest Hrest].
  unfold unmarshal_block, unmarshal_struct.
  rewrite (cut_object rest (marshal_block b')) with (l := block_members b) (q := q); try done.
  - by right.
  - intros f d v r Hv. eapply parse_object_rest; [by apply block_members_ok|done|exact Hv].
  - by apply block_members_ok.
  - left. by rewrite Hrest.
Qed.
Lemma fragment_alone b p q :
  block_ok b = true -> p <> ""%string -> q <> ""%string -> (p +:+ q = marshal_block b)%string ->
  unmarshal_block p = None.
Proof.
  intros Hb Hp Hq Hpq. unfold unmarshal_block, unmarshal_struct.
  pose proof (cut_object "" "" (or_introl eq_refl)) as Hcut. specialize (Hcut ltac:(by intros [] ? ? ?)).
  specialize (Hcut (block_members b) p q). rewrite string_app_nil_r in Hcut.
  rewrite Hcut; try done; [by apply block_members_ok|by right].
Qed.

Lemma substring_split n s : exists q, (String.substring 0 n s +:+ q = s)%string.
Proof.
  revert n; induction s as [|c s IH]; intros [|n].
  - by exists ""%string.
  - by exists ""%string.
  - by exists (String c s).
  - destruct (IH n) as [q Hq]. exists q. cbn. by rewrite Hq.
Qed.
Lemma substring_app_short n a b :
  (n <= String.length a)%nat -> String.substring 0 n (a +:+ b) = String.substring 0 n a.
Proof.
  revert n; induction a as [|c a IH]; intros [|n] Hn; cbn in *; try lia; try done.
  - by destruct b.
  - rewrite IH by lia. done.
Qed.
Lemma substring_length n s : (n <= String.length s)%nat -> String.length (String.substring 0 n s) = n.
Proof. revert n; induction s as [|c s IH]; intros [|n] Hn; cbn in *; try lia. rewrite IH; lia. Qed.

Lemma cut_lines_tail p : forall cur,
  no_break p = true -> (cur +:+ p)%string <> ""%string -> cut_lines cur p = [(cur +:+ p)%string].
Proof.
  induction p as [|c p IH]; intros cur Hp Hne; cbn [cut_lines].
  - rewrite string_app_nil_r in *. by destruct cur.
  - apply andb_true_iff in Hp as [[Hc _]%andb_true_iff Hp]. apply negb_true_iff in Hc. rewrite Hc.
    rewrite (IH (cur +:+ String c "")%string), string_app_assoc; [done|done|].
    rewrite string_app_assoc. by destruct cur.
Qed.

Lemma scan_lines_fragment c p :
  ends_line c -> (scan_lines c).2 = false -> no_break p = true -> p <> ""%string -> slen p < max_token ->
  scan_lines (c +:+ p) = ((scan_lines c).1 ++ [p], false).
Proof.
  intros Hc Hs Hb Hne Hl. unfold scan_lines in *.
  assert (Hcut : cut_lines "" (c +:+ p) = cut_lines "" c ++ [p]).
  { pose proof (cut_lines_tail p "" Hb Hne) as Hp.
    destruct Hc as [->|[r ->]]; [done|]. by rewrite string_app_assoc, cut_lines_app, Hp. }
  rewrite Hcut, take_tokens_app by done. cbn.
  destruct (Z.leb_spec max_token (slen p)); [lia|]. by rewrite drop_cr_no_break.
Qed.

Lemma verify_lines_bad lines line tail i prev :
  line <> ""%string -> unmarshal_block line = None -> verify_lines (lines ++ line :: tail) i prev <> None.
Proof.
  intros Hne Hu. revert i prev. induction lines as [|l lines IH]; intros i prev; cbn [app verify_lines].
  - destruct line; [done|]. by rewrite Hu.
  - destruct l; [apply IH|]. repeat case_match; done.
Qed.

(** A content with a complete line that is no block does not verify, whatever
    comes after it. *)
Lemma verify_bad_line c line rest rerr :
  ends_line c -> (scan_lines c).2 = false -> no_break line = true -> line <> ""%string ->
  unmarshal_block line = None -> verify_content (c +:+ line +:+ newline +:+ rest) rerr <> None.
Proof.
  intros Hc Hs Hb Hne Hu. unfold verify_content, scan_reader, scan_lines in *.
  assert (Hcut : cut_lines "" (c +:+ line +:+ newline +:+ rest) = cut_lines "" c ++ line :: cut_lines "" rest).
  { rewrite <-(string_app_assoc c), cut_lines_app, string_app_assoc, cut_lines_append by done. by rewrite <-app_assoc. }
  rewrite Hcut, take_tokens_app by done. cbn [take_tokens].
  destruct (max_token <=? slen line).
  - cbn [fst snd]. by destruct (verify_lines _ _ _).
  - destruct (take_tokens (cut_lines "" rest)) as [xs too_long]. cbn [fst snd].
    rewrite drop_cr_no_break by done.
    destruct (verify_lines _ _ _) eqn:Hv; [done|]. by apply verify_lines_bad in Hv.
Qed.

Lemma verify_read_error c e : verify_content c (Some e) <> None.
Proof. unfold verify_content, scan_reader. destruct (scan_lines c) as [lines []]; by destruct (verify_lines _ _ _). Qed.

(** So whatever Verify meets on the way. *)
Lemma verify_never c line rest sched :
  ends_line c -> (scan_lines c).2 = false -> no_break line = true -> line <> ""%string ->
  unmarshal_block line = None ->
  run_result ledger_exec Verify sched (Some (c +:+ line +:+ newline +:+ rest)%string) <> None.
Proof.
  intros Hc Hs Hb Hne Hu. unfold run_result. cbn [run Verify ledger_exec].
  destruct (hd Done sched) as [|e|e|n e]; cbn [fst fmap option_fmap option_map]; try done.
  - by apply verify_bad_line.
  - apply verify_read_error.
Qed.

(** Append only ever adds to the end of the file, whatever the file system does. *)
Definition appended (file file' : option string) : Prop :=
  exists ts id ty st sched, file' = run_state ledger_exec (Append ts id ty st) sched file.

Lemma appended_extends c file' : appended (Some c) file' -> exists s, file' = Some (c +:+ s)%string.
Proof.
  intros (ts & id & ty & st & sched & ->).
  apply (wp_run ledger_exec (Append ts id ty st) (fun _ f => exists s, f = Some (c +:+ s)%string) (Some c) sched).
  unfold Append. apply wp_bind.
  assert (Hsame : exists s, Some c = Some (c +:+ s)%string) by (exists ""%string; by rewrite string_app_nil_r).
  assert (Hgo : forall r : result string (option Block), wp ledger_exec (match r with
    | Err err => Ret (Err ("failed to read last block: " +:+ err)%string)
    | Ok lastBlock => let block := next_block lastBlock ts id ty st in
                      write_block block (marshal_block block +:+ newline)%string
    end) (fun _ f => exists s, f = Some (c +:+ s)%string) (Some c)).
  { intros [lb|e]; [|exact Hsame]. cbv zeta. apply wp_write_block; cbn [default]; eauto. }
  intros [|e|e|n e]; cbn [ledger_exec fst snd fmap option_fmap option_map]; try apply Hgo;
    destruct (scan_reader _ _) as [lines []]; apply Hgo.
Qed.
Lemma appends_extend c file' : rtc appended (Some c) file' -> exists s, file' = Some (c +:+ s)%string.
Proof.
  remember (Some c) as file eqn:Hf. intros Hr. revert c Hf. induction Hr as [f|f f1 f2 Ha _ IH]; intros c ->.
  - exists ""%string. by rewrite string_app_nil_r.
  - apply appended_extends in Ha as [s ->]. destruct (IH _ eq_refl) as [s' ->]. exists (s +:+ s')%string.
    by rewrite string_app_assoc.
Qed.

Lemma no_break_prefix p q : no_break (p +:+ q) = true -> no_break p = true.
Proof. rewrite no_break_app. by intros [? _]%andb_true_iff. Qed.

(** No later Append repairs the ledger, and no later Verify accepts it. *)
Definition poisoned (file : option string) : Prop :=
  forall file' sched, rtc appended file file' -> run_result ledger_exec Verify sched file' <> None.

(** Append on a ledger that ends in a fragment of a block's line. *)
Lemma append_after_fragment file bs b p q ts id ty st :
  ledger_holds file bs -> ends_line (default "" file) -> chain (bs ++ [b]) -> block_small b = true ->
  p <> ""%string -> (p +:+ q = marshal_block b)%string ->
  small_text ts = true -> small_text id = true -> small_text ty = true -> small_text st = true ->
  let '(r, file', _) := run ledger_exec (Append ts id ty st) [] (Some (default "" file +:+ p)%string) in
  is_ok r = true /\ poisoned file'.
Proof.
  intros Hf He Hc Hb Hp Hpq Hts Hid Hty Hst.
  destruct (ledger_holds_lines _ _ Hf) as [Ht Hbs]. destruct (marshal_block_line b Hb) as [Hnb Hlen].
  rewrite <-Hpq in Hnb, Hlen. pose proof (no_break_prefix _ _ Hnb) as Hnbp.
  assert (Hlp : slen p < max_token) by (rewrite slen_app in Hlen; unfold slen in *; lia).
  pose proof (scan_lines_fragment _ p He Ht Hnbp Hp Hlp) as Hscan.
  assert (Hlast : exists bs', chain bs' /\ last_block ((scan_lines (default "" file)).1 ++ [p]) None = last bs').
  { destruct (decide (q = "")%string) as [->|Hq].
    - exists (bs ++ [b]). split; [done|]. rewrite string_app_nil_r in Hpq.
      rewrite (last_block_parses _ (bs ++ [b])); [by rewrite last_snoc|].
      unfold parses_to, nonblank in *. rewrite filter_app. apply Forall2_app; [done|].
      rewrite filter_cons_True by (by rewrite bool_decide_eq_true_2). repeat constructor.
      rewrite Hpq. by apply unmarshal_marshal_block, block_small_ok.
    - exists bs. split; [eapply ledger_holds_chain, Hf|].
      pose proof (fragment_alone b p q (block_small_ok b Hb) Hp Hq Hpq) as Hu.
      rewrite last_block_skip, (last_block_parses _ bs) by done. by destruct (last bs). }
  destruct Hlast as (bs' & Hc' & Hlast).
  pose proof (next_block_small bs' ts id ty st Hc' Hts Hid Hty Hst) as Hb'.
  assert (Hrun : run ledger_exec (Append ts id ty st) [] (Some (default "" file +:+ p)%string)
    = (Ok (next_block (last bs') ts id ty st),
       Some ((default "" file +:+ p) +:+ (marshal_block (next_block (last bs') ts id ty st) +:+ newline))%string, [])).
  { unfold Append, readLastBlock. cbn [mbind proc_mbind proc_bind run ledger_exec hd tl fmap option_fmap option_map].
    unfold scan_reader. rewrite Hscan. cbn [proc_bind]. by rewrite Hlast. }
  rewrite Hrun. split; [done|]. revert Hb'. generalize (next_block (last bs') ts id ty st). intros b' Hb'.
  destruct (marshal_block_line b' Hb') as [Hnb' _].
  pose proof (fragment_no_block b b' p q (block_small_ok _ Hb) (block_small_ok _ Hb') Hp Hpq) as Hbad.
  intros file' sched' [s ->]%appends_extend.
  rewrite !string_app_assoc, <-(string_app_assoc p). apply verify_never; try done.
  - by rewrite no_break_app, Hnbp.
  - by destruct p.
Qed.

Lemma run_readLastBlock file bs sched :
  ledger_holds file bs ->
  run ledger_exec readLastBlock (Done :: sched) file = (Ok (last bs), file, sched).
Proof.
  intros Hf. unfold readLastBlock. cbn [run ledger_exec hd tl fmap option_fmap option_map].
  destruct file as [c|]; cbn in Hf |- *; [|by rewrite Hf]. destruct Hf as (Ht & Hp & _).
  unfold scan_reader. destruct (scan_lines c) as [lines tl]. cbn in Ht, Hp. subst tl. cbn.
  rewrite (last_block_parses _ bs) by done. by destruct (last bs).
Qed.

(** C32: a write cut short poisons the ledger for good.  On any verified ledger
    that ends in a newline, if the write of one block stops inside its line (also
    just before its newline), then the next Append, on a healthy file system,
    still reports success, but its block is glued to the fragment; and however
    many Appends follow, whatever the file system does, Verify, the validator's
    start-up check, never succeeds again. *)
Theorem torn_write_poisons file bs ts id ty st n e ts' id' ty' st' :
  ledger_holds file bs -> ends_line (default "" file) ->
  small_text ts = true -> small_text id = true -> small_text ty = true -> small_text st = true ->
  small_text ts' = true -> small_text id' = true -> small_text ty' = true -> small_text st' = true ->
  (0 < n <= String.length (marshal_block (next_block (last bs) ts id ty st)))%nat ->
  let crashed := run_state ledger_exec (Append ts id ty st) [Done; Done; Torn n e] file in
  let '(r, file', _) := run ledger_exec (Append ts' id' ty' st') [] crashed in
  is_ok r = true /\ poisoned file'.
Proof.
  intros Hf He Hts Hid Hty Hst Hts' Hid' Hty' Hst' Hn crashed.
  pose proof (ledger_holds_chain _ _ Hf) as Hc0.
  pose proof (next_block_chain bs ts id ty st Hc0) as Hc.
  pose proof (next_block_small bs ts id ty st Hc0 Hts Hid Hty Hst) as Hb.
  set (b := next_block (last bs) ts id ty st) in *.
  destruct (substring_split n (marshal_block b)) as [q Hq].
  assert (Hcr : crashed = Some (default "" file +:+ String.substring 0 n (marshal_block b))%string).
  { unfold crashed, run_state, Append, mbind, proc_mbind. rewrite run_bind, (run_readLastBlock _ bs) by done.
    fold b. cbn [write_block run ledger_exec hd tl fst snd default].
    by rewrite substring_app_short by lia. }
  rewrite Hcr. eapply append_after_fragment; try done. intros Hp.
  apply (f_equal String.length) in Hp. rewrite substring_length in Hp by lia. cbn in Hp. lia.
Qed.

(** A ledger whose last newline is missing verifies, and is poisoned by the next
    Append: Append does not look at how the file ends. *)
Lemma missing_newline_poisons file bs b ts id ty st :
  ledger_holds file bs -> ends_line (default "" file) -> chain (bs ++ [b]) -> block_small b = true ->
  small_text ts = true -> small_text id = true -> small_text ty = true -> small_text st = true ->
  let file1 := Some (default "" file +:+ marshal_block b)%string in
  run_result ledger_exec Verify [] file1 = None /\
  let '(r, file2, _) := run ledger_exec (Append ts id ty st) [] file1 in is_ok r = true /\ poisoned file2.
Proof.
  intros Hf He Hc Hb Hts Hid Hty Hst file1. pose proof (unmarshal_marshal_block b (block_small_ok b Hb)) as Hu.
  pose proof (marshal_block_nonempty b Hb) as Hne. split.
  - assert (Hh : ledger_holds file1 (bs ++ [b])).
    { destruct (marshal_block_line b Hb) as [Hnb Hlen]. destruct (ledger_holds_lines _ _ Hf) as [Ht Hp].
      unfold file1, ledger_holds. rewrite scan_lines_fragment by done. cbn [fst snd].
      split_and!; [done| |done]. by apply parses_to_snoc. }
    unfold file1, run_result. cbn [run Verify ledger_exec hd tl fst fmap option_fmap option_map].
    apply verify_content_spec. destruct Hh as (? & ? & ?). split_and!; [done..|]. by exists (bs ++ [b]).
  - apply (append_after_fragment file bs b (marshal_block b) ""); try done. by rewrite string_app_nil_r.
Qed.

(** ** Concrete instances *)
Section concrete.
Definition day1 : entry := mk_entry "2024-01-01T00:00:00Z" "intent-ab" "TRANSFER" "COMPLETED".
Definition day2 : entry := mk_entry "2024-01-02T00:00:00Z" "intent-c" "COMPUTE" "FAILED".
Definition two_days : list Block := forge [day1; day2].
Definition first_block : Block := next_block None "2024-01-01T00:00:00Z" "intent-ab" "TRANSFER" "COMPLETED".
(** Two characters moved from the intent id to the type. *)
Definition shift (b : Block) : Block :=
  mk_Block (Index b) (Timestamp b) "intent-" "abTRANSFER" (Status b) (PrevHash b) (Hash b).

Lemma two_days_chain : chain two_days.
Proof. by apply (forge_ok [day1; day2]). Qed.
Lemma first_block_chain : chain ([] ++ first_block :: []).
Proof. by apply (forge_ok [day1]). Qed.

Lemma shift_same b :
  Index (shift b) = Index b /\ Timestamp (shift b) = Timestamp b /\
  PrevHash (shift b) = PrevHash b /\ Hash (shift b) = Hash b.
Proof. done. Qed.
Lemma next_block_text lb ts id ty st :
  (IntentID (next_block lb ts id ty st), Type_ (next_block lb ts id ty st)) = (id, ty).
Proof. by destruct lb. Qed.
Lemma shift_text b :
  (IntentID b, Type_ b) = ("intent-ab", "TRANSFER")%string ->
  (IntentID (shift b) +:+ Type_ (shift b) +:+ Status (shift b) = IntentID b +:+ Type_ b +:+ Status b)%string /\
  IntentID (shift b) <> IntentID b.
Proof. intros [= -> ->]. by split. Qed.

Lemma append_correct_witness :
  append_contract None [] first_block
    (run_result ledger_exec (Append "2024-01-01T00:00:00Z" "intent-ab" "TRANSFER" "COMPLETED") [] None)
    (run_state ledger_exec (Append "2024-01-01T00:00:00Z" "intent-ab" "TRANSFER" "COMPLETED") [] None).
Proof.
  exact (append_correct None [] "2024-01-01T00:00:00Z" "intent-ab" "TRANSFER" "COMPLETED" []
    eq_refl (or_introl eq_refl) eq_refl eq_refl eq_refl eq_refl).
Defined.

(** Two different ledgers with the same last hash: a field boundary was moved,
    which the hashed text does not show. *)
Lemma shifted_chain : chain [shift first_block] /\ IntentID (shift first_block) <> IntentID first_block.
Proof.
  destruct (shift_text first_block (next_block_text _ _ _ _ _)) as [Ht Hne]. split; [|exact Hne].
  destruct (shift_same first_block) as (H1 & H2 & H3 & H4).
  exact (field_boundaries_unprotected [] first_block (shift first_block) [] first_block_chain H1 H2 H3 H4 Ht).
Qed.
Lemma shift_last b : Hash <$> last [b] = Hash <$> last [shift b].
Proof. done. Qed.
Lemma shift_other b : IntentID (shift b) <> IntentID b -> [b] <> [shift b].
Proof.
  intros Hn He. apply Hn. symmetry.
  exact (f_equal (fun l => match l with x :: _ => IntentID x | [] => ""%string end) He).
Qed.
Lemma last_hash_binds_witness :
  ((map hashed_text [first_block] = map hashed_text [shift first_block] /\
    map Hash [first_block] = map Hash [shift first_block]) \/
   collision_in [first_block] [shift first_block]) /\ [first_block] <> [shift first_block].
Proof.
  split; [|exact (shift_other first_block (proj2 shifted_chain))].
  exact (last_hash_binds [first_block] [shift first_block] first_block_chain (proj1 shifted_chain) eq_refl
    (shift_last first_block)).
Defined.

Lemma field_boundaries_unprotected_witness :
  IntentID (shift first_block) <> IntentID first_block /\ chain [shift first_block].
Proof.
  destruct (shift_text first_block (next_block_text _ _ _ _ _)) as [Ht Hne]. split; [exact Hne|].
  destruct (shift_same first_block) as (H1 & H2 & H3 & H4).
  exact (field_boundaries_unprotected [] first_block (shift first_block) [] first_block_chain
    H1 H2 H3 H4 Ht).
Defined.

Lemma rewritten_history_verifies_witness :
  run_result ledger_exec Verify [] (Some (render (take 1 (forge [day1; day2])))) = None.
Proof. exact (rewritten_history_verifies [day1; day2] 1 eq_refl). Defined.

Lemma torn_write_poisons_witness :
  let crashed := run_state ledger_exec (Append "2024-01-01T00:00:00Z" "a" "T" "OK") [Done; Done; Torn 100 "crash"] None in
  let '(r, file', _) := run ledger_exec (Append "2024-01-01T00:00:01Z" "b" "T" "OK") [] crashed in
  is_ok r = true /\ poisoned file'.
Proof.
  apply (torn_write_poisons None []); [done|by left|reflexivity..|].
  split; [lia|]. apply Nat.leb_le. vm_compute. reflexivity.
Defined.
End concrete.
