(* ===== verification/IntentDb.v ===== *)
(** * The intents database: intent-service/store/schema.sql

    Two tables shared by the intent service, its outbox worker, the scheduler,
    the execution engine and the validator, and the SQL statements these
    services send to them.  A transaction is the list of the statements it has
    executed so far: each is checked against the committed tables with the
    earlier ones applied, and commit applies them all at once.  What PostgreSQL
    and its driver do with the values themselves is the class [Postgres]. *)
From stdpp Require Import sorting.
From S2P Require Import Prelude GoLib Effects Sql.

Record intent_row := mk_intent_row {
  ir_type : string;
  ir_status : string;
  ir_submitter_id : string;
  ir_payload : string;
  ir_priority : Z;
  ir_max_retries : Z;
  ir_idempotent : bool;
  ir_deadline : option Z;
  ir_signature : string;
  ir_submitter_public_key : string;
  ir_created_at : Z;
  ir_updated_at : Z;
}.
Record outbox_row := mk_outbox_row {
  ob_topic : string;
  ob_payload : string;
  ob_status : string;
  ob_retry_count : Z;
  ob_created_at : Z;
  ob_updated_at : Z;
}.
Record intent_db := mk_intent_db {
  intents : gmap string intent_row;
  outbox_events : gmap string outbox_row;
}.
Definition empty_db : intent_db := mk_intent_db ∅ ∅.

Definition set_ir_status (status : string) (now : Z) (r : intent_row) : intent_row :=
  mk_intent_row (ir_type r) status (ir_submitter_id r) (ir_payload r) (ir_priority r)
    (ir_max_retries r) (ir_idempotent r) (ir_deadline r) (ir_signature r)
    (ir_submitter_public_key r) (ir_created_at r) now.
Definition set_ob_status (status : string) (retry : Z) (now : Z) (r : outbox_row) : outbox_row :=
  mk_outbox_row (ob_topic r) (ob_payload r) status retry (ob_created_at r) now.

(** Rows with a key, newest or oldest first. *)
Definition newest_first (a b : string * intent_row) : Prop := ir_created_at b.2 <= ir_created_at a.2.
Definition oldest_first (a b : string * outbox_row) : Prop := ob_created_at a.2 <= ob_created_at b.2.

(** PostgreSQL's input functions and its ORDER BY: [uuid_in] reads a UUID in
    any accepted spelling to its canonical form, [ts_in] rounds a time to the
    microseconds a TIMESTAMPTZ holds, less than one away, an empty []byte may be bound as NULL, and
    rows with equal keys come in no particular order. *)
Class Postgres := {
  uuid_in : string -> option string;
  uuid_in_canonical : forall s u, uuid_in s = Some u -> uuid_in u = Some u;
  ts_in : Z -> Z;
  ts_in_idemp : forall t, ts_in (ts_in t) = ts_in t;
  ts_in_mono : forall t u, t <= u -> ts_in t <= ts_in u;
  ts_in_near : forall t, Z.abs (ts_in t - t) < 1000;
  empty_bytes_null : bool;
  order_intents : list (string * intent_row) -> list (string * intent_row);
  order_intents_perm : forall l, order_intents l ≡ₚ l;
  order_intents_sorted : forall l, StronglySorted newest_first (order_intents l);
  order_outbox : list (string * outbox_row) -> list (string * outbox_row);
  order_outbox_perm : forall l, order_outbox l ≡ₚ l;
  order_outbox_sorted : forall l, StronglySorted oldest_first (order_outbox l);
}.

Definition err_uuid : sqlerr := SqlError "pq: invalid input syntax for type uuid".
Definition err_not_null : sqlerr := SqlError "pq: null value violates not-null constraint".
Definition err_unique : sqlerr := SqlError "pq: duplicate key value violates unique constraint".

(** ** Statements *)
Inductive stmt : Type :=
| InsertIntent (id : string) (r : intent_row)
| InsertOutbox (id topic payload : string) (now : Z)
| UpdateStatus (status id : string)
| ClaimStatus (status id from_status : string)
| OutboxProcessing (id : string)
| OutboxUpdate (status : string) (retry : Z) (id : string)
| OutboxDelete (id : string).

Section statements.
Context `{Postgres}.

Definition uuid_arg (s : string) : result sqlerr string :=
  match uuid_in s with Some u => Ok u | None => Err err_uuid end.
Definition bytea (s : string) : result sqlerr string :=
  if bool_decide (s = "") && empty_bytes_null then Err err_not_null else Ok s.

(** INSERT INTO intents (...): columns converted, primary key checked. *)
Definition row_in (r : intent_row) : result sqlerr intent_row :=
  ty ← varchar 50 (ir_type r);
  st ← varchar 50 (ir_status r);
  sub ← varchar 100 (ir_submitter_id r);
  pay ← bytea (ir_payload r);
  sig ← varchar 130 (ir_signature r);
  pk ← varchar 70 (ir_submitter_public_key r);
  Ok (mk_intent_row ty st sub pay (ir_priority r) (ir_max_retries r) (ir_idempotent r)
        (ts_in <$> ir_deadline r) sig pk (ts_in (ir_created_at r)) (ts_in (ir_updated_at r))).

(** Number of rows affected, and the tables after. *)
Definition exec_stmt (now : Z) (s : stmt) (d : intent_db) : result sqlerr (Z * intent_db) :=
  match s with
  | InsertIntent id r =>
      u ← uuid_arg id;
      row ← row_in r;
      match intents d !! u with
      | Some _ => Err err_unique
      | None => Ok (1, mk_intent_db (<[u := row]> (intents d)) (outbox_events d))
      end
  | InsertOutbox id topic payload t =>
      u ← uuid_arg id;
      tp ← varchar 100 topic;
      pay ← bytea payload;
      match outbox_events d !! u with
      | Some _ => Err err_unique
      | None => Ok (1, mk_intent_db (intents d)
                  (<[u := mk_outbox_row tp pay "PENDING" 0 (ts_in t) (ts_in t)]> (outbox_events d)))
      end
  | UpdateStatus status id =>
      u ← uuid_arg id;
      st ← varchar 50 status;
      match intents d !! u with
      | None => Ok (0, d)
      | Some r => Ok (1, mk_intent_db (<[u := set_ir_status st (ts_in now) r]> (intents d)) (outbox_events d))
      end
  | ClaimStatus status id from_status =>
      u ← uuid_arg id;
      st ← varchar 50 status;
      match intents d !! u with
      | Some r =>
          if bool_decide (ir_status r = from_status)
          then Ok (1, mk_intent_db (<[u := set_ir_status st (ts_in now) r]> (intents d)) (outbox_events d))
          else Ok (0, d)
      | None => Ok (0, d)
      end
  | OutboxProcessing id =>
      u ← uuid_arg id;
      match outbox_events d !! u with
      | None => Ok (0, d)
      | Some r => Ok (1, mk_intent_db (intents d)
                  (<[u := set_ob_status "PROCESSING" (ob_retry_count r) (ts_in now) r]> (outbox_events d)))
      end
  | OutboxUpdate status retry id =>
      u ← uuid_arg id;
      st ← varchar 20 status;
      match outbox_events d !! u with
      | None => Ok (0, d)
      | Some r => Ok (1, mk_intent_db (intents d)
                  (<[u := set_ob_status st retry (ts_in now) r]> (outbox_events d)))
      end
  | OutboxDelete id =>
      u ← uuid_arg id;
      Ok (if bool_decide (is_Some (outbox_events d !! u)) then 1 else 0,
          mk_intent_db (intents d) (delete u (outbox_events d)))
  end.

(** The statements of a transaction, one after the other. *)
Fixpoint exec_stmts (now : Z) (l : list stmt) (d : intent_db) : result sqlerr intent_db :=
  match l with
  | [] => Ok d
  | s :: l' => match exec_stmt now s d with Ok (_, d') => exec_stmts now l' d' | Err e => Err e end
  end.

(** ** Queries *)
(** SELECT ... FROM intents WHERE id = $1 *)
Definition query_intent (id : string) (d : intent_db) : result sqlerr (string * intent_row) :=
  u ← uuid_arg id;
  match intents d !! u with Some r => Ok (u, r) | None => Err ErrNoRows end.

(** The optional conditions of the two queries of List. *)
Record intent_filter := mk_intent_filter {
  if_status : option string;
  if_submitter : option string;
  if_before : option Z;
}.
Definition filter_ok (f : intent_filter) (kr : string * intent_row) : bool :=
  let r := kr.2 in
  match if_status f with Some s => bool_decide (ir_status r = s) | None => true end &&
  match if_submitter f with Some s => bool_decide (ir_submitter_id r = s) | None => true end &&
  match if_before f with Some t => ir_created_at r <? ts_in t | None => true end.
Definition matching (f : intent_filter) (d : intent_db) : list (string * intent_row) :=
  List.filter (filter_ok f) (map_to_list (intents d)).
(** A filter that is no text of the encoding (a NUL byte) matches nothing here;
    the server refuses the query, which is its outcome [Lost]. *)
Definition query_count (f : intent_filter) (d : intent_db) : Z := Z.of_nat (length (matching f d)).
(** ... ORDER BY created_at DESC LIMIT $n *)
Definition query_page (f : intent_filter) (limit : Z) (d : intent_db) : list (string * intent_row) :=
  take (Z.to_nat limit) (order_intents (matching f d)).

(** SELECT id, topic, payload, retry_count FROM outbox_events WHERE status =
    'PENDING' OR (status = 'PROCESSING' AND updated_at < $1) ORDER BY
    created_at ASC LIMIT $2 FOR UPDATE SKIP LOCKED *)
Definition claimable (threshold : Z) (kr : string * outbox_row) : bool :=
  bool_decide (ob_status kr.2 = "PENDING") ||
  (bool_decide (ob_status kr.2 = "PROCESSING") && (ob_updated_at kr.2 <? ts_in threshold)).
Definition query_outbox (threshold limit : Z) (locked : gset string) (d : intent_db)
  : list (string * outbox_row) :=
  take (Z.to_nat limit)
    (order_outbox (List.filter (fun kr => claimable threshold kr && negb (bool_decide (kr.1 ∈ locked)))
                     (map_to_list (outbox_events d)))).
End statements.
