(* ===== verification/System.v ===== *)
(** * The world the services share

    One PostgreSQL database with the intent tables, the NATS JetStream streams,
    the wallet service behind its RPC, the ledger file and the clock, and the
    events by which handlers act on them.  A handler is a program of these
    events; many handlers, on many messages, interleave event by event. *)
From stdpp Require Import sorting.
From S2P Require Import Prelude GoLib Effects Sql Proto Float64 WalletProto Wallet Ledger IntentDb.

(** A [*sql.Tx]: what it has executed and the rows it has locked. *)
Record tx := mk_tx { tx_stmts : list stmt; tx_locks : list string }.

(** A [*nats.Msg]. *)
Record msg := mk_msg { Subject : string; Data : string }.
#[export] Instance msg_eq_dec : EqDecision msg.
Proof. solve_decision. Defined.

(** [AfterOrDone d] is the select between [time.After(d)] and the context. *)
Inductive sysE : Type -> Type :=
| DbBegin : sysE (result sqlerr tx)
| TxExec (t : tx) (s : stmt) : sysE (result sqlerr tx)
| TxQueryOutbox (t : tx) (threshold limit : Z) : sysE (result sqlerr (tx * list (string * outbox_row)))
| TxCommit (t : tx) : sysE (result sqlerr unit)
| TxRollback (t : tx) : sysE unit
| DbExec (s : stmt) : sysE (result sqlerr Z)
| QueryIntent (id : string) : sysE (result sqlerr (string * intent_row))
| QueryCount (f : intent_filter) : sysE (result sqlerr Z)
| QueryPage (f : intent_filter) (limit : Z) : sysE (result sqlerr (list (string * intent_row)))
| Publish (m : msg) : sysE (result string unit)
| WalletTransfer (txID : string) (req : TransferRequest.t) : sysE (result grpc_status TransferResponse.t)
| LedgerOp (X : Type) (e : ledgerE X) : sysE X
| Now : sysE Z
| AfterOrDone (d : Z) : sysE (result string unit)
| Metric (name : string) (labels : list string) : sysE unit.
Arguments LedgerOp {_} _.

Record world := mk_world {
  w_db : intent_db;
  w_locks : gset string;
  w_nats : list msg;
  w_wallet : wallet_db;
  w_ledger : option string;
  w_now : Z;
  w_metrics : list (string * list string);
}.

Definition set_db (d : intent_db) (w : world) : world :=
  mk_world d (w_locks w) (w_nats w) (w_wallet w) (w_ledger w) (w_now w) (w_metrics w).
Definition set_locks (l : gset string) (w : world) : world :=
  mk_world (w_db w) l (w_nats w) (w_wallet w) (w_ledger w) (w_now w) (w_metrics w).
Definition set_nats (l : list msg) (w : world) : world :=
  mk_world (w_db w) (w_locks w) l (w_wallet w) (w_ledger w) (w_now w) (w_metrics w).
Definition set_wallet (x : wallet_db) (w : world) : world :=
  mk_world (w_db w) (w_locks w) (w_nats w) x (w_ledger w) (w_now w) (w_metrics w).
Definition set_ledger (x : option string) (w : world) : world :=
  mk_world (w_db w) (w_locks w) (w_nats w) (w_wallet w) x (w_now w) (w_metrics w).
Definition set_now (t : Z) (w : world) : world :=
  mk_world (w_db w) (w_locks w) (w_nats w) (w_wallet w) (w_ledger w) t (w_metrics w).
Definition add_metric (name : string) (labels : list string) (w : world) : world :=
  mk_world (w_db w) (w_locks w) (w_nats w) (w_wallet w) (w_ledger w) (w_now w)
    ((name, labels) :: w_metrics w).

Section exec.
Context `{Postgres} `{NumericCodec}.

(** A read: it has no effect; it fails unless the outcome is [Done]. *)
Definition read {A} (o : outcome) (w : world) (r : result sqlerr A) : result sqlerr A * world :=
  match o with
  | Done => (r, w)
  | Lost e | AckLost e | Torn _ e => (Err (SqlError e), w)
  end.

(** The wallet RPC: the server runs the whole handler; the caller may miss the
    answer. *)
Definition wallet_rpc (now : Z) (txID : string) (req : TransferRequest.t) (d : wallet_db)
  : result grpc_status TransferResponse.t * wallet_db :=
  let '(r, s, _) := run (wallet_exec now) (Handler_Transfer txID req) [] (mk_session d None) in
  (r, committed s).
Definition rpc_failure (e : string) : grpc_status := status_Error codes.Unavailable e.

Definition release (t : tx) (w : world) : world :=
  set_locks (w_locks w ∖ list_to_set (tx_locks t)) w.

Definition sys_exec X (e : sysE X) (o : outcome) (w : world) : X * world :=
  match e in sysE X return X * world with
  | DbBegin => read o w (Ok (mk_tx [] []))
  | TxExec t s =>
      read o w (match exec_stmts (w_now w) (tx_stmts t ++ [s]) (w_db w) with
                | Ok _ => Ok (mk_tx (tx_stmts t ++ [s]) (tx_locks t))
                | Err e => Err e
                end)
  | TxQueryOutbox t threshold limit =>
      let rows := query_outbox threshold limit (w_locks w) (w_db w) in
      match o with
      | Done => (Ok (mk_tx (tx_stmts t) (map fst rows ++ tx_locks t), rows),
                 set_locks (list_to_set (map fst rows) ∪ w_locks w) w)
      | Lost e | AckLost e | Torn _ e => (Err (SqlError e), w)
      end
  | TxCommit t =>
      match exec_stmts (w_now w) (tx_stmts t) (w_db w) with
      | Err e => (Err e, release t w)
      | Ok d =>
          match o with
          | Done => (Ok tt, release t (set_db d w))
          | AckLost e => (Err (SqlError e), release t (set_db d w))
          | Lost e | Torn _ e => (Err (SqlError e), release t w)
          end
      end
  | TxRollback t => (tt, release t w)
  | DbExec s =>
      let '(r, d) := autocommit o (w_db w) (exec_stmt (w_now w) s) in (r, set_db d w)
  | QueryIntent id => read o w (query_intent id (w_db w))
  | QueryCount f => read o w (Ok (query_count f (w_db w)))
  | QueryPage f limit => read o w (Ok (query_page f limit (w_db w)))
  | Publish m =>
      match o with
      | Done => (Ok tt, set_nats (w_nats w ++ [m]) w)
      | AckLost e => (Err e, set_nats (w_nats w ++ [m]) w)
      | Lost e | Torn _ e => (Err e, w)
      end
  | WalletTransfer txID req =>
      let '(r, d) := wallet_rpc (w_now w) txID req (w_wallet w) in
      match o with
      | Done => (r, set_wallet d w)
      | AckLost e => (Err (rpc_failure e), set_wallet d w)
      | Lost e | Torn _ e => (Err (rpc_failure e), w)
      end
  | LedgerOp e => let '(x, file) := ledger_exec _ e o (w_ledger w) in (x, set_ledger file w)
  | Now => (w_now w, w)
  | AfterOrDone d =>
      match o with
      | Done => (Ok tt, set_now (w_now w + d) w)
      | Lost e | AckLost e | Torn _ e => (Err e, w)
      end
  | Metric name labels => (tt, add_metric name labels w)
  end.
End exec.

(** [defer tx.Rollback()]: runs when the function returns. *)
Definition defer_tx_rollback {R} (t : tx) (body : proc sysE R) : proc sysE R :=
  r ← body; Vis (TxRollback t) (fun _ => Ret r).

(** A Prometheus counter, gauge or histogram is told something. *)
Definition metric {R} (name : string) (labels : list string) (k : proc sysE R) : proc sysE R :=
  Vis (Metric name labels) (fun _ => k).
