(* ===== verification/SystemRules.v ===== *)
(** * Rules for programs of system events

    [wp] rules for the database, messaging and bookkeeping events, for every
    outcome the environment may choose. *)
From stdpp Require Import sorting.
From S2P Require Import Prelude GoLib Effects Sql IntentDb Float64 System.

Section rules.
Context `{Postgres} `{NumericCodec}.
Abbreviation wp := (wp sys_exec).

Lemma release_nil l w : release (mk_tx l []) w = w.
Proof.
  destruct w as [db lk nt wl lg nw mt]. unfold release, set_locks. cbn. f_equal.
  apply difference_empty_L.
Qed.

Lemma wp_vis {X R} (e : sysE X) (k : X -> proc sysE R) Q w :
  (forall o, wp (k (sys_exec X e o w).1) Q (sys_exec X e o w).2) -> wp (Vis e k) Q w.
Proof. done. Qed.

Lemma wp_now {R} (k : Z -> proc sysE R) Q w : wp (k (w_now w)) Q w -> wp (Vis Now k) Q w.
Proof. intros Hk o. exact Hk. Qed.

Lemma wp_metric {R} name labels (p : proc sysE R) Q w :
  wp p Q (add_metric name labels w) -> wp (metric name labels p) Q w.
Proof. intros Hp o. exact Hp. Qed.

Lemma set_db_same w : set_db (w_db w) w = w.
Proof. by destruct w. Qed.

Lemma wp_db_begin {R} onerr (k : tx -> proc sysE R) Q w :
  (forall e, Q (onerr e) w) -> wp (k (mk_tx [] [])) Q w -> wp (call DbBegin onerr k) Q w.
Proof. intros He Hk. apply wp_call. intros []; cbn; auto. Qed.

Lemma wp_tx_exec {R} t s onerr (k : tx -> proc sysE R) Q w :
  (forall e, Q (onerr e) w) ->
  (forall d, exec_stmts (w_now w) (tx_stmts t ++ [s]) (w_db w) = Ok d ->
             wp (k (mk_tx (tx_stmts t ++ [s]) (tx_locks t))) Q w) ->
  wp (call (TxExec t s) onerr k) Q w.
Proof.
  intros He Hk. apply wp_call. intros []; cbn; auto.
  destruct (exec_stmts _ _ _) as [d|e] eqn:E; [by eapply Hk|auto].
Qed.

Lemma wp_tx_commit {R} t onerr (k : unit -> proc sysE R) Q w :
  (forall e, Q (onerr e) (release t w)) ->
  (forall e d, exec_stmts (w_now w) (tx_stmts t) (w_db w) = Ok d -> Q (onerr e) (release t (set_db d w))) ->
  (forall d, exec_stmts (w_now w) (tx_stmts t) (w_db w) = Ok d -> wp (k tt) Q (release t (set_db d w))) ->
  wp (call (TxCommit t) onerr k) Q w.
Proof.
  intros He Hack Hk. apply wp_call. intros o. cbn. destruct (exec_stmts _ _ _) as [d|e] eqn:E; [|apply He].
  destruct o; cbn; eauto.
Qed.

Lemma wp_defer_tx {R} t (body : proc sysE R) Q w :
  wp body (fun r w' => Q r (release t w')) w -> wp (defer_tx_rollback t body) Q w.
Proof. intros Hw. apply wp_bind. eapply wp_mono; [|exact Hw]. intros r w' HQ o. exact HQ. Qed.

(** A single statement: no effect and an error, the effect and an error, or the
    effect and its row count. *)
Lemma wp_db_exec {R} s onerr (k : Z -> proc sysE R) Q w :
  (forall e, Q (onerr e) w) ->
  (forall e n d, exec_stmt (w_now w) s (w_db w) = Ok (n, d) -> Q (onerr e) (set_db d w)) ->
  (forall n d, exec_stmt (w_now w) s (w_db w) = Ok (n, d) -> wp (k n) Q (set_db d w)) ->
  wp (call (DbExec s) onerr k) Q w.
Proof.
  intros He Hack Hk. apply wp_call.
  intros [|e|e|n e]; cbn [sys_exec autocommit fst snd]; rewrite ?set_db_same; eauto;
    destruct (exec_stmt _ _ _) as [[n' d]|e'] eqn:E; cbn [fst snd]; rewrite ?set_db_same; eauto.
Qed.

Lemma wp_publish {R} m (k : result string unit -> proc sysE R) Q w :
  (forall e, wp (k (Err e)) Q w) ->
  (forall e, wp (k (Err e)) Q (set_nats (w_nats w ++ [m]) w)) ->
  wp (k (Ok tt)) Q (set_nats (w_nats w ++ [m]) w) ->
  wp (Vis (Publish m) k) Q w.
Proof. intros He Hack Hk. apply wp_vis. intros []; cbn; auto. Qed.

Lemma wp_query_intent {R} id (k : result sqlerr (string * intent_row) -> proc sysE R) Q w :
  (forall e, wp (k (Err (SqlError e))) Q w) -> wp (k (query_intent id (w_db w))) Q w ->
  wp (Vis (QueryIntent id) k) Q w.
Proof. intros He Hk. apply wp_vis. intros []; cbn; auto. Qed.
End rules.

(** Clock readings and metrics at the head of a program. *)
Ltac observe := repeat first [apply wp_now | apply wp_metric].

#[export] Hint Rewrite @release_nil @set_db_same : world.
#[export] Hint Rewrite @app_nil_r : world.
