(* ===== verification/IntentStore.v ===== *)
(** * Storage of intents: intent-service/store

    The two implementations of the [Store] interface, memory.go and
    postgres.go, and what proto.Marshal and the RFC 3339 page tokens rely on.
    Identifiers from [ids.NewIntentID] are arguments. *)
From S2P Require Import Prelude GoLib Effects Sql Proto IntentDb System.

(** proto.Marshal and proto.Unmarshal of an Intent: what was written is read
    back; strings that are not UTF-8 are refused. *)
Class ProtoCodec := {
  marshal_intent : Intent.t -> result string string;
  unmarshal_intent : string -> option Intent.t;
  unmarshal_marshal : forall i bs, marshal_intent i = Ok bs -> unmarshal_intent bs = Some i;
}.

(** The times RFC 3339 can write: the years 1 to 9999, in nanoseconds since the
    epoch. *)
Definition rfc3339_time (t : Z) : Prop := -62135596800000000000 <= t < 253402300800000000000.

(** [time.Time.Format] and [time.Parse] with [time.RFC3339Nano]. *)
Class TimeText := {
  format_rfc3339nano : Z -> string;
  parse_rfc3339nano : string -> option Z;
  parse_format : forall t, rfc3339_time t -> parse_rfc3339nano (format_rfc3339nano t) = Some t;
  format_nonempty : forall t, format_rfc3339nano t <> "";
}.
(** The zero [time.Time], January 1 of year 1, in nanoseconds since the epoch. *)
Definition zero_time : Z := -62135596800000000000.

(** The condition that List's two filters put on an intent. *)
Definition wants (statusFilter : IntentStatus) (submitterFilter : string) (i : Intent.t) : bool :=
  negb (negb (statusFilter =? INTENT_STATUS_UNSPECIFIED) && negb (Intent.Status i =? statusFilter)) &&
  negb (negb (bool_decide (submitterFilter = "")) && negb (bool_decide (Intent.SubmitterId i = submitterFilter))).

(** ** memory.go *)
Module MemoryStore.
Record t := mk { intents : gmap string Intent.t; ordered : list string }.
Definition NewMemoryStore : t := mk ∅ [].

Definition Create (now : Z) (id : string) (req : SubmitIntentRequest.t) (m : t) : Intent.t * t :=
  let intent := Intent.mk id (SubmitIntentRequest.Type_ req) INTENT_STATUS_PENDING
    (SubmitIntentRequest.SubmitterId req) (SubmitIntentRequest.Payload req)
    (SubmitIntentRequest.Constraints req) (SubmitIntentRequest.Signature req)
    (SubmitIntentRequest.SubmitterPublicKey req) (Some now) (Some now) in
  (intent, mk (<[id := intent]> (intents m)) (ordered m ++ [id])).

Definition Get (id : string) (m : t) : result string Intent.t :=
  match intents m !! id with
  | Some intent => Ok intent
  | None => Err ("intent not found: " +:+ id)%string
  end.

(** The loop of List: [results] in order, [totalMatching] so far.  A listed id
    without an intent is a nil dereference ([None]). *)
Fixpoint scan (wanted : Intent.t -> bool) (startIdx pageSize : Z) (m : gmap string Intent.t)
    (ids : list string) (results : list Intent.t) (totalMatching : Z) : option (list Intent.t * Z) :=
  match ids with
  | [] => Some (results, totalMatching)
  | id :: ids' =>
      match m !! id with
      | None => None
      | Some intent =>
          if negb (wanted intent) then scan wanted startIdx pageSize m ids' results totalMatching else
          let totalMatching := totalMatching + 1 in
          if totalMatching <=? startIdx then scan wanted startIdx pageSize m ids' results totalMatching else
          if Z.of_nat (length results) <? pageSize
          then scan wanted startIdx pageSize m ids' (results ++ [intent]) totalMatching
          else scan wanted startIdx pageSize m ids' results totalMatching
      end
  end.

Definition List (statusFilter : IntentStatus) (submitterFilter : string) (pageSize : Z)
    (pageToken : string) (m : t) : option (list Intent.t * string * Z) :=
  let pageSize := if pageSize <=? 0 then 20 else pageSize in
  let startIdx := if bool_decide (pageToken = "") then 0 else default 0 (sscanf_d pageToken) in
  '(results, totalMatching) ← scan (wants statusFilter submitterFilter) startIdx pageSize
                                (intents m) (ordered m) [] 0;
  let next := startIdx + Z.of_nat (length results) in
  let nextPageToken := if next <? totalMatching then itoa next else ""%string in
  Some (results, nextPageToken, totalMatching).
End MemoryStore.

(** ** postgres.go *)
Definition parseIntentType (s : string) : IntentType :=
  if bool_decide (s = "INTENT_TYPE_TRANSFER") then INTENT_TYPE_TRANSFER
  else if bool_decide (s = "INTENT_TYPE_COMPUTE") then INTENT_TYPE_COMPUTE
  else if bool_decide (s = "INTENT_TYPE_QUERY") then INTENT_TYPE_QUERY
  else if bool_decide (s = "INTENT_TYPE_SCHEDULED") then INTENT_TYPE_SCHEDULED
  else INTENT_TYPE_UNSPECIFIED.
Definition parseIntentStatus (s : string) : IntentStatus :=
  if bool_decide (s = "INTENT_STATUS_PENDING") then INTENT_STATUS_PENDING
  else if bool_decide (s = "INTENT_STATUS_VALIDATED") then INTENT_STATUS_VALIDATED
  else if bool_decide (s = "INTENT_STATUS_SCHEDULED") then INTENT_STATUS_SCHEDULED
  else if bool_decide (s = "INTENT_STATUS_EXECUTING") then INTENT_STATUS_EXECUTING
  else if bool_decide (s = "INTENT_STATUS_COMPLETED") then INTENT_STATUS_COMPLETED
  else if bool_decide (s = "INTENT_STATUS_FAILED") then INTENT_STATUS_FAILED
  else if bool_decide (s = "INTENT_STATUS_REJECTED") then INTENT_STATUS_REJECTED
  else if bool_decide (s = "INTENT_STATUS_CANCELLED") then INTENT_STATUS_CANCELLED
  else INTENT_STATUS_UNSPECIFIED.

Module PostgresStore.
Section postgres.
Context `{Postgres} `{ProtoCodec} `{TimeText}.

(** [fmt.Errorf("...: %w", err)] *)
Definition wrap {A} (what : string) (e : sqlerr) : result string A := Err (what +:+ ": " +:+ sql_msg e)%string.

(** The constraints as stored, with their defaults. *)
Definition constraints_of (c : option IntentConstraints.t) : IntentConstraints.t :=
  match c with
  | None => IntentConstraints.mk None 5 3 false
  | Some c => IntentConstraints.mk (IntentConstraints.Deadline c) (IntentConstraints.Priority c)
                (IntentConstraints.MaxRetries c) (IntentConstraints.Idempotent c)
  end.
Definition row_of_request (now : Z) (req : SubmitIntentRequest.t) : intent_row :=
  let c := constraints_of (SubmitIntentRequest.Constraints req) in
  mk_intent_row (IntentType_String (SubmitIntentRequest.Type_ req))
    (IntentStatus_String INTENT_STATUS_PENDING) (SubmitIntentRequest.SubmitterId req)
    (SubmitIntentRequest.Payload req) (IntentConstraints.Priority c) (IntentConstraints.MaxRetries c)
    (IntentConstraints.Idempotent c) (IntentConstraints.Deadline c)
    (SubmitIntentRequest.Signature req) (SubmitIntentRequest.SubmitterPublicKey req) now now.
Definition intent_of_request (now : Z) (id : string) (req : SubmitIntentRequest.t) : Intent.t :=
  Intent.mk id (SubmitIntentRequest.Type_ req) INTENT_STATUS_PENDING
    (SubmitIntentRequest.SubmitterId req) (SubmitIntentRequest.Payload req)
    (Some (constraints_of (SubmitIntentRequest.Constraints req)))
    (SubmitIntentRequest.Signature req) (SubmitIntentRequest.SubmitterPublicKey req)
    (Some now) (Some now).

Definition Create (id outboxID : string) (req : SubmitIntentRequest.t) : proc sysE (result string Intent.t) :=
  Vis Now (fun now =>
  let typeStr := IntentType_String (SubmitIntentRequest.Type_ req) in
  let? t := DbBegin else wrap "failed to begin transaction" in
  defer_tx_rollback t (
    let? t := TxExec t (InsertIntent id (row_of_request now req)) else wrap "failed to insert intent" in
    let intent := intent_of_request now id req in
    match marshal_intent intent with
    | Err e => Ret (Err ("failed to marshal outbox event payload: " +:+ e)%string)
    | Ok eventData =>
        let? t := TxExec t (InsertOutbox outboxID ("intents.submitted." +:+ typeStr)%string eventData now)
          else wrap "failed to insert outbox event" in
        let? _ := TxCommit t else wrap "failed to commit transaction" in
        Ret (Ok intent)
    end)).

(** The scanned columns as an Intent. *)
Definition intent_of_row (id : string) (r : intent_row) : Intent.t :=
  Intent.mk id (parseIntentType (ir_type r)) (parseIntentStatus (ir_status r)) (ir_submitter_id r)
    (ir_payload r)
    (Some (IntentConstraints.mk (ir_deadline r) (ir_priority r) (ir_max_retries r) (ir_idempotent r)))
    (ir_signature r) (ir_submitter_public_key r) (Some (ir_created_at r)) (Some (ir_updated_at r)).

Definition Get (id : string) : proc sysE (result string Intent.t) :=
  Vis (QueryIntent id) (fun r =>
    Ret (match r with
         | Ok (intentId, row) => Ok (intent_of_row intentId row)
         | Err ErrNoRows => Err ("intent not found: " +:+ id)%string
         | Err e => wrap "failed to scan intent" e
         end)).

Definition list_filter (statusFilter : IntentStatus) (submitterFilter : string) (before : option Z)
  : intent_filter :=
  mk_intent_filter
    (if statusFilter =? INTENT_STATUS_UNSPECIFIED then None else Some (IntentStatus_String statusFilter))
    (if bool_decide (submitterFilter = "") then None else Some submitterFilter) before.
Definition next_token (pageSize : Z) (rows : list (string * intent_row)) : string :=
  let lastCreatedAt := match last rows with Some (_, r) => ir_created_at r | None => zero_time end in
  if (Z.of_nat (length rows) =? pageSize) && negb (lastCreatedAt =? zero_time)
  then format_rfc3339nano lastCreatedAt else ""%string.

Definition List (statusFilter : IntentStatus) (submitterFilter : string) (pageSize : Z)
    (pageToken : string) : proc sysE (result string (list Intent.t * string * Z)) :=
  let pageSize := if pageSize <=? 0 then 20 else pageSize in
  let? totalCount := QueryCount (list_filter statusFilter submitterFilter None)
    else wrap "failed to count intents" in
  let cursor := if bool_decide (pageToken = "") then None else parse_rfc3339nano pageToken in
  let? rows := QueryPage (list_filter statusFilter submitterFilter cursor) pageSize
    else wrap "failed to query intents" in
  let results := map (fun kr => intent_of_row kr.1 kr.2) rows in
  Ret (Ok (results, next_token pageSize rows, totalCount)).
End postgres.
End PostgresStore.
