(* ===== verification/Crypto.v ===== *)
(** * Signatures: shared/crypto/crypto.go

    crypto/ed25519 is the class [Ed25519]: its operations and its correctness
    law.  The hex and size checks around it, and the signed bytes, are the
    code's. *)
From S2P Require Import Prelude GoLib.

(** [ed_keygen seed] is the public key and the 64-byte private key, whose second
    half is the public key. *)
Class Ed25519 := {
  ed_keygen : string -> string * string;
  ed_sign : string -> string -> string;
  ed_verify : string -> string -> string -> bool;
  ed_public_length : forall seed, String.length (ed_keygen seed).1 = 32%nat;
  ed_private_length : forall seed, String.length (ed_keygen seed).2 = 64%nat;
  ed_public_half : forall seed, String.substring 32 32 (ed_keygen seed).2 = (ed_keygen seed).1;
  ed_sign_length : forall sk m, String.length (ed_sign sk m) = 64%nat;
  ed_verify_sign : forall seed m,
    ed_verify (ed_keygen seed).1 m (ed_sign (ed_keygen seed).2 m) = true;
}.

Section crypto.
Context `{Ed25519}.

Definition PublicKeySize : Z := 32.
Definition PrivateKeySize : Z := 64.
Definition SignatureSize : Z := 64.

(** The random source yields the seed or fails. *)
Definition GenerateKeyPair (rand : result string string) : result string (string * string) :=
  match rand with
  | Err e => Err ("failed to generate key pair: " +:+ e)%string
  | Ok seed =>
      let '(pubKey, privKey) := ed_keygen seed in
      Ok (hex_encode pubKey, hex_encode privKey)
  end.

(** [hex.DecodeString] and a size check, with the code's two errors. *)
Definition decode_sized (what what_size : string) (size : Z) (s : string) : result string string :=
  match hex_decode s with
  | None => Err ("failed to decode " +:+ what +:+ " hex")%string
  | Some bytes =>
      if slen bytes =? size then Ok bytes
      else Err ("invalid " +:+ what_size +:+ " size: expected " +:+ itoa size +:+ " bytes, got "
                +:+ itoa (slen bytes))%string
  end.

Definition Sign (payload privateKeyHex : string) : result string string :=
  privKey ← decode_sized "private key" "private key" PrivateKeySize privateKeyHex;
  Ok (hex_encode (ed_sign privKey payload)).

Definition Verify (payload signatureHex publicKeyHex : string) : result string bool :=
  pubKey ← decode_sized "public key" "public key" PublicKeySize publicKeyHex;
  sig ← decode_sized "signature" "signature" SignatureSize signatureHex;
  Ok (ed_verify pubKey payload sig).

Definition GetSignBytes (typeStr submitterId payload : string) : string :=
  (typeStr +:+ "|" +:+ submitterId +:+ "|" +:+ payload)%string.

(** The separator of the signed text does not occur in [s]. *)
Definition no_bar (s : string) : bool := string_forall (fun c => negb (byteZ c =? 124)) s.

Lemma bar_split a b x y :
  no_bar a = true -> no_bar b = true -> (a +:+ "|" +:+ x = b +:+ "|" +:+ y)%string -> a = b /\ x = y.
Proof.
  unfold no_bar. revert b; induction a as [|c a IH]; intros [|d b]; cbn.
  - by intros _ _ [= ->].
  - by intros _ [Hd _]%andb_true_iff [= <- _].
  - by intros [Hc _]%andb_true_iff _ [= -> _].
  - intros [_ Ha]%andb_true_iff [_ Hb]%andb_true_iff [= -> Heq]. by destruct (IH b Ha Hb Heq) as [-> ->].
Qed.

Lemma decode_sized_Ok what what_size size s b :
  decode_sized what what_size size s = Ok b <-> hex_decode s = Some b /\ slen b = size.
Proof.
  unfold decode_sized. destruct (hex_decode s) as [bytes|]; [|naive_solver].
  destruct (Z.eqb_spec (slen bytes) size); naive_solver.
Qed.

Lemma decode_encode what what_size size b :
  slen b = size -> decode_sized what what_size size (hex_encode b) = Ok b.
Proof. intros. apply decode_sized_Ok. by rewrite hex_decode_encode. Qed.

(** What Sign signs under a generated key, Verify accepts under the matching
    public key, for every payload; neither call fails. *)
Theorem sign_verify seed payload :
  exists pub priv sig,
    GenerateKeyPair (Ok seed) = Ok (pub, priv) /\
    Sign payload priv = Ok sig /\ Verify payload sig pub = Ok true.
Proof.
  unfold GenerateKeyPair, Sign, Verify.
  pose proof (ed_public_length seed) as Hp. pose proof (ed_private_length seed) as Hs.
  pose proof (ed_verify_sign seed payload) as Hv.
  destruct (ed_keygen seed) as [pub priv]. cbn in Hp, Hs, Hv.
  exists (hex_encode pub), (hex_encode priv), (hex_encode (ed_sign priv payload)).
  split; [done|].
  rewrite (decode_encode _ _ PrivateKeySize priv) by (unfold slen; by rewrite Hs).
  rewrite (decode_encode _ _ PublicKeySize pub) by (unfold slen; by rewrite Hp).
  cbn [mbind result_bind]. split; [done|].
  rewrite decode_encode by (unfold slen; by rewrite ed_sign_length). cbn. by rewrite Hv.
Qed.

(** Verify answers true only for a 32-byte hex public key and a 64-byte hex
    signature that ed25519 accepts; every other size or encoding is an error. *)
Theorem verify_true_iff payload sig pub :
  Verify payload sig pub = Ok true <->
  exists pk sg, hex_decode pub = Some pk /\ slen pk = 32 /\
                hex_decode sig = Some sg /\ slen sg = 64 /\ ed_verify pk payload sg = true.
Proof.
  unfold Verify. rewrite !result_bind_Ok. split.
  - intros (pk & [H1 H2]%decode_sized_Ok & (sg & [H3 H4]%decode_sized_Ok & [= Hv])%result_bind_Ok). eauto 10.
  - intros (pk & sg & H1 & H2 & H3 & H4 & Hv). exists pk. rewrite decode_sized_Ok. split; [done|].
    apply result_bind_Ok. exists sg. rewrite decode_sized_Ok. split; [done|]. by rewrite Hv.
Qed.
End crypto.
