(* ===== verification/IntentHandler.v ===== *)
(** * The gRPC handlers of the intent service: intent-service/handler

    The handler talks to its store through the [Store] interface; here an
    interface is a class over the events of the implementation.  Logging is not
    modelled. *)
From S2P Require Import Prelude GoLib Effects Sql Proto IntentDb System IntentStore Crypto.

(** [type Store interface] *)
Class Store (E : Type -> Type) := {
  store_Create : string -> string -> SubmitIntentRequest.t -> proc E (result string Intent.t);
  store_Get : string -> proc E (result string Intent.t);
  store_List : IntentStatus -> string -> Z -> string -> proc E (result string (list Intent.t * string * Z));
}.

#[export] Instance postgres_store `{Postgres} `{ProtoCodec} `{TimeText} : Store sysE := {|
  store_Create := PostgresStore.Create;
  store_Get := PostgresStore.Get;
  store_List := PostgresStore.List;
|}.

(** The in-memory store: its operations are events on its own state; the mutex
    makes each one atomic.  They do not fail. *)
Inductive memE : Type -> Type :=
| MemCreate (id : string) (req : SubmitIntentRequest.t) : memE (result string Intent.t)
| MemGet (id : string) : memE (result string Intent.t)
| MemList (st : IntentStatus) (sub : string) (size : Z) (token : string)
  : memE (result string (list Intent.t * string * Z)).
Definition mem_exec (now : Z) X (e : memE X) (o : outcome) (m : MemoryStore.t) : X * MemoryStore.t :=
  match e in memE X return X * MemoryStore.t with
  | MemCreate id req => let '(i, m') := MemoryStore.Create now id req m in (Ok i, m')
  | MemGet id => (MemoryStore.Get id m, m)
  | MemList st sub size token =>
      (match MemoryStore.List st sub size token m with
       | Some r => Ok r
       | None => Err "nil pointer dereference"%string
       end, m)
  end.
#[export] Instance memory_store : Store memE := {|
  store_Create id outboxID req := trigger (MemCreate id req);
  store_Get id := trigger (MemGet id);
  store_List st sub size token := trigger (MemList st sub size token);
|}.

Section handler.
Context `{Ed25519} {E : Type -> Type} `{Store E}.

Definition fail {A} (code : Z) (m : string) : result grpc_status A := Err (status_Error code m).

Definition SubmitIntent (id outboxID : string) (req : SubmitIntentRequest.t)
  : proc E (result grpc_status SubmitIntentResponse.t) :=
  if SubmitIntentRequest.Type_ req =? INTENT_TYPE_UNSPECIFIED then
    Ret (fail codes.InvalidArgument "intent type is required") else
  if bool_decide (SubmitIntentRequest.SubmitterId req = "") then
    Ret (fail codes.InvalidArgument "submitter_id is required") else
  if bool_decide (SubmitIntentRequest.SubmitterPublicKey req = "") then
    Ret (fail codes.InvalidArgument "submitter_public_key is required") else
  if bool_decide (SubmitIntentRequest.Signature req = "") then
    Ret (fail codes.InvalidArgument "signature is required") else
  let signBytes := GetSignBytes (IntentType_String (SubmitIntentRequest.Type_ req))
                     (SubmitIntentRequest.SubmitterId req) (SubmitIntentRequest.Payload req) in
  match Verify signBytes (SubmitIntentRequest.Signature req) (SubmitIntentRequest.SubmitterPublicKey req) with
  | Err err => Ret (fail codes.InvalidArgument ("failed to decode signature or public key: " +:+ err)%string)
  | Ok false => Ret (fail codes.Unauthenticated "invalid cryptographic signature")
  | Ok true =>
      r ← store_Create id outboxID req;
      Ret (match r with
           | Err err => fail codes.Internal ("failed to create intent: " +:+ err)%string
           | Ok intent => Ok (SubmitIntentResponse.mk (Intent.Id intent) (Intent.Status intent)
                                (Intent.CreatedAt intent))
           end)
  end.

Definition GetIntent (req : GetIntentRequest.t) : proc E (result grpc_status GetIntentResponse.t) :=
  let id := GetIntentRequest.IntentId req in
  if bool_decide (id = "") then Ret (fail codes.InvalidArgument "intent_id is required") else
  r ← store_Get id;
  Ret (match r with
       | Err _ => fail codes.NotFound ("intent not found: " +:+ id)%string
       | Ok intent => Ok (GetIntentResponse.mk (Some intent))
       end).

Definition ListIntents (req : ListIntentsRequest.t) : proc E (result grpc_status ListIntentsResponse.t) :=
  r ← store_List (ListIntentsRequest.StatusFilter req) (ListIntentsRequest.SubmitterIdFilter req)
        (ListIntentsRequest.PageSize req) (ListIntentsRequest.PageToken req);
  Ret (match r with
       | Err err => fail codes.Internal ("failed to list intents: " +:+ err)%string
       | Ok (intents, nextToken, total) =>
           Ok (ListIntentsResponse.mk intents nextToken (wrapS 32 total))
       end).
End handler.

(** ** publisher.go *)
Section publisher.
Context `{ProtoCodec}.
Definition PublishIntentSubmitted (intent : Intent.t) : proc sysE (result string unit) :=
  match marshal_intent intent with
  | Err e => Ret (Err ("failed to marshal intent to protobuf: " +:+ e)%string)
  | Ok data =>
      let subject := ("intents.submitted." +:+ IntentType_String (Intent.Type_ intent))%string in
      Vis (Publish (mk_msg subject data)) (fun r =>
        Ret (match r with
             | Err e => Err ("failed to publish to NATS JetStream: " +:+ e)%string
             | Ok _ => Ok tt
             end))
  end.
Definition NoOp_PublishIntentSubmitted (intent : Intent.t) : proc sysE (result string unit) := Ret (Ok tt).
End publisher.

(** ** intent-service/main.go: metricsInterceptor
    [code_name] is grpc's name of a status code.  Every error of the handlers
    is a status error. *)
Definition metricsInterceptor {A} (code_name : Z -> string) (fullMethod : string)
    (handler : proc sysE (result grpc_status A)) : proc sysE (result grpc_status A) :=
  Vis Now (fun start =>
  r ← handler;
  Vis Now (fun now =>
  let statusStr := match r with Ok _ => "OK"%string | Err st => code_name (st_code st) end in
  metric "aien_intent_service_grpc_requests_total" [fullMethod; statusStr] (
  metric "aien_intent_service_grpc_request_duration_seconds" [fullMethod; itoa (now - start)] (
  Ret r)))).
