(* ===== verification/Gateway.v ===== *)
(** * The API gateway: gateway/main.go

    HTTP requests become RPCs to the intent service.  A handler is a program of
    gateway events: the Redis commands, the two ends of an RPC, and the events
    of the services behind it.  A handler that panics ends in [None]; the server
    then drops the connection.  Logging is not modelled. *)
From S2P Require Import Prelude GoLib Sha256 Effects Sql Proto Float64 Json Http Redis Ledger.
From S2P Require Import IntentDb System IntentStore Crypto IntentHandler.

Inductive gwE : Type -> Type :=
| Sys (X : Type) (e : sysE X) : gwE X
| RedisGet (k : string) : gwE (option string)
| RedisSet (k v : string) (ttl : Z) : gwE unit
| RedisIncr (k : string) : gwE (result string Z)
| RedisExpire (k : string) (ttl : Z) : gwE unit
| Dial : gwE (result grpc_status unit)
| Reply : gwE (result grpc_status unit).
Arguments Sys {_} _.

Record gw_world `{Redis} := mk_gw { gw_sys : world; gw_redis : keyspace }.
Arguments mk_gw {_} _ _.

Section exec.
Context `{Postgres} `{NumericCodec} `{Redis}.

(** A lost request is "unavailable"; one that takes more than five seconds has
    exceeded its deadline. *)
Definition rpc_outcome (o : outcome) : result grpc_status unit :=
  match o with
  | Done => Ok tt
  | Lost e => Err (status_Error codes.Unavailable e)
  | AckLost e | Torn _ e => Err (status_Error codes.DeadlineExceeded e)
  end.

Definition gw_exec X (e : gwE X) (o : outcome) (g : gw_world) : X * gw_world :=
  let now := w_now (gw_sys g) in
  let put s := mk_gw (gw_sys g) s in
  match e in gwE X return X * gw_world with
  | Sys e => let '(x, w) := sys_exec _ e o (gw_sys g) in (x, mk_gw w (gw_redis g))
  | RedisGet k =>
      (match o with Done => fst <$> key_at now k (gw_redis g) | _ => None end, g)
  | RedisSet k v ttl =>
      (tt, match o with
           | Done | AckLost _ => put (redis_SET now k v ttl (gw_redis g))
           | Lost _ | Torn _ _ => g
           end)
  | RedisIncr k =>
      let '(r, s) := redis_INCR now k (gw_redis g) in
      match o with
      | Done => (r, put s)
      | AckLost e => (Err e, put s)
      | Lost e | Torn _ e => (Err e, g)
      end
  | RedisExpire k ttl =>
      (tt, match o with
           | Done | AckLost _ => put (redis_EXPIRE now k ttl (gw_redis g))
           | Lost _ | Torn _ _ => g
           end)
  | Dial => (rpc_outcome o, g)
  | Reply => (rpc_outcome o, g)
  end.
End exec.

Definition sys {R} (p : proc sysE R) : proc gwE R := proc_map (fun X e => Sys e) p.

(** A unary call: the request arrives, the server runs its handler, the answer
    arrives. *)
Definition rpc {A} (serve : proc sysE (result grpc_status A)) : proc gwE (result grpc_status A) :=
  Vis Dial (fun d =>
  match d with
  | Err st => Ret (Err st)
  | Ok _ => r ← sys serve; Vis Reply (fun d => Ret (match d with Err st => Err st | Ok _ => r end))
  end).

(** ** The response writer of the middleware *)
Record responseWriterDelegator := mk_delegator { inner : ResponseWriter; status : Z }.
Definition set_header (k v : string) (w : responseWriterDelegator) : responseWriterDelegator :=
  mk_delegator (rw_set k v (inner w)) (status w).
Definition WriteHeader (code : Z) (w : responseWriterDelegator) : responseWriterDelegator :=
  mk_delegator (rw_WriteHeader code (inner w)) code.
Definition Write (data : string) (w : responseWriterDelegator) : responseWriterDelegator :=
  mk_delegator (rw_Write data (inner w)) (status w).

Definition Handler : Type := Request -> responseWriterDelegator -> proc gwE (option responseWriterDelegator).
Definition respond (w : responseWriterDelegator) : proc gwE (option responseWriterDelegator) := Ret (Some w).

(** [http.Error] *)
Definition http_Error (msg : string) (code : Z) (w : responseWriterDelegator) : responseWriterDelegator :=
  let w := set_header "Content-Type" "text/plain; charset=utf-8" w in
  let w := set_header "X-Content-Type-Options" "nosniff" w in
  Write (msg +:+ newline)%string (WriteHeader code w).
Definition method_not_allowed (w : responseWriterDelegator) : proc gwE (option responseWriterDelegator) :=
  respond (http_Error "Method not allowed" StatusMethodNotAllowed w).

Definition writeJSON (code : Z) (data : jv) (w : responseWriterDelegator) : responseWriterDelegator :=
  let w := WriteHeader code (set_header "Content-Type" "application/json" w) in
  match encode_json data with
  | Some body => Write (body +:+ newline)%string w
  | None => w
  end.
Definition writeError (code : Z) (message : string) (w : responseWriterDelegator) : responseWriterDelegator :=
  writeJSON code (JvMap [("error", JvStr message)])%string w.

(** An error of a gRPC call; [status.FromError] knows the first kind only. *)
Inductive call_error : Type :=
| StatusErr (st : grpc_status)
| OtherErr (m : string).

Definition http_code (code : Z) : Z :=
  if code =? 3 then StatusBadRequest
  else if code =? 5 then StatusNotFound
  else if code =? 4 then StatusGatewayTimeout
  else if code =? 14 then StatusServiceUnavailable
  else if code =? 16 then StatusUnauthorized
  else if code =? 7 then StatusForbidden
  else StatusInternalServerError.
Definition handleGRPCError (err : call_error) (w : responseWriterDelegator) : responseWriterDelegator :=
  match err with
  | OtherErr _ => writeError StatusInternalServerError "internal error" w
  | StatusErr st => writeError (http_code (st_code st)) (st_message st) w
  end.

Module HTTPIntentType.
Definition parseIntentType (s : string) : IntentType :=
  if bool_decide (s = "TRANSFER") then INTENT_TYPE_TRANSFER
  else if bool_decide (s = "COMPUTE") then INTENT_TYPE_COMPUTE
  else if bool_decide (s = "QUERY") then INTENT_TYPE_QUERY
  else if bool_decide (s = "SCHEDULED") then INTENT_TYPE_SCHEDULED
  else INTENT_TYPE_UNSPECIFIED.
End HTTPIntentType.

(** ** The body of POST /intents *)
Module ConstraintsHTTP.
Record t := mk { Priority : Z; MaxRetries : Z; Idempotent : bool; Deadline : string }.
Definition zero : t := mk 0 0 false "".
Definition keys : list string := ["priority"; "max_retries"; "idempotent"; "deadline"]%string.
Definition set_field (f : string) (v : json) (x : t) : option t :=
  let '(mk p r i d) := x in
  if bool_decide (f = "priority") then set_num (num_int 32) (fun n _ => mk n r i d) v x
  else if bool_decide (f = "max_retries") then set_num (num_int 32) (fun n _ => mk p n i d) v x
  else if bool_decide (f = "idempotent") then set_bool (fun b _ => mk p r b d) v x
  else set_string (fun s _ => mk p r i s) v x.
End ConstraintsHTTP.

Module SubmitIntentHTTPRequest.
Record t := mk {
  Type_ : string;
  Payload : string;
  SubmitterID : string;
  Signature : string;
  SubmitterPublicKey : string;
  Constraints : option ConstraintsHTTP.t;
}.
Definition zero : t := mk "" "" "" "" "" None.
Definition keys : list string :=
  ["type"; "payload"; "submitter_id"; "signature"; "submitter_public_key"; "constraints"]%string.
(** A pointer field: null makes it nil, an object is decoded into what it
    points to. *)
Definition set_constraints (v : json) (x : t) : option t :=
  let '(mk ty p s sg k c) := x in
  match v with
  | JNull => Some (mk ty p s sg k None)
  | _ =>
      match decode_struct ConstraintsHTTP.keys ConstraintsHTTP.set_field v
              (default ConstraintsHTTP.zero c) with
      | Some c' => Some (mk ty p s sg k (Some c'))
      | None => None
      end
  end.
Definition set_field (f : string) (v : json) (x : t) : option t :=
  let '(mk ty p s sg k c) := x in
  if bool_decide (f = "type") then set_string (fun a _ => mk a p s sg k c) v x
  else if bool_decide (f = "payload") then set_string (fun a _ => mk ty a s sg k c) v x
  else if bool_decide (f = "submitter_id") then set_string (fun a _ => mk ty p a sg k c) v x
  else if bool_decide (f = "signature") then set_string (fun a _ => mk ty p s a k c) v x
  else if bool_decide (f = "submitter_public_key") then set_string (fun a _ => mk ty p s sg a c) v x
  else set_constraints v x.
Definition unmarshal (body : string) : option t := unmarshal_struct keys set_field body zero.
End SubmitIntentHTTPRequest.

(** ** The body of POST /api/login *)
Module LoginRequest.
Record t := mk { Username : string; Password : string }.
Definition zero : t := mk "" "".
Definition keys : list string := ["username"; "password"]%string.
Definition set_field (f : string) (v : json) (x : t) : option t :=
  let '(mk u p) := x in
  if bool_decide (f = "username") then set_string (fun s _ => mk s p) v x
  else set_string (fun s _ => mk u s) v x.
End LoginRequest.

Module JWTClaims.
Record t := mk { Sub : string; Exp : Z }.
Definition zero : t := mk "" 0.
Definition keys : list string := ["sub"; "exp"]%string.
Definition members (c : t) : list (string * scalar) := [("sub", SStr (Sub c)); ("exp", SInt (Exp c))]%string.
Definition set_field (f : string) (v : json) (x : t) : option t :=
  let '(mk s e) := x in
  if bool_decide (f = "sub") then set_string (fun a _ => mk a e) v x
  else set_num (num_int 64) (fun n _ => mk s n) v x.
Definition unmarshal (data : string) : option t := unmarshal_struct keys set_field data zero.
End JWTClaims.

(** ** The gateway
    [json_error], [base64_error], [code_name]: the text of a decoding error and
    of a status code.  [format_local]: the time stamp in the zone of the process.
    [static_files], [promhttp], [redirect]: the answers of the file server, of
    the Prometheus handler and of a redirection. *)
Record Gateway := mk_Gateway {
  jwtSecret : string;
  getenv : string -> string;
}.
Record libraries := mk_libraries {
  json_error : string -> string;
  base64_error : string -> string;
  code_name : Z -> string;
  format_local : Z -> string;
  static_files : Request -> ResponseWriter -> ResponseWriter;
  promhttp : list (string * list string) -> Request -> ResponseWriter -> ResponseWriter;
  redirect : string -> Request -> ResponseWriter -> ResponseWriter;
}.

Section gateway.
Context `{Postgres} `{ProtoCodec} `{TimeText} `{Ed25519}.
Context (gw : Gateway) (lib : libraries).

Definition day : Z := 86400 * second.
Definition idempotency_key (signature : string) : string := ("idempotency:" +:+ signature)%string.

(** The answer to a stored intent. *)
Definition submit_response (resp : SubmitIntentResponse.t) : jv :=
  JvMap [("intent_id", JvStr (SubmitIntentResponse.IntentId resp));
         ("status", JvStr (IntentStatus_String (SubmitIntentResponse.Status resp)));
         ("created_at", JvStr (format_rfc3339 (default 0 (SubmitIntentResponse.CreatedAt resp))))]%string.

(** Steps 3 and 4 of submitIntent.  [id] and [outboxID] are the identifiers the
    intent service will draw. *)
Definition forward_intent (id outboxID : string) (signature : string) (grpcReq : SubmitIntentRequest.t)
    (w : responseWriterDelegator) : proc gwE (option responseWriterDelegator) :=
  grpcResp ← rpc (metricsInterceptor (code_name lib) "/intent.v1.IntentService/SubmitIntent"
                    (SubmitIntent id outboxID grpcReq));
  match grpcResp with
  | Err st => respond (handleGRPCError (StatusErr st) w)
  | Ok resp =>
      let respData := submit_response resp in
      let finish := respond (writeJSON StatusCreated respData (set_header "X-Cache" "MISS" w)) in
      match encode_json respData with
      | Some respBytes =>
          if bool_decide (signature = "") then finish
          else Vis (RedisSet (idempotency_key signature) respBytes day) (fun _ => finish)
      | None => finish
      end
  end.

Definition translate (intentType : IntentType) (httpReq : SubmitIntentHTTPRequest.t) : SubmitIntentRequest.t :=
  SubmitIntentRequest.mk intentType (SubmitIntentHTTPRequest.Payload httpReq)
    ((fun c => IntentConstraints.mk None (ConstraintsHTTP.Priority c) (ConstraintsHTTP.MaxRetries c)
                 (ConstraintsHTTP.Idempotent c)) <$> SubmitIntentHTTPRequest.Constraints httpReq)
    (SubmitIntentHTTPRequest.SubmitterID httpReq) (SubmitIntentHTTPRequest.Signature httpReq)
    (SubmitIntentHTTPRequest.SubmitterPublicKey httpReq).

Definition cache_hit (cachedResp : string) (w : responseWriterDelegator) : responseWriterDelegator :=
  Write cachedResp (set_header "Content-Type" "application/json" (set_header "X-Cache" "HIT" w)).

Definition submitIntent (ids : string * string) : Handler := fun r w =>
  match BodyErr r with
  | Some _ => respond (writeError StatusBadRequest "failed to read request body" w)
  | None =>
  match SubmitIntentHTTPRequest.unmarshal (Body r) with
  | None => respond (writeError StatusBadRequest ("invalid JSON: " +:+ json_error lib (Body r))%string w)
  | Some httpReq =>
      let intentType := HTTPIntentType.parseIntentType (SubmitIntentHTTPRequest.Type_ httpReq) in
      if intentType =? INTENT_TYPE_UNSPECIFIED then
        respond (writeError StatusBadRequest
                   ("invalid intent type: " +:+ SubmitIntentHTTPRequest.Type_ httpReq)%string w)
      else
      let signature := SubmitIntentHTTPRequest.Signature httpReq in
      let submit := forward_intent ids.1 ids.2 signature (translate intentType httpReq) w in
      if bool_decide (signature = "") then submit
      else Vis (RedisGet (idempotency_key signature)) (fun cached =>
             match cached with
             | Some (String _ _ as cachedResp) => respond (cache_hit cachedResp w)
             | _ => submit
             end)
  end
  end.

Definition intent_fields (intent : Intent.t) : list (string * jv) :=
  [("id", JvStr (Intent.Id intent));
   ("type", JvStr (IntentType_String (Intent.Type_ intent)));
   ("status", JvStr (IntentStatus_String (Intent.Status intent)));
   ("submitter_id", JvStr (Intent.SubmitterId intent));
   ("created_at", JvStr (format_rfc3339 (default 0 (Intent.CreatedAt intent))))]%string.

(** [r.URL.Path[len("/intents/"):]]: [None] when the path is shorter. *)
Definition path_after (n : nat) (p : string) : option string :=
  if (String.length p <? n)%nat then None else Some (String.substring n (String.length p - n) p).

Definition handleIntentByID : Handler := fun r w =>
  if negb (bool_decide (Method r = MethodGet)) then method_not_allowed w else
  match path_after 9 (Path r) with
  | None => Ret None
  | Some id =>
      if bool_decide (id = "") then respond (writeError StatusBadRequest "intent_id is required in path" w) else
      grpcResp ← rpc (metricsInterceptor (code_name lib) "/intent.v1.IntentService/GetIntent"
                        (GetIntent (GetIntentRequest.mk id)));
      match grpcResp with
      | Err st => respond (handleGRPCError (StatusErr st) w)
      | Ok resp =>
          match GetIntentResponse.Intent resp with
          | None => Ret None
          | Some intent =>
              respond (writeJSON StatusOK
                (JvMap (intent_fields intent ++
                  [("payload", JvStr (Intent.Payload intent));
                   ("updated_at", JvStr (format_rfc3339 (default 0 (Intent.UpdatedAt intent))))]))%string w)
          end
      end
  end.

Definition listIntents : Handler := fun r w =>
  let query := query_get (parse_query (RawQuery r)) in
  grpcResp ← rpc (metricsInterceptor (code_name lib) "/intent.v1.IntentService/ListIntents"
                    (ListIntents (ListIntentsRequest.mk INTENT_STATUS_UNSPECIFIED
                                    (query "submitter_id"%string) 0 (query "page_token"%string))));
  match grpcResp with
  | Err st => respond (handleGRPCError (StatusErr st) w)
  | Ok resp =>
      let intents := map (fun i => JvMap (intent_fields i)) (ListIntentsResponse.Intents resp) in
      respond (writeJSON StatusOK
        (JvMap [("intents", JvArr intents);
                ("next_page_token", JvStr (ListIntentsResponse.NextPageToken resp));
                ("total_count", JvInt (ListIntentsResponse.TotalCount resp))])%string w)
  end.

Definition handleIntents (ids : string * string) : Handler := fun r w =>
  if bool_decide (Method r = MethodPost) then submitIntent ids r w
  else if bool_decide (Method r = MethodGet) then listIntents r w
  else method_not_allowed w.

Definition handleHealth : Handler := fun r w =>
  if negb (bool_decide (Method r = MethodGet)) then method_not_allowed w else
  Vis (Sys Now) (fun now =>
    respond (writeJSON StatusOK
      (JvMap [("status", JvStr "UP"); ("service", JvStr "gateway"); ("timestamp", JvStr (format_local lib now))])%string
      w)).

(** *** The ledger endpoint *)
Definition nonempty (line : string) : bool := negb (bool_decide (line = "")).
(** The loop that swaps the ends. *)
Fixpoint reverse_blocks (fuel : nat) (i j : nat) (blocks : list string) : list string :=
  match fuel with
  | O => blocks
  | S f =>
      if (i <? j)%nat then
        match blocks !! i, blocks !! j with
        | Some a, Some b => reverse_blocks f (i + 1) (j - 1) (<[j := a]> (<[i := b]> blocks))
        | _, _ => blocks
        end
      else blocks
  end.

Definition ledger_answer (content : string) (rerr : option string) (w : responseWriterDelegator)
  : responseWriterDelegator :=
  let '(lines, serr) := scan_reader content rerr in
  let blocks := filter nonempty lines in
  match serr with
  | Some err => writeError StatusInternalServerError ("failed to scan ledger: " +:+ err)%string w
  | None =>
      match reverse_blocks (length blocks) 0 (length blocks - 1) blocks with
      | [] => Write "[]" w
      | blocks => writeJSON StatusOK (JvArr (map JvRaw blocks)) w
      end
  end.

Definition handleAPILedger : Handler := fun r w =>
  if negb (bool_decide (Method r = MethodGet)) then method_not_allowed w else
  let w := set_header "Content-Type" "application/json" (set_header "Access-Control-Allow-Origin" "*" w) in
  Vis (Sys (LedgerOp OpenRead)) (fun file =>
    match file with
    | Err err => respond (writeError StatusInternalServerError ("failed to open ledger: " +:+ err)%string w)
    | Ok None => respond (Write "[]" w)
    | Ok (Some (content, rerr)) => respond (ledger_answer content rerr w)
    end).

(** *** Tokens *)
Definition hs256 (signingInput : string) : string := b64_encode (hmac_sha256 (jwtSecret gw) signingInput).

Definition generateJWT (username : string) : proc gwE string :=
  let headerB64 := b64_encode (default ""%string (encode_json (JvMap [("alg", JvStr "HS256"); ("typ", JvStr "JWT")]%string))) in
  Vis (Sys Now) (fun now =>
  let claims := JWTClaims.mk username (unix (now + day)) in
  let claimsB64 := b64_encode (print_object (JWTClaims.members claims)) in
  let signingInput := (headerB64 +:+ "." +:+ claimsB64)%string in
  Ret (signingInput +:+ "." +:+ hs256 signingInput)%string).

(** What validateJWT decides before it looks at the clock. *)
Definition token_claims (tokenStr : string) : result string JWTClaims.t :=
  match split_on (Zbyte 46) tokenStr with
  | [header; payload; signature] =>
      if negb (bool_decide (signature = hs256 (header +:+ "." +:+ payload)%string))
      then Err "invalid signature"%string
      else
        match b64_decode payload with
        | None => Err ("failed to decode claims: " +:+ base64_error lib payload)%string
        | Some claimsBytes =>
            match JWTClaims.unmarshal claimsBytes with
            | None => Err ("failed to unmarshal claims: " +:+ json_error lib claimsBytes)%string
            | Some claims => Ok claims
            end
        end
  | _ => Err "invalid token format"%string
  end.
Definition validateJWT (tokenStr : string) : proc gwE (result string JWTClaims.t) :=
  match token_claims tokenStr with
  | Err err => Ret (Err err)
  | Ok claims =>
      Vis (Sys Now) (fun now =>
        Ret (if JWTClaims.Exp claims <? unix now then Err "token expired"%string else Ok claims))
  end.

Definition handleLogin : Handler := fun r w =>
  if negb (bool_decide (Method r = MethodPost)) then
    respond (writeError StatusMethodNotAllowed "Method not allowed" w)
  else
  match decode_stream LoginRequest.keys LoginRequest.set_field (Body r) (BodyErr r) LoginRequest.zero with
  | None => respond (writeError StatusBadRequest "Invalid JSON body" w)
  | Some req =>
      if negb (bool_decide (LoginRequest.Username req = "admin")) ||
         negb (bool_decide (LoginRequest.Password req = "aien-admin-2026"))
      then respond (writeError StatusUnauthorized "Invalid username or password" w)
      else
        token ← generateJWT (LoginRequest.Username req);
        respond (writeJSON StatusOK (JvMap [("token", JvStr token)])%string w)
  end.

(** *** Middleware *)
Definition auth_exempt (path : string) : bool :=
  bool_decide (path = "/health") || bool_decide (path = "/metrics") || bool_decide (path = "/api/login") ||
  has_prefix path "/dashboard/".

Definition authMiddleware (next : Handler) : Handler := fun r w =>
  if auth_exempt (Path r) then next r w else
  let authHeader := header_get r "Authorization" in
  if bool_decide (authHeader = "") || negb (has_prefix authHeader "Bearer ") then
    respond (writeError StatusUnauthorized "missing or malformed Authorization header" w)
  else
    v ← validateJWT (trim_prefix authHeader "Bearer ");
    match v with
    | Err err => respond (writeError StatusUnauthorized ("unauthorized: " +:+ err)%string w)
    | Ok claims => next (with_value "user" (JWTClaims.Sub claims) r) w
    end.

Definition client_ip (r : Request) : string := default (RemoteAddr r) (split_host (RemoteAddr r)).
Definition rate_key (ip : string) (now : Z) : string :=
  ("rate:" +:+ ip +:+ ":" +:+ itoa (Z.quot (unix now) 60))%string.
Definition rate_headers (count : Z) (w : responseWriterDelegator) : responseWriterDelegator :=
  let remaining := 10 - count in
  let remaining := if remaining <? 0 then 0 else remaining in
  set_header "X-RateLimit-Remaining" (itoa remaining) (set_header "X-RateLimit-Limit" "10" w).

(** What is done with the count of the minute. *)
Definition limit_count (next : Handler) (count : Z) : Handler := fun r w =>
  let w := rate_headers count w in
  if 10 <? count then
    respond (writeError StatusTooManyRequests "Too many requests. Limit is 10 per minute."
               (set_header "Retry-After" "60" w))
  else next r w.
Definition limit_result (next : Handler) (minuteKey : string) (incr : result string Z) : Handler := fun r w =>
  match incr with
  | Err _ => next r w
  | Ok count =>
      if count =? 1 then Vis (RedisExpire minuteKey (60 * second)) (fun _ => limit_count next count r w)
      else limit_count next count r w
  end.
Definition rateLimitMiddleware (next : Handler) : Handler := fun r w =>
  if bool_decide (getenv gw "DISABLE_RATE_LIMITER" = "true") then next r w else
  if bool_decide (Method r = MethodPost) && bool_decide (Path r = "/intents") then
    Vis (Sys Now) (fun now =>
    let minuteKey := rate_key (client_ip r) now in
    Vis (RedisIncr minuteKey) (fun incr => limit_result next minuteKey incr r w))
  else next r w.

Definition gw_metric {R} (name : string) (labels : list string) (k : proc gwE R) : proc gwE R :=
  Vis (Sys (Metric name labels)) (fun _ => k).

Definition loggingMiddleware (next : Handler) : Request -> ResponseWriter -> proc gwE (option ResponseWriter) :=
  fun r w =>
  Vis (Sys Now) (fun start =>
  done ← next r (mk_delegator w StatusOK);
  match done with
  | None => Ret None
  | Some d =>
      Vis (Sys Now) (fun now =>
      if negb (bool_decide (Path r = "/metrics")) && negb (bool_decide (Path r = "/health")) then
        gw_metric "aien_gateway_http_requests_total" [Method r; Path r; itoa (status d)] (
        gw_metric "aien_gateway_http_request_duration_seconds" [Method r; Path r; itoa (now - start)] (
        Ret (Some (inner d))))
      else Ret (Some (inner d)))
  end).

(** *** Routes and the server *)
Definition through (f : Request -> ResponseWriter -> ResponseWriter) : Handler := fun r w =>
  let w' := f r (inner w) in respond (mk_delegator w' (default (status w) (rw_code w'))).

(** [/metrics] shows the metrics: they are read in one step. *)
Definition routes (metrics : list (string * list string)) (ids : string * string) : list (string * Handler) :=
  [("/dashboard/", through (static_files lib));
   ("/api/ledger", handleAPILedger);
   ("/api/login", handleLogin);
   ("/health", handleHealth);
   ("/metrics", through (promhttp lib metrics));
   ("/intents", handleIntents ids);
   ("/intents/", handleIntentByID)]%string.

Definition mux (metrics : list (string * list string)) (ids : string * string) : Handler := fun r w =>
  if bool_decide (EscapedPath r = "*") then respond (WriteHeader StatusBadRequest w) else
  match mux_route (routes metrics ids) r with
  | RHandler h => h r w
  | RRedirect path => through (redirect lib path) r w
  | RNotFound => respond (http_Error "404 page not found" StatusNotFound w)
  end.

Definition serve_http (metrics : list (string * list string)) (ids : string * string)
  : Request -> ResponseWriter -> proc gwE (option ResponseWriter) :=
  loggingMiddleware (authMiddleware (rateLimitMiddleware (mux metrics ids))).
End gateway.
