(* ===== verification/Concrete.v ===== *)
(** * Concrete external components

    One function for each external component the development is parametric
    in, so that its theorems can be instantiated and their hypotheses seen to
    hold: a PostgreSQL whose UUIDs are 36 characters and whose times are
    rounded to microseconds, an Intent encoding, a time format, a signature
    scheme and a Redis.  Nothing but the witnesses depends on this file. *)
From stdpp Require Import sorting countable.
From S2P Require Import Prelude GoLib Effects Redis Sql Proto IntentDb System IntentStore Crypto.

(** ** PostgreSQL *)
#[export] Instance newest_first_dec : RelDecision newest_first.
Proof. intros a b. unfold newest_first. apply _. Defined.
#[export] Instance oldest_first_dec : RelDecision oldest_first.
Proof. intros a b. unfold oldest_first. apply _. Defined.
#[export] Instance newest_first_total : Total newest_first.
Proof. intros a b. unfold newest_first. lia. Qed.
#[export] Instance oldest_first_total : Total oldest_first.
Proof. intros a b. unfold oldest_first. lia. Qed.
#[export] Instance newest_first_trans : Transitive newest_first.
Proof. intros a b c. unfold newest_first. lia. Qed.
#[export] Instance oldest_first_trans : Transitive oldest_first.
Proof. intros a b c. unfold oldest_first. lia. Qed.

Definition round_us (t : Z) : Z := (t + 500) / 1000 * 1000.
Lemma round_us_idemp t : round_us (round_us t) = round_us t.
Proof.
  unfold round_us. f_equal. set (q := (t + 500) / 1000).
  rewrite Z.div_add_l by lia. change (500 / 1000) with 0. lia.
Qed.
Lemma round_us_mono t u : t <= u -> round_us t <= round_us u.
Proof. intros H. unfold round_us. apply Z.mul_le_mono_nonneg_r; [lia|]. apply Z.div_le_mono; lia. Qed.

Lemma round_us_near t : Z.abs (round_us t - t) < 1000.
Proof. unfold round_us. pose proof (Z.div_mod (t + 500) 1000). pose proof (Z.mod_pos_bound (t + 500) 1000). lia. Qed.

Definition uuid36 (s : string) : option string := if slen s =? 36 then Some s else None.

Definition concrete_postgres : Postgres.
Proof.
  refine {| uuid_in := uuid36; ts_in := round_us; empty_bytes_null := false;
            order_intents := merge_sort newest_first; order_outbox := merge_sort oldest_first |}.
  - unfold uuid36. intros s u. destruct (slen s =? 36) eqn:Hs; [|done]. intros [= <-]. by rewrite Hs.
  - apply round_us_idemp.
  - apply round_us_mono.
  - apply round_us_near.
  - apply merge_sort_Permutation.
  - intros l. apply (StronglySorted_merge_sort newest_first).
  - apply merge_sort_Permutation.
  - intros l. apply (StronglySorted_merge_sort oldest_first).
Defined.

(** ** Binary text *)
Fixpoint bits (p : positive) : string :=
  match p with
  | xH => ""
  | xO p' => String (Zbyte 48) (bits p')
  | xI p' => String (Zbyte 49) (bits p')
  end.
Fixpoint unbits (s : string) : option positive :=
  match s with
  | EmptyString => Some xH
  | String c s' =>
      p ← unbits s';
      if Ascii.eqb c (Zbyte 48) then Some (xO p) else if Ascii.eqb c (Zbyte 49) then Some (xI p) else None
  end.
Lemma unbits_bits p : unbits (bits p) = Some p.
Proof. induction p as [p IH|p IH|]; cbn; rewrite ?IH; done. Qed.

(** ** proto.Marshal *)
#[export] Instance constraints_countable : Countable IntentConstraints.t.
Proof.
  refine (inj_countable'
    (fun c => (IntentConstraints.Deadline c, IntentConstraints.Priority c,
               IntentConstraints.MaxRetries c, IntentConstraints.Idempotent c))
    (fun '(a, b, c, d) => IntentConstraints.mk a b c d) _).
  by intros [].
Defined.
#[export] Instance intent_countable : Countable Intent.t.
Proof.
  refine (inj_countable'
    (fun i => (Intent.Id i, Intent.Type_ i, Intent.Status i, Intent.SubmitterId i, Intent.Payload i,
               (Intent.Constraints i, Intent.Signature i, Intent.SubmitterPublicKey i,
                Intent.CreatedAt i, Intent.UpdatedAt i)))
    (fun '(a, b, c, d, e, (f, g, h, i, j)) => Intent.mk a b c d e f g h i j) _).
  by intros [].
Defined.
Definition concrete_codec : ProtoCodec.
Proof.
  refine {| marshal_intent := fun i => Ok (bits (encode i)); unmarshal_intent := fun s => unbits s ≫= decode |}.
  intros i bs. intros [= <-]. rewrite unbits_bits. cbn. apply countable.decode_encode.
Defined.

(** ** RFC 3339 text *)
Definition concrete_time : TimeText.
Proof.
  refine {| format_rfc3339nano := fun t => String (Zbyte 84) (bits (encode t));
            parse_rfc3339nano := fun s => match s with
                                          | String _ s' => unbits s' ≫= decode
                                          | EmptyString => None
                                          end |}.
  - intros t _. rewrite unbits_bits. cbn. apply countable.decode_encode.
  - done.
Defined.

(** ** Ed25519
    Public key: 32 zero bytes; a signature is 64 bytes that depend on the
    message's length only. *)
Fixpoint repeat_char (n : nat) (c : ascii) : string :=
  match n with O => EmptyString | S n' => String c (repeat_char n' c) end.
Lemma repeat_char_length n c : String.length (repeat_char n c) = n.
Proof. induction n; cbn; congruence. Qed.
Definition sig_for (m : string) : string := repeat_char 64 (Zbyte (slen m mod 256)).
Definition concrete_ed25519 : Ed25519.
Proof.
  refine {| ed_keygen := fun _ => (repeat_char 32 (Zbyte 0), repeat_char 64 (Zbyte 0));
            ed_sign := fun _ m => sig_for m;
            ed_verify := fun _ m s => bool_decide (s = sig_for m) |}.
  - intros. apply repeat_char_length.
  - intros. apply repeat_char_length.
  - reflexivity.
  - intros. apply repeat_char_length.
  - intros. by apply bool_decide_eq_true.
Defined.

(** ** Redis
    Values with their deadlines; an expired key is overwritten like a missing
    one. *)
Abbreviation redis_map := (gmap string (string * option Z)).
Definition map_key_at (t : Z) (k : string) (s : redis_map) : option (string * option Z) :=
  match s !! k with Some (v, d) => if alive t d then Some (v, d) else None | None => None end.
Definition map_INCR (t : Z) (k : string) (s : redis_map) : result string Z * redis_map :=
  match map_key_at t k s with
  | None => (Ok 1, <[k := (itoa 1, None)]> s)
  | Some (v, d) =>
      match sscanf_d v with
      | Some n =>
          if bool_decide (itoa n = v) && (n <? 2 ^ 63 - 1)
          then (Ok (n + 1), <[k := (itoa (n + 1), d)]> s)
          else (Err "ERR value is not an integer or out of range"%string, s)
      | None => (Err "ERR value is not an integer or out of range"%string, s)
      end
  end.
Definition map_EXPIRE (t : Z) (k : string) (ttl : Z) (s : redis_map) : redis_map :=
  match map_key_at t k s with Some (v, _) => <[k := (v, Some (t + ttl))]> s | None => s end.

Lemma map_key_at_insert t k k' v d s :
  map_key_at t k (<[k' := (v, d)]> s)
  = if decide (k = k') then if alive t d then Some (v, d) else None else map_key_at t k s.
Proof.
  unfold map_key_at. destruct (decide (k = k')) as [->|Hk].
  - by rewrite lookup_insert_eq.
  - by rewrite lookup_insert_ne.
Qed.
Lemma alive_after t ttl : 0 < ttl -> alive t (Some (t + ttl)) = true.
Proof. intros. unfold alive. by rewrite (proj2 (Z.ltb_lt _ _)) by lia. Qed.
Lemma map_key_at_alive t k s v d : map_key_at t k s = Some (v, d) -> alive t d = true.
Proof.
  unfold map_key_at. destruct (s !! k) as [[v' d']|]; [|done]. destruct (alive t d') eqn:Ha; [|done].
  by intros [= _ <-].
Qed.

Definition concrete_redis : Redis.
Proof.
  refine {| keyspace := redis_map; empty_keyspace := ∅; key_at := map_key_at;
            redis_SET := fun t k v ttl s => <[k := (v, Some (t + ttl))]> s;
            redis_INCR := map_INCR; redis_EXPIRE := map_EXPIRE |}.
  - done.
  - intros t t' k s Ht. unfold map_key_at. destruct (s !! k) as [[v d]|]; [|done].
    destruct d as [x|]; cbn [alive]; [|done].
    destruct (Z.ltb_spec t x), (Z.ltb_spec t' x); cbn [alive]; try lia; try done;
      by rewrite ?(proj2 (Z.ltb_lt t' x)), ?(proj2 (Z.ltb_ge t' x)) by lia.
  - intros t k k' v ttl s Httl. rewrite map_key_at_insert, alive_after by done. done.
  - intros t k s Hk. unfold map_INCR. rewrite Hk. split; [done|]. cbn [snd].
    rewrite map_key_at_insert. by rewrite decide_True.
  - intros t k s n d Hk Hn. unfold map_INCR. rewrite Hk, sscanf_d_itoa by lia.
    rewrite bool_decide_eq_true_2, (proj2 (Z.ltb_lt _ _)) by (done || lia). split; [done|]. cbn [andb snd].
    rewrite map_key_at_insert, decide_True by done. by rewrite (map_key_at_alive _ _ _ _ _ Hk).
  - intros t k k' s Hk. unfold map_INCR. repeat (case_match; cbn [snd]); try done;
      by rewrite map_key_at_insert, decide_False by done.
  - intros t k k' ttl s Httl. unfold map_EXPIRE. destruct (map_key_at t k' s) as [[v d]|] eqn:Hk.
    + rewrite map_key_at_insert, alive_after by done. destruct (decide (k = k')) as [->|]; [by rewrite Hk|done].
    + destruct (decide (k = k')) as [->|]; [by rewrite Hk|done].
Defined.
