(* ===== verification/LoadTest.v ===== *)
(** * The load tester: scripts/load_test_csv.go

    The client of the gateway: it logs in, reads transfers from a CSV file, seeds
    their accounts, and submits one signed intent per transfer.  [csv.Reader],
    [strconv.ParseFloat] and the text [json.Marshal] gives a float64 are
    arguments; the console output, the timing and the flags are not modelled. *)
From S2P Require Import Prelude GoLib Effects Sql Proto Float64 Json JsonFacts Http Redis Ledger Wallet.
From S2P Require Import IntentDb System IntentStore Crypto IntentHandler Gateway.

(** [json.Marshal] of a float64: not for NaN and the infinities; it is a number
    literal that reads back as the same float. *)
Class FloatText := {
  float_text : float64 -> option string;
  float_text_ascii : forall x s, float_text x = Some s -> is_ascii s = true;
  float_text_reads : forall x s, float_text x = Some s ->
    exists lit, num_float lit = Some x /\
      forall rest, ends_number rest = true -> scan_number (s +:+ rest) = Some (lit, rest);
}.

Module IntentPayload.
Record t := mk { From : string; To : string; Amount : float64 }.
(** [json.Marshal(tx)] *)
Definition marshal `{FloatText} (x : t) : option string :=
  amount ← float_text (Amount x);
  Some ("{" +:+ marshal_string "from" +:+ ":" +:+ marshal_string (From x) +:+ "," +:+
        marshal_string "to" +:+ ":" +:+ marshal_string (To x) +:+ "," +:+
        marshal_string "amount" +:+ ":" +:+ amount +:+ "}")%string.
End IntentPayload.

Module SubmitReq.
Record t := mk {
  Type_ : string;
  Payload : string;
  SubmitterID : string;
  Signature : string;
  SubmitterPublicKey : string;
}.
Definition members (q : t) : list (string * scalar) :=
  [("type", SStr (Type_ q)); ("payload", SStr (Payload q)); ("submitter_id", SStr (SubmitterID q));
   ("signature", SStr (Signature q)); ("submitter_public_key", SStr (SubmitterPublicKey q))]%string.
Definition marshal (q : t) : string := print_object (members q).
End SubmitReq.

(** ** Reading the transfers *)
Section csv.
Context (parse_float : string -> option float64).

(** What [reader.Read] answers, one after the other, before io.EOF. *)
Abbreviation reads := (list (result string (list string))).

Definition header_map (headers : list string) : gmap string nat :=
  fold_left (fun m ih => <[ih.2 := ih.1]> m) (imap pair headers) ∅.

(** Indexing a row out of range is a panic. *)
Definition panic_index {A} : result string A := Err "panic: runtime error: index out of range"%string.

Fixpoint read_rows (typeIdx amountIdx fromIdx toIdx : nat) (limit : Z) (rows : reads)
    (acc : list IntentPayload.t) : result string (list IntentPayload.t) :=
  match rows with
  | [] => Ok acc
  | Err err :: _ => Err err
  | Ok row :: rows' =>
      match row !! typeIdx with
      | None => panic_index
      | Some ty =>
          if negb (bool_decide (ty = "TRANSFER")) then read_rows typeIdx amountIdx fromIdx toIdx limit rows' acc else
          match row !! amountIdx with
          | None => panic_index
          | Some text =>
              match parse_float text with
              | None => read_rows typeIdx amountIdx fromIdx toIdx limit rows' acc
              | Some amount =>
                  match row !! fromIdx, row !! toIdx with
                  | Some from, Some to =>
                      let acc := acc ++ [IntentPayload.mk from to amount] in
                      if limit <=? Z.of_nat (length acc) then Ok acc
                      else read_rows typeIdx amountIdx fromIdx toIdx limit rows' acc
                  | _, _ => panic_index
                  end
              end
          end
      end
  end.

Definition readTransactionsFromCSV (file : result string reads) (limit : Z) : result string (list IntentPayload.t) :=
  match file with
  | Err err => Err err
  | Ok [] => Err "EOF"%string
  | Ok (Err err :: _) => Err err
  | Ok (Ok headers :: rows) =>
      let m := header_map headers in
      match m !! "type"%string, m !! "amount"%string, m !! "nameOrig"%string, m !! "nameDest"%string with
      | Some typeIdx, Some amountIdx, Some fromIdx, Some toIdx =>
          read_rows typeIdx amountIdx fromIdx toIdx limit rows []
      | _, _, _, _ => Err "CSV missing required headers"%string
      end
  end.
End csv.

(** ** Seeding the accounts
    One transaction: INSERT INTO wallet_accounts (id, balance) VALUES ($1, $2) ON
    CONFLICT (id) DO NOTHING for every account, in the order in which the map
    happens to be ranged over. *)
Section preseed.
Context `{NumericCodec}.

Inductive seedE : Type -> Type :=
| SeedBegin : seedE (result sqlerr unit)
| SeedPrepare : seedE (result sqlerr unit)
| SeedInsert (id : string) (balance : float64) : seedE (result sqlerr unit)
| SeedCommit : seedE (result sqlerr unit)
| SeedRollback : seedE (result sqlerr unit).

Definition sql_seed_account (now : Z) (id : string) (balance : float64) (d : wallet_db)
  : result sqlerr (unit * wallet_db) :=
  id ← varchar 100 id;
  match num_of_float balance with
  | None => Err err_overflow
  | Some n =>
      Ok (tt, match wallet_accounts d !! id with
              | Some _ => d
              | None => mk_wallet_db (<[id := mk_account n now now]> (wallet_accounts d)) (wallet_transactions d)
              end)
  end.
Definition seed_exec (now : Z) X (e : seedE X) (o : outcome) (s : session wallet_db) : X * session wallet_db :=
  match e in seedE X return X * session wallet_db with
  | SeedBegin => begin_tx o s
  | SeedPrepare => stmt_tx o s (fun d => Ok (tt, d))
  | SeedInsert id b => stmt_tx o s (sql_seed_account now id b)
  | SeedCommit => commit_tx o s
  | SeedRollback => rollback_tx s
  end.

Definition seed_amount : float64 := f_of_Z 1000000000.
Definition unique_accounts (transactions : list IntentPayload.t) : gset string :=
  fold_left (fun acc t => {[IntentPayload.To t]} ∪ ({[IntentPayload.From t]} ∪ acc)) transactions ∅.

Fixpoint insert_accounts (accounts : list string) : proc seedE (result sqlerr unit) :=
  match accounts with
  | [] => Vis SeedCommit Ret
  | acc :: accounts' =>
      let? _ := SeedInsert acc seed_amount else Err in insert_accounts accounts'
  end.
Definition preseedBalances (order : gset string -> list string) (transactions : list IntentPayload.t)
  : proc seedE (result sqlerr unit) :=
  let? _ := SeedBegin else Err in
  r ← (let? _ := SeedPrepare else Err in insert_accounts (order (unique_accounts transactions)));
  Vis SeedRollback (fun _ => Ret r).
End preseed.

(** ** Submitting them *)
Section submit.
Context `{Postgres} `{ProtoCodec} `{TimeText} `{Ed25519} `{FloatText}.

(** The client's side of one exchange with the server [handle]. *)
Definition Do (handle : Request -> ResponseWriter -> proc gwE (option ResponseWriter)) (r : Request)
  : proc gwE (result string ResponseWriter) :=
  Vis Dial (fun d =>
  match d with
  | Err st => Ret (Err (st_message st))
  | Ok _ =>
      resp ← handle r new_response;
      match resp with
      | None => Ret (Err "EOF"%string)
      | Some w => Vis Reply (fun d => Ret (match d with Err st => Err (st_message st) | Ok _ => Ok w end))
      end
  end).

Definition client_request (addr method path : string) (header : gmap string string) (body : string) : Request :=
  mk_Request method path path "" header addr body None ∅.

(** loginToGateway: the body of its request, and the token of the answer. *)
Definition login_body : string :=
  print_object [("password", SStr "aien-admin-2026"); ("username", SStr "admin")]%string.
Fixpoint string_members (l : list (string * json)) (m : gmap string string) : option (gmap string string) :=
  match l with
  | [] => Some m
  | (k, JStr s) :: l' => string_members l' (<[k := s]> m)
  | (k, JNull) :: l' => string_members l' (<[k := ""%string]> m)
  | _ => None
  end.
Definition token_of (w : ResponseWriter) : result string string :=
  if negb (rw_status w =? StatusOK) then Err ("login failed with status: " +:+ itoa (rw_status w))%string else
  match parse_value (json_fuel (rw_body w)) 0 (rw_body w) with
  | Some (JObj l, _) =>
      match string_members l ∅ with
      | Some m => match m !! "token"%string with Some token => Ok token | None => Err "token missing in response"%string end
      | None => Err "json: cannot unmarshal"%string
      end
  | Some (JNull, _) => Err "token missing in response"%string
  | _ => Err "invalid JSON"%string
  end.
Definition loginToGateway (handle : Request -> ResponseWriter -> proc gwE (option ResponseWriter)) (addr : string)
  : proc gwE (result string string) :=
  r ← Do handle (client_request addr MethodPost "/api/login" {["Content-Type" := "application/json"]}%string login_body);
  Ret (match r with Err err => Err err | Ok w => token_of w end).

(** What a worker sends for one transfer. *)
Definition build (pubKey privKey : string) (tx : IntentPayload.t) : result string SubmitReq.t :=
  let payload := default ""%string (IntentPayload.marshal tx) in
  let signBytes := GetSignBytes "INTENT_TYPE_TRANSFER" (IntentPayload.From tx) payload in
  signature ← Sign signBytes privKey;
  Ok (SubmitReq.mk "TRANSFER" payload (IntentPayload.From tx) signature pubKey).
Definition submission_request (addr token : string) (q : SubmitReq.t) : Request :=
  client_request addr MethodPost "/intents"
    (<["Content-Type" := "application/json"]> {["Authorization" := "Bearer " +:+ token]})%string (SubmitReq.marshal q).

(** One job: whether the intent was created.  The worker counts it as a success
    or as a failure under the mutex. *)
Definition run_job (handle : Request -> ResponseWriter -> proc gwE (option ResponseWriter))
    (addr token pubKey privKey : string) (tx : IntentPayload.t) : proc gwE bool :=
  match build pubKey privKey tx with
  | Err _ => Ret false
  | Ok q =>
      r ← Do handle (submission_request addr token q);
      Ret (match r with Err _ => false | Ok w => rw_status w =? StatusCreated end)
  end.
End submit.
