(* ===== verification/IntentFacts.v ===== *)
(** * Correctness of the intent service *)
From stdpp Require Import sorting.
From S2P Require Import Prelude GoLib Effects Sql Proto Float64 IntentDb System SystemRules.
From S2P Require Import Json JsonFacts IntentStore Crypto IntentHandler Concrete.

(** ** Enum text *)
Definition known_types : list IntentType := [1; 2; 3; 4].
Definition known_statuses : list IntentStatus := [1; 2; 3; 4; 5; 6; 7; 8].

Lemma type_roundtrip t : t ∈ known_types -> parseIntentType (IntentType_String t) = t.
Proof. intros Ht%list_elem_of_In. by repeat (destruct Ht as [<-|Ht]; [reflexivity|]). Qed.

(** The type and status columns round-trip: every declared enum value
    survives String() and parseIntentType / parseIntentStatus, and the parsers
    answer UNSPECIFIED for exactly the other strings. *)
Theorem enum_columns_roundtrip :
  (forall t, t ∈ known_types -> parseIntentType (IntentType_String t) = t) /\
  (forall st, st ∈ known_statuses -> parseIntentStatus (IntentStatus_String st) = st) /\
  (forall s, parseIntentType s <> INTENT_TYPE_UNSPECIFIED ->
     parseIntentType s ∈ known_types /\ IntentType_String (parseIntentType s) = s) /\
  (forall s, parseIntentStatus s <> INTENT_STATUS_UNSPECIFIED ->
     parseIntentStatus s ∈ known_statuses /\ IntentStatus_String (parseIntentStatus s) = s).
Proof.
  split_and!.
  - apply type_roundtrip.
  - intros t Ht%list_elem_of_In. by repeat (destruct Ht as [<-|Ht]; [reflexivity|]).
  - intros s. unfold parseIntentType. repeat case_bool_decide; subst; try done; intros _;
      (split; [|done]); apply list_elem_of_In; cbn; tauto.
  - intros s. unfold parseIntentStatus. repeat case_bool_decide; subst; try done; intros _;
      (split; [|done]); apply list_elem_of_In; cbn; tauto.
Qed.

(** ** The signed text *)
Lemma digits_no_bar s : string_forall is_digit s = true -> no_bar s = true.
Proof.
  unfold no_bar. induction s as [|c s IH]; [done|]. cbn. intros [Hc Hs]%andb_true_iff. rewrite IH by done.
  unfold is_digit, digit_val in Hc. rewrite andb_true_r. destruct (Z.eqb_spec (byteZ c) 124) as [E|]; [|done].
  by rewrite E in Hc.
Qed.

Lemma type_no_bar t : no_bar (IntentType_String t) = true.
Proof.
  unfold IntentType_String, EnumStringOf. destruct (enum_lookup IntentType_name t) as [s|] eqn:Hs; cbn [default].
  - apply enum_lookup_in, list_elem_of_In in Hs. cbn in Hs.
    by repeat (destruct Hs as [[= _ <-]|Hs]; [reflexivity|]).
  - unfold itoa. destruct (Z.ltb_spec t 0).
    + apply (digits_no_bar (utoa (- t))). apply utoa_digits. lia.
    + apply digits_no_bar, utoa_digits. lia.
Qed.

(** The signed text determines type, submitter and payload as long as the
    submitter id contains no bar, whatever the payload. *)
Theorem sign_bytes_injective t s p t' s' p' :
  no_bar s = true -> no_bar s' = true ->
  GetSignBytes (IntentType_String t) s p = GetSignBytes (IntentType_String t') s' p' ->
  IntentType_String t = IntentType_String t' /\ s = s' /\ p = p'.
Proof.
  intros Hs Hs'. unfold GetSignBytes. intros [Ht Hr]%bar_split; [|by apply type_no_bar..].
  split; [done|]. by apply bar_split in Hr.
Qed.
Lemma sign_bytes_injective_witness : ("alice" = "alice" /\ "a|b" = "a|b")%string.
Proof.
  apply (sign_bytes_injective INTENT_TYPE_QUERY "alice" "a|b" INTENT_TYPE_QUERY "alice" "a|b");
    vm_compute; reflexivity.
Defined.

(** ** Creation *)
Section create.
Context `{Postgres} `{NumericCodec} `{ProtoCodec} `{TimeText}.
Import PostgresStore.

(** Both rows are there, or neither: the abstract effect of Create. *)
Definition created (now : Z) (id outboxID : string) (req : SubmitIntentRequest.t) (d d' : intent_db) : Prop :=
  exists u v row eventData tp pay,
    uuid_in id = Some u /\ uuid_in outboxID = Some v /\
    row_in (row_of_request now req) = Ok row /\
    marshal_intent (intent_of_request now id req) = Ok eventData /\
    varchar 100 ("intents.submitted." +:+ IntentType_String (SubmitIntentRequest.Type_ req))%string = Ok tp /\
    bytea eventData = Ok pay /\
    intents d !! u = None /\ outbox_events d !! v = None /\
    d' = mk_intent_db (<[u := row]> (intents d))
           (<[v := mk_outbox_row tp pay "PENDING" 0 (ts_in now) (ts_in now)]> (outbox_events d)).

Lemma created_stmts now t id outboxID req eventData d d' :
  marshal_intent (intent_of_request now id req) = Ok eventData ->
  exec_stmts t [InsertIntent id (row_of_request now req);
                InsertOutbox outboxID ("intents.submitted." +:+ IntentType_String (SubmitIntentRequest.Type_ req))%string
                  eventData now] d = Ok d' ->
  created now id outboxID req d d'.
Proof.
  intros Hm. cbn [exec_stmts exec_stmt]. unfold uuid_arg.
  destruct (uuid_in id) as [u|] eqn:Hu; cbn; [|done].
  destruct (row_in (row_of_request now req)) as [row|] eqn:Hrow; cbn; [|done].
  destruct (intents d !! u) eqn:Hd; cbn; [done|].
  destruct (uuid_in outboxID) as [v|] eqn:Hv; cbn; [|done].
  destruct (varchar 100 _) as [tp|] eqn:Htp; cbn; [|done].
  destruct (bytea eventData) as [pay|] eqn:Hpay; cbn; [|done].
  destruct (outbox_events d !! v) eqn:Ho; cbn; [done|]. intros [= <-].
  by exists u, v, row, eventData, tp, pay.
Qed.

(** What Create answers and does. *)
Definition create_contract (id outboxID : string) (req : SubmitIntentRequest.t) (w : world)
    (r : result string Intent.t) (w' : world) : Prop :=
  let effect := created (w_now w) id outboxID req (w_db w) (w_db w') in
  w' = set_db (w_db w') w /\
  match r with
  | Ok i => i = intent_of_request (w_now w) id req /\ effect
  | Err _ => w_db w' = w_db w \/ effect
  end.

Lemma wp_create id outboxID req w :
  wp sys_exec (PostgresStore.Create id outboxID req) (create_contract id outboxID req w) w.
Proof.
  assert (Hsame : forall e, create_contract id outboxID req w (Err e) w).
  { intros e. split; [by destruct w|by left]. }
  assert (Hsame' : forall e, create_contract id outboxID req w (Err e) (release (mk_tx [] []) w)).
  { intros e. rewrite release_nil. apply Hsame. }
  apply wp_now. apply wp_db_begin; [intros e; apply Hsame|]. apply wp_defer_tx.
  apply wp_tx_exec; [intros e; rewrite release_nil; apply Hsame|]. intros d1 _.
  cbv zeta. destruct (marshal_intent (intent_of_request (w_now w) id req)) as [eventData|e] eqn:Hm;
    [|exact (Hsame' _)].
  apply wp_tx_exec; [intros e; rewrite release_nil; apply Hsame|]. intros d2 _. cbn [tx_stmts tx_locks app].
  apply wp_tx_commit; cbn [tx_stmts]; rewrite ?release_nil.
  - intros e. rewrite ?release_nil. apply Hsame.
  - intros e d Hd. rewrite ?release_nil. split; [done|]. right. by eapply created_stmts.
  - intros d Hd. cbn [wp]. rewrite ?release_nil. split; [done|]. split; [done|]. by eapply created_stmts.
Qed.

(** C28: Create is atomic under every schedule of database failures: a success
    has inserted the intent and its outbox event together, an error has
    inserted neither, unless only the acknowledgement of the commit was lost,
    in which case both are there; nothing else in the world changes. *)
Theorem create_atomic id outboxID req w sched :
  create_contract id outboxID req w
    (run_result sys_exec (PostgresStore.Create id outboxID req) sched w)
    (run_state sys_exec (PostgresStore.Create id outboxID req) sched w).
Proof. apply wp_run, wp_create. Qed.
End create.

(** ** The Store interface as a contract
    What the handlers may rely on, whichever implementation is plugged in:
    a created intent is pending, carries the fresh id, and is what Get finds
    under it; other keys keep what they had. *)
Definition same_intent (i j : Intent.t) : Prop :=
  Intent.Id j = Intent.Id i /\ Intent.Status j = Intent.Status i /\
  Intent.Payload j = Intent.Payload i /\
  (Intent.Type_ i ∈ known_types -> Intent.Type_ j = Intent.Type_ i).

Class StoreContract (E : Type -> Type) `{Store E} (S : Type)
    (exec : forall X, E X -> outcome -> S -> X * S) := {
  store_key : string -> option string;
  fresh_key : string -> S -> Prop;
  lookup_intent : S -> string -> option Intent.t;
  lookup_by_key : forall s k k', store_key k = store_key k' -> lookup_intent s k = lookup_intent s k';
  fresh_is_key : forall k s, fresh_key k s -> store_key k = Some k;
  create_ok : forall id ob req s i,
    fresh_key id s -> run_result exec (store_Create id ob req) [] s = Ok i ->
    let s' := run_state exec (store_Create id ob req) [] s in
    Intent.Id i = id /\ Intent.Status i = INTENT_STATUS_PENDING /\
    Intent.Payload i = SubmitIntentRequest.Payload req /\
    Intent.Type_ i = SubmitIntentRequest.Type_ req /\
    (exists j, lookup_intent s' id = Some j /\ same_intent i j) /\
    (forall k, store_key k <> Some id -> lookup_intent s' k = lookup_intent s k);
  get_ok : forall k s,
    run_state exec (store_Get k) [] s = s /\
    match lookup_intent s k with
    | Some i => run_result exec (store_Get k) [] s = Ok i
    | None => exists e, run_result exec (store_Get k) [] s = Err e
    end;
}.

#[export, refine] Instance memory_contract (now : Z) : StoreContract memE MemoryStore.t (mem_exec now) := {|
  store_key := Some;
  fresh_key id m := MemoryStore.intents m !! id = None;
  lookup_intent m k := MemoryStore.intents m !! k;
|}.
Proof.
  - by intros s k k' [= ->].
  - done.
  - intros id ob req m i Hf. cbn. intros [= <-]. cbn. split_and!; try done.
    + eexists. rewrite lookup_insert_eq. done.
    + intros k Hk. rewrite lookup_insert_ne; [done|congruence].
  - intros k m. split; [done|]. unfold run_result. cbn. unfold MemoryStore.Get.
    destruct (MemoryStore.intents m !! k); eauto.
Defined.

Section postgres_contract.
Context `{Postgres} `{NumericCodec} `{ProtoCodec} `{TimeText}.

Definition pg_lookup (w : world) (k : string) : option Intent.t :=
  u ← uuid_in k; r ← intents (w_db w) !! u; Some (PostgresStore.intent_of_row u r).

Lemma varchar_fits n s s' : varchar n s = Ok s' -> (String.length s <= n)%nat -> s' = s.
Proof.
  intros [_ Hv]%varchar_Ok%varchar_in_Some Hl. revert n s' Hv Hl.
  induction s as [|c s IH]; intros n s' Hv Hl; cbn [varchar_chars] in Hv; [by injection Hv|].
  cbn in Hl. destruct (utf8_cont c).
  - apply fmap_Some in Hv as (x & Hx & ->). f_equal. apply (IH n); [done|lia].
  - destruct n as [|n]; [lia|]. apply fmap_Some in Hv as (x & Hx & ->). f_equal. apply (IH n); [done|lia].
Qed.

Lemma row_in_kept r row :
  row_in r = Ok row -> ir_payload row = ir_payload r /\ varchar 50 (ir_type r) = Ok (ir_type row) /\
    varchar 50 (ir_status r) = Ok (ir_status row).
Proof.
  unfold row_in. intros (ty & Hty & Hr)%result_bind_Ok. apply result_bind_Ok in Hr as (st & Hst & Hr).
  apply result_bind_Ok in Hr as (sub & _ & Hr). apply result_bind_Ok in Hr as (pay & Hp & Hr).
  apply result_bind_Ok in Hr as (sg & _ & Hr). apply result_bind_Ok in Hr as (pk & _ & Hr).
  injection Hr as <-. cbn. split_and!; try done. unfold bytea in Hp. case_match; [done|congruence].
Qed.

Lemma stored_intent now id u req row :
  row_in (PostgresStore.row_of_request now req) = Ok row ->
  uuid_in id = Some u -> id = u ->
  same_intent (PostgresStore.intent_of_request now id req) (PostgresStore.intent_of_row u row).
Proof.
  intros (Hp & Hty & Hst)%row_in_kept Hu ->. unfold same_intent. cbn. split_and!.
  - done.
  - apply varchar_fits in Hst; [|cbn; lia]. by rewrite Hst.
  - by rewrite Hp.
  - intros Hk. apply varchar_fits in Hty.
    + rewrite Hty. by apply type_roundtrip.
    + apply list_elem_of_In in Hk. cbn in Hk |- *. by repeat (destruct Hk as [<-|Hk]; [cbn; lia|]).
Qed.

#[export, refine] Instance postgres_contract : StoreContract sysE world sys_exec := {|
  store_key := uuid_in;
  fresh_key id w := uuid_in id = Some id /\ intents (w_db w) !! id = None;
  lookup_intent := pg_lookup;
|}.
Proof.
  - intros w k k' Hk. unfold pg_lookup. by rewrite Hk.
  - by intros k w [Hk _].
  - intros id ob req w i [Hid Hfresh] Hr.
    pose proof (wp_run sys_exec _ _ w [] (wp_create id ob req w)) as [Hw Hc].
    change (store_Create id ob req) with (PostgresStore.Create id ob req) in *. rewrite Hr in Hc.
    set (w' := run_state sys_exec (PostgresStore.Create id ob req) [] w) in *.
    destruct Hc as (-> & u & v & row & ev & tp & pay & Hu & _ & Hrow & _ & _ & _ & _ & _ & Hd).
    assert (u = id) as -> by congruence. split_and!; try done.
    + exists (PostgresStore.intent_of_row id row). split; [|by eapply stored_intent].
      unfold pg_lookup. rewrite Hid. cbn. rewrite Hd. cbn. by rewrite lookup_insert_eq.
    + intros k Hk. unfold pg_lookup. destruct (uuid_in k) as [u|]; cbn; [|done].
      rewrite Hd. cbn. rewrite lookup_insert_ne; [done|congruence].
  - intros k w. split; [done|]. unfold run_result, pg_lookup. cbn. unfold query_intent, uuid_arg.
    destruct (uuid_in k) as [u|]; cbn; [|eauto]. destruct (intents (w_db w) !! u); cbn; eauto.
Defined.
End postgres_contract.

(** ** The handlers, against the interface *)
Section handlers.
Context `{Ed25519} {E : Type -> Type} `{Store E}.
Context {S : Type} (exec : forall X, E X -> outcome -> S -> X * S).

(** The request is complete and its signature verifies under the key it
    carries. *)
Definition authentic (req : SubmitIntentRequest.t) : Prop :=
  SubmitIntentRequest.Type_ req <> INTENT_TYPE_UNSPECIFIED /\
  SubmitIntentRequest.SubmitterId req <> ""%string /\
  Verify (GetSignBytes (IntentType_String (SubmitIntentRequest.Type_ req))
            (SubmitIntentRequest.SubmitterId req) (SubmitIntentRequest.Payload req))
    (SubmitIntentRequest.Signature req) (SubmitIntentRequest.SubmitterPublicKey req) = Ok true.

Lemma submit_cases id ob req :
  (authentic req /\
   SubmitIntent id ob req = (r ← store_Create id ob req;
     Ret (match r with
          | Err err => fail codes.Internal ("failed to create intent: " +:+ err)%string
          | Ok intent => Ok (SubmitIntentResponse.mk (Intent.Id intent) (Intent.Status intent)
                               (Intent.CreatedAt intent))
          end))) \/
  (~ authentic req /\ exists st, SubmitIntent id ob req = Ret (Err st) /\
     (st_code st = codes.InvalidArgument \/ st_code st = codes.Unauthenticated)).
Proof.
  unfold SubmitIntent, authentic, fail. destruct (Z.eqb_spec (SubmitIntentRequest.Type_ req) INTENT_TYPE_UNSPECIFIED).
  { right. split; [tauto|]. eexists. split; [done|]. by left. }
  case_bool_decide. { right. split; [tauto|]. eexists. split; [done|]. by left. }
  case_bool_decide as Hpk.
  { right. split; [|eexists; split; [done|by left]]. intros (_ & _ & Hv). rewrite Hpk in Hv. by cbn in Hv. }
  case_bool_decide as Hsig.
  { right. split; [|eexists; split; [done|by left]]. intros (_ & _ & Hv). rewrite Hsig in Hv.
    apply verify_true_iff in Hv as (pk & sg & _ & _ & [= <-] & Hl & _). done. }
  cbv zeta. destruct (Verify _ _ _) as [[]|e].
  - left. done.
  - right. split; [naive_solver|]. eexists. split; [done|]. by right.
  - right. split; [naive_solver|]. eexists. split; [done|]. by left.
Qed.

(** SubmitIntent stores nothing without a valid signature.  Over any store
    and under any failures, a success implies that the type and submitter are
    given and that the ed25519 signature over type, submitter and payload
    verifies; a request that is not authentic is refused with InvalidArgument or
    Unauthenticated before the store is called. *)
Theorem submit_requires_signature id ob req sched s :
  (is_ok (run_result exec (SubmitIntent id ob req) sched s) = true -> authentic req) /\
  (~ authentic req ->
     run_state exec (SubmitIntent id ob req) sched s = s /\
     exists st, run_result exec (SubmitIntent id ob req) sched s = Err st /\
       (st_code st = codes.InvalidArgument \/ st_code st = codes.Unauthenticated)).
Proof.
  destruct (submit_cases id ob req) as [[Ha _]|(Hn & st & -> & Hst)].
  - split; [done|]. intros []. exact Ha.
  - split; [done|]. intros _. split; [done|]. by exists st.
Qed.

(** ** What the signature covers *)
Definition with_constraints (c : option IntentConstraints.t) (req : SubmitIntentRequest.t) : SubmitIntentRequest.t :=
  SubmitIntentRequest.mk (SubmitIntentRequest.Type_ req) (SubmitIntentRequest.Payload req) c
    (SubmitIntentRequest.SubmitterId req) (SubmitIntentRequest.Signature req)
    (SubmitIntentRequest.SubmitterPublicKey req).
Definition with_parties (submitter payload : string) (req : SubmitIntentRequest.t) : SubmitIntentRequest.t :=
  SubmitIntentRequest.mk (SubmitIntentRequest.Type_ req) payload (SubmitIntentRequest.Constraints req)
    submitter (SubmitIntentRequest.Signature req) (SubmitIntentRequest.SubmitterPublicKey req).

(** The signature does not cover the constraints, nor the boundary between
    submitter and payload: an accepted request stays authentic under any
    deadline, priority and retry limit, and a payload containing a bar can be
    moved in part into the submitter id without a new signature. *)
Theorem signature_not_binding req :
  authentic req ->
  (forall c, authentic (with_constraints c req)) /\
  (forall b c, SubmitIntentRequest.Payload req = (b +:+ "|" +:+ c)%string ->
     authentic (with_parties (SubmitIntentRequest.SubmitterId req +:+ "|" +:+ b)%string c req)).
Proof.
  intros (Ht & Hs & Hv). split; [done|]. intros b c Hp. split; [done|]. split.
  - cbn. by destruct (SubmitIntentRequest.SubmitterId req).
  - cbn. rewrite <-Hv. f_equal. unfold GetSignBytes. rewrite Hp. by rewrite !string_app_assoc.
Qed.

Context `{!StoreContract E S exec}.

End handlers.

(** ** A signed request on the in-memory store *)
Section concrete_submit.
#[local] Existing Instance concrete_ed25519.

Definition signed_request (submitter payload : string) : SubmitIntentRequest.t :=
  let bytes := GetSignBytes (IntentType_String INTENT_TYPE_QUERY) submitter payload in
  SubmitIntentRequest.mk INTENT_TYPE_QUERY payload None submitter
    (hex_encode (ed_sign "" bytes)) (hex_encode (ed_keygen "").1).


Lemma submit_requires_signature_witness :
  is_ok (run_result (mem_exec 7) (SubmitIntent "id-1" "ob-1" (signed_request "alice" "q")) []
           MemoryStore.NewMemoryStore) = true /\ authentic (signed_request "alice" "q").
Proof.
  split; [vm_compute; reflexivity|].
  apply (proj1 (submit_requires_signature (mem_exec 7) "id-1" "ob-1" (signed_request "alice" "q") []
                  MemoryStore.NewMemoryStore)).
  vm_compute. reflexivity.
Defined.

(** Bob signs a payload; the same signature serves a submitter he is not. *)
Lemma signature_not_binding_witness :
  authentic (signed_request "bob" "x|y") /\ authentic (with_parties "bob|x" "y" (signed_request "bob" "x|y")).
Proof.
  assert (Ha : authentic (signed_request "bob" "x|y")).
  { split; [discriminate|]. split; [discriminate|]. vm_compute. reflexivity. }
  split; [exact Ha|]. apply (proj2 (signature_not_binding _ Ha) "x" "y"). reflexivity.
Defined.
End concrete_submit.
