(* ===== verification/GatewayFacts.v ===== *)
(** * Correctness of the gateway: authentication *)
From S2P Require Import Prelude GoLib Sha256 Effects Sql Proto Float64 Json JsonFacts Http HttpFacts Redis Ledger.
From S2P Require Import IntentDb System IntentStore Crypto IntentHandler Gateway.

Section facts.
Context `{Postgres} `{NumericCodec} `{ProtoCodec} `{TimeText} `{Ed25519} `{Redis}.
Context (gw : Gateway) (lib : libraries).

(** ** Programs that only look at the clock and count
    [quiet now p a ms]: [p] reads no state but the time [now], answers [a] and
    adds the metrics [ms]. *)
Inductive quiet (now : Z) {R} : proc gwE R -> R -> list (string * list string) -> Prop :=
| quiet_ret a : quiet now (Ret a) a []
| quiet_now k a ms : quiet now (k now) a ms -> quiet now (Vis (Sys Now) k) a ms
| quiet_metric name labels k a ms :
    quiet now (k tt) a ms -> quiet now (Vis (Sys (Metric name labels)) k) a (ms ++ [(name, labels)]).

Definition with_metrics (ms : list (string * list string)) (g : gw_world) : gw_world :=
  mk_gw (mk_world (w_db (gw_sys g)) (w_locks (gw_sys g)) (w_nats (gw_sys g)) (w_wallet (gw_sys g))
           (w_ledger (gw_sys g)) (w_now (gw_sys g)) (ms ++ w_metrics (gw_sys g))) (gw_redis g).

Lemma quiet_run now {R} (p : proc gwE R) a ms sched g :
  quiet now p a ms -> w_now (gw_sys g) = now ->
  run_result gw_exec p sched g = a /\ run_state gw_exec p sched g = with_metrics ms g.
Proof.
  intros Hq. unfold run_result, run_state. revert sched g.
  induction Hq as [a|k a ms _ IH|name labels k a ms _ IH]; intros sched g Hg; cbn.
  - split; [done|]. by destruct g as [[] s].
  - destruct g as [w s]. cbn in *. rewrite Hg. by apply IH.
  - destruct g as [w s]. cbn in *. destruct (IH (tl sched) (mk_gw (add_metric name labels w) s) Hg) as [-> ->].
    split; [done|]. unfold with_metrics, add_metric. cbn. by rewrite <-app_assoc.
Qed.

Lemma quiet_bind now {A B} (p : proc gwE A) (f : A -> proc gwE B) a b ms ms' :
  quiet now p a ms -> quiet now (f a) b ms' -> quiet now (p ≫= f) b (ms' ++ ms).
Proof.
  intros Hp Hf. induction Hp as [a|k a ms _ IH|name labels k a ms _ IH]; cbn.
  - by rewrite app_nil_r.
  - constructor. by apply IH.
  - rewrite app_assoc. constructor. by apply IH.
Qed.

Definition stays_quiet (now : Z) (p : proc gwE (option responseWriterDelegator)) : Prop :=
  exists a, quiet now p a [].
Lemma respond_quiet now w : stays_quiet now (respond w).
Proof. eexists. constructor. Qed.

(** ** Who may pass *)
(** The request carries a token of this gateway that has not expired. *)
Definition authorized (now : Z) (r : Request) : bool :=
  let h := header_get r "Authorization" in
  negb (bool_decide (h = "")) && has_prefix h "Bearer " &&
  match token_claims gw lib (trim_prefix h "Bearer ") with
  | Ok c => unix now <=? JWTClaims.Exp c
  | Err _ => false
  end.

Lemma login_quiet now r w : stays_quiet now (handleLogin gw r w).
Proof.
  unfold handleLogin. case_match; [apply respond_quiet|]. case_match; [|apply respond_quiet].
  case_match; [apply respond_quiet|]. eexists.
  eapply (quiet_bind _ _ _ _ _ [] []); [do 2 constructor|constructor].
Qed.
Lemma health_quiet now r w : stays_quiet now (handleHealth lib r w).
Proof. unfold handleHealth. case_match; [apply respond_quiet|]. eexists. do 2 constructor. Qed.

(** An unauthorized request to a protected path is refused. *)
Lemma auth_refuses now next r :
  auth_exempt (Path r) = false -> authorized now r = false ->
  exists d, quiet now (authMiddleware gw lib next r (mk_delegator new_response StatusOK)) (Some d) [] /\
    rw_code (inner d) = Some StatusUnauthorized.
Proof.
  unfold authMiddleware, authorized. intros -> Ha. set (h := header_get r "Authorization") in *.
  destruct (bool_decide (h = "")); [eexists; split; [constructor|done]|].
  destruct (has_prefix h "Bearer "); [|eexists; split; [constructor|done]].
  cbn [negb orb andb] in *. unfold validateJWT. destruct (token_claims _ _ _) as [c|e].
  - eexists. split; [|shelve]. eapply (quiet_bind _ _ _ _ _ [] []); [do 2 constructor|].
    rewrite Z.leb_antisym in Ha. apply negb_false_iff in Ha. rewrite Ha. constructor.
    Unshelve. done.
  - eexists. split; [|shelve]. constructor. Unshelve. done.
Qed.

(** ** Routing *)
Lemma mux_match_in {A} (l : list (string * A)) path h :
  mux_match l path = Some h -> exists pat, (pat, h) ∈ l /\ pattern_matches pat path = true.
Proof.
  induction l as [|[pat h'] l IH]; cbn; [done|]. case_match.
  - intros [= <-]. exists pat. split; [left|done].
  - intros (pat' & Hin & Hm)%IH. exists pat'. split; [by right|done].
Qed.

(** A path that is routed to a protected handler is not exempt, however it is
    escaped. *)
Lemma protected_path pat e p :
  pat ∈ ["/api/ledger"; "/intents"; "/intents/"]%string ->
  pattern_matches pat e = true -> path_unescape e = Some p -> auth_exempt p = false.
Proof.
  intros Hpat Hm Hp. unfold pattern_matches in Hm.
  assert (He : exists rest, e = String slash rest).
  { destruct e as [|c rest].
    - apply list_elem_of_In in Hpat. by repeat (destruct Hpat as [<-|Hpat]; [done|]).
    - cbn [segments] in Hm. destruct (Ascii.eqb_spec c slash) as [->|]; [eauto|].
      apply list_elem_of_In in Hpat. by repeat (destruct Hpat as [<-|Hpat]; [done|]). }
  destruct He as [rest ->]. change (segments (String slash rest)) with (split_on slash rest) in Hm.
  assert (Hp' : exists p', path_unescape rest = Some p' /\ p = String slash p').
  { unfold path_unescape in *. cbn in Hp. destruct (unescape false rest); [|done]. injection Hp as <-. eauto. }
  destruct Hp' as (p' & Hp' & ->). clear Hp.
  destruct (first_segment rest p' Hp') as (x & l & a & Hs & Hx & Hcase). rewrite Hs in Hm.
  apply list_elem_of_In in Hpat. destruct Hpat as [<-|Hpat].
  - change (segments "/api/ledger") with ["api"; "ledger"]%string in Hm. cbn [match_segments] in Hm.
    apply andb_true_iff in Hm as [Ha Hm]. apply bool_decide_eq_true in Ha. unfold segment in Ha.
    rewrite Hx in Ha. cbn in Ha. subst a.
    destruct Hcase as [[-> ->]|(s' & q & -> & Hq & ->)]; [done|].
    destruct (first_segment s' q Hq) as (x2 & l2 & a2 & Hs2 & Hx2 & Hcase2). rewrite Hs2 in Hm.
    apply andb_true_iff in Hm as [Ha Hm]. apply bool_decide_eq_true in Ha. unfold segment in Ha.
    rewrite Hx2 in Ha. cbn in Ha. subst a2. destruct Hcase2 as [[-> ->]|(s3 & q3 & -> & _ & ->)].
    + reflexivity.
    + destruct (split_on_nonempty slash s3) as (y & l & Hy). by rewrite Hy in Hm.
  - assert (Ha : a = "intents"%string).
    { destruct Hpat as [<-|[<-|[]]];
        [change (segments "/intents") with ["intents"]%string in Hm
        |change (segments "/intents/") with ["intents"; ""]%string in Hm];
        cbn [match_segments] in Hm; apply andb_true_iff in Hm as [Ha _];
        apply bool_decide_eq_true in Ha; unfold segment in Ha; by rewrite Hx in Ha. }
    subst a. destruct Hcase as [[-> ->]|(s' & q & -> & _ & ->)]; vm_compute; reflexivity.
Qed.

Lemma mux_quiet now metrics ids r w :
  path_unescape (EscapedPath r) = Some (Path r) -> auth_exempt (Path r) = true ->
  stays_quiet now (mux gw lib metrics ids r w).
Proof.
  intros Hp Hex. unfold mux. case_bool_decide; [apply respond_quiet|]. unfold mux_route.
  generalize (if bool_decide (Method r = "CONNECT") then EscapedPath r else clean_path (EscapedPath r)) as path.
  intros path. destruct (mux_match _ path) as [h|] eqn:Hm.
  - case_bool_decide as He; [|apply respond_quiet]. rewrite He in Hm.
    apply mux_match_in in Hm as (pat & Hin & Hm).
    assert (Hpat : pat ∉ ["/api/ledger"; "/intents"; "/intents/"]%string).
    { intros Hpat. pose proof (protected_path pat _ _ Hpat Hm Hp). congruence. }
    unfold routes in Hin. apply list_elem_of_In in Hin. cbn [In] in Hin.
    destruct Hin as [[= <- <-]|[[= <- <-]|[[= <- <-]|[[= <- <-]|[[= <- <-]|[[= <- <-]|[[= <- <-]|[]]]]]]]].
    + apply respond_quiet.
    + destruct Hpat. set_solver.
    + apply login_quiet.
    + apply health_quiet.
    + apply respond_quiet.
    + destruct Hpat. set_solver.
    + destruct Hpat. set_solver.
  - destruct (_ && _); [apply respond_quiet|]. case_bool_decide; apply respond_quiet.
Qed.

Lemma limiter_quiet now next r w :
  auth_exempt (Path r) = true -> stays_quiet now (next r w) ->
  stays_quiet now (rateLimitMiddleware gw next r w).
Proof.
  intros Hex Hn. unfold rateLimitMiddleware. case_bool_decide; [exact Hn|].
  destruct (bool_decide (Method r = MethodPost)); [|exact Hn]. cbn [andb].
  case_bool_decide as Hp; [|exact Hn]. rewrite Hp in Hex. discriminate Hex.
Qed.

Lemma logged_quiet now next r w a :
  quiet now (next r (mk_delegator w StatusOK)) a [] ->
  exists b ms, quiet now (loggingMiddleware next r w) b ms /\ forall d, a = Some d -> b = Some (inner d).
Proof.
  intros Hq. unfold loggingMiddleware. destruct a as [d|].
  - destruct (negb (bool_decide (Path r = "/metrics")) && negb (bool_decide (Path r = "/health")));
      (do 2 eexists; split; [|by intros d' [= <-]]; apply quiet_now; eapply quiet_bind; [exact Hq|];
       cbv beta iota; apply quiet_now).
    + apply quiet_metric, quiet_metric, quiet_ret.
    + apply quiet_ret.
  - do 2 eexists. split; [|done]. apply quiet_now. eapply quiet_bind; [exact Hq|]. apply quiet_ret.
Qed.

(** C3: without a valid token nothing behind the gateway is reached: whatever
    the path and its encoding, the answer is a function of the request, the
    clock, the secret and the metrics page alone - the same in every state of
    the databases, streams, files and caches and under every failure - and
    nothing changes but the gateway's own metrics.  A path that is not exempt is
    answered 401. *)
Theorem unauthorized_reach_nothing now metrics ids r :
  path_unescape (EscapedPath r) = Some (Path r) -> authorized now r = false ->
  exists answer ms,
    (forall sched g, w_now (gw_sys g) = now ->
       run_result gw_exec (serve_http gw lib metrics ids r new_response) sched g = answer /\
       run_state gw_exec (serve_http gw lib metrics ids r new_response) sched g = with_metrics ms g) /\
    (auth_exempt (Path r) = false ->
       exists w, answer = Some w /\ rw_status w = StatusUnauthorized).
Proof.
  intros Hp Ha.
  assert (Hin : exists a, quiet now (authMiddleware gw lib (rateLimitMiddleware gw (mux gw lib metrics ids)) r
                            (mk_delegator new_response StatusOK)) a [] /\
    (auth_exempt (Path r) = false -> exists d, a = Some d /\ rw_code (inner d) = Some StatusUnauthorized)).
  { destruct (auth_exempt (Path r)) eqn:Hex.
    - destruct (limiter_quiet now (mux gw lib metrics ids) r (mk_delegator new_response StatusOK) Hex
                  (mux_quiet _ _ _ _ _ Hp Hex)) as [a Hq].
      exists a. split; [|done]. unfold authMiddleware. by rewrite Hex.
    - destruct (auth_refuses now (rateLimitMiddleware gw (mux gw lib metrics ids)) r Hex Ha) as (d & Hq & Hd).
      exists (Some d). split; [done|]. eauto. }
  destruct Hin as (a & Hq & Hcode).
  assert (Hall : exists b ms, quiet now (serve_http gw lib metrics ids r new_response) b ms /\
            forall d, a = Some d -> b = Some (inner d)).
  { by apply logged_quiet. }
  destruct Hall as (b & ms & Hb & Hd). exists b, ms. split.
  - intros sched g Hg. by eapply quiet_run.
  - intros Hex. destruct (Hcode Hex) as (d & -> & Hc). exists (inner d). split; [by apply Hd|].
    unfold rw_status. by rewrite Hc.
Qed.
End facts.
