(* ===== verification/GatewayTokens.v ===== *)
(** * Correctness of the gateway: the tokens that login hands out *)
From S2P Require Import Prelude GoLib Sha256 Effects Sql Proto Float64 Json JsonFacts Http HttpFacts Redis Ledger.
From S2P Require Import IntentDb System IntentStore Crypto Gateway GatewayFacts Concrete.

Lemma unix_mono t u : t <= u -> unix t <= unix u.
Proof. intros Htu. unfold unix, second. apply Z.div_le_mono; lia. Qed.
Lemma unix_plus_day t : unix (t + day) = unix t + 86400.
Proof. unfold unix, day. rewrite Z.div_add by done. done. Qed.

Lemma num_int_scalar n :
  0 <= n < 2 ^ 63 -> num_int 64 (mk_num_lit (n <? 0) (utoa (Z.abs n)) None None) = Some n.
Proof.
  intros Hn. rewrite (proj2 (Z.ltb_ge n 0)), Z.abs_eq by lia. unfold num_int.
  rewrite scan_utoa by lia. cbn [fst]. change (64 - 1) with 63.
  by rewrite (proj2 (Z.leb_le (- 2 ^ 63) n)), (proj2 (Z.ltb_lt n (2 ^ 63))) by lia.
Qed.

Lemma claims_roundtrip c :
  is_ascii (JWTClaims.Sub c) = true -> 0 <= JWTClaims.Exp c < 2 ^ 63 ->
  JWTClaims.unmarshal (print_object (JWTClaims.members c)) = Some c.
Proof.
  destruct c as [s e]. cbn [JWTClaims.Sub JWTClaims.Exp]. intros Hs He.
  unfold JWTClaims.unmarshal, unmarshal_struct. rewrite parse_print_object.
  - cbn [JWTClaims.members map scalar_json fst snd JWTClaims.Sub JWTClaims.Exp].
    cbn [decode_struct decode_members]. change (field_of JWTClaims.keys "sub") with (Some "sub"%string).
    change (field_of JWTClaims.keys "exp") with (Some "exp"%string).
    cbn [JWTClaims.set_field JWTClaims.zero].
    rewrite bool_decide_eq_true_2 by done. cbn [set_string JWTClaims.set_field].
    rewrite bool_decide_eq_false_2 by done. cbn [set_num]. by rewrite num_int_scalar.
  - cbn [JWTClaims.members members_ok forallb scalar_ok fst snd JWTClaims.Sub JWTClaims.Exp].
    rewrite Hs. by rewrite (proj2 (Z.leb_le 0 e)) by lia.
Qed.

Section tokens.
Context `{Postgres} `{NumericCodec} `{ProtoCodec} `{TimeText} `{Ed25519} `{Redis}.
Context (gw : Gateway) (lib : libraries).

Definition header_b64 : string :=
  b64_encode (default ""%string (encode_json (JvMap [("alg", JvStr "HS256"); ("typ", JvStr "JWT")]%string))).
(** The token of [claims]. *)
Definition token_for (claims : JWTClaims.t) : string :=
  let signingInput := (header_b64 +:+ "." +:+ b64_encode (print_object (JWTClaims.members claims)))%string in
  (signingInput +:+ "." +:+ hs256 gw signingInput)%string.

Lemma generate_quiet now user :
  quiet now (generateJWT gw user) (token_for (JWTClaims.mk user (unix (now + day)))) [].
Proof. do 2 constructor. Qed.

Lemma split_token a b c :
  no_dot a = true -> no_dot b = true -> no_dot c = true ->
  split_on (Zbyte 46) ((a +:+ "." +:+ b) +:+ "." +:+ c) = [a; b; c].
Proof.
  intros Ha Hb Hc. change "."%string with (String (Zbyte 46) "").
  assert (He : ((a +:+ String (Zbyte 46) "" +:+ b) +:+ String (Zbyte 46) "" +:+ c
                = a +:+ String (Zbyte 46) (b +:+ String (Zbyte 46) c))%string).
  { rewrite string_app_assoc. cbn [String.append]. done. }
  rewrite He. rewrite split_on_app by by apply no_dot_absent. f_equal.
  rewrite split_on_app by by apply no_dot_absent. f_equal.
  by apply split_on_absent, no_dot_absent.
Qed.

Lemma token_for_claims c :
  is_ascii (JWTClaims.Sub c) = true -> 0 <= JWTClaims.Exp c < 2 ^ 63 ->
  token_claims gw lib (token_for c) = Ok c.
Proof.
  intros Hs He. unfold token_claims, token_for. cbv zeta.
  rewrite split_token by apply b64_no_dot. rewrite bool_decide_eq_true_2 by done. cbn [negb].
  by rewrite b64_roundtrip, claims_roundtrip.
Qed.

Lemma bearer_authorized tok r now c :
  header_get r "Authorization" = ("Bearer " +:+ tok)%string -> token_claims gw lib tok = Ok c ->
  authorized gw lib now r = (unix now <=? JWTClaims.Exp c).
Proof.
  intros Hr Hc. unfold authorized. rewrite Hr. unfold has_prefix, trim_prefix. rewrite strip_prefix_app.
  rewrite bool_decide_eq_false_2 by done. rewrite bool_decide_eq_true_2 by by eexists.
  cbn [negb andb from_option]. unfold id. by rewrite Hc.
Qed.

Definition login_request (r : Request) : option LoginRequest.t :=
  decode_stream LoginRequest.keys LoginRequest.set_field (Body r) (BodyErr r) LoginRequest.zero.
Definition good_login (r : Request) : bool :=
  bool_decide (Method r = MethodPost) &&
  match login_request r with
  | Some req => bool_decide (LoginRequest.Username req = "admin"%string) &&
                bool_decide (LoginRequest.Password req = "aien-admin-2026"%string)
  | None => false
  end.

(** C16: login opens the gateway for a day.  POST /api/login answers 200 exactly
    for the configured credentials, and then with a token under which requests
    are authorized from that moment on up to and including the second 24 hours
    later, and not after; it answers every other request 400, 401 or 405 without
    a token.  It answers alike in every state and under every failure. *)
Theorem login_opens_the_gateway now r sched g :
  w_now (gw_sys g) = now -> 0 <= now -> unix now + 86400 < 2 ^ 63 ->
  exists d, run_result gw_exec (handleLogin gw r (mk_delegator new_response StatusOK)) sched g = Some d /\
    if good_login r then
      exists tok, rw_status (inner d) = StatusOK /\
        rw_body (inner d) = (print_object [("token", SStr tok)] +:+ newline)%string /\
        forall r' now', header_get r' "Authorization" = ("Bearer " +:+ tok)%string ->
          authorized gw lib now' r' = (unix now' <=? unix now + 86400)
    else rw_status (inner d) ∈ [StatusBadRequest; StatusUnauthorized; StatusMethodNotAllowed].
Proof.
  intros Hg Hn Hmax. unfold handleLogin, good_login, login_request.
  case_bool_decide as Hm; cbn [negb andb]; [|eexists; split; [done|set_solver]].
  destruct (decode_stream _ _ _ _ _) as [[user pw]|]; [|eexists; split; [done|set_solver]].
  cbn [LoginRequest.Username LoginRequest.Password].
  case_bool_decide as Hu; cbn [negb orb andb]; [|eexists; split; [done|set_solver]].
  case_bool_decide as Hpw; cbn [negb orb andb]; [|eexists; split; [done|set_solver]].
  eexists. split.
  - eapply quiet_run; [|exact Hg]. eapply (quiet_bind now _ _ _ _ [] []); [apply generate_quiet|constructor].
  - set (claims := JWTClaims.mk user (unix (now + day))). exists (token_for claims). split; [done|]. split.
    + unfold writeJSON.
      change (JvMap [("token"%string, JvStr (token_for claims))])
        with (JvObj (flat [("token"%string, SStr (token_for claims))])).
      by rewrite encode_flat.
    + intros r' now' Hr'. rewrite (bearer_authorized _ _ now' claims Hr').
      * cbn [claims JWTClaims.Exp]. by rewrite unix_plus_day.
      * apply token_for_claims; cbn [claims JWTClaims.Sub JWTClaims.Exp].
        -- by rewrite Hu.
        -- rewrite unix_plus_day. pose proof (unix_mono 0 now Hn). change (unix 0) with 0 in *. lia.
Qed.
End tokens.
