(* ===== verification/GatewayLimit.v ===== *)
(** * Correctness of the gateway: the rate limit under concurrency

    Any number of submissions of one client arrive and are handled at once,
    their events interleaved in any order, while time passes within one minute
    and other clients use Redis.  Every command to Redis may fail, with or
    without an effect; the submissions whose increment failed are counted. *)
From S2P Require Import Prelude GoLib Effects Sql Proto Float64 Json Http Redis Ledger.
From S2P Require Import IntentDb System IntentStore Crypto Gateway.

Section limit.
Context `{Postgres} `{NumericCodec} `{Redis}.
Context (gw : Gateway) (ip : string) (m : Z).
Context (Hm : 0 <= m) (enabled : getenv gw "DISABLE_RATE_LIMITER" <> "true"%string).

Definition minute_end : Z := (m + 1) * 60 * second.
Definition in_minute (t : Z) : Prop := m * 60 * second <= t < minute_end.
Definition key : string := ("rate:" +:+ ip +:+ ":" +:+ itoa m)%string.

(** A submission of the client, and the handler behind the limiter, which does
    nothing: a request that passed has no status yet. *)
Definition submission (r : Request) : Prop :=
  Method r = MethodPost /\ Path r = "/intents"%string /\ client_ip r = ip.
Definition pass : Handler := fun r w => respond w.
Definition arrival (r : Request) : proc gwE (option responseWriterDelegator) :=
  rateLimitMiddleware gw pass r (mk_delegator new_response StatusOK).

Definition answered (code : option Z) (p : proc gwE (option responseWriterDelegator)) : bool :=
  match p with
  | Ret (Some d) => bool_decide (rw_code (inner d) = code)
  | _ => false
  end.
Definition passed := answered None.
Definition refused := answered (Some StatusTooManyRequests).

(** The next event of a thread, and whether it is an increment that fails. *)
Definition advance {R} (p : proc gwE R) (o : outcome) (g : gw_world) : proc gwE R * gw_world :=
  match p with
  | Ret a => (Ret a, g)
  | Vis e k => let '(x, g') := gw_exec _ e o g in (k x, g')
  end.
Definition failed_incr {R} (p : proc gwE R) (o : outcome) : nat :=
  match p with
  | Vis (RedisIncr _) _ => match o with Done => 0 | _ => 1 end
  | _ => 0
  end.

(** The threads, the world, and the number of increments that have failed. *)
Definition config : Type := list (proc gwE (option responseWriterDelegator)) * gw_world * nat.
Inductive limit_step : config -> config -> Prop :=
| limit_arrival ps g f r : submission r -> limit_step (ps, g, f) (ps ++ [arrival r], g, f)
| limit_event ps g f i p o :
    ps !! i = Some p ->
    limit_step (ps, g, f) (<[i := (advance p o g).1]> ps, (advance p o g).2, (failed_incr p o + f)%nat)
| limit_env ps g g' f :
    w_now (gw_sys g) <= w_now (gw_sys g') -> in_minute (w_now (gw_sys g')) ->
    (forall t, key_at t key (gw_redis g') = key_at t key (gw_redis g)) ->
    limit_step (ps, g, f) (ps, g', f).

(** A run, as the threads that move and the outcomes of their events. *)
Fixpoint limit_run (moves : list (nat * outcome)) (c : config) : config :=
  match moves with
  | [] => c
  | (i, o) :: moves' =>
      match c.1.1 !! i with
      | Some p => limit_run moves' (<[i := (advance p o c.1.2).1]> c.1.1, (advance p o c.1.2).2, (failed_incr p o + c.2)%nat)
      | None => c
      end
  end.
Lemma limit_run_steps moves c : rtc limit_step c (limit_run moves c).
Proof.
  revert c; induction moves as [|[i o] moves IH]; intros [[ps g] f]; [reflexivity|]. cbn [limit_run fst snd].
  destruct (ps !! i) as [p|] eqn:Hi; [|reflexivity]. eapply rtc_l; [by eapply limit_event|apply IH].
Qed.
Lemma limit_arrivals rs c :
  Forall submission rs -> rtc limit_step c (c.1.1 ++ map arrival rs, c.1.2, c.2).
Proof.
  intros Hrs. revert c; induction Hrs as [|r rs Hr _ IH]; intros [[ps g] f]; cbn [fst snd map].
  - by rewrite app_nil_r.
  - eapply rtc_l; [by apply limit_arrival|]. specialize (IH (ps ++ [arrival r], g, f)). cbn [fst snd] in IH.
    by rewrite <-app_assoc in IH.
Qed.

(** ** The invariant
    [counted c g]: the counter stands at [c] and stays until the minute ends. *)
Definition counted (c : Z) (g : gw_world) : Prop :=
  let t := w_now (gw_sys g) in
  (c = 0 /\ key_at t key (gw_redis g) = None) \/
  (0 < c /\ exists d, key_at t key (gw_redis g) = Some (itoa c, d) /\ forall x, d = Some x -> minute_end <= x).

(** Where a thread is: before its increment, with the count it was given, or
    without a count because the increment failed. *)
Inductive phase : Type := Waiting | Counted (n : Z) | Uncounted.
Definition at_phase (p : proc gwE (option responseWriterDelegator)) (x : phase) : Prop :=
  exists r, submission r /\
  let w := mk_delegator new_response StatusOK in
  match x with
  | Waiting => p = arrival r \/ p = Vis (RedisIncr key) (fun incr => limit_result pass key incr r w)
  | Counted n => p = Vis (RedisExpire key (60 * second)) (fun _ => limit_count pass n r w) \/
                 p = limit_count pass n r w
  | Uncounted => p = pass r w
  end.
Definition count_of (x : phase) : option Z := match x with Counted n => Some n | _ => None end.
Definition is_uncounted (x : phase) : bool := match x with Uncounted => true | _ => false end.
Definition counts (xs : list phase) : list Z := omap count_of xs.
Definition uncounted (xs : list phase) : nat := length (filter (fun x => is_uncounted x = true) xs).

(** [n] stands in Redis: every count handed out is one of 1 to [n], once. *)
Definition tally (xs : list phase) (n : Z) : Prop :=
  NoDup (counts xs) /\ (forall x, x ∈ counts xs -> 1 <= x <= n) /\
  0 <= n /\ n <= Z.of_nat (length (counts xs) + uncounted xs).
(** Each increment that failed is that of one thread. *)
Definition limit_inv (c : config) : Prop :=
  in_minute (w_now (gw_sys c.1.2)) /\
  exists xs n, Forall2 at_phase c.1.1 xs /\ tally xs n /\ uncounted xs = c.2 /\ counted n c.1.2.

Lemma minute_of t : in_minute t -> Z.quot (unix t) 60 = m.
Proof.
  unfold in_minute, minute_end, unix, second. intros Ht. rewrite Z.quot_div_nonneg by (try apply Z.div_pos; lia).
  rewrite Z.div_div by lia. symmetry. apply (Z.div_unique t _ m (t - m * (1000000000 * 60))); lia.
Qed.

Lemma counted_later c g g' :
  counted c g -> w_now (gw_sys g) <= w_now (gw_sys g') -> in_minute (w_now (gw_sys g')) ->
  (forall t, key_at t key (gw_redis g') = key_at t key (gw_redis g)) -> counted c g'.
Proof.
  intros Hc Ht Hmin Hk. unfold counted. rewrite Hk, (key_at_later _ _ key _ Ht).
  destruct Hc as [[-> ->]|(Hc & d & -> & Hd)]; [by left|]. right. split; [done|]. exists d. split; [|done].
  unfold alive. destruct d as [x|]; [|done]. specialize (Hd x eq_refl).
  destruct (Z.ltb_spec (w_now (gw_sys g')) x); [done|]. unfold in_minute in Hmin. lia.
Qed.

Lemma counted_incr c g :
  counted c g -> 0 <= c < 2 ^ 63 - 1 ->
  (redis_INCR (w_now (gw_sys g)) key (gw_redis g)).1 = Ok (c + 1) /\
  counted (c + 1) (mk_gw (gw_sys g) (redis_INCR (w_now (gw_sys g)) key (gw_redis g)).2).
Proof.
  intros [[-> Hk]|(Hc & d & Hk & Hd)] Hmax; unfold counted; cbn [gw_sys gw_redis].
  - destruct (INCR_missing _ _ _ Hk) as [-> Hk']. split; [done|]. right. split; [lia|]. exists None. by rewrite Hk'.
  - destruct (INCR_number _ _ _ _ _ Hk) as [-> Hk']; [lia|]. split; [done|]. right. split; [lia|].
    exists d. by rewrite Hk'.
Qed.

Lemma counted_expire c g o :
  counted c g -> in_minute (w_now (gw_sys g)) ->
  counted c (gw_exec _ (RedisExpire key (60 * second)) o g).2.
Proof.
  intros Hc Hmin.
  assert (He : counted c (mk_gw (gw_sys g) (redis_EXPIRE (w_now (gw_sys g)) key (60 * second) (gw_redis g)))).
  { unfold counted in *. cbn [gw_sys gw_redis]. rewrite EXPIRE_at by (unfold second; lia).
    rewrite decide_True by done. destruct Hc as [[-> ->]|(Hc & d & -> & _)]; [by left|].
    right. split; [done|]. eexists. split; [done|]. intros x [= <-]. cbn.
    unfold in_minute, minute_end, second in *. lia. }
  destruct o; cbn; done.
Qed.

(** Threads that took part without changing their phase. *)
Lemma inv_update ps xs i p' x :
  Forall2 at_phase ps xs -> xs !! i = Some x -> at_phase p' x -> Forall2 at_phase (<[i := p']> ps) xs.
Proof.
  intros Hf Hi Hp'. rewrite <-(list_insert_id xs i x Hi). by apply Forall2_insert.
Qed.

Lemma counts_cons x xs : counts (x :: xs) = match x with Counted n => n :: counts xs | _ => counts xs end.
Proof. by destruct x. Qed.
Lemma uncounted_cons x xs : uncounted (x :: xs) = match x with Uncounted => S (uncounted xs) | _ => uncounted xs end.
Proof. unfold uncounted. rewrite filter_cons. by destruct x. Qed.
Lemma counts_perm xs ys : xs ≡ₚ ys -> counts xs ≡ₚ counts ys.
Proof. unfold counts. by intros ->. Qed.
Lemma uncounted_perm xs ys : xs ≡ₚ ys -> uncounted xs = uncounted ys.
Proof. unfold uncounted. by intros ->. Qed.

Lemma leave_waiting (xs : list phase) i x :
  xs !! i = Some Waiting -> exists xs', xs ≡ₚ Waiting :: xs' /\ <[i := x]> xs ≡ₚ x :: xs'.
Proof.
  intros Hi. exists (delete i xs). split; [by apply delete_Permutation|].
  rewrite (delete_Permutation (<[i := x]> xs) i x) by (apply list_lookup_insert_eq; by eapply lookup_lt_Some).
  by rewrite list_delete_updated.
Qed.

Lemma tally_counted xs i n :
  xs !! i = Some Waiting -> tally xs n ->
  tally (<[i := Counted (n + 1)]> xs) (n + 1) /\ uncounted (<[i := Counted (n + 1)]> xs) = uncounted xs.
Proof.
  intros Hi (Hnd & Hr & Hn & Hle). destruct (leave_waiting xs i (Counted (n + 1)) Hi) as (ys & Hx & Hy). unfold tally.
  rewrite (uncounted_perm _ _ Hx), (uncounted_perm _ _ Hy), !uncounted_cons in *.
  apply counts_perm in Hx, Hy. rewrite counts_cons in Hx, Hy. rewrite Hx in Hnd, Hle. rewrite Hy. split_and!; [| |lia| |done].
  - constructor; [|done]. rewrite <-Hx. intros Hin%Hr. lia.
  - intros z. rewrite Hy, <-Hx. intros [->|Hz%Hr]%elem_of_cons; lia.
  - cbn [length]. lia.
Qed.
Lemma tally_uncounted xs i n n' :
  xs !! i = Some Waiting -> tally xs n -> n <= n' <= n + 1 ->
  tally (<[i := Uncounted]> xs) n' /\ uncounted (<[i := Uncounted]> xs) = S (uncounted xs).
Proof.
  intros Hi (Hnd & Hr & Hn & Hle) Hn'. destruct (leave_waiting xs i Uncounted Hi) as (ys & Hx & Hy). unfold tally.
  rewrite (uncounted_perm _ _ Hx), (uncounted_perm _ _ Hy), !uncounted_cons in *.
  apply counts_perm in Hx, Hy. rewrite counts_cons in Hx, Hy. rewrite Hx in Hnd, Hle. rewrite Hy. split_and!; [done| |lia|lia|done].
  intros z. rewrite Hy, <-Hx. intros Hz%Hr. lia.
Qed.

Lemma phases_length xs : (length (counts xs) + uncounted xs <= length xs)%nat.
Proof.
  induction xs as [|x xs IH]; [done|]. rewrite counts_cons, uncounted_cons. destruct x; cbn [length]; lia.
Qed.

Lemma arrival_Now r :
  submission r ->
  arrival r = Vis (Sys Now) (fun now => Vis (RedisIncr (rate_key ip now)) (fun incr =>
    limit_result pass (rate_key ip now) incr r (mk_delegator new_response StatusOK))).
Proof.
  intros (Hme & Hp & <-). unfold arrival, rateLimitMiddleware. rewrite bool_decide_eq_false_2 by done.
  rewrite Hme, Hp. done.
Qed.
Lemma limit_count_ret n r w : exists d, limit_count pass n r w = Ret (Some d).
Proof. unfold limit_count. case_match; eexists; done. Qed.

(** An increment succeeds, fails with its effect, or fails without one. *)
Lemma incr_cases n g o :
  counted n g -> 0 <= n < 2 ^ 63 - 1 -> in_minute (w_now (gw_sys g)) ->
  let '(x, g') := gw_exec _ (RedisIncr key) o g in
  gw_sys g' = gw_sys g /\
  (o = Done /\ x = Ok (n + 1) /\ counted (n + 1) g' \/
   o <> Done /\ is_ok x = false /\ (counted n g' \/ counted (n + 1) g')).
Proof.
  intros Hc Hn Hmin. pose proof (counted_incr _ _ Hc Hn) as [Hres Hcount]. cbn [gw_exec].
  destruct (redis_INCR _ key _) as [res s]. cbn [fst snd] in *. subst res. destruct g as [w ks].
  destruct o; cbn in *; (split; [done|]); [by left|right; split; [done|]; split; [done|]; tauto..].
Qed.

(** The step of one thread. *)
Lemma inv_event ps g f i p o :
  Z.of_nat (length ps) < 2 ^ 63 - 1 -> ps !! i = Some p ->
  limit_inv (ps, g, f) -> limit_inv (<[i := (advance p o g).1]> ps, (advance p o g).2, (failed_incr p o + f)%nat).
Proof.
  intros Hlen Hi (Hmin & xs & n & Hf & Ht & Hu & Hc). cbn [fst snd] in *.
  destruct (Forall2_lookup_l _ _ _ _ _ Hf Hi) as (x & Hxi & r & Hsub & Hph).
  destruct x as [|c|].
  - destruct Hph as [-> | ->].
    + rewrite arrival_Now by done. cbn. destruct g as [w s]. cbn in *. split; [done|]. exists xs, n. split_and!; [|done..].
      eapply inv_update; [done..|]. exists r. split; [done|]. right. unfold rate_key, key. by rewrite (minute_of _ Hmin).
    + assert (Hbound : 0 <= n < 2 ^ 63 - 1).
      { apply Forall2_length in Hf. pose proof (phases_length xs). destruct Ht as (_ & _ & ? & ?). lia. }
      pose proof (incr_cases n g o Hc Hbound Hmin) as Hcases. cbn [advance failed_incr].
      destruct (gw_exec _ (RedisIncr key) o g) as [y g']. destruct Hcases as [Hsys Hcases].
      cbn [fst snd]. split; cbn [fst snd]; [by rewrite Hsys|].
      destruct Hcases as [(-> & -> & Hc')|(Ho & Hy & Hc')].
      * destruct (tally_counted xs i n Hxi Ht) as [Ht' Hu']. eexists _, _. split_and!; [|exact Ht'|by rewrite Hu'|done].
        apply Forall2_insert; [done|]. exists r. split; [done|]. unfold limit_result.
        destruct (n + 1 =? 1); [by left|by right].
      * assert (Hk : exists k, counted k g' /\ n <= k <= n + 1) by (destruct Hc'; eexists; split; eauto; lia).
        destruct Hk as (k & Hk & Hle). destruct (tally_uncounted xs i n k Hxi Ht Hle) as [Ht' Hu'].
        eexists _, _. split_and!; [|exact Ht'|rewrite Hu', Hu; by destruct o|done].
        apply Forall2_insert; [done|]. exists r. split; [done|]. by destruct y.
  - destruct Hph as [-> | ->].
    + assert (Hnow : gw_sys (gw_exec _ (RedisExpire key (60 * second)) o g).2 = gw_sys g) by (by destruct o).
      cbn [advance failed_incr]. destruct (gw_exec _ (RedisExpire key (60 * second)) o g) as [y g'] eqn:He. cbn [fst snd] in *.
      split; cbn [fst snd]; [rewrite Hnow; done|]. exists xs, n. split_and!; [|done..|].
      * eapply inv_update; [done..|]. exists r. split; [done|]. by right.
      * pose proof (counted_expire _ _ o Hc Hmin) as Hc'. by rewrite He in Hc'.
    + destruct (limit_count_ret c r (mk_delegator new_response StatusOK)) as [d Hd]. rewrite Hd in *. cbn.
      rewrite list_insert_id by done. split; [done|]. by exists xs, n.
  - cbv zeta iota in Hph. subst p. cbn. rewrite list_insert_id by done. split; [done|]. by exists xs, n.
Qed.

Lemma inv_step c c' :
  Z.of_nat (length c'.1.1) < 2 ^ 63 - 1 -> limit_step c c' -> limit_inv c -> limit_inv c'.
Proof.
  intros Hlen Hs. destruct Hs as [ps g f r Hsub|ps g f i p o Hi|ps g g' f Ht Hmin Hk]; cbn [fst] in Hlen.
  - intros (Hmin & xs & n & Hf & Hrest). split; [done|]. exists (xs ++ [Waiting]), n. cbn [fst snd] in *.
    assert (Hx : counts (xs ++ [Waiting]) = counts xs) by (unfold counts; rewrite omap_app; cbn; by rewrite app_nil_r).
    assert (Hu : uncounted (xs ++ [Waiting]) = uncounted xs) by (unfold uncounted; rewrite filter_app; cbn; by rewrite app_nil_r).
    unfold tally. rewrite Hx, Hu. split; [|done]. apply Forall2_app; [done|]. constructor; [|done]. exists r. split; [done|]. by left.
  - rewrite length_insert in Hlen. by apply inv_event.
  - intros (_ & xs & n & Hf & Hx & Hu & Hc). split; [done|]. exists xs, n. split_and!; [done..|].
    by eapply counted_later.
Qed.

Lemma step_grows c c' : limit_step c c' -> (length c.1.1 <= length c'.1.1)%nat.
Proof. intros []; cbn [fst]; rewrite ?length_app, ?length_insert; lia. Qed.

Lemma inv_steps c c' :
  Z.of_nat (length c'.1.1) < 2 ^ 63 - 1 -> rtc limit_step c c' -> limit_inv c -> limit_inv c'.
Proof.
  intros Hlen Hr. revert Hlen. induction Hr as [c|c1 c2 c3 Hs Hr IH]; [done|]. intros Hlen Hi. apply IH; [done|].
  eapply inv_step; [|done..].
  assert (Hg : (length c2.1.1 <= length c3.1.1)%nat).
  { clear -Hr. induction Hr as [|a b c Hs _ IH]; [done|]. apply step_grows in Hs. lia. }
  lia.
Qed.

(** A thread has passed without a count or with one of at most ten, and is
    refused with a higher one. *)
Lemma answered_count p x :
  at_phase p x ->
  (passed p = true -> x = Uncounted \/ exists n, x = Counted n /\ n <= 10) /\
  (refused p = true -> exists n, x = Counted n /\ 10 < n).
Proof.
  intros (r & Hsub & Hph). destruct x as [|n|].
  - destruct Hph as [-> | ->]; [by rewrite arrival_Now|done].
  - destruct Hph as [-> | ->]; [done|].
    unfold limit_count. destruct (Z.ltb_spec 10 n) as [Hn|Hn]; split; intros Ha; try discriminate Ha; eauto.
  - cbv zeta iota in Hph. subst p. split; [by left|done].
Qed.

Lemma passed_counts ps xs :
  Forall2 at_phase ps xs ->
  (length (filter (fun p => passed p = true) ps) <= length (filter (fun n => (n <= 10)%Z) (counts xs)) + uncounted xs)%nat.
Proof.
  induction 1 as [|p x ps xs Hp _ IH]; [done|]. rewrite filter_cons, counts_cons, uncounted_cons.
  destruct (decide _) as [Ha|_].
  - destruct (proj1 (answered_count _ _ Hp) Ha) as [->|(n & -> & Hn)]; [cbn [length]; lia|].
    rewrite filter_cons, decide_True by done. cbn [length]. lia.
  - destruct x as [|n|]; [done| |lia]. rewrite filter_cons. case_decide; cbn [length]; lia.
Qed.

Lemma at_most_ten (l : list Z) : NoDup l -> (forall n, n ∈ l -> 1 <= n <= 10) -> (length l <= 10)%nat.
Proof.
  intros Hnd Hl. change 10%nat with (length (seqZ 1 10)). apply submseteq_length, NoDup_submseteq; [done|].
  intros n Hn%Hl. apply elem_of_seqZ. lia.
Qed.

(** C13: the limiter lets at most ten submissions of a client through in a
    minute, and one more for each increment that fails, for then it does not
    limit; however many arrive, in whatever order their events interleave, and
    whatever other clients do with Redis.  It refuses none while no more than
    ten have arrived.  The client's counter of the minute is not there when the
    minute begins. *)
Theorem rate_limit_holds g0 ps g failures :
  in_minute (w_now (gw_sys g0)) -> key_at (w_now (gw_sys g0)) key (gw_redis g0) = None ->
  Z.of_nat (length ps) < 2 ^ 63 - 1 -> rtc limit_step ([], g0, 0%nat) (ps, g, failures) ->
  (length (filter (fun p => passed p = true) ps) <= 10 + failures)%nat /\
  ((length ps <= 10)%nat -> forall p, p ∈ ps -> refused p = false).
Proof.
  intros Hmin Hk Hlen Hr.
  destruct (inv_steps _ (ps, g, failures) Hlen Hr) as (_ & xs & n & Hf & (Hnd & Hrange & _ & Hn) & Hu & _).
  { split; [done|]. exists [], 0. split_and!; [constructor|split_and!; [constructor|set_solver|done|done]|done|by left]. }
  cbn [fst snd] in *. split.
  - etransitivity; [by apply passed_counts|]. rewrite Hu. apply Nat.add_le_mono_r.
    apply at_most_ten; [by apply NoDup_filter|].
    intros y [Hy Hin]%list_elem_of_filter. specialize (Hrange y Hin). lia.
  - intros Hl p Hp. apply not_true_iff_false. intros Ha.
    apply list_elem_of_lookup in Hp as [i Hi]. destruct (Forall2_lookup_l _ _ _ _ _ Hf Hi) as (x & Hxi & Hph).
    destruct (proj2 (answered_count _ _ Hph) Ha) as (y & -> & Hy).
    assert (Hin : y ∈ counts xs).
    { apply list_elem_of_omap. exists (Counted y). split; [by eapply list_elem_of_lookup_2|done]. }
    apply Hrange in Hin. apply Forall2_length in Hf. pose proof (phases_length xs). lia.
Qed.
End limit.
