(* ===== verification/GatewayIntents.v ===== *)
(** * Correctness of the gateway: submissions, from the request to the database *)
From S2P Require Import Prelude GoLib Sha256 Effects Sql Proto Float64 Json JsonFacts Http HttpFacts Redis Ledger.
From S2P Require Import IntentDb System SystemRules IntentStore Crypto IntentHandler IntentFacts Gateway GatewayFacts.

Section rules.
Context `{Postgres} `{NumericCodec} `{ProtoCodec} `{TimeText} `{Ed25519} `{Redis}.
Context (gw : Gateway) (lib : libraries).
Abbreviation wp := (wp gw_exec).

Lemma wp_sys {R} (p : proc sysE R) Q g :
  Effects.wp sys_exec p (fun r w => Q r (mk_gw w (gw_redis g))) (gw_sys g) -> wp (sys p) Q g.
Proof.
  apply (wp_proc_map (fun X e => Sys e) sys_exec gw_exec gw_sys (fun g w => mk_gw w (gw_redis g))).
  - intros X e o t. cbn. by destruct (sys_exec X e o (gw_sys t)).
  - done.
  - done.
  - by intros [].
Qed.

(** A call: it may fail on the way there, or on the way back. *)
Lemma wp_rpc {A} (serve : proc sysE (result grpc_status A)) Q g :
  (forall st, Q (Err st) g) ->
  Effects.wp sys_exec serve (fun r w =>
    (forall st, Q (Err st) (mk_gw w (gw_redis g))) /\ Q r (mk_gw w (gw_redis g))) (gw_sys g) ->
  wp (rpc serve) Q g.
Proof.
  intros He Hs o. cbn. destruct (rpc_outcome o) as [[]|st]; [|by apply He].
  assert (Hg : (gw_exec _ Dial o g).2 = g) by (by destruct g).
  apply wp_bind. apply wp_sys. eapply wp_mono; [|exact Hs].
  intros r w [Herr Hok] o'. cbn. by destruct (rpc_outcome o').
Qed.

Lemma wp_interceptor {A} code_name name (p : proc sysE (result grpc_status A)) Q w :
  Effects.wp sys_exec p (fun r w' => forall ms, Q r (mk_world (w_db w') (w_locks w') (w_nats w') (w_wallet w')
    (w_ledger w') (w_now w') (ms ++ w_metrics w'))) w ->
  Effects.wp sys_exec (metricsInterceptor code_name name p) Q w.
Proof.
  intros Hp. apply wp_now. apply wp_bind. eapply wp_mono; [|exact Hp]. intros r w' HQ.
  apply wp_now, wp_metric, wp_metric. cbn. apply (HQ [_; _]).
Qed.

(** What one submission does to the world, and when it succeeds. *)
Definition submission_effect (id ob : string) (req : SubmitIntentRequest.t) (w w' : world) : Prop :=
  authentic req /\ created (w_now w) id ob req (w_db w) (w_db w').

Lemma wp_submit_rpc id ob req Q g :
  (forall st g', w_now (gw_sys g') = w_now (gw_sys g) -> Q (Err st) g') ->
  (forall w', w_now w' = w_now (gw_sys g) -> submission_effect id ob req (gw_sys g) w' ->
     Q (Ok (SubmitIntentResponse.mk id INTENT_STATUS_PENDING (Some (w_now w')))) (mk_gw w' (gw_redis g))) ->
  wp (rpc (metricsInterceptor (code_name lib) "/intent.v1.IntentService/SubmitIntent"
             (SubmitIntent id ob req))) Q g.
Proof.
  intros He Hok. apply wp_rpc; [intros st; by apply He|]. apply wp_interceptor.
  destruct (submit_cases (E:=sysE) id ob req) as [[Ha ->]|(_ & st & -> & _)].
  - apply wp_bind. eapply wp_mono; [|apply wp_create]. intros r w' [Hw Hc] ms.
    destruct r as [i|e].
    + destruct Hc as [-> Hc]. split; [intros st; by apply He; rewrite Hw|].
      cbn [PostgresStore.intent_of_request Intent.Id Intent.Status Intent.CreatedAt].
      assert (Hn : w_now w' = w_now (gw_sys g)) by (by rewrite Hw).
      rewrite <-Hn. apply (Hok (mk_world _ _ _ _ _ (w_now w') _)); [done|].
      split; [done|]. exact Hc.
    + split; [intros st|]; by apply He; rewrite Hw.
  - intros ms. split; [intros st'|]; by apply He.
Qed.

(** ** Answers *)
Definition fresh (w : responseWriterDelegator) : Prop := rw_code (inner w) = None.
Definition code_of (w : responseWriterDelegator) : option Z := rw_code (inner w).

Lemma writeJSON_code code data w : fresh w -> code_of (writeJSON code data w) = Some code.
Proof.
  unfold fresh, code_of, writeJSON. intros Hw.
  destruct (encode_json data); destruct w as [[c h b] st]; cbn in *; by subst c.
Qed.
Lemma http_code_not_created c : http_code c <> StatusCreated.
Proof. unfold http_code. by repeat case_match. Qed.
Lemma grpc_error_code st w : fresh w -> code_of (handleGRPCError (StatusErr st) w) <> Some StatusCreated.
Proof.
  intros Hw. cbn [handleGRPCError]. unfold writeError. rewrite writeJSON_code by done.
  intros [= Hc]. by apply http_code_not_created in Hc.
Qed.

(** The answer of an accepted submission. *)
Definition accepted (now : Z) (id : string) : jv := submit_response (SubmitIntentResponse.mk id INTENT_STATUS_PENDING (Some now)).

(** A submission that was answered 201 had its effect. *)
Definition created_post (ids : string * string) (r : Request) (g : gw_world)
    (d : option responseWriterDelegator) (g' : gw_world) : Prop :=
  forall w, d = Some w -> code_of w = Some StatusCreated ->
    exists httpReq, SubmitIntentHTTPRequest.unmarshal (Body r) = Some httpReq /\
      submission_effect ids.1 ids.2
        (translate (HTTPIntentType.parseIntentType (SubmitIntentHTTPRequest.Type_ httpReq)) httpReq)
        (gw_sys g) (gw_sys g').

Lemma wp_forward id ob sg req w g Q :
  fresh w ->
  (forall d g', code_of d <> Some StatusCreated -> Q (Some d) g') ->
  (forall d g', submission_effect id ob req (gw_sys g) (gw_sys g') -> Q (Some d) g') ->
  wp (forward_intent lib id ob sg req w) Q g.
Proof.
  intros Hw Hno Hyes. unfold forward_intent. apply wp_bind. apply wp_submit_rpc.
  - intros st g' _. apply Hno. by apply grpc_error_code.
  - intros w' _ Heff. cbv zeta.
    destruct (encode_json _); [case_bool_decide|]; [by apply Hyes| |by apply Hyes].
    intros o. apply Hyes. cbn. by destruct o.
Qed.

Lemma wp_submitIntent ids r w g :
  fresh w -> wp (submitIntent lib ids r w) (created_post ids r g) g.
Proof.
  intros Hw.
  assert (Hno : forall d g', code_of d <> Some StatusCreated -> created_post ids r g (Some d) g').
  { intros d g' Hd d' [= <-] Hc. done. }
  assert (Herr : forall c m g', c <> StatusCreated -> created_post ids r g (Some (writeError c m w)) g').
  { intros c m g' Hc. apply Hno. unfold writeError. rewrite writeJSON_code by done. congruence. }
  unfold submitIntent. destruct (BodyErr r); [by apply Herr|].
  destruct (SubmitIntentHTTPRequest.unmarshal (Body r)) as [q|] eqn:Hq; [|by apply Herr].
  cbv zeta. case_match; [by apply Herr|].
  assert (Hf : forall sg, wp (forward_intent lib ids.1 ids.2 sg
     (translate (HTTPIntentType.parseIntentType (SubmitIntentHTTPRequest.Type_ q)) q) w) (created_post ids r g) g).
  { intros sg. apply wp_forward; [done..|]. intros d g' Heff w' _ _. by exists q. }
  case_bool_decide; [apply Hf|]. intros o.
  assert (Hg : (gw_exec _ (RedisGet (idempotency_key (SubmitIntentHTTPRequest.Signature q))) o g).2 = g) by done.
  rewrite Hg. destruct (gw_exec _ _ o g).1 as [[|c s]|]; [apply Hf| |apply Hf].
  apply Hno. unfold cache_hit, code_of, fresh in *. destruct w as [[c0 h b] st]. cbn in *. by subst c0.
Qed.

(** ** Through the middleware *)
Lemma wp_limiter next r w Q g :
  (forall g' w', gw_sys g' = gw_sys g -> code_of w' = code_of w -> wp (next r w') Q g') ->
  (forall g' d, fresh w -> code_of d = Some StatusTooManyRequests -> Q (Some d) g') -> fresh w ->
  wp (rateLimitMiddleware gw next r w) Q g.
Proof.
  intros Hn Hr Hw. unfold rateLimitMiddleware. case_bool_decide; [by apply Hn|]. case_match; [|by apply Hn].
  intros o. cbv zeta.
  assert (Hc : forall n g', gw_sys g' = gw_sys g -> wp (limit_count next n r w) Q g').
  { intros n g' Hg'. unfold limit_count. cbv zeta.
    assert (Hh : code_of (rate_headers n w) = code_of w).
    { unfold code_of, rate_headers, fresh in *. destruct w as [[c h b] s]. cbn in *. by subst c. }
    case_match; [|by apply Hn].
    apply Hr; [done|]. unfold writeError. rewrite writeJSON_code; [done|].
    unfold fresh, code_of in *. destruct (rate_headers n w) as [[c h b] s]. cbn in *. rewrite Hw in Hh. by subst c. }
  intros o'. set (g2 := (gw_exec _ (RedisIncr _) o' _).2).
  assert (Hg2 : gw_sys g2 = gw_sys g).
  { unfold g2. cbn. destruct (redis_INCR _ _ _). by destruct o'. }
  destruct (gw_exec _ (RedisIncr _) o' _).1 as [n|e]; [|by apply Hn].
  unfold limit_result. case_match; [|by apply Hc]. intros o3. apply Hc. by destruct o3; cbn.
Qed.

Lemma wp_auth next r w Q g :
  auth_exempt (Path r) = false -> fresh w ->
  (forall r', authorized gw lib (w_now (gw_sys g)) r = true -> Body r' = Body r -> BodyErr r' = BodyErr r ->
     Method r' = Method r -> Path r' = Path r -> EscapedPath r' = EscapedPath r -> wp (next r' w) Q g) ->
  (forall d, code_of d = Some StatusUnauthorized -> Q (Some d) g) ->
  wp (authMiddleware gw lib next r w) Q g.
Proof.
  intros Hex Hw Hn Hr. unfold authMiddleware. rewrite Hex. unfold authorized in Hn.
  set (h := header_get r "Authorization") in *.
  assert (He : forall m, Q (Some (writeError StatusUnauthorized m w)) g).
  { intros m. apply Hr. unfold writeError. by rewrite writeJSON_code. }
  destruct (bool_decide (h = "")); [apply He|]. destruct (has_prefix h "Bearer "); [|apply He].
  cbn [negb orb andb] in *. apply wp_bind. unfold validateJWT.
  destruct (token_claims gw lib (trim_prefix h "Bearer ")) as [c|e]; [|apply He].
  intros o. cbn [gw_exec sys_exec fst snd].
  assert (Hg : mk_gw (gw_sys g) (gw_redis g) = g) by (by destruct g). rewrite Hg, Z.leb_antisym in *.
  destruct (JWTClaims.Exp c <? unix (w_now (gw_sys g))); cbn [negb Effects.wp] in *; [apply He|]. by apply Hn.
Qed.

Lemma wp_logging next r w Q g :
  wp (next r (mk_delegator w StatusOK)) (fun d g' => match d with
    | None => Q None g'
    | Some d => forall ms, Q (Some (inner d)) (with_metrics ms g')
    end) g ->
  wp (loggingMiddleware next r w) Q g.
Proof.
  intros Hn. unfold loggingMiddleware. intros o. cbn.
  assert (Hg : mk_gw (gw_sys g) (gw_redis g) = g) by (by destruct g). rewrite Hg. apply wp_bind.
  eapply wp_mono; [|exact Hn]. intros [d|] g' HQ; [|exact HQ]. intros o'. cbn.
  destruct (negb _ && negb _).
  - intros o1 o2. apply (HQ [_; _]).
  - assert (Hg' : mk_gw (gw_sys g') (gw_redis g') = with_metrics [] g') by (by destruct g' as [[] ?]).
    cbn. rewrite Hg'. apply HQ.
Qed.

(** POST /intents, as a client sends it. *)
Definition post_intents (r : Request) : Prop :=
  Method r = MethodPost /\ Path r = "/intents"%string /\ EscapedPath r = "/intents"%string.

Lemma mux_intents metrics ids r w :
  post_intents r -> mux gw lib metrics ids r w = submitIntent lib ids r w.
Proof.
  intros (Hm & _ & He). unfold mux, mux_route. rewrite Hm, He.
  change (bool_decide (MethodPost = "CONNECT")) with false. cbv iota.
  change (clean_path "/intents") with "/intents"%string.
  change (mux_match (routes gw lib metrics ids) "/intents") with (Some (handleIntents lib ids)).
  rewrite bool_decide_eq_false_2, bool_decide_eq_true_2 by done. cbv iota beta.
  unfold handleIntents. by rewrite Hm.
Qed.

(** What a 201 to POST /intents implies. *)
Definition stored_post (ids : string * string) (r : Request) (g : gw_world)
    (d : option ResponseWriter) (g' : gw_world) : Prop :=
  forall w, d = Some w -> rw_status w = StatusCreated ->
    authorized gw lib (w_now (gw_sys g)) r = true /\
    exists httpReq, SubmitIntentHTTPRequest.unmarshal (Body r) = Some httpReq /\
      submission_effect ids.1 ids.2
        (translate (HTTPIntentType.parseIntentType (SubmitIntentHTTPRequest.Type_ httpReq)) httpReq)
        (gw_sys g) (gw_sys g').

Lemma wp_post_intents metrics ids r g :
  post_intents r -> wp (serve_http gw lib metrics ids r new_response) (stored_post ids r g) g.
Proof.
  intros Hr. destruct Hr as (Hm & Hp & He).
  assert (Hother : forall c d ms g', code_of d = Some c -> c <> StatusCreated ->
    stored_post ids r g (Some (inner d)) (with_metrics ms g')).
  { intros c d ms g' Hc Hne w' [= <-] Hst. unfold rw_status, code_of in *. rewrite Hc in Hst. by cbn in Hst. }
  unfold serve_http. apply wp_logging. apply wp_auth; [by rewrite Hp|done| |].
  - intros r' Hauth Hb Hbe Hm' Hp' He'. apply wp_limiter; [| |done].
    + intros g1 w1 Hg1 Hw1. rewrite mux_intents by (split_and!; congruence).
      eapply wp_mono; [|by apply wp_submitIntent]. intros [d|] g2 Hpost; [|done].
      intros ms w' [= <-] Hst. unfold rw_status, code_of in *. split; [done|].
      assert (Hc : rw_code (inner d) = Some StatusCreated).
      { destruct (rw_code (inner d)); cbn in Hst; [by subst|done]. }
      destruct (Hpost d eq_refl Hc) as (q & Hq & Heff). rewrite Hb in Hq. exists q. split; [done|].
      rewrite Hg1 in Heff. exact Heff.
    + intros g' d _ Hc ms. by eapply Hother.
  - intros d Hc ms. by eapply Hother.
Qed.

(** C2: 201 means stored.  Whatever fails on the way, when the gateway answers
    POST /intents with 201 the request carried a valid token, its ed25519
    signature verified over the type, submitter and payload of its JSON body, and
    the database has gained exactly the PENDING intent of that body, under the
    identifier the service drew, together with its outbox event. *)
Theorem created_means_stored metrics ids r sched g w :
  post_intents r ->
  run_result gw_exec (serve_http gw lib metrics ids r new_response) sched g = Some w ->
  rw_status w = StatusCreated ->
  authorized gw lib (w_now (gw_sys g)) r = true /\
  exists httpReq, SubmitIntentHTTPRequest.unmarshal (Body r) = Some httpReq /\
    submission_effect ids.1 ids.2
      (translate (HTTPIntentType.parseIntentType (SubmitIntentHTTPRequest.Type_ httpReq)) httpReq)
      (gw_sys g) (gw_sys (run_state gw_exec (serve_http gw lib metrics ids r new_response) sched g)).
Proof.
  intros Hr Hres Hst. exact (wp_run gw_exec _ _ g sched (wp_post_intents metrics ids r g Hr) w Hres Hst).
Qed.

(** ** The idempotency cache *)
Lemma run_sys {R} (p : proc sysE R) sched g :
  run gw_exec (sys p) sched g
  = (run_result sys_exec p sched (gw_sys g), mk_gw (run_state sys_exec p sched (gw_sys g)) (gw_redis g),
     (run sys_exec p sched (gw_sys g)).2).
Proof.
  unfold run_result, run_state, sys. revert sched g; induction p as [r|X e k IH]; intros sched g; cbn.
  - by destruct g.
  - destruct (sys_exec X e (hd Done sched) (gw_sys g)) as [x w] eqn:Hx. by rewrite IH.
Qed.

Lemma run_rpc {A} (serve : proc sysE (result grpc_status A)) g :
  run gw_exec (rpc serve) [] g
  = (run_result sys_exec serve [] (gw_sys g), mk_gw (run_state sys_exec serve [] (gw_sys g)) (gw_redis g), []).
Proof.
  unfold rpc. cbn. unfold mbind, proc_mbind. rewrite run_bind, run_sys, run_nil. cbn. done.
Qed.

Definition response_text (resp : SubmitIntentResponse.t) : string :=
  print_object [("created_at", SStr (format_rfc3339 (default 0 (SubmitIntentResponse.CreatedAt resp))));
                ("intent_id", SStr (SubmitIntentResponse.IntentId resp));
                ("status", SStr (IntentStatus_String (SubmitIntentResponse.Status resp)))]%string.
Lemma submit_response_text resp : encode_json (submit_response resp) = Some (response_text resp).
Proof. apply (encode_flat [(_, _); (_, _); (_, _)]). Qed.

Lemma response_text_head resp : exists s, response_text resp = String (Zbyte 123) s.
Proof. eexists. reflexivity. Qed.

Definition start : responseWriterDelegator := mk_delegator new_response StatusOK.

(** Both handlers of a submission begin with the same checks. *)
Lemma submit_checked ids r q :
  BodyErr r = None -> SubmitIntentHTTPRequest.unmarshal (Body r) = Some q ->
  SubmitIntentHTTPRequest.Signature q <> ""%string ->
  HTTPIntentType.parseIntentType (SubmitIntentHTTPRequest.Type_ q) <> INTENT_TYPE_UNSPECIFIED ->
  let sg := SubmitIntentHTTPRequest.Signature q in
  submitIntent lib ids r start
  = Vis (RedisGet (idempotency_key sg)) (fun cached =>
      match cached with
      | Some (String _ _ as cachedResp) => respond (cache_hit cachedResp start)
      | _ => forward_intent lib ids.1 ids.2 sg
               (translate (HTTPIntentType.parseIntentType (SubmitIntentHTTPRequest.Type_ q)) q) start
      end).
Proof.
  intros Hb Hq Hsg Hty. unfold submitIntent. rewrite Hb, Hq. cbv zeta.
  rewrite (proj2 (Z.eqb_neq _ _) Hty), bool_decide_eq_false_2 by done. done.
Qed.

(** An accepted submission leaves its answer in the cache for a day. *)
Lemma forward_caches id ob sg req g d :
  sg <> ""%string ->
  run_result gw_exec (forward_intent lib id ob sg req start) [] g = Some d -> code_of d = Some StatusCreated ->
  let g' := run_state gw_exec (forward_intent lib id ob sg req start) [] g in
  exists resp, rw_body (inner d) = (response_text resp +:+ newline)%string /\
    key_at (w_now (gw_sys g')) (idempotency_key sg) (gw_redis g')
    = Some (response_text resp, Some (w_now (gw_sys g') + day)).
Proof.
  intros Hsg. unfold forward_intent, run_result, run_state, mbind, proc_mbind. rewrite run_bind, run_rpc.
  destruct (run_result sys_exec _ [] (gw_sys g)) as [resp|st].
  - cbv zeta. rewrite submit_response_text, bool_decide_eq_false_2 by done.
    cbn [run hd tl gw_exec respond fst snd gw_sys gw_redis]. intros Hd _. apply (inj Some) in Hd as <-.
    exists resp. split.
    + unfold writeJSON. rewrite submit_response_text. reflexivity.
    + rewrite SET_at by done. by rewrite decide_True.
  - cbn [run respond fst snd]. intros Hd Hc. apply (inj Some) in Hd as <-. by apply grpc_error_code in Hc.
Qed.

(** C25: a submission whose signature text was accepted within the last day is
    answered from the cache.  The first submission, with a signature that is not
    empty, was answered 201 without a failure, so its answer was cached.  A later
    one has a readable body, a type the gateway knows and the same signature; it
    arrives within a day, its GET of the cache succeeds, and the entry is the one
    the first left.  Then, whoever sends it, with whatever payload, submitter and
    key and whatever fails after the GET, the answer is the first one with status
    200 and X-Cache HIT, no service is called and nothing changes. *)
Theorem resubmission_hits_cache ids r q g d :
  BodyErr r = None -> SubmitIntentHTTPRequest.unmarshal (Body r) = Some q ->
  SubmitIntentHTTPRequest.Signature q <> ""%string ->
  run_result gw_exec (submitIntent lib ids r start) [] g = Some d -> code_of d = Some StatusCreated ->
  let g' := run_state gw_exec (submitIntent lib ids r start) [] g in
  let k := idempotency_key (SubmitIntentHTTPRequest.Signature q) in
  forall ids2 r2 q2 sched g2,
    BodyErr r2 = None -> SubmitIntentHTTPRequest.unmarshal (Body r2) = Some q2 ->
    HTTPIntentType.parseIntentType (SubmitIntentHTTPRequest.Type_ q2) <> INTENT_TYPE_UNSPECIFIED ->
    SubmitIntentHTTPRequest.Signature q2 = SubmitIntentHTTPRequest.Signature q ->
    w_now (gw_sys g') <= w_now (gw_sys g2) < w_now (gw_sys g') + day ->
    key_at (w_now (gw_sys g2)) k (gw_redis g2) = key_at (w_now (gw_sys g2)) k (gw_redis g') ->
    exists d2, run_result gw_exec (submitIntent lib ids2 r2 start) (Done :: sched) g2 = Some d2 /\
      run_state gw_exec (submitIntent lib ids2 r2 start) (Done :: sched) g2 = g2 /\
      code_of d2 = Some StatusOK /\ rw_header (inner d2) !! "X-Cache"%string = Some "HIT"%string /\
      (rw_body (inner d2) +:+ newline)%string = rw_body (inner d).
Proof.
  intros Hb Hq Hsg Hres Hc g' k ids2 r2 q2 sched g2 Hb2 Hq2 Hty2 Hsg2 Ht Hk.
  assert (Hty : HTTPIntentType.parseIntentType (SubmitIntentHTTPRequest.Type_ q) <> INTENT_TYPE_UNSPECIFIED).
  { intros Hty. unfold submitIntent in Hres. rewrite Hb, Hq, Hty in Hres. cbv zeta in Hres.
    rewrite Z.eqb_refl in Hres. unfold respond, run_result in Hres. cbn [run fst] in Hres. injection Hres as <-. revert Hc. unfold writeError. rewrite writeJSON_code by done. done. }
  assert (Hcached : exists resp, rw_body (inner d) = (response_text resp +:+ newline)%string /\
    key_at (w_now (gw_sys g')) k (gw_redis g') = Some (response_text resp, Some (w_now (gw_sys g') + day))).
  { unfold g' in *. clear g' Ht Hk. revert Hres. rewrite (submit_checked ids r q Hb Hq Hsg Hty). cbv zeta.
    unfold run_result, run_state. cbn [run hd gw_exec]. fold k.
    destruct (fst <$> key_at _ k _) as [[|c s]|].
    - intros Hres. by apply forward_caches.
    - cbn [run respond fst snd]. intros Hres. apply (inj Some) in Hres as <-. discriminate Hc.
    - intros Hres. by apply forward_caches. }
  destruct Hcached as (resp & Hbody & Hkey).
  rewrite (key_at_later _ _ k (gw_redis g') (proj1 Ht)), Hkey in Hk. cbn [alive] in Hk.
  rewrite (proj2 (Z.ltb_lt _ _) (proj2 Ht)) in Hk.
  rewrite (submit_checked ids2 r2 q2 Hb2 Hq2) by (exact Hty2 || by rewrite Hsg2). cbv zeta. rewrite Hsg2. fold k.
  unfold run_result, run_state. cbn [run hd tl gw_exec]. rewrite Hk. cbn [fmap option_fmap option_map fst].
  destruct (response_text_head resp) as [s Hs]. rewrite Hs in Hbody |- *. cbn [run fst snd].
  eexists. split; [reflexivity|]. split; [reflexivity|]. split; [reflexivity|]. split; [reflexivity|].
  rewrite Hbody. reflexivity.
Qed.
End rules.
