(* ===== verification/ListFacts.v ===== *)
(** * Pagination of the two stores

    A client that follows page tokens until the empty one sees every matching
    intent exactly once: always on the in-memory store, on PostgreSQL when no
    two matching rows share a creation time; with equal times at a page
    boundary the keyset cursor skips rows. *)
From stdpp Require Import sorting.
From S2P Require Import Prelude GoLib Effects Sql Proto Float64 IntentDb System SystemRules.
From S2P Require Import Float64Facts Wallet IntentStore Crypto IntentHandler Concrete.

(** ** A client that follows the tokens *)
Section follow.
Context {A : Type} (page : string -> option (list A * string * Z)).

Fixpoint follow (fuel : nat) (token : string) : option (list A) :=
  match fuel with
  | O => None
  | S fuel' =>
      '(rs, next, _) ← page token;
      if bool_decide (next = ""%string) then Some rs
      else rest ← follow fuel' next; Some (rs ++ rest)
  end.

(** [tok_at token k]: the token stands before position [k] of [all]. *)
Lemma follow_complete (all : list A) (size : nat) (tok_at : string -> nat -> Prop) :
  (0 < size)%nat ->
  (forall token k, tok_at token k -> exists next total,
     page token = Some (take size (drop k all), next, total) /\
     ((next = "" /\ (length all <= k + size)%nat) \/
      (next <> "" /\ (k + size <= length all)%nat /\ tok_at next (k + size)%nat))) ->
  forall fuel token k, tok_at token k -> (k <= length all < k + fuel)%nat ->
    follow fuel token = Some (drop k all).
Proof.
  intros Hs Hpage. induction fuel as [|fuel IH]; intros token k Ht Hf; [lia|].
  - destruct (Hpage _ _ Ht) as (next & total & Hp & Hn). cbn. rewrite Hp. cbn.
    destruct Hn as [[-> Hl]|(Hne & Hl & Hn)].
    + rewrite bool_decide_true by done. f_equal. apply take_ge. rewrite length_drop. lia.
    + rewrite bool_decide_false by done. rewrite (IH _ _ Hn) by lia. cbn.
      by rewrite <-drop_drop, take_drop.
Qed.
End follow.

(** ** The in-memory store *)
Module MemoryList.
Import MemoryStore.

(** Every listed id has its intent: what NewMemoryStore and Create maintain. *)
Definition wf (m : t) : Prop := Forall (fun id => is_Some (intents m !! id)) (ordered m).

Lemma wf_new : wf NewMemoryStore.
Proof. constructor. Qed.
Lemma wf_create now id req m : wf m -> wf (Create now id req m).2.
Proof.
  intros Hm. apply Forall_app. split.
  - eapply Forall_impl; [exact Hm|]. intros k [i Hk]. cbn. rewrite lookup_insert. case_decide; eauto.
  - constructor; [|constructor]. cbn. rewrite lookup_insert_eq. eauto.
Qed.

(** The intents in insertion order, and those the filters keep. *)
Definition listed (m : t) : list Intent.t := omap (fun id => intents m !! id) (ordered m).
Definition matches (st : IntentStatus) (sub : string) (m : t) : list Intent.t :=
  List.filter (wants st sub) (listed m).

Lemma scan_spec wanted start size m ids rs seen (prev : list Intent.t) :
  0 <= start -> 0 < size ->
  Forall (fun id => is_Some (m !! id)) ids ->
  seen = Z.of_nat (length prev) ->
  rs = take (Z.to_nat size) (drop (Z.to_nat start) prev) ->
  let all := prev ++ List.filter wanted (omap (fun id => m !! id) ids) in
  scan wanted start size m ids rs seen
  = Some (take (Z.to_nat size) (drop (Z.to_nat start) all), Z.of_nat (length all)).
Proof.
  intros Hs Hz Hids. revert rs seen prev. induction Hids as [|id ids [i Hi] _ IH]; intros rs seen prev -> ->.
  - cbn. by rewrite app_nil_r.
  - cbn. rewrite Hi. cbn. destruct (wanted i) eqn:Hw; cbn; [|exact (IH _ _ prev eq_refl eq_refl)].
    set (more := List.filter wanted _).
    assert (prev ++ i :: more = (prev ++ [i]) ++ more) as -> by (by rewrite <-app_assoc).
    pose proof (fun rs seen => IH rs seen (prev ++ [i])) as IH'.
    assert (Hlen : Z.of_nat (length prev) + 1 = Z.of_nat (length (prev ++ [i]))) by (rewrite length_app; cbn; lia).
    rewrite Hlen. case_match eqn:H1; [apply Z.leb_le in H1|apply Z.leb_gt in H1].
    { apply IH'; [done|]. rewrite !drop_ge by (rewrite ?length_app in *; cbn in *; lia). done. }
    rewrite length_app in H1. cbn in H1.
    rewrite length_take, length_drop. case_match eqn:H2; [apply Z.ltb_lt in H2|apply Z.ltb_ge in H2];
      apply IH'; try done; rewrite drop_app_le by lia.
    + rewrite !take_ge; rewrite ?length_app, ?length_drop; cbn; try done; lia.
    + rewrite take_app_le; [done|]. rewrite length_drop. lia.
Qed.

Lemma list_spec st sub size token m k :
  wf m -> 0 < size ->
  (token = "" /\ k = 0%nat \/ sscanf_d token = Some (Z.of_nat k) /\ token <> "") ->
  let all := matches st sub m in
  let next := (k + length (take (Z.to_nat size) (drop k all)))%nat in
  List st sub size token m
  = Some (take (Z.to_nat size) (drop k all),
          if (next <? length all)%nat then itoa (Z.of_nat next) else ""%string,
          Z.of_nat (length all)).
Proof.
  intros Hm Hs Ht all next. unfold List.
  rewrite (proj2 (Z.leb_gt size 0)) by done.
  assert (Hstart : (if bool_decide (token = "") then 0 else default 0 (sscanf_d token)) = Z.of_nat k).
  { destruct Ht as [[-> ->]|[Ht Hne]]; [done|]. rewrite bool_decide_false by done. by rewrite Ht. }
  rewrite Hstart. rewrite (scan_spec _ _ _ _ _ _ _ []); try done; [|lia|by rewrite drop_nil, take_nil].
  cbn [app mbind option_bind]. rewrite Nat2Z.id. fold (listed m). fold (matches st sub m). fold all.
  repeat f_equal. unfold next. rewrite Nat2Z.inj_add.
  destruct (Z.ltb_spec (Z.of_nat k + Z.of_nat (length (take (Z.to_nat size) (drop k all)))) (Z.of_nat (length all)));
    destruct (Nat.ltb_spec (k + length (take (Z.to_nat size) (drop k all))) (length all)); try lia; done.
Qed.

(** Following the tokens of the in-memory store from the first page lists
    every matching intent exactly once, in the order of creation, whatever the
    page size and filters; one request more than there are matches is enough. *)
Theorem memory_pages_complete st sub size m :
  wf m -> 0 < size -> Z.of_nat (length (matches st sub m)) < 2 ^ 63 ->
  follow (fun token => List st sub size token m) (S (length (matches st sub m))) ""
  = Some (matches st sub m).
Proof.
  intros Hm Hs Hlen. set (all := matches st sub m) in *.
  refine (follow_complete _ all (Z.to_nat size) (fun token k =>
    (k <= length all)%nat /\ (token = "" /\ k = 0%nat \/ sscanf_d token = Some (Z.of_nat k) /\ token <> ""%string))
    _ _ (S (length all)) "" 0%nat _ _);
    [lia| |split; [lia|by left]|lia].
  intros token k [Hk Ht]. rewrite (list_spec st sub size token m k Hm Hs Ht). fold all.
  eexists _, _. split; [done|]. rewrite length_take, length_drop.
  destruct (Nat.ltb_spec (k + (Z.to_nat size `min` (length all - k))) (length all)); [right|left; split; [done|lia]].
  rewrite Nat.min_l by lia. split; [by apply itoa_nonempty; lia|]. split; [lia|]. split; [lia|]. right.
  split; [apply sscanf_d_itoa; lia|apply itoa_nonempty; lia].
Qed.

(** Two stored intents, pages of one. *)
Definition two_intents : t :=
  let req := SubmitIntentRequest.mk INTENT_TYPE_QUERY "q" None "alice" "s" "p" in
  (Create 2 "id-b" req (Create 1 "id-a" req NewMemoryStore).2).2.
Lemma memory_pages_complete_witness :
  follow (fun token => List 0 "alice" 1 token two_intents) 3 "" = Some (matches 0 "alice" two_intents) /\
  map Intent.Id (matches 0 "alice" two_intents) = ["id-a"; "id-b"]%string.
Proof.
  split; [|reflexivity]. apply (memory_pages_complete 0 "alice" 1 two_intents).
  - apply wf_create, wf_create, wf_new.
  - lia.
  - vm_compute. reflexivity.
Defined.
End MemoryList.

(** ** The PostgreSQL store *)
Section postgres_list.
Context `{Postgres} `{NumericCodec} `{ProtoCodec} `{TimeText}.

(** All rows the two filters keep, in the order of the query. *)
Definition listed_rows (st : IntentStatus) (sub : string) (d : intent_db) : list (string * intent_row) :=
  order_intents (matching (PostgresStore.list_filter st sub None) d).
Definition created_at (kr : string * intent_row) : Z := ir_created_at kr.2.
Definition shown (kr : string * intent_row) : Intent.t := PostgresStore.intent_of_row kr.1 kr.2.

(** The tables hold times as TIMESTAMPTZ, in the years 1 to 9999, none of them
    the zero time. *)
Definition times_ok (d : intent_db) : Prop :=
  forall k r, intents d !! k = Some r -> ts_in (ir_created_at r) = ir_created_at r /\ ir_created_at r <> zero_time /\ rfc3339_time (ir_created_at r).

Definition pg_page st sub size (w : world) (token : string) : option (list Intent.t * string * Z) :=
  match run_result sys_exec (PostgresStore.List st sub size token) [] w with
  | Ok p => Some p
  | Err _ => None
  end.

Lemma strictly_sorted_perm_eq {A} (f : A -> Z) (l1 l2 : list A) :
  l1 ≡ₚ l2 -> NoDup (f <$> l1) ->
  StronglySorted (fun a b => f b <= f a) l1 -> StronglySorted (fun a b => f b <= f a) l2 -> l1 = l2.
Proof.
  revert l2; induction l1 as [|x l1 IH]; intros l2 Hp Hnd Hs1 Hs2.
  - by apply Permutation_nil in Hp.
  - destruct l2 as [|y l2]; [by apply Permutation_length in Hp|].
    apply StronglySorted_inv in Hs1 as [Hs1 Hx]. apply StronglySorted_inv in Hs2 as [Hs2 Hy].
    assert (x = y) as ->.
    { assert (Hxin : x ∈ y :: l2) by (rewrite <-Hp; left).
      assert (Hyin : y ∈ x :: l1) by (rewrite Hp; left).
      apply elem_of_cons in Hxin as [->|Hxin]; [done|].
      apply elem_of_cons in Hyin as [->|Hyin]; [done|].
      rewrite Forall_forall in Hx, Hy. apply Hx in Hyin as Hle1. apply Hy in Hxin as Hle2.
      apply NoDup_cons in Hnd as [Hni _]. exfalso. apply Hni.
      apply list_elem_of_fmap. exists y. split; [lia|done]. }
    f_equal. apply IH; try done.
    + by apply Permutation_cons_inv in Hp.
    + by apply NoDup_cons in Hnd as [_ Hnd].
Qed.

Lemma filter_perm {A} (f : A -> bool) l1 l2 : l1 ≡ₚ l2 -> List.filter f l1 ≡ₚ List.filter f l2.
Proof.
  induction 1; cbn; repeat case_match; try done; eauto using Permutation.
Qed.

Lemma filter_sorted {A} (R : A -> A -> Prop) f l :
  StronglySorted R l -> StronglySorted R (List.filter f l).
Proof.
  induction 1 as [|x l Hs IH Hx]; cbn; [constructor|]. destruct (f x); [|done]. constructor; [done|].
  rewrite Forall_forall in Hx |- *. intros y Hy. apply Hx.
  apply list_elem_of_In, filter_In in Hy as [Hy _]. by apply list_elem_of_In.
Qed.

(** The rows older than the [k]-th are the ones after it. *)
Lemma older_is_drop (l : list (string * intent_row)) k kr :
  NoDup (created_at <$> l) -> StronglySorted newest_first l -> l !! k = Some kr ->
  List.filter (fun x => created_at x <? created_at kr) l = drop (S k) l.
Proof.
  revert k; induction l as [|x l IH]; intros k Hnd Hs Hk; [done|].
  apply StronglySorted_inv in Hs as [Hs Hx]. apply NoDup_cons in Hnd as [Hni Hnd].
  rewrite Forall_forall in Hx. destruct k as [|k]; cbn in Hk |- *.
  - injection Hk as ->. rewrite Z.ltb_irrefl, drop_0. clear IH Hs.
    assert (Hall : forall y, y ∈ l -> created_at y < created_at kr).
    { intros y Hy. pose proof (Hx y Hy) as Hle. unfold newest_first in Hle. fold (created_at y) in Hle.
      fold (created_at kr) in Hle. assert (created_at y <> created_at kr); [|lia].
      intros Heq. apply Hni. apply list_elem_of_fmap. by exists y. }
    clear -Hall. induction l as [|y l IH]; [done|]. cbn.
    rewrite (proj2 (Z.ltb_lt _ _)) by (apply Hall; left). f_equal. apply IH. intros z Hz. apply Hall. by right.
  - rewrite (IH k) by done. assert (created_at kr <= created_at x) as Hle.
    { apply (Hx kr). by eapply list_elem_of_lookup_2. }
    by rewrite (proj2 (Z.ltb_ge _ _)) by lia.
Qed.

Lemma matching_before st sub t d :
  ts_in t = t ->
  matching (PostgresStore.list_filter st sub (Some t)) d
  = List.filter (fun x => created_at x <? t) (matching (PostgresStore.list_filter st sub None) d).
Proof.
  intros Ht. unfold matching. induction (map_to_list (intents d)) as [|x l IH]; [done|]. cbn [List.filter].
  assert (filter_ok (PostgresStore.list_filter st sub (Some t)) x
          = filter_ok (PostgresStore.list_filter st sub None) x && (created_at x <? t)) as ->.
  { unfold filter_ok. cbn. by rewrite Ht, andb_true_r. }
  destruct (filter_ok _ x); cbn; [|done]. by rewrite IH.
Qed.

Lemma created_nodup_perm (l1 l2 : list (string * intent_row)) :
  l1 ≡ₚ l2 -> NoDup (created_at <$> l1) -> NoDup (created_at <$> l2).
Proof. by intros ->. Qed.

Section distinct_times.
Context (st : IntentStatus) (sub : string) (w : world).
Abbreviation all := (listed_rows st sub (w_db w)).
Context (Hnd : NoDup (created_at <$> all)) (Htimes : times_ok (w_db w)).

Lemma listed_times kr : kr ∈ all -> ts_in (created_at kr) = created_at kr /\ created_at kr <> zero_time /\
  rfc3339_time (created_at kr).
Proof.
  unfold listed_rows. rewrite order_intents_perm. intros [Hin _]%list_elem_of_In%filter_In.
  destruct kr as [k r]. apply list_elem_of_In, elem_of_map_to_list in Hin. by apply (Htimes k).
Qed.

Lemma rows_before k kr :
  all !! k = Some kr ->
  order_intents (matching (PostgresStore.list_filter st sub (Some (created_at kr))) (w_db w)) = drop (S k) all.
Proof.
  intros Hk. assert (Hin : kr ∈ all) by (by eapply list_elem_of_lookup_2).
  rewrite matching_before by (by apply listed_times).
  rewrite <-(older_is_drop all k kr Hnd (order_intents_sorted _) Hk).
  assert (Hsub : NoDup (created_at <$> List.filter (fun x => created_at x <? created_at kr) all)).
  { rewrite (older_is_drop all k kr Hnd (order_intents_sorted _) Hk).
    rewrite <-(take_drop (S k) all) in Hnd. rewrite fmap_app in Hnd. by apply NoDup_app in Hnd as (_ & _ & Hnd). }
  symmetry. apply (strictly_sorted_perm_eq created_at).
  - rewrite order_intents_perm. apply filter_perm. unfold listed_rows. apply order_intents_perm.
  - done.
  - apply filter_sorted, order_intents_sorted.
  - apply order_intents_sorted.
Qed.
End distinct_times.

Lemma pg_page_spec st sub size w token :
  0 < size ->
  let cursor := if bool_decide (token = "") then None else parse_rfc3339nano token in
  let rows := query_page (PostgresStore.list_filter st sub cursor) size (w_db w) in
  pg_page st sub size w token
  = Some (map shown rows, PostgresStore.next_token size rows,
          query_count (PostgresStore.list_filter st sub None) (w_db w)).
Proof.
  intros Hs. unfold pg_page, PostgresStore.List, run_result. rewrite (proj2 (Z.leb_gt size 0)) by done. done.
Qed.

(** C33: following the page tokens of the PostgreSQL store through an unchanged
    table lists every matching row exactly once, newest first, for every page
    size and filter, provided no two matching rows have the same creation
    time and the times are such as the token can carry. *)
Theorem postgres_pages_complete st sub size w :
  0 < size -> times_ok (w_db w) -> NoDup (created_at <$> listed_rows st sub (w_db w)) ->
  follow (pg_page st sub size w) (S (length (listed_rows st sub (w_db w)))) ""
  = Some (map shown (listed_rows st sub (w_db w))).
Proof.
  intros Hs Ht Hnd. set (all := listed_rows st sub (w_db w)).
  assert (Hlen : length (map shown all) = length all) by apply length_map.
  rewrite <-Hlen.
  refine (follow_complete _ (map shown all) (Z.to_nat size) (fun token k =>
    token = ""%string /\ k = 0%nat \/
    exists k' kr, k = S k' /\ all !! k' = Some kr /\ parse_rfc3339nano token = Some (created_at kr) /\ token <> ""%string)
    _ _ _ "" 0%nat _ _); [lia| |by left|lia].
  intros token k Htok. rewrite pg_page_spec by done. rewrite !length_map. cbv zeta.
  set (rows := query_page _ _ _).
  assert (Hrows : rows = take (Z.to_nat size) (drop k all)).
  { unfold rows, query_page. destruct Htok as [[-> ->]|(k' & kr & -> & Hk & Hp & Hne)].
    - rewrite bool_decide_true by done. by rewrite drop_0.
    - rewrite bool_decide_false by done. rewrite Hp. f_equal. by apply rows_before. }
  eexists _, _. split.
  { rewrite Hrows. by rewrite skipn_map, firstn_map. }
  clearbody rows. subst rows. unfold PostgresStore.next_token. rewrite last_lookup, length_take, length_drop.
  destruct (Z.eqb_spec (Z.of_nat (Z.to_nat size `min` (length all - k))) size) as [Hfull|Hpart]; cbn [andb];
    [|left; split; [done|lia]].
  right. rewrite Nat.min_l by lia. rewrite lookup_take_lt by lia. rewrite lookup_drop.
  destruct (lookup_lt_is_Some_2 all (k + pred (Z.to_nat size))) as [kr Hkr]; [lia|]. rewrite Hkr.
  destruct kr as [id r]. pose proof (listed_times st sub w Ht _ (list_elem_of_lookup_2 _ _ _ Hkr)) as (_ & Hz & Hy).
  unfold created_at in Hz. cbn in Hz. rewrite (proj2 (Z.eqb_neq _ _) Hz). cbn.
  split; [apply format_nonempty|]. split; [lia|]. right.
  exists (k + pred (Z.to_nat size))%nat, (id, r). split; [lia|]. split; [done|].
  split; [by apply parse_format|apply format_nonempty].
Qed.

(** Every page reached from a cursor holds older rows only. *)
Lemma follow_older st sub size w :
  0 < size -> times_ok (w_db w) -> forall fuel token t rs,
  token <> ""%string -> parse_rfc3339nano token = Some t -> ts_in t = t ->
  follow (pg_page st sub size w) fuel token = Some rs ->
  exists rows, rs = map shown rows /\ Forall (fun kr => created_at kr < t) rows.
Proof.
  intros Hs Ht. induction fuel as [|fuel IH]; intros token t rs Hne Hp Hc; cbn [follow]; [done|].
  rewrite pg_page_spec by done. cbv zeta. rewrite bool_decide_false by done. rewrite Hp.
  set (rows := query_page _ _ _).
  assert (Hrows : forall kr, kr ∈ rows -> created_at kr < t /\ ts_in (created_at kr) = created_at kr /\
    rfc3339_time (created_at kr)).
  { intros kr Hin. unfold rows, query_page in Hin.
    apply subseteq_take, list_elem_of_In in Hin. apply list_elem_of_In in Hin.
    rewrite order_intents_perm in Hin. rewrite matching_before in Hin by done.
    apply list_elem_of_In, filter_In in Hin as [Hin Hlt]. split; [by apply Z.ltb_lt|].
    apply filter_In in Hin as [Hin _]. destruct kr as [k r].
    apply list_elem_of_In, elem_of_map_to_list in Hin. by destruct (Ht k r Hin) as (? & _ & ?). }
  assert (Hall : Forall (fun kr => created_at kr < t) rows) by (apply Forall_forall; naive_solver).
  clearbody rows. cbn [mbind option_bind]. case_bool_decide as Hnext.
  { intros [= <-]. by exists rows. }
  unfold PostgresStore.next_token in Hnext |- *. case_match eqn:Hcond; [|done].
  destruct (last rows) as [[k r]|] eqn:Hlast; [|by rewrite andb_comm in Hcond].
  destruct (follow _ _ _) as [rest|] eqn:Hrest; [|done]. intros [= <-].
  assert (Hin : (k, r) ∈ rows) by (rewrite last_lookup in Hlast; by eapply list_elem_of_lookup_2).
  apply Hrows in Hin as (Hlt & Hts & Hy).
  destruct (IH _ (ir_created_at r) _ Hnext (parse_format _ Hy) Hts Hrest) as (rows2 & -> & Hall2).
  exists (rows ++ rows2). rewrite map_app. split; [done|]. apply Forall_app. split; [done|].
  eapply Forall_impl; [exact Hall2|]. intros kr Hkr. unfold created_at in *. cbn in *. lia.
Qed.

Lemma listed_rows_nodup st sub d : NoDup (listed_rows st sub d).
Proof.
  unfold listed_rows. rewrite order_intents_perm. unfold matching.
  apply NoDup_ListNoDup, List.NoDup_filter, NoDup_ListNoDup, NoDup_map_to_list.
Qed.

(** With equal creation times at a page boundary the keyset cursor loses
    rows.  If the last row of the first page and the row after it were created
    at the same microsecond, then no page that the tokens lead to shows the
    latter, although total_count counts it: the cursor condition is
    [created_at < token] without a tie-breaker. *)
Theorem postgres_pages_lose_ties st sub size w fuel kr kr' rs :
  0 < size -> times_ok (w_db w) ->
  listed_rows st sub (w_db w) !! pred (Z.to_nat size) = Some kr ->
  listed_rows st sub (w_db w) !! Z.to_nat size = Some kr' ->
  created_at kr' = created_at kr ->
  follow (pg_page st sub size w) fuel "" = Some rs ->
  exists rows, rs = map shown rows /\ kr' ∉ rows.
Proof.
  intros Hs Ht Hkr Hkr' Heq. set (all := listed_rows st sub (w_db w)) in *.
  destruct fuel as [|fuel]; [done|]. cbn [follow]. rewrite pg_page_spec by done. cbv zeta.
  rewrite bool_decide_true by done. unfold query_page. fold (listed_rows st sub (w_db w)). fold all.
  pose proof (lookup_lt_Some _ _ _ Hkr') as Hlt. cbn [mbind option_bind].
  assert (Hnotin : kr' ∉ take (Z.to_nat size) all).
  { intros (i & Hi)%list_elem_of_lookup_1. apply lookup_take_Some in Hi as [Hi Hi2].
    pose proof (NoDup_lookup _ _ _ _ (listed_rows_nodup st sub (w_db w)) Hi Hkr'). lia. }
  unfold PostgresStore.next_token. rewrite last_lookup, length_take.
  rewrite Nat.min_l by lia. rewrite lookup_take_lt, Hkr by lia. destruct kr as [k r].
  pose proof (listed_times st sub w Ht _ (list_elem_of_lookup_2 _ _ _ Hkr)) as (Hts & Hz & Hy).
  unfold created_at in Hts, Hz, Hy, Heq. cbn in Hts, Hz, Hy, Heq. rewrite Z2Nat.id by lia.
  rewrite Z.eqb_refl, (proj2 (Z.eqb_neq _ _) Hz). cbn [negb andb].
  rewrite bool_decide_false by apply format_nonempty.
  destruct (follow _ _ _) as [rest|] eqn:Hrest; [|done]. cbn. intros [= <-].
  destruct (follow_older st sub size w Hs Ht _ _ _ _ (format_nonempty _) (parse_format _ Hy) Hts Hrest)
    as (rows & -> & Hall).
  exists (take (Z.to_nat size) all ++ rows). rewrite map_app. split; [done|].
  rewrite elem_of_app. intros [Hin|Hin]; [done|]. rewrite Forall_forall in Hall. apply Hall in Hin.
  unfold created_at in Hin. lia.
Qed.
End postgres_list.

(** ** Three stored intents, two of them of the same microsecond *)
Section concrete_pages.
#[local] Existing Instance concrete_postgres.
#[local] Existing Instance concrete_codec.
#[local] Existing Instance concrete_time.
#[local] Existing Instance exact_codec.

Definition row_at (t : Z) : intent_row :=
  PostgresStore.row_of_request t (SubmitIntentRequest.mk INTENT_TYPE_QUERY "q" None "alice" "s" "p").
Definition uuid (c : string) : string := ("00000000-0000-4000-8000-00000000000" +:+ c)%string.
Definition world_of (d : intent_db) : world := mk_world d ∅ [] (mk_wallet_db ∅ []) None 0 [].
Definition pages_db (t : Z) : intent_db :=
  mk_intent_db (<[uuid "a" := row_at 1000]> (<[uuid "b" := row_at 2000]> (<[uuid "c" := row_at t]> ∅))) ∅.

Lemma pages_db_times t : ts_in t = t -> 0 <= t < 10 ^ 18 -> times_ok (pages_db t).
Proof.
  intros Ht Hz k r. unfold pages_db. cbn [intents]. rewrite !lookup_insert, lookup_empty.
  repeat case_decide; intros [= <-]; cbn; unfold zero_time, rfc3339_time; (split; [done|lia]).
Qed.

Lemma postgres_pages_complete_witness :
  follow (pg_page 0 "alice" 2 (world_of (pages_db 3000))) 4 ""
  = Some (map shown (listed_rows 0 "alice" (pages_db 3000))) /\
  map fst (listed_rows 0 "alice" (pages_db 3000)) = [uuid "c"; uuid "b"; uuid "a"].
Proof.
  split; [|vm_compute; reflexivity].
  replace 4%nat with (S (length (listed_rows 0 "alice" (pages_db 3000)))) by (vm_compute; reflexivity).
  apply (postgres_pages_complete 0 "alice" 2 (world_of (pages_db 3000))).
  - lia.
  - apply pages_db_times; [reflexivity|lia].
  - vm_compute. repeat constructor; set_solver.
Defined.

(** The second and third row are of the same microsecond: pages of two show two
    of the three. *)
Lemma postgres_pages_lose_ties_witness :
  query_count (PostgresStore.list_filter 0 "alice" None) (pages_db 1000) = 3 /\
  exists rs rows kr', follow (pg_page 0 "alice" 2 (world_of (pages_db 1000))) 3 "" = Some rs /\
    length rs = 2%nat /\ rs = map shown rows /\ kr' ∉ rows.
Proof.
  split; [vm_compute; reflexivity|].
  destruct (follow (pg_page 0 "alice" 2 (world_of (pages_db 1000))) 3 "") as [rs|] eqn:E;
    [|vm_compute in E; discriminate E].
  destruct (listed_rows 0 "alice" (pages_db 1000)) as [|r1 [|r2 [|r3 [|]]]] eqn:El;
    vm_compute in El; try discriminate El.
  destruct (postgres_pages_lose_ties 0 "alice" 2 (world_of (pages_db 1000)) 3 r2 r3 rs) as (rows & Hrs & Hni).
  - lia.
  - apply pages_db_times; [reflexivity|lia].
  - injection El as <- <- <-. vm_compute. reflexivity.
  - injection El as <- <- <-. vm_compute. reflexivity.
  - injection El as <- <- <-. vm_compute. reflexivity.
  - exact E.
  - exists rs, rows, r3. split_and!; [done| |done|done]. vm_compute in E. injection E as <-. reflexivity.
Defined.
End concrete_pages.
