(* ===== verification/Outbox.v ===== *)
(** * The transactional outbox: intent-service/outbox/worker.go *)
From stdpp Require Import sorting.
From S2P Require Import Prelude GoLib Effects Sql IntentDb System IntentStore.

Record OutboxEvent := mk_OutboxEvent {
  ID : string;
  Topic : string;
  Payload : string;
  RetryCount : Z;
}.
Definition event_of_row (kr : string * outbox_row) : OutboxEvent :=
  mk_OutboxEvent kr.1 (ob_topic kr.2) (ob_payload kr.2) (ob_retry_count kr.2).

Record OutboxWorker := mk_OutboxWorker { pollInterval : Z; batchSize : Z; maxRetries : Z }.
Definition NewWorker (pollInterval batchSize maxRetries : Z) : OutboxWorker :=
  mk_OutboxWorker
    (if pollInterval <=? 0 then 250000000 else pollInterval)
    (if batchSize <=? 0 then 50 else batchSize)
    (if maxRetries <=? 0 then 5 else maxRetries).

Definition minute : Z := 60000000000.

Definition updateEventStatus (id status : string) (retryCount : Z) : sysE (result sqlerr Z) :=
  DbExec (OutboxUpdate status retryCount id).
Definition deleteEvent (id : string) : sysE (result sqlerr Z) := DbExec (OutboxDelete id).

(** The loop that moves the claimed events to PROCESSING. *)
Fixpoint claim_events (t : tx) (events : list OutboxEvent)
    (k : tx -> proc sysE (result string unit)) : proc sysE (result string unit) :=
  match events with
  | [] => k t
  | ev :: events' =>
      let? t := TxExec t (OutboxProcessing (ID ev))
        else PostgresStore.wrap "failed to update outbox event to PROCESSING" in
      claim_events t events' k
  end.

(** The loop that publishes them: an error is logged and the next event is
    tried. *)
Fixpoint publish_events (maxRetries : Z) (events : list OutboxEvent) : proc sysE (result string unit) :=
  match events with
  | [] => Ret (Ok tt)
  | ev :: events' =>
      Vis (Publish (mk_msg (Topic ev) (Payload ev))) (fun r =>
        match r with
        | Err _ =>
            let newStatus := if maxRetries <=? RetryCount ev then "FAILED" else "PENDING" in
            Vis (updateEventStatus (ID ev) newStatus (RetryCount ev + 1))
              (fun _ => publish_events maxRetries events')
        | Ok _ => Vis (deleteEvent (ID ev)) (fun _ => publish_events maxRetries events')
        end)
  end.

Definition processBatch (w : OutboxWorker) : proc sysE (result string unit) :=
  let? t := DbBegin else PostgresStore.wrap "failed to begin batch transaction" in
  Vis Now (fun now =>
  let stuckThreshold := now - minute in
  let? q := TxQueryOutbox t stuckThreshold (batchSize w)
    else PostgresStore.wrap "failed to query outbox events" in
  let '(t, rows) := q in
  let events := map event_of_row rows in
  defer_tx_rollback t (
    match events with
    | [] => Ret (Ok tt)
    | _ =>
        claim_events t events (fun t =>
          let? _ := TxCommit t else PostgresStore.wrap "failed to commit claim transaction" in
          publish_events (maxRetries w) events)
    end)).

(** The polling loop of Start, for the batches before Stop. *)
Fixpoint worker_loop (w : OutboxWorker) (polls : nat) : proc sysE unit :=
  match polls with
  | O => Ret tt
  | S n => _ ← processBatch w; Vis (AfterOrDone (pollInterval w)) (fun _ => worker_loop w n)
  end.
