(* ===== verification/Scheduler.v ===== *)
(** * The scheduler: scheduler/main.go *)
From S2P Require Import Prelude GoLib Effects Sql Proto IntentDb System IntentStore.

(** What the subscription does with a message after its handler returned. *)
Inductive ack : Type := Ack | Nak.
#[export] Instance ack_eq_dec : EqDecision ack.
Proof. solve_decision. Defined.
Definition settle {E A} (r : result E A) : ack := match r with Ok _ => Ack | Err _ => Nak end.

Section scheduler.
Context `{Postgres} `{ProtoCodec}.

Definition publish_failed {A} (what e : string) : result string A := Err (what +:+ ": " +:+ e)%string.

Definition target_subject (intent : Intent.t) : string :=
  ("tasks.scheduled." +:+ IntentType_String (Intent.Type_ intent))%string.

(** The task of an intent that is SCHEDULED already is sent again; whether that
    works is not looked at. *)
Definition republish (intent : Intent.t) : proc sysE (result string unit) :=
  match marshal_intent (Intent.set_Status INTENT_STATUS_SCHEDULED intent) with
  | Ok taskData => Vis (Publish (mk_msg (target_subject intent) taskData)) (fun _ => Ret (Ok tt))
  | Err _ => Ret (Ok tt)
  end.

(** Step 3: past its deadline. *)
Definition reject_expired (intent : Intent.t) : proc sysE (result string unit) :=
  let? _ := DbExec (UpdateStatus "INTENT_STATUS_FAILED" (Intent.Id intent))
    else PostgresStore.wrap "failed to update expired intent status" in
  metric "aien_scheduler_intents_rejected_total"
    [IntentType_String (Intent.Type_ intent); "deadline_exceeded"%string] (Ret (Ok tt)).

(** Steps 4 and 5: SCHEDULED in the database, then the task in the stream. *)
Definition publish_task (intent : Intent.t) : proc sysE (result string unit) :=
  match marshal_intent (Intent.set_Status INTENT_STATUS_SCHEDULED intent) with
  | Err e => Ret (publish_failed "failed to marshal task data" e)
  | Ok taskData =>
      Vis (Publish (mk_msg (target_subject intent) taskData)) (fun r =>
        match r with
        | Err e => Ret (publish_failed "failed to publish scheduled task to NATS" e)
        | Ok _ => metric "aien_scheduler_intents_scheduled_total" [IntentType_String (Intent.Type_ intent)] (Ret (Ok tt))
        end)
  end.
Definition schedule (intent : Intent.t) : proc sysE (result string unit) :=
  let? t := DbBegin else PostgresStore.wrap "failed to begin transaction" in
  defer_tx_rollback t (
    let? t := TxExec t (UpdateStatus "INTENT_STATUS_SCHEDULED" (Intent.Id intent))
      else PostgresStore.wrap "failed to update status to SCHEDULED" in
    let? _ := TxCommit t else PostgresStore.wrap "failed to commit transaction" in
    publish_task intent).

(** Step 2 and what the stored status decides. *)
Definition schedule_steps (intent : Intent.t) : proc sysE (result string unit) :=
  Vis (QueryIntent (Intent.Id intent)) (fun r =>
  match r with
  | Err ErrNoRows => Ret (Ok tt)
  | Err e => Ret (PostgresStore.wrap "database query failed" e)
  | Ok (_, row) =>
      let dbStatus := ir_status row in
      if negb (bool_decide (dbStatus = "INTENT_STATUS_PENDING")) then
        if bool_decide (dbStatus = "INTENT_STATUS_SCHEDULED") then republish intent else Ret (Ok tt)
      else
      Vis Now (fun now =>
      let expired := match ir_deadline row with Some deadline => deadline <? now | None => false end in
      if expired then reject_expired intent else schedule intent)
  end).

(** The handler with its deferred histogram observation. *)
Definition handleSubmittedIntent (m : msg) : proc sysE (result string unit) :=
  Vis Now (fun start =>
  r ← (match unmarshal_intent (Data m) with
       | None => Ret (Err "failed to unmarshal protobuf"%string)
       | Some intent => schedule_steps intent
       end);
  Vis Now (fun now =>
  metric "aien_scheduler_scheduling_duration_seconds" [itoa (now - start)] (Ret r))).

(** The subscription callback of main. *)
Definition on_submitted (m : msg) : proc sysE ack := r ← handleSubmittedIntent m; Ret (settle r).
End scheduler.
