(* ===== verification/Engine.v ===== *)
(** * The execution engine: execution-engine/main.go *)
From S2P Require Import Prelude GoLib Effects Sql Proto Float64 Json WalletProto IntentDb System.
From S2P Require Import IntentStore Scheduler.

(** ** The payload of a transfer *)
Module transfer.
Record t := mk { From : string; To : string; Amount : float64 }.
Definition zero : t := mk "" "" fzero.
Definition keys : list string := ["from"; "to"; "amount"]%string.
Definition set_field (f : string) (v : json) (x : t) : option t :=
  let '(mk a b c) := x in
  if bool_decide (f = "from") then set_string (fun s _ => mk s b c) v x
  else if bool_decide (f = "to") then set_string (fun s _ => mk a s c) v x
  else set_num num_float (fun n _ => mk a b n) v x.
(** [json.Unmarshal(intent.Payload, &transfer)] *)
Definition unmarshal (payload : string) : option t := unmarshal_struct keys set_field payload zero.
End transfer.

(** WORKER_POOL_SIZE: [strconv.Atoi], 3 unless it is a positive number. *)
Definition atoi (s : string) : option Z :=
  let '(neg, d) := match s with
                   | String c s' => if byteZ c =? 45 then (true, s')
                                    else if byteZ c =? 43 then (false, s') else (false, s)
                   | EmptyString => (false, s)
                   end in
  match d with
  | EmptyString => None
  | _ =>
      let '(z, r) := scan_digits 0 d in
      let z := if neg then - z else z in
      match r with
      | EmptyString => if (- 2 ^ 63 <=? z) && (z <? 2 ^ 63) then Some z else None
      | _ => None
      end
  end.
Definition pool_size (s : string) : Z :=
  match atoi s with Some n => if n <=? 0 then 3 else n | None => 3 end.

Section engine.
Context `{Postgres} `{ProtoCodec}.

(** [txID] is the id the wallet will give its audit row. *)
Definition runExecutionSimulation (txID : string) (intent : Intent.t) : proc sysE (result string unit) :=
  if Intent.Type_ intent =? INTENT_TYPE_TRANSFER then
    match transfer.unmarshal (Intent.Payload intent) with
    | None => Ret (Err "failed to parse transfer payload as JSON"%string)
    | Some x =>
        Vis (WalletTransfer txID (TransferRequest.mk (transfer.From x) (transfer.To x)
                                    (transfer.Amount x) (Intent.Id intent))) (fun r =>
          match r with
          | Err st => Ret (Err ("wallet transfer failed: " +:+ st_message st)%string)
          | Ok _ => Ret (Ok tt)
          end)
    end
  else if Intent.Type_ intent =? INTENT_TYPE_COMPUTE then
    Vis (AfterOrDone 2000000000) (fun r => Ret r)
  else Ret (Ok tt).

(** Steps 4 and 5 of executeTask: the status that the result of the work means,
    and the notification that follows it. *)
Definition record_result (intent : Intent.t) (executionErr : result string unit) : proc sysE (result string unit) :=
  let typeStr := IntentType_String (Intent.Type_ intent) in
  let '(finalStatus, protoFinalStatus) :=
    match executionErr with
    | Ok _ => ("INTENT_STATUS_COMPLETED"%string, INTENT_STATUS_COMPLETED)
    | Err _ => ("INTENT_STATUS_FAILED"%string, INTENT_STATUS_FAILED)
    end in
  let? _ := DbExec (UpdateStatus finalStatus (Intent.Id intent))
    else PostgresStore.wrap "failed to write final status" in
  let finish := metric "aien_execution_engine_tasks_executed_total" [typeStr; finalStatus] (Ret (Ok tt)) in
  match marshal_intent (Intent.set_Status protoFinalStatus intent) with
  | Err _ => finish
  | Ok executedData =>
      Vis (Publish (mk_msg ("intents.executed." +:+ typeStr)%string executedData)) (fun _ => finish)
  end.

Definition execute_steps (txID : string) (intent : Intent.t) : proc sysE (result string unit) :=
  let? rows := DbExec (ClaimStatus "INTENT_STATUS_EXECUTING" (Intent.Id intent) "INTENT_STATUS_SCHEDULED")
    else PostgresStore.wrap "failed to transition status to EXECUTING" in
  if rows =? 0 then Ret (Ok tt) else
  executionErr ← runExecutionSimulation txID intent;
  record_result intent executionErr.

(** The task with its deferred gauge and histogram updates. *)
Definition executeTask (txID : string) (m : msg) : proc sysE (result string unit) :=
  metric "aien_execution_engine_active_workers" ["inc"%string] (
  r ← (match unmarshal_intent (Data m) with
       | None => Ret (Err "failed to unmarshal task payload"%string)
       | Some intent =>
           Vis Now (fun start =>
           r ← execute_steps txID intent;
           Vis Now (fun now =>
           metric "aien_execution_engine_task_duration_seconds"
             [IntentType_String (Intent.Type_ intent); itoa (now - start)] (Ret r)))
       end);
  metric "aien_execution_engine_active_workers" ["dec"%string] (Ret r)).

(** A worker serves the messages of its channel until it is closed. *)
Fixpoint startWorker (taskChan : list (string * msg)) : proc sysE (list ack) :=
  match taskChan with
  | [] => Ret []
  | (txID, m) :: taskChan' =>
      r ← executeTask txID m;
      acks ← startWorker taskChan';
      Ret (settle r :: acks)
  end.
End engine.
