(* ===== verification/Validator.v ===== *)
(** * The validator: validator/main.go *)
From S2P Require Import Prelude GoLib Effects Sql Proto Ledger IntentDb System IntentStore Scheduler.

(** Why the handler did not finish: an error it returned, or a panic. *)
Inductive failure : Type :=
| Failed (e : string)
| Panicked.

(** Go's [s[:10]] *)
Definition first10 (s : string) : option string :=
  if (String.length s <? 10)%nat then None else Some (String.substring 0 10 s).

Section validator.
Context `{Postgres} `{ProtoCodec}.

Definition verification_error {R} (r : R) : proc sysE R :=
  metric "aien_validator_ledger_errors_total" [] (Ret r).

(** [ts] is the time stamp Append gives the block. *)
Definition audit_steps (ts : string) (m : msg) : proc sysE (result failure unit) :=
  match unmarshal_intent (Data m) with
  | None => verification_error (Err (Failed "failed to unmarshal protobuf"))
  | Some intent =>
      Vis (QueryIntent (Intent.Id intent)) (fun r =>
      match r with
      | Err e => verification_error
                   (Err (Failed ("failed to fetch intent state from Postgres: " +:+ sql_msg e)%string))
      | Ok (_, row) =>
          let dbStatus := ir_status row in
          let dbType := ir_type row in
          if negb (bool_decide (dbStatus = "INTENT_STATUS_COMPLETED")) &&
             negb (bool_decide (dbStatus = "INTENT_STATUS_FAILED"))
          then verification_error
                 (Err (Failed ("invalid transition state for ledger audit: database shows status "
                               +:+ dbStatus)%string))
          else
          r ← proc_map (@LedgerOp) (Append ts (Intent.Id intent) dbType dbStatus);
          match r with
          | Err e => verification_error (Err (Failed ("failed to write block to ledger: " +:+ e)%string))
          | Ok block =>
              metric "aien_validator_ledger_blocks_total" [dbType] (
              match first10 (Hash block), first10 (PrevHash block) with
              | Some _, Some _ => Ret (Ok tt)
              | _, _ => Ret (Err Panicked)
              end)
          end
      end)
  end.

Definition handleExecutedIntent (ts : string) (m : msg) : proc sysE (result failure unit) :=
  Vis Now (fun start =>
  r ← audit_steps ts m;
  Vis Now (fun now =>
  metric "aien_validator_ledger_write_duration_seconds" [itoa (now - start)] (Ret r))).

(** A panic ends the process before the acknowledgement: the message comes
    again, as after a Nak. *)
Definition on_executed (ts : string) (m : msg) : proc sysE ack :=
  r ← handleExecutedIntent ts m; Ret (settle r).

(** Start-up: the service runs only on a ledger that verifies. *)
Definition startup : proc sysE bool :=
  r ← proc_map (@LedgerOp) Verify;
  match r with
  | Some _ => verification_error false
  | None => Ret true
  end.
End validator.
