(* ===== verification/Certs.v ===== *)
(** * The certificate generator: scripts/generate_certs.go

    RSA keys, certificates and PEM are the class [X509], with the laws that
    what was written can be read back.  The local time zone is taken to be UTC. *)
From S2P Require Import Prelude GoLib Effects.

(** ** [time.Time.AddDate(years, 0, 0)]
    Days count from 1 January of the year 1. *)
Definition day_ns : Z := 86400 * 1000000000.
Definition leap (y : Z) : bool := (y mod 4 =? 0) && (negb (y mod 100 =? 0) || (y mod 400 =? 0)).
Definition days_before (y : Z) : Z := let z := y - 1 in 365 * z + z / 4 - z / 100 + z / 400.
Definition epoch : Z := days_before 1970.
Definition civil_year (d : Z) : Z :=
  let n400 := d / 146097 in
  let d := d - 146097 * n400 in
  let n100 := d / 36524 - d / 36524 / 4 in
  let d := d - 36524 * n100 in
  let n4 := d / 1461 in
  let d := d - 1461 * n4 in
  let n1 := d / 365 - d / 365 / 4 in
  400 * n400 + 100 * n100 + 4 * n4 + n1 + 1.
(** Month and day are kept; 29 February of a year without one is 1 March. *)
Definition same_day (y y' yday : Z) : Z :=
  if leap y && negb (leap y') && (60 <=? yday) then yday - 1
  else if negb (leap y) && leap y' && (59 <=? yday) then yday + 1
  else yday.
Definition add_years (years t : Z) : Z :=
  let d := t / day_ns + epoch in
  let y := civil_year d in
  (days_before (y + years) + same_day y (y + years) (d - days_before y) - epoch) * day_ns + t mod day_ns.

Example leap_day : add_years 2 (19782 * day_ns + 7) = 20513 * day_ns + 7. (* 2024-02-29, 2026-03-01 *)
Proof. reflexivity. Qed.
Example new_year_eve : add_years 10 (20088 * day_ns) = 23740 * day_ns. (* 2024-12-31, 2034-12-31 *)
Proof. reflexivity. Qed.

(** ** crypto/x509 *)
Inductive ExtKeyUsage : Type := ExtKeyUsageServerAuth | ExtKeyUsageClientAuth.
#[export] Instance ExtKeyUsage_eq_dec : EqDecision ExtKeyUsage.
Proof. solve_decision. Defined.
Definition KeyUsageDigitalSignature : Z := 1.
Definition KeyUsageKeyEncipherment : Z := 4.
Definition KeyUsageCertSign : Z := 32.
Record Name := mk_Name { Organization : list string; CommonName : string }.
#[export] Instance Name_eq_dec : EqDecision Name.
Proof. solve_decision. Defined.

(** A template, or a certificate that was read: then it has a public key, an
    issuer and the key its signature verifies under. *)
Record Certificate := mk_Certificate {
  SerialNumber : Z;
  Subject : Name;
  NotBefore : Z;
  NotAfter : Z;
  IsCA : bool;
  KeyUsage : Z;
  ExtKeyUsages : list ExtKeyUsage;
  BasicConstraintsValid : bool;
  DNSNames : list string;
  IPAddresses : list string;
  PublicKey : option string;
  Issuer : option Name;
  SignedBy : option string;
}.
(** Certificates hold whole seconds. *)
Definition to_seconds (t : Z) : Z := t / 1000000000 * 1000000000.
Definition issued (template parent : Certificate) (pub signer : string) : Certificate :=
  let '(mk_Certificate serial subject nb na ca ku eku bc dns ips _ _ _) := template in
  mk_Certificate serial subject (to_seconds nb) (to_seconds na) ca ku eku bc dns ips (Some pub)
    (Some (Subject parent)) (Some signer).

Class X509 := {
  rsa_generate : string -> string;
  rsa_public : string -> string;
  rand_int : string -> Z -> Z;
  CreateCertificate : Certificate -> Certificate -> string -> string -> result string string;
  ParseCertificate : string -> result string Certificate;
  MarshalPKCS8PrivateKey : string -> result string string;
  ParsePKCS8PrivateKey : string -> result string string;
  pem_encode : string -> string -> string;
  pem_decode : string -> option (string * string);
  create_parse : forall template parent pub priv der,
    CreateCertificate template parent pub priv = Ok der ->
    ParseCertificate der = Ok (issued template parent pub (rsa_public priv));
  pkcs8_parse : forall priv bytes, MarshalPKCS8PrivateKey priv = Ok bytes -> ParsePKCS8PrivateKey bytes = Ok priv;
  pem_decode_encode : forall ty bytes, pem_decode (pem_encode ty bytes) = Some (ty, bytes);
}.

(** ** The events and the machine they run on *)
Inductive certE : Type -> Type :=
| MkdirAll : certE (result string unit)
| GenerateKey : certE (result string string)
| RandInt (max : Z) : certE (result string Z)
| TimeNow : certE Z
| CreateFile (name : string) : certE (result string unit)
| WriteFile (name content : string) : certE (result string unit).

(** [m_random], [m_clock]: what the random source and the clock answer, by the
    number of the question. *)
Record machine := mk_machine {
  m_dir : bool;
  m_files : gmap string string;
  m_random : nat -> string;
  m_clock : nat -> Z;
  m_asked : nat;
}.
Definition set_files (f : gmap string string -> gmap string string) (m : machine) : machine :=
  mk_machine (m_dir m) (f (m_files m)) (m_random m) (m_clock m) (m_asked m).
Definition ask (m : machine) : machine := mk_machine (m_dir m) (m_files m) (m_random m) (m_clock m) (S (m_asked m)).
Definition draw {A} (f : string -> A) (o : outcome) (m : machine) : result string A * machine :=
  (match o with Done => Ok (f (m_random m (m_asked m))) | Lost e | AckLost e | Torn _ e => Err e end, ask m).

Section script.
Context `{X509}.

Definition cert_exec X (e : certE X) (o : outcome) (m : machine) : X * machine :=
  match e in certE X return X * machine with
  | MkdirAll =>
      let made := mk_machine true (m_files m) (m_random m) (m_clock m) (m_asked m) in
      match o with Done => (Ok tt, made) | AckLost e => (Err e, made) | Lost e | Torn _ e => (Err e, m) end
  | GenerateKey => draw rsa_generate o m
  | RandInt max => draw (fun r => rand_int r max) o m
  | TimeNow => (m_clock m (m_asked m), ask m)
  | CreateFile name =>
      if m_dir m then
        match o with
        | Done => (Ok tt, set_files <[name := ""%string]> m)
        | AckLost e => (Err e, set_files <[name := ""%string]> m)
        | Lost e | Torn _ e => (Err e, m)
        end
      else (Err "no such file or directory"%string, m)
  | WriteFile name content =>
      match o with
      | Done => (Ok tt, set_files <[name := content]> m)
      | AckLost e => (Err e, set_files <[name := content]> m)
      | Lost e => (Err e, m)
      | Torn n e => (Err e, set_files <[name := String.substring 0 n content]> m)
      end
  end.

(** [if err != nil { return err }] *)
Definition try {A B} (p : proc certE (result string A)) (k : A -> proc certE (result string B))
  : proc certE (result string B) :=
  r ← p; match r with Ok x => k x | Err err => Ret (Err err) end.
Definition of_result {A B} (r : result string A) (k : A -> proc certE (result string B)) : proc certE (result string B) :=
  match r with Ok x => k x | Err err => Ret (Err err) end.

(** [filepath.Join(outDir, name)] *)
Definition in_certs (name : string) : string := ("certs/" +:+ name)%string.

Definition savePEM (filename pemType derBytes : string) : proc certE (result string unit) :=
  try (trigger (CreateFile filename)) (fun _ => trigger (WriteFile filename (pem_encode pemType derBytes))).

(** A new key and a serial number: [Lsh(big.NewInt(1), 128)] is the limit. *)
Definition key_and_serial {B} (k : string -> Z -> proc certE (result string B)) : proc certE (result string B) :=
  try (trigger GenerateKey) (fun priv =>
  try (trigger (RandInt (Z.shiftl 1 128))) (fun serialNumber => k priv serialNumber)).

Definition ca_template (serial notBefore notAfter : Z) : Certificate :=
  mk_Certificate serial (mk_Name ["AIEN Authority"] "AIEN Root CA") notBefore notAfter true
    (Z.lor KeyUsageDigitalSignature KeyUsageCertSign) [ExtKeyUsageClientAuth; ExtKeyUsageServerAuth] true
    [] [] None None None.
Definition generateCA : proc certE (result string (string * string)) :=
  key_and_serial (fun priv serialNumber =>
  Vis TimeNow (fun now => Vis TimeNow (fun now' =>
  let template := ca_template serialNumber now (add_years 10 now') in
  of_result (CreateCertificate template template (rsa_public priv) priv) (fun derBytes =>
  try (savePEM (in_certs "ca.pem") "CERTIFICATE" derBytes) (fun _ =>
  Ret (Ok (priv, derBytes))))))).

Definition server_template (serial notBefore notAfter : Z) : Certificate :=
  mk_Certificate serial (mk_Name ["AIEN Service"] "intent-service") notBefore notAfter false
    (Z.lor KeyUsageDigitalSignature KeyUsageKeyEncipherment) [ExtKeyUsageServerAuth] false
    ["localhost"; "intent-service"; "wallet"; "wallet-service"] ["127.0.0.1"; "0.0.0.0"] None None None.
Definition client_template (serial notBefore notAfter : Z) : Certificate :=
  mk_Certificate serial (mk_Name ["AIEN Client"] "gateway") notBefore notAfter false
    (Z.lor KeyUsageDigitalSignature KeyUsageKeyEncipherment) [ExtKeyUsageClientAuth] false
    ["localhost"; "gateway"] [] None None None.

(** generateServerCert and generateClientCert differ in the template and in the
    names of their files only. *)
Definition generate_leaf (template : Z -> Z -> Z -> Certificate) (cert_file key_file caKey caCertBytes : string)
  : proc certE (result string unit) :=
  of_result (ParseCertificate caCertBytes) (fun caCert =>
  key_and_serial (fun priv serialNumber =>
  Vis TimeNow (fun now => Vis TimeNow (fun now' =>
  of_result (CreateCertificate (template serialNumber now (add_years 2 now')) caCert (rsa_public priv) caKey) (fun derBytes =>
  try (savePEM (in_certs cert_file) "CERTIFICATE" derBytes) (fun _ =>
  of_result (MarshalPKCS8PrivateKey priv) (fun privBytes =>
  savePEM (in_certs key_file) "PRIVATE KEY" privBytes))))))).
Definition generateServerCert : string -> string -> proc certE (result string unit) :=
  generate_leaf server_template "server-cert.pem" "server-key.pem".
Definition generateClientCert : string -> string -> proc certE (result string unit) :=
  generate_leaf client_template "client-cert.pem" "client-key.pem".

(** The exit code. *)
Definition exit_on_error {A} (p : proc certE (result string A)) (k : A -> proc certE Z) : proc certE Z :=
  r ← p; match r with Ok x => k x | Err _ => Ret 1 end.
Definition main : proc certE Z :=
  exit_on_error (trigger MkdirAll) (fun _ =>
  exit_on_error generateCA (fun ca =>
  exit_on_error (generateServerCert ca.1 ca.2) (fun _ =>
  exit_on_error (generateClientCert ca.1 ca.2) (fun _ =>
  Ret 0)))).
End script.
