(* ===== verification/MainsFacts.v ===== *)
(** * What the main functions guarantee before a service does its work *)
From S2P Require Import Prelude GoLib Effects Startup Sql Proto Float64 Ledger LedgerFacts Engine Mains.

(** ** Rules, for every schedule of failures *)
Abbreviation wp := (wp main_exec).

Definition with_conn (c : conn_state) (s : site) : site :=
  mk_site (s_ledger s) c (s_files s) (s_streams s) (s_acts s).

Lemma wp_tell a k Q s : wp k Q (acted a s) -> wp (tell a k) Q s.
Proof. intros Hk o. exact Hk. Qed.

Lemma wp_race a (k : unit -> proc mainE Z) Q s :
  wp (k tt) Q s -> wp (k tt) Q (acted a s) -> wp (Vis (Race a) k) Q s.
Proof. intros Hn Hd. intros []; cbn; done. Qed.

Lemma wp_do abort a k Q s :
  wp abort Q s -> wp abort Q (acted a s) -> (possible a s = true -> wp (k tt) Q (acted a s)) ->
  wp (must_or abort (Do a) k) Q s.
Proof. intros Hs Ha Hk. intros o. cbn. destruct (possible a s); [destruct o; cbn; auto|exact Hs]. Qed.

Lemma wp_must a k Q s :
  Q 1 s -> Q 1 (acted a s) -> (possible a s = true -> wp k Q (acted a s)) -> wp (must a k) Q s.
Proof. apply (wp_do exit1 a (fun _ => k)). Qed.

Lemma wp_read_file abort path k Q s :
  wp abort Q s -> (forall content, s_files s path = Some content -> wp (k content) Q s) ->
  wp (must_or abort (ReadFile path) k) Q s.
Proof. intros Hs Hk o. cbn. destruct o; try exact Hs. destruct (s_files s path); [by apply Hk|exact Hs]. Qed.

Lemma wp_connect_db k Q s :
  (forall c, Q 1 (with_conn c s)) -> (forall c, wp k Q (with_conn c s)) -> wp (connect_db k) Q s.
Proof.
  intros He Hk. unfold connect_db. apply wp_bind.
  apply (wp_proc_map (fun X e => Conn e) conn_exec main_exec s_conn (fun s c => with_conn c s)).
  - intros X e o t. cbn. by destruct (conn_exec X e o (s_conn t)).
  - done.
  - done.
  - by intros [].
  - eapply wp_mono; [|apply (wp_connect 10 3000000000 (Z.to_nat 10) None)].
    intros [u|err] c _; [apply Hk|apply He].
Qed.

Lemma wp_migrate path k Q s :
  Q 1 s -> (forall schema, s_files s path = Some schema ->
    Q 1 (acted (Migrate schema) s) /\ wp k Q (acted (Migrate schema) s)) -> wp (migrate path k) Q s.
Proof.
  intros Hs Hk. apply wp_read_file; [exact Hs|]. intros schema Hf. destruct (Hk schema Hf).
  by apply wp_must.
Qed.

Lemma wp_load_tls lookup cert key abort (k : bool -> proc mainE Z) Q s :
  (tls_configured lookup cert key = false -> wp (k false) Q s) ->
  (forall l, Forall (fun a => match a with LoadKeyPair _ _ | AppendCerts _ => True | _ => False end) l ->
     wp abort Q (foldr acted s l)) ->
  (forall pem, tls_configured lookup cert key = true -> s_files s (env lookup "TLS_CA_CERT" "") = Some pem ->
     wp (k true) Q (acted (AppendCerts pem) (acted (LoadKeyPair (env lookup cert "") (env lookup key "")) s))) ->
  wp (load_tls lookup cert key abort k) Q s.
Proof.
  intros Hoff Habort Hon. unfold load_tls. destruct (tls_configured lookup cert key); [|by apply Hoff].
  set (pair := LoadKeyPair _ _). apply wp_do; [exact (Habort [] ltac:(constructor))|exact (Habort [pair] ltac:(by repeat constructor))|].
  intros _. apply wp_read_file; [exact (Habort [pair] ltac:(by repeat constructor))|]. intros pem Hpem.
  apply wp_do; [exact (Habort [pair] ltac:(by repeat constructor))|exact (Habort [AppendCerts pem; pair] ltac:(by repeat constructor))|].
  intros _. by apply Hon.
Qed.

(** Verify passes only a file that holds a ledger, and changes nothing. *)
Lemma wp_verify (k : option string -> proc mainE Z) Q s :
  (forall err, wp (k (Some err)) Q s) -> ((exists bs, ledger_holds (s_ledger s) bs) -> wp (k None) Q s) ->
  wp (err ← proc_map (fun X e => LedgerFile e) Verify; k err) Q s.
Proof.
  intros Hbad Hgood. apply wp_bind. intros o.
  assert (Hs : mk_site (s_ledger s) (s_conn s) (s_files s) (s_streams s) (s_acts s) = s) by (by destruct s).
  assert (Hread : forall c rerr content, s_ledger s = Some content -> (rerr = None -> c = content) ->
    wp (k (verify_content c rerr)) Q s).
  { intros c rerr content Hf Hc. destruct (verify_content c rerr) as [err|] eqn:Hv; [apply Hbad|].
    apply verify_content_spec in Hv as (-> & Hsc & bs & Hp & Hch). apply Hgood. exists bs. rewrite Hf, <-Hc by done.
    by split_and!. }
  destruct o; cbn; destruct (s_ledger s) as [content|] eqn:Hf; cbn; rewrite ?Hs; try apply Hbad.
  1,3: by eapply Hread.
  all: apply Hgood; by exists [].
Qed.

(** Every rule once; the goals that remain are about the ends of the program. *)
Ltac step_main :=
  lazymatch goal with
  | |- wp (tell _ _) _ _ => apply wp_tell
  | |- wp (must _ _) _ _ => apply wp_must; [| |intros ?]
  | |- wp (must_or _ (Do _) _) _ _ => apply wp_do; [| |intros ?]
  | |- wp (connect_db _) _ _ => apply wp_connect_db; [intros ?|intros ?]
  | |- wp (migrate _ _) _ _ => apply wp_migrate; [|intros ? ?; split]
  | |- wp (server_tls _ _ _) _ _ => unfold server_tls
  | |- wp (client_tls _ _) _ _ => unfold client_tls
  | |- wp (load_tls _ _ _ _ _) _ _ => apply wp_load_tls; [intros ?|intros ? ?|intros ? ? ?]
  | |- wp (Vis (Race _) _) _ _ => apply wp_race
  | |- wp (_ ≫= _) _ _ => apply wp_verify; [intros ?|intros ?]
  | |- wp (Ret _) _ _ => unfold Effects.wp at 1
  | |- wp exit1 _ _ => unfold exit1, Effects.wp at 1
  end.

(** A process starts with nothing done. *)
Definition boot (ledger : option string) (c : conn_state) (files : string -> option string) (streams : list string) : site :=
  mk_site ledger c files streams [].

Definition tls_loading (a : act) : Prop := match a with LoadKeyPair _ _ | AppendCerts _ => True | _ => False end.
Lemma loading_acts l s : s_acts (foldr acted s l) = l ++ s_acts s.
Proof. induction l as [|a l IH]; [done|]. cbn. by rewrite IH. Qed.
Lemma loading_same l s :
  s_files (foldr acted s l) = s_files s /\ s_ledger (foldr acted s l) = s_ledger s /\ s_conn (foldr acted s l) = s_conn s.
Proof. induction l as [|a l IH]; [done|]. by cbn. Qed.

Lemma loading_streams l s : Forall tls_loading l -> s_streams (foldr acted s l) = s_streams s.
Proof. induction 1 as [|a l Ha _ IH]; [done|]. cbn. rewrite IH. by destruct a. Qed.

(** ** Credentials
    The server or client connection of a service, and the variables that turn
    TLS on for it. *)
Definition secured (a : act) : option bool :=
  match a with Serve mtls | NewClient _ _ mtls => Some mtls | _ => None end.
Definition tls_vars (x : service) : string * string :=
  match x with
  | WalletService | IntentService => ("TLS_SERVER_CERT", "TLS_SERVER_KEY")%string
  | _ => ("TLS_CLIENT_CERT", "TLS_CLIENT_KEY")%string
  end.

(** Whoever serves or connects does so with TLS exactly when it is configured,
    and then with the key pair and the authority that the variables name. *)
Definition credentials_used (lookup : string -> option string) (x : service) (s : site) : Prop :=
  forall a mtls, a ∈ s_acts s -> secured a = Some mtls ->
    mtls = tls_configured lookup (tls_vars x).1 (tls_vars x).2 /\
    (mtls = true -> exists pem, s_files s (env lookup "TLS_CA_CERT" "") = Some pem /\ AppendCerts pem ∈ s_acts s /\
       LoadKeyPair (env lookup (tls_vars x).1 "") (env lookup (tls_vars x).2 "") ∈ s_acts s).

Section credentials.
Context (lookup : string -> option string) (x : service).
Abbreviation used := (credentials_used lookup x).
Let configured : bool := tls_configured lookup (tls_vars x).1 (tls_vars x).2.

Lemma used_start ledger c files streams : used (boot ledger c files streams).
Proof. intros a mtls Ha. by apply not_elem_of_nil in Ha. Qed.

Lemma used_conn c s : used s -> used (with_conn c s).
Proof. done. Qed.

Lemma used_ledger f s : used s -> used (mk_site f (s_conn s) (s_files s) (s_streams s) (s_acts s)).
Proof. done. Qed.

Lemma used_plain a s : secured a = None -> used s -> used (acted a s).
Proof.
  intros Hn Hs b mtls [->|Hb]%elem_of_cons Hm; [by rewrite Hn in Hm|].
  destruct (Hs b mtls Hb Hm) as [Hc Hl]. split; [exact Hc|]. intros Ht. destruct (Hl Ht) as (pem & Hp & H1 & H2).
  exists pem. split; [exact Hp|]. split; by right.
Qed.

Lemma used_loading l s : Forall tls_loading l -> used s -> used (foldr acted s l).
Proof. intros Hl Hs. induction Hl as [|a l Ha _ IH]; [exact Hs|]. apply used_plain; [by destruct a|exact IH]. Qed.

Lemma used_off a s :
  configured = false -> secured a = Some false -> used s -> used (acted a s).
Proof.
  intros Hc Ha Hs b mtls [->|Hb]%elem_of_cons Hm.
  - rewrite Ha in Hm. injection Hm as <-. by split.
  - destruct (Hs b mtls Hb Hm) as [Hc' Hl]. split; [exact Hc'|]. intros Ht. subst. unfold configured in Hc. congruence.
Qed.

Lemma used_on a pem s :
  configured = true -> secured a = Some true -> s_files s (env lookup "TLS_CA_CERT" "") = Some pem ->
  AppendCerts pem ∈ s_acts s ->
  LoadKeyPair (env lookup (tls_vars x).1 "") (env lookup (tls_vars x).2 "") ∈ s_acts s -> used s -> used (acted a s).
Proof.
  intros Hc Ha Hp H1 H2 Hs b mtls [->|Hb]%elem_of_cons Hm.
  - rewrite Ha in Hm. injection Hm as <-. split; [done|]. intros _. exists pem. split; [exact Hp|]. split; by right.
  - destruct (Hs b mtls Hb Hm) as [Hc' Hl]. split; [exact Hc'|]. intros _. exists pem. split; [exact Hp|]. split; by right.
Qed.
End credentials.

Ltac use_step :=
  first [ apply used_start | apply used_conn | apply used_ledger
        | apply used_plain; [reflexivity|]
        | apply used_loading; [assumption|]
        | apply used_off; [assumption|reflexivity|]
        | eapply used_on; [assumption|reflexivity|eassumption|set_solver|set_solver|] ].

(** C34: TLS is never lost on the way between the services.  Whatever fails while
    a service starts, its gRPC server, or its gRPC connection to the service
    behind it, uses mutual TLS exactly when all three variables are set to
    something, and then with the key pair and the authority they name; a
    credential that cannot be loaded ends the process before it serves or
    connects.  (The gateway's public HTTP listener has no TLS in the code.) *)
Theorem tls_never_downgraded lookup x sched ledger c files streams :
  credentials_used lookup x (run_state main_exec (main lookup x) sched (boot ledger c files streams)).
Proof.
  apply (wp_run main_exec (main lookup x) (fun _ s => credentials_used lookup x s)).
  destruct x; cbn [main]; unfold wallet_main, intent_main, scheduler_main, engine_main, validator_main, gateway_main, connect_nats;
    repeat (step_main || use_step).
Qed.


(** ** The validator and a broken ledger *)
Definition before_verify (a : act) : Prop := match a with StartMetrics _ | MkdirParent _ => True | _ => False end.

(** C30: the validator does not start on a ledger that Verify would refuse.
    Whatever fails, its start-up leaves the ledger file as it is, and unless the
    file holds a chain (or does not exist yet) the process ends with code 1
    having started its metrics server and created a directory, no more: no
    connection to the database or to NATS, no subscription. *)
Theorem validator_refuses_broken_ledger lookup sched ledger c files streams :
  let code := run_result main_exec (validator_main lookup) sched (boot ledger c files streams) in
  let s' := run_state main_exec (validator_main lookup) sched (boot ledger c files streams) in
  s_ledger s' = ledger /\
  ((exists bs, ledger_holds ledger bs) \/
   code = 1 /\ s_conn s' = c /\ Forall before_verify (s_acts s')).
Proof.
  cbv zeta. apply (wp_run main_exec (validator_main lookup) (fun code s' => s_ledger s' = ledger /\
    ((exists bs, ledger_holds ledger bs) \/ code = 1 /\ s_conn s' = c /\ Forall before_verify (s_acts s')))).
  unfold validator_main, connect_nats.
  repeat step_main; (split; [reflexivity|]); first [by left | right; split_and!; [done|done|by repeat constructor]].
Qed.

(** ** What must be in place before a service takes work *)
Definition is_migration (a : act) : bool := match a with Migrate _ => true | _ => false end.
Definition is_listener (a : act) : bool := match a with Listen _ => true | _ => false end.
Definition is_client (a : act) : bool := match a with NewClient _ _ _ => true | _ => false end.
Definition is_worker (a : act) : bool := match a with StartOutboxWorker => true | _ => false end.
Definition is_pool (a : act) : bool := match a with SpawnWorkers n => 0 <? n | _ => false end.
Definition is_redis (a : act) : bool := match a with RedisPing _ => true | _ => false end.
Definition is_stream (name : string) (a : act) : bool :=
  match a with AddStream n _ => bool_decide (n = name) | _ => false end.

Definition needs (x : service) (a : act) : list (act -> bool) :=
  match x, a with
  | WalletService, Serve _ => [is_migration; is_listener]
  | IntentService, StartOutboxWorker => [is_migration; is_stream "INTENTS"]
  | IntentService, Serve _ => [is_migration; is_stream "INTENTS"; is_worker; is_listener]
  | Scheduler, QueueSubscribe _ _ _ => [is_stream "TASKS"]
  | ExecutionEngine, QueueSubscribe _ _ _ => [is_client; is_pool]
  | Validator, QueueSubscribe _ _ _ => [is_stream "EXECUTIONS"]
  | ApiGateway, ListenAndServe _ => [is_redis; is_client]
  | _, _ => []
  end.
(** Whenever a service did [a], it had done before what [a] needs. *)
Definition prepared (x : service) (acts : list act) : Prop :=
  forall l1 a l2, acts = l1 ++ a :: l2 -> Forall (fun p => existsb p l2 = true) (needs x a).

Lemma prepared_nil x : prepared x [].
Proof. intros [|b l1] a l2 Hl; discriminate Hl. Qed.
Lemma prepared_cons x a acts :
  Forall (fun p => existsb p acts = true) (needs x a) -> prepared x acts -> prepared x (a :: acts).
Proof. intros Ha Hs [|b l1] a' l2 Hl; injection Hl as -> ->; [exact Ha|]. by apply (Hs l1). Qed.
Lemma prepared_loading x l acts : Forall tls_loading l -> prepared x acts -> prepared x (l ++ acts).
Proof.
  intros Hl Hs. induction Hl as [|a l Ha _ IH]; [exact Hs|]. apply prepared_cons; [|exact IH].
  destruct x, a; try done; constructor.
Qed.

Lemma pool_size_pos s : 0 < pool_size s.
Proof. unfold pool_size. destruct (atoi s) as [n|]; [destruct (Z.leb_spec n 0)|]; lia. Qed.

Ltac prepare_step :=
  rewrite ?loading_acts; cbn [s_acts acted with_conn boot];
  first [ apply prepared_nil
        | apply prepared_loading; [assumption|]
        | apply prepared_cons;
            [cbn [needs]; repeat apply Forall_cons_2; try apply Forall_nil_2; cbn; rewrite ?(proj2 (Z.ltb_lt 0 _) (pool_size_pos _)); reflexivity|] ].

(** No service takes work before what the work relies on is there: the schema
    before the server, the stream before the subscription that feeds it or the
    worker that fills it, the wallet connection and at least one worker before
    the tasks. *)
Theorem prepared_before_work lookup x sched ledger c files streams :
  prepared x (s_acts (run_state main_exec (main lookup x) sched (boot ledger c files streams))).
Proof.
  apply (wp_run main_exec (main lookup x) (fun _ s => prepared x (s_acts s))).
  destruct x; cbn [main]; unfold wallet_main, intent_main, scheduler_main, engine_main, validator_main, gateway_main, connect_nats;
    repeat (step_main || prepare_step).
Qed.

(** ** The order in which the services can start *)
Ltac no_stream :=
  match goal with H : possible (QueueSubscribe _ _ _) _ = true |- _ =>
    cbn in H; apply bool_decide_eq_true in H;
    rewrite ?loading_streams in H by assumption; cbn in H; set_solver
  end.

Lemma scheduler_needs_intents lookup sched ledger c files streams :
  "intents.submitted.*"%string ∉ streams ->
  run_result main_exec (scheduler_main lookup) sched (boot ledger c files streams) = 1.
Proof.
  intros Hno. apply (wp_run main_exec (scheduler_main lookup) (fun code _ => code = 1)).
  unfold scheduler_main, connect_nats. repeat step_main; try reflexivity; exfalso; no_stream.
Qed.

Lemma engine_needs_tasks lookup sched ledger c files streams :
  "tasks.scheduled.*"%string ∉ streams ->
  run_result main_exec (engine_main lookup) sched (boot ledger c files streams) = 1.
Proof.
  intros Hno. apply (wp_run main_exec (engine_main lookup) (fun code _ => code = 1)).
  unfold engine_main, connect_nats. cbv zeta. repeat step_main; try reflexivity; exfalso; no_stream.
Qed.

(** Runs without failures. *)
Abbreviation go p s := (run main_exec p [] s).
Lemma go_tell a k s : go (tell a k) s = go k (acted a s).
Proof. done. Qed.
Lemma go_race a (k : unit -> proc mainE Z) s : go (Vis (Race a) k) s = go (k tt) (acted a s).
Proof. done. Qed.
Lemma go_do abort a k s : possible a s = true -> go (must_or abort (Do a) k) s = go (k tt) (acted a s).
Proof. intros Hp. cbn. by rewrite Hp. Qed.
Lemma go_must a k s : possible a s = true -> go (must a k) s = go k (acted a s).
Proof. apply (go_do exit1 a (fun _ => k)). Qed.
Definition connected_conn (c : conn_state) : conn_state := mk_conn (pools c + 1) (tries c + 1) (slept c).
Lemma go_connect_db k s : go (connect_db k) s = go k (with_conn (connected_conn (s_conn s)) s).
Proof. done. Qed.
Lemma go_migrate path k s schema :
  s_files s path = Some schema -> go (migrate path k) s = go k (acted (Migrate schema) s).
Proof. intros Hf. cbn. by rewrite Hf. Qed.
Lemma go_verify (k : option string -> proc mainE Z) s bs :
  ledger_holds (s_ledger s) bs -> go (err ← proc_map (fun X e => LedgerFile e) Verify; k err) s = go (k None) s.
Proof.
  destruct s as [[content|] c f st l]; cbn; [|done]. intros (Hsc & Hp & Hch).
  by rewrite (proj2 (verify_content_spec content None)) by eauto.
Qed.
Lemma go_load_tls lookup cert key abort (k : bool -> proc mainE Z) s :
  (env lookup "TLS_CA_CERT" "" <> ""%string -> is_Some (s_files s (env lookup "TLS_CA_CERT" ""))) ->
  exists l, Forall tls_loading l /\ go (load_tls lookup cert key abort k) s
    = go (k (tls_configured lookup cert key)) (foldr acted s l).
Proof.
  intros Hf. unfold load_tls. destruct (tls_configured lookup cert key) eqn:Hc; [|by exists []].
  destruct Hf as [pem Hf].
  { unfold tls_configured in Hc. intros He. rewrite He in Hc. discriminate Hc. }
  exists [AppendCerts pem; LoadKeyPair (env lookup cert "") (env lookup key "")]. split; [by repeat constructor|].
  cbn. by rewrite Hf.
Qed.

#[local] Opaque tell must must_or connect_db migrate load_tls.
Ltac go_step :=
  first [ rewrite go_tell | rewrite go_race | rewrite go_connect_db
        | rewrite go_must by first [reflexivity | apply bool_decide_eq_true; cbn; rewrite ?loading_streams by assumption; cbn; set_solver]
        | rewrite go_do by reflexivity
        | erewrite go_migrate by eassumption ].

(** The streams that are left after a run without failures. *)
Definition streams_after (p : proc mainE Z) (s : site) : list string := s_streams (go p s).1.2.

Section order.
Context (lookup : string -> option string) (ledger : option string) (c : conn_state) (files : string -> option string).
Lemma scheduler_starts streams :
  "intents.submitted.*"%string ∈ streams ->
  run_result main_exec (scheduler_main lookup) [] (boot ledger c files streams) = 0 /\
  streams_after (scheduler_main lookup) (boot ledger c files streams) = "tasks.scheduled.*"%string :: streams.
Proof.
  intros Hin. unfold streams_after, run_result, scheduler_main, connect_nats. repeat go_step. done.
Qed.

Lemma validator_starts bs streams :
  ledger_holds ledger bs -> run_result main_exec (validator_main lookup) [] (boot ledger c files streams) = 0.
Proof.
  intros Hbs. unfold run_result, validator_main, connect_nats. cbv zeta. repeat go_step.
  rewrite (go_verify _ _ bs) by exact Hbs. cbv beta iota. repeat go_step. done.
Qed.
Context (Hca : env lookup "TLS_CA_CERT" "" <> ""%string -> is_Some (files (env lookup "TLS_CA_CERT" ""))).

Lemma intent_starts schema streams :
  files (env lookup "SCHEMA_PATH" "store/schema.sql") = Some schema ->
  run_result main_exec (intent_main lookup) [] (boot ledger c files streams) = 0 /\
  streams_after (intent_main lookup) (boot ledger c files streams) = "intents.submitted.*"%string :: streams.
Proof.
  intros Hschema. unfold streams_after, run_result, intent_main, connect_nats. cbv zeta. repeat go_step. unfold server_tls.
  match goal with |- context [go (load_tls ?l ?ce ?k ?ab ?kk) ?s] =>
    destruct (go_load_tls l ce k ab kk s Hca) as (loads & Hl & ->) end.
  repeat go_step. cbn. rewrite ?loading_streams by assumption. done.
Qed.

Lemma engine_starts streams :
  "tasks.scheduled.*"%string ∈ streams ->
  run_result main_exec (engine_main lookup) [] (boot ledger c files streams) = 0.
Proof.
  intros Hin. unfold run_result, engine_main, connect_nats. cbv zeta. repeat go_step. unfold client_tls.
  match goal with |- context [go (load_tls ?l ?ce ?k ?ab ?kk) ?s] =>
    destruct (go_load_tls l ce k ab kk s Hca) as (loads & Hl & ->) end.
  repeat go_step. done.
Qed.

End order.

(** The order in which the services can start.  Without failures, with the
    schema file there, the authority's certificate there if one is configured,
    and a ledger that verifies, the intent service starts on an empty NATS
    server, the scheduler after it, the execution engine after both, and the
    validator at any time.  The scheduler before the intent service, and the
    engine before the scheduler, end with code 1 whatever happens, because
    nothing but the other service creates the stream they subscribe to. *)
Theorem services_start_in_order lookup ledger c files schema bs :
  files (env lookup "SCHEMA_PATH" "store/schema.sql") = Some schema ->
  (env lookup "TLS_CA_CERT" "" <> ""%string -> is_Some (files (env lookup "TLS_CA_CERT" ""))) ->
  ledger_holds ledger bs ->
  let at_streams := boot ledger c files in
  let starts m streams := run_result main_exec (m lookup) [] (at_streams streams) = 0 in
  let s1 := streams_after (intent_main lookup) (at_streams []) in
  let s2 := streams_after (scheduler_main lookup) (at_streams s1) in
  starts intent_main [] /\ starts scheduler_main s1 /\ starts engine_main s2 /\
  (forall streams, starts validator_main streams) /\
  (forall sched, run_result main_exec (scheduler_main lookup) sched (at_streams []) = 1) /\
  (forall sched, run_result main_exec (engine_main lookup) sched (at_streams s1) = 1).
Proof.
  intros Hschema Hca Hbs. cbv zeta.
  destruct (intent_starts lookup ledger c files Hca schema [] Hschema) as [Hi ->].
  destruct (scheduler_starts lookup ledger c files ["intents.submitted.*"%string]) as [Hs ->]; [by left|].
  split_and!; [exact Hi|exact Hs| | | |].
  - apply (engine_starts lookup ledger c files Hca). by left.
  - intros streams. by apply (validator_starts lookup ledger c files bs).
  - intros sched. apply scheduler_needs_intents. set_solver.
  - intros sched. apply engine_needs_tasks. set_solver.
Qed.

(** Plain defaults, no ledger yet. *)
Lemma services_start_in_order_witness :
  run_result main_exec (intent_main (fun _ => None)) [] (boot None (mk_conn 0 0 0) (fun p => Some p) []) = 0.
Proof.
  apply (services_start_in_order (fun _ => None) None (mk_conn 0 0 0) (fun p => Some p) "store/schema.sql" []);
    [reflexivity|intros Hne; by destruct Hne|reflexivity].
Defined.
