(* ===== verification/CertsFacts.v ===== *)
(** * The generated certificates, and the services that use them *)
From S2P Require Import Prelude GoLib Effects Startup Engine Mains MainsFacts Certs.
Abbreviation wp := (Effects.wp cert_exec).

(** ** The calendar *)
Lemma div_pred y n : 0 < n -> y / n = (y - 1) / n + (if y mod n =? 0 then 1 else 0).
Proof.
  intros Hn. pose proof (Z.div_mod y n ltac:(lia)) as Hy. pose proof (Z.mod_pos_bound y n Hn) as Hm.
  destruct (Z.eqb_spec (y mod n) 0) as [H0|H0].
  - assert ((y - 1) / n = y / n - 1); [|lia]. symmetry. apply (Z.div_unique _ _ _ (n - 1)); lia.
  - assert ((y - 1) / n = y / n); [|lia]. symmetry. apply (Z.div_unique _ _ _ (y mod n - 1)); lia.
Qed.
Lemma days_before_succ y : days_before (y + 1) = days_before y + 365 + (if leap y then 1 else 0).
Proof.
  unfold days_before, leap. cbv zeta. replace (y + 1 - 1) with y by lia.
  rewrite (div_pred y 4), (div_pred y 100), (div_pred y 400) by lia.
  assert (H4 : y mod 100 = 0 -> y mod 4 = 0).
  { intros Hy. apply Z.mod_divide in Hy as [q ->]; [|lia]. apply Z.mod_divide; [lia|]. exists (q * 25). lia. }
  assert (H100 : y mod 400 = 0 -> y mod 100 = 0).
  { intros Hy. apply Z.mod_divide in Hy as [q ->]; [|lia]. apply Z.mod_divide; [lia|]. exists (q * 4). lia. }
  destruct (Z.eqb_spec (y mod 4) 0), (Z.eqb_spec (y mod 100) 0), (Z.eqb_spec (y mod 400) 0); cbn [andb orb negb];
    solve [tauto|lia].
Qed.
Lemma days_before_add y k : 0 <= k -> days_before y + 365 * k <= days_before (y + k).
Proof.
  intros Hk. revert k Hk. apply (natlike_ind (fun k => days_before y + 365 * k <= days_before (y + k))).
  { by rewrite !Z.add_0_r. }
  intros k Hk IH.
  replace (y + Z.succ k) with (y + k + 1) by lia. rewrite days_before_succ. destruct (leap _); lia.
Qed.

(** Some years later is at least as many times 365 days later. *)
Lemma same_day_later y d k : 0 < k -> d + 365 * k <= days_before (y + k) + same_day y (y + k) (d - days_before y).
Proof.
  intros Hk. pose proof (days_before_add (y + 1) (k - 1)) as Hb. replace (y + 1 + (k - 1)) with (y + k) in Hb by lia.
  pose proof (days_before_succ y) as Hs. unfold same_day. destruct (leap y), (leap (y + k)); cbn [andb negb];
    try (destruct (60 <=? _)); try (destruct (59 <=? _)); lia.
Qed.
Lemma add_years_later k t : 0 < k -> t + 365 * k * day_ns <= add_years k t.
Proof.
  intros Hk. unfold add_years. cbv zeta. pose proof (Z.div_mod t day_ns ltac:(discriminate)) as Ht.
  pose proof (same_day_later (civil_year (t / day_ns + epoch)) (t / day_ns + epoch) k Hk) as Hd.
  revert Ht Hd. generalize (days_before (civil_year (t / day_ns + epoch) + k)). generalize (same_day (civil_year (t / day_ns + epoch))
    (civil_year (t / day_ns + epoch) + k) (t / day_ns + epoch - days_before (civil_year (t / day_ns + epoch)))).
  generalize (t / day_ns), (t mod day_ns), epoch. unfold day_ns. lia.
Qed.

Lemma to_seconds_le t : to_seconds t <= t < to_seconds t + 1000000000.
Proof. unfold to_seconds. Z.to_euclidean_division_equations. lia. Qed.

(** ** What a run may have done to the machine *)
Definition cert_files : list string :=
  map in_certs ["ca.pem"; "server-cert.pem"; "server-key.pem"; "client-cert.pem"; "client-key.pem"].

Definition now (m : machine) : Z := m_clock m (m_asked m).
Definition ticking (m : machine) : Prop := forall n, m_clock m n <= m_clock m (S n).

(** Later: only files of the generator were touched. *)
Definition later (m m' : machine) : Prop :=
  m_clock m' = m_clock m /\ (m_asked m <= m_asked m')%nat /\
  forall name, name ∉ cert_files -> m_files m' !! name = m_files m !! name.
#[export] Instance later_preorder : PreOrder later.
Proof.
  split; [intros m; by split_and!|]. intros m1 m2 m3 (Hc & Ha & Hf) (Hc' & Ha' & Hf'). split_and!; [congruence|lia|].
  intros name Hn. by rewrite Hf', Hf.
Qed.
Lemma ask_later m : later m (ask m).
Proof. by split_and!; cbn; [|lia|]. Qed.
Lemma write_later name s m : name ∈ cert_files -> later m (set_files <[name := s]> m).
Proof. intros Hn. split_and!; [done|cbn; lia|]. intros n Hne. cbn. rewrite lookup_insert_ne by set_solver. done. Qed.
Lemma later_now m m' : ticking m -> later m m' -> now m <= now m' /\ ticking m'.
Proof.
  intros Ht (Hc & Ha & _). unfold now, ticking. rewrite Hc. split; [|exact Ht].
  induction Ha as [|n _ IH]; [lia|]. specialize (Ht n). lia.
Qed.

Section facts.
Context `{X509}.
Implicit Types m : machine.

Lemma wp_try {A B} (p : proc certE (result string A)) (k : A -> proc certE (result string B)) Q m :
  wp p (fun r m' => match r with Ok x => wp (k x) Q m' | Err err => Q (Err err) m' end) m -> wp (try p k) Q m.
Proof. intros Hp. apply wp_bind. eapply wp_mono; [|exact Hp]. by intros [x|err] m'. Qed.

(** An operation fails some time later, or goes on. *)
Definition or_later {A} (m : machine) (Q : A -> machine -> Prop) (r : result string A) (m' : machine) : Prop :=
  match r with Ok x => Q x m' | Err _ => later m m' end.

Lemma wp_draw {A} (e : certE (result string A)) (f : string -> A) (Q : A -> machine -> Prop) m :
  (forall o, cert_exec _ e o m = draw f o m) -> (forall x, Q x (ask m)) -> wp (trigger e) (or_later m Q) m.
Proof. intros He HQ o. rewrite He. destruct o; cbn; auto using ask_later. Qed.

Lemma wp_savePEM name ty der (Q : unit -> machine -> Prop) m :
  name ∈ cert_files -> Q tt (set_files <[name := pem_encode ty der]> m) -> wp (savePEM name ty der) (or_later m Q) m.
Proof.
  intros Hn HQ. apply wp_try. intros o. cbn. destruct (m_dir m); cbn; [|reflexivity].
  destruct o; cbn; [|reflexivity|by apply write_later|reflexivity].
  assert (Hw : forall s, later m (set_files <[name := s]> (set_files <[name := ""%string]> m))).
  { intros s. etransitivity; by apply write_later. }
  intros o. destruct o; cbn; [|by apply write_later|apply Hw|apply Hw].
  replace (set_files <[name := pem_encode ty der]> (set_files <[name := ""%string]> m))
    with (set_files <[name := pem_encode ty der]> m); [exact HQ|].
  unfold set_files. cbn. by rewrite insert_insert_eq.
Qed.

(** Sequencing with [or_later]. *)
Lemma wp_then {A B} (p : proc certE (result string A)) (k : A -> proc certE (result string B)) (Q : B -> machine -> Prop) m0 m :
  later m0 m -> wp p (or_later m (fun x m' => wp (k x) (or_later m0 Q) m')) m -> wp (try p k) (or_later m0 Q) m.
Proof.
  intros Hl Hp. apply wp_try. eapply wp_mono; [|exact Hp]. intros [x|err] m'; cbn; [done|]. by etransitivity.
Qed.

Lemma wp_key_and_serial {B} (k : string -> Z -> proc certE (result string B)) (Q : B -> machine -> Prop) m :
  (forall priv serial m', later m m' -> m_files m' = m_files m -> wp (k priv serial) (or_later m Q) m') ->
  wp (key_and_serial k) (or_later m Q) m.
Proof.
  intros Hk. apply wp_then; [reflexivity|]. apply (wp_draw _ rsa_generate); [done|]. intros priv.
  apply wp_then; [apply ask_later|]. apply (wp_draw _ (fun r => rand_int r (Z.shiftl 1 128))); [done|]. intros serial.
  apply Hk; [|done]. etransitivity; apply ask_later.
Qed.

(** ** Certificates in files *)
Definition cert_in (m : machine) (name : string) : option Certificate :=
  content ← m_files m !! in_certs name;
  '(ty, der) ← pem_decode content;
  if bool_decide (ty = "CERTIFICATE"%string) then
    match ParseCertificate der with Ok c => Some c | Err _ => None end
  else None.
Definition key_in (m : machine) (name : string) : option string :=
  content ← m_files m !! in_certs name;
  '(ty, der) ← pem_decode content;
  if bool_decide (ty = "PRIVATE KEY"%string) then
    match ParsePKCS8PrivateKey der with Ok k => Some k | Err _ => None end
  else None.

Lemma cert_in_same m m' name :
  m_files m' !! in_certs name = m_files m !! in_certs name -> cert_in m' name = cert_in m name.
Proof. unfold cert_in. by intros ->. Qed.
Lemma key_in_same m m' name :
  m_files m' !! in_certs name = m_files m !! in_certs name -> key_in m' name = key_in m name.
Proof. unfold key_in. by intros ->. Qed.
Lemma cert_written m name der c :
  m_files m !! in_certs name = Some (pem_encode "CERTIFICATE" der) -> ParseCertificate der = Ok c -> cert_in m name = Some c.
Proof. intros Hf Hp. unfold cert_in. rewrite Hf. cbn. rewrite pem_decode_encode. cbn. by rewrite Hp. Qed.
Lemma key_written m name der k :
  m_files m !! in_certs name = Some (pem_encode "PRIVATE KEY" der) -> ParsePKCS8PrivateKey der = Ok k -> key_in m name = Some k.
Proof. intros Hf Hp. unfold key_in. rewrite Hf. cbn. rewrite pem_decode_encode. cbn. by rewrite Hp. Qed.

(** A time the clock showed between [m] and [m']. *)
Definition between (m m' : machine) (t : Z) : Prop := now m <= t <= now m'.

Lemma wp_generateCA m :
  ticking m ->
  wp generateCA (or_later m (fun ca m' => exists serial t t',
    later m m' /\ between m m' t /\ between m m' t' /\
    let template := ca_template serial t (add_years 10 t') in
    let cert := issued template template (rsa_public ca.1) (rsa_public ca.1) in
    ParseCertificate ca.2 = Ok cert /\ cert_in m' "ca.pem" = Some cert)) m.
Proof.
  intros Ht. apply wp_key_and_serial. intros priv serial m1 Hl1 _ o1 o2. cbn [cert_exec fst snd].
  set (m3 := ask (ask m1)). set (template := ca_template _ _ _).
  assert (Hl3 : later m m3) by (etransitivity; [exact Hl1|etransitivity; apply ask_later]).
  unfold of_result. destruct (CreateCertificate _ _ _ _) as [der|err] eqn:Hc; [|exact Hl3].
  apply wp_then; [exact Hl3|]. apply wp_savePEM; [set_solver|]. cbn. exists serial, (m_clock m1 (m_asked m1)), (m_clock m1 (S (m_asked m1))).
  assert (Hl4 : forall s, later m (set_files <["certs/ca.pem"%string := s]> m3)).
  { intros s. etransitivity; [exact Hl3|]. apply write_later. set_solver. }
  destruct (later_now _ _ Ht Hl1) as [Hn1 Ht1]. pose proof (Ht1 (m_asked m1)) as Hn2. pose proof (Ht1 (S (m_asked m1))) as Hn3.
  apply create_parse in Hc. split; [apply Hl4|]. unfold between, now in *. cbn. split; [lia|]. split; [lia|].
  split; [exact Hc|]. eapply cert_written; [|exact Hc]. cbn. by rewrite lookup_insert_eq.
Qed.

Lemma wp_generate_leaf template cert_file key_file caKey caCertBytes caCert m :
  ticking m -> in_certs cert_file ∈ cert_files -> in_certs key_file ∈ cert_files -> cert_file <> key_file ->
  ParseCertificate caCertBytes = Ok caCert ->
  wp (generate_leaf template cert_file key_file caKey caCertBytes) (or_later m (fun _ m' => exists serial t t' priv,
    later m m' /\ between m m' t /\ between m m' t' /\
    cert_in m' cert_file = Some (issued (template serial t (add_years 2 t')) caCert (rsa_public priv) (rsa_public caKey)) /\
    key_in m' key_file = Some priv /\
    forall name, name <> in_certs cert_file -> name <> in_certs key_file -> m_files m' !! name = m_files m !! name)) m.
Proof.
  intros Ht Hcf Hkf Hne Hca. unfold generate_leaf. rewrite Hca. cbn [of_result].
  apply wp_key_and_serial. intros priv serial m1 Hl1 Hf1 o1 o2. cbn [cert_exec fst snd].
  set (m3 := ask (ask m1)). assert (Hl3 : later m m3) by (etransitivity; [exact Hl1|etransitivity; apply ask_later]).
  unfold of_result at 1. destruct (CreateCertificate _ _ _ _) as [der|err] eqn:Hc; [|exact Hl3].
  apply wp_then; [exact Hl3|]. apply wp_savePEM; [exact Hcf|]. set (m4 := set_files _ m3).
  assert (Hl4 : later m m4) by (etransitivity; [exact Hl3|by apply write_later]).
  unfold of_result. destruct (MarshalPKCS8PrivateKey priv) as [bytes|err] eqn:Hk; [|exact Hl4].
  eapply wp_mono with (Q := or_later m4 _); [|apply wp_savePEM; [exact Hkf|]].
  { intros [u|err] m' Hr; [exact Hr|]. cbn in Hr |- *. by transitivity m4. }
  set (m5 := set_files _ m4). exists serial, (m_clock m1 (m_asked m1)), (m_clock m1 (S (m_asked m1))), priv.
  destruct (later_now _ _ Ht Hl1) as [Hn1 Ht1]. pose proof (Ht1 (m_asked m1)) as Hn2. pose proof (Ht1 (S (m_asked m1))) as Hn3.
  assert (Hnames : in_certs key_file <> in_certs cert_file).
  { unfold in_certs. intros Heq. cbn in Heq. congruence. }
  split; [etransitivity; [exact Hl4|by apply write_later]|]. unfold between, now in *. cbn [m5 m4 m3 ask set_files m_clock m_asked].
  split; [lia|]. split; [lia|]. split; [|split].
  - eapply cert_written; [|by apply create_parse]. cbn. by rewrite lookup_insert_ne, lookup_insert_eq.
  - eapply key_written; [|by apply pkcs8_parse]. cbn. by rewrite lookup_insert_eq.
  - intros name Hn1' Hn2'. cbn. rewrite !lookup_insert_ne by done. by rewrite <-Hf1.
Qed.

(** ** What a peer checks
    crypto/x509's verification of a certificate under the only certificate of
    the pool, for one usage. *)
Definition valid_at (t : Z) (c : Certificate) : bool := (NotBefore c <=? t) && (t <=? NotAfter c).
Definition verifies (ca leaf : Certificate) (usage : ExtKeyUsage) (t : Z) : bool :=
  IsCA ca && BasicConstraintsValid ca && Z.testbit (KeyUsage ca) 5 &&
  bool_decide (Issuer leaf = Some (Subject ca)) && bool_decide (is_Some (PublicKey ca) /\ SignedBy leaf = PublicKey ca) &&
  valid_at t ca && valid_at t leaf &&
  bool_decide (usage ∈ ExtKeyUsages ca) && bool_decide (usage ∈ ExtKeyUsages leaf).

Definition validity : Z := 730 * day_ns - 1000000000.
Lemma valid_between k m m' t t' u :
  (k = 2 \/ k = 10) -> between m m' t -> between m m' t' -> now m' <= u <= now m + validity ->
  (to_seconds t <=? u) && (u <=? to_seconds (add_years k t')) = true.
Proof.
  intros Hk [_ Ht] [Ht' _] Hu. pose proof (to_seconds_le t) as Hs. pose proof (to_seconds_le (add_years k t')) as Hs'.
  assert (Hy : t' + 365 * k * day_ns <= add_years k t') by (apply add_years_later; lia).
  unfold validity, day_ns in *. apply andb_true_iff. split; apply Z.leb_le; destruct Hk; subst k; lia.
Qed.

(** The five files of a complete run. *)
Definition complete (m m' : machine) : Prop :=
  exists ca server client server_key client_key,
    cert_in m' "ca.pem" = Some ca /\ cert_in m' "server-cert.pem" = Some server /\ cert_in m' "client-cert.pem" = Some client /\
    key_in m' "server-key.pem" = Some server_key /\ PublicKey server = Some (rsa_public server_key) /\
    key_in m' "client-key.pem" = Some client_key /\ PublicKey client = Some (rsa_public client_key) /\
    DNSNames server = ["localhost"; "intent-service"; "wallet"; "wallet-service"]%string /\
    forall u, now m' <= u <= now m + validity ->
      verifies ca server ExtKeyUsageServerAuth u = true /\ verifies ca client ExtKeyUsageClientAuth u = true /\
      verifies ca server ExtKeyUsageClientAuth u = false /\ verifies ca client ExtKeyUsageServerAuth u = false.

Lemma wp_exit_on_error {A} (p : proc certE (result string A)) (k : A -> proc certE Z) m0 m (Q : A -> machine -> Prop) (R : Z -> machine -> Prop) :
  later m0 m -> wp p (or_later m Q) m -> (forall m', later m0 m' -> R 1 m') ->
  (forall x m', Q x m' -> wp (k x) R m') -> wp (exit_on_error p k) R m.
Proof.
  intros Hl Hp He Hk. apply wp_bind. eapply wp_mono; [|exact Hp]. intros [x|err] m' Hr; cbn in Hr |- *; [by apply Hk|].
  apply He. by etransitivity.
Qed.

Lemma between_mono m0 m1 m2 m3 t :
  ticking m0 -> later m0 m1 -> later m1 m2 -> later m2 m3 -> between m1 m2 t -> between m0 m3 t.
Proof.
  intros Ht H1 H2 H3 [Ha Hb]. destruct (later_now _ _ Ht H1) as [Hn1 Ht1].
  destruct (later_now _ _ Ht1 H2) as [Hn2 Ht2]. destruct (later_now _ _ Ht2 H3) as [Hn3 _]. split; lia.
Qed.

Lemma wp_certs_main m :
  ticking m ->
  wp Certs.main (fun code m' => later m m' /\ (code = 1 \/ code = 0 /\ complete m m')) m.
Proof.
  intros Ht. unfold Certs.main.
  assert (He : forall m', later m m' -> later m m' /\ (1 = 1 \/ 1 = 0 /\ complete m m')) by auto.
  eapply (wp_exit_on_error _ _ m _ (fun _ m1 => later m m1)); [reflexivity| |exact He|].
  { intros o. cbn. by destruct o. }
  intros _ m1 Hl1. destruct (later_now _ _ Ht Hl1) as [_ Ht1].
  eapply wp_exit_on_error; [exact Hl1|by apply wp_generateCA|exact He|].
  intros [caKey caDer] m2 (sa & ta & ta' & Hl2 & Hta & Hta' & Hpa & Hca). cbn [fst snd] in *.
  assert (Hl02 : later m m2) by by transitivity m1. destruct (later_now _ _ Ht Hl02) as [_ Ht2].
  eapply wp_exit_on_error; [exact Hl02| |exact He|].
  { eapply wp_generate_leaf; [exact Ht2|set_solver|set_solver|done|exact Hpa]. }
  intros _ m3 (ss & ts & ts' & sk & Hl3 & Hts & Hts' & Hserver & Hskey & Hf3).
  assert (Hl03 : later m m3) by by transitivity m2. destruct (later_now _ _ Ht Hl03) as [_ Ht3].
  eapply wp_exit_on_error; [exact Hl03| |exact He|].
  { eapply wp_generate_leaf; [exact Ht3|set_solver|set_solver|done|exact Hpa]. }
  intros _ m4 (sc & tc & tc' & ck & Hl4 & Htc & Htc' & Hclient & Hckey & Hf4).
  assert (Hl04 : later m m4) by by transitivity m3. cbn. split; [exact Hl04|]. right. split; [done|].
  assert (Hl24 : later m2 m4) by by transitivity m3.
  eexists _, _, _, sk, ck.
  split. { rewrite (cert_in_same m3 m4), (cert_in_same m2 m3); [exact Hca|apply Hf3; done|apply Hf4; done]. }
  split. { rewrite (cert_in_same m3 m4); [exact Hserver|apply Hf4; done]. }
  split; [exact Hclient|].
  split. { rewrite (key_in_same m3 m4); [exact Hskey|apply Hf4; done]. }
  split; [reflexivity|]. split; [exact Hckey|]. split; [reflexivity|]. split; [reflexivity|]. intros u Hu.
  assert (Hvc : (to_seconds ta <=? u) && (u <=? to_seconds (add_years 10 ta')) = true).
  { apply (valid_between 10 m m4); [by right|by eapply (between_mono m m1 m2 m4)..|exact Hu]. }
  assert (Hvs : (to_seconds ts <=? u) && (u <=? to_seconds (add_years 2 ts')) = true).
  { apply (valid_between 2 m m4); [by left|by eapply (between_mono m m2 m3 m4)..|exact Hu]. }
  assert (Hvl : (to_seconds tc <=? u) && (u <=? to_seconds (add_years 2 tc')) = true).
  { apply (valid_between 2 m m4); [by left|by eapply (between_mono m m3 m4 m4)..|exact Hu]. }
  unfold verifies, valid_at. cbn [issued ca_template server_template client_template IsCA BasicConstraintsValid KeyUsage
    Issuer Subject PublicKey SignedBy NotBefore NotAfter ExtKeyUsages]. rewrite Hvc, Hvs, Hvl.
  rewrite (bool_decide_eq_true_2 (is_Some (Some (rsa_public caKey)) /\ _)) by (split; [by eexists|done]).
  split_and!; reflexivity.
Qed.
End facts.

(** ** The names the services expect
    [ServerName] of the TLS configuration of a client. *)
Definition names_expected (names : list string) (s : site) : Prop :=
  Forall (fun a => match a with NewClient _ serverName _ => serverName ∈ names | _ => True end) (s_acts s).

Lemma names_loading names l s :
  Forall tls_loading l -> names_expected names s -> names_expected names (foldr acted s l).
Proof. intros Hl Hs. induction Hl as [|a l Ha _ IH]; [exact Hs|]. constructor; [by destruct a|exact IH]. Qed.

Lemma wp_main_names lookup x ledger c files streams :
  Effects.wp main_exec (Mains.main lookup x) (fun _ s => names_expected ["wallet"; "intent-service"]%string s)
    (boot ledger c files streams).
Proof.
  assert (Hstart : names_expected ["wallet"; "intent-service"]%string (boot ledger c files streams)) by constructor.
  destruct x; cbn [Mains.main]; unfold wallet_main, intent_main, scheduler_main, engine_main, validator_main, gateway_main, connect_nats;
    repeat step_main;
    repeat first [exact Hstart | apply names_loading; [assumption|] | apply Forall_cons; split; [first [exact I | set_solver]|]].
Qed.

(** C35: the certificates fit the services.  Whatever fails, the generator touches
    no file but its five, and ends with code 1 unless all five are complete:
    the certificate of the authority, and a certificate with its own key for the
    servers and for the clients.  Up to 730 days from the start the authority
    vouches for the server certificate as a server's and for the client
    certificate as a client's, and not the other way round, and the server
    certificate carries every name that a client of the services asks for. *)
Theorem certificates_fit_services `{X509} sched m :
  ticking m ->
  let code := run_result cert_exec Certs.main sched m in
  let m' := run_state cert_exec Certs.main sched m in
  (forall name, name ∉ cert_files -> m_files m' !! name = m_files m !! name) /\
  (code = 1 \/ code = 0 /\ complete m m' /\
    exists server, cert_in m' "server-cert.pem" = Some server /\
      forall lookup x sched' ledger c files streams addr serverName mtls,
        NewClient addr serverName mtls ∈
          s_acts (run_state main_exec (Mains.main lookup x) sched' (boot ledger c files streams)) ->
        serverName ∈ DNSNames server).
Proof.
  intros Ht code m'. destruct (wp_run cert_exec _ _ m sched (wp_certs_main m Ht)) as [(_ & _ & Hf) Hcode].
  split; [exact Hf|]. destruct Hcode as [Hcode|[Hcode Hc]]; [by left|right]. split; [exact Hcode|]. split; [exact Hc|].
  destruct Hc as (ca & server & client & sk & ck & _ & Hs & _ & _ & _ & _ & _ & Hnames & _). exists server.
  split; [exact Hs|]. intros lookup x sched' ledger c files streams addr serverName mtls Hact. rewrite Hnames.
  pose proof (wp_run main_exec _ _ _ sched' (wp_main_names lookup x ledger c files streams)) as Hexp.
  cbv beta in Hexp. unfold names_expected in Hexp. rewrite Forall_forall in Hexp. specialize (Hexp _ Hact). cbn in Hexp. set_solver.
Qed.

(** ** A run on a concrete machine
    Its authority knows three certificates, each by its subject. *)
Definition clock_at (n : nat) : Z := 1700000000 * 1000000000 + Z.of_nat n * 1000000.
Definition toy_machine : machine := mk_machine false {["README.md" := "certificates"]}%string (fun n => itoa (Z.of_nat n)) clock_at 0.
Definition toy_public (key : string) : string := ("public " +:+ key)%string.
Definition toy_serial : Z := 7.
Definition toy_ca : Certificate :=
  let t := ca_template toy_serial (clock_at 2) (add_years 10 (clock_at 3)) in issued t t (toy_public "0") (toy_public "0").
Definition toy_server : Certificate :=
  issued (server_template toy_serial (clock_at 6) (add_years 2 (clock_at 7))) toy_ca (toy_public "4") (toy_public "0").
Definition toy_client : Certificate :=
  issued (client_template toy_serial (clock_at 10) (add_years 2 (clock_at 11))) toy_ca (toy_public "8") (toy_public "0").
#[local] Instance Certificate_eq_dec : EqDecision Certificate.
Proof. solve_decision. Defined.

(** Every character of the type after a mark, then another mark. *)
Fixpoint toy_encode (ty bytes : string) : string :=
  match ty with
  | EmptyString => String (Zbyte 48) bytes
  | String c ty' => String (Zbyte 49) (String c (toy_encode ty' bytes))
  end.
Fixpoint toy_decode (s : string) : option (string * string) :=
  match s with
  | String m s' =>
      if byteZ m =? 48 then Some (""%string, s')
      else match s' with
           | String c s2 => match toy_decode s2 with Some (ty, b) => Some (String c ty, b) | None => None end
           | EmptyString => None
           end
  | EmptyString => None
  end.
Lemma toy_decode_encode ty bytes : toy_decode (toy_encode ty bytes) = Some (ty, bytes).
Proof. induction ty as [|c ty IH]; [done|]. cbn [toy_encode toy_decode]. change (byteZ (Zbyte 49) =? 48) with false. by rewrite IH. Qed.

Definition toy_create (template parent : Certificate) (pub priv : string) : result string string :=
  let c := issued template parent pub (toy_public priv) in
  if bool_decide (c = toy_ca) then Ok "ca"%string
  else if bool_decide (c = toy_server) then Ok "server"%string
  else if bool_decide (c = toy_client) then Ok "client"%string
  else Err "unknown certificate"%string.
Definition toy_parse (der : string) : result string Certificate :=
  if bool_decide (der = "ca"%string) then Ok toy_ca
  else if bool_decide (der = "server"%string) then Ok toy_server
  else if bool_decide (der = "client"%string) then Ok toy_client
  else Err "unknown certificate"%string.
Definition toy_x509 : X509.
Proof.
  refine {| rsa_generate := id; rsa_public := toy_public; rand_int := fun _ _ => toy_serial;
            CreateCertificate := toy_create; ParseCertificate := toy_parse;
            MarshalPKCS8PrivateKey := Ok; ParsePKCS8PrivateKey := Ok;
            pem_encode := toy_encode; pem_decode := toy_decode |}.
  - intros template parent pub priv der. unfold toy_create.
    repeat (case_bool_decide; [intros [= <-]; match goal with Hc : issued _ _ _ _ = _ |- _ => rewrite Hc end; reflexivity|]). done.
  - by intros priv bytes [= ->].
  - apply toy_decode_encode.
Defined.

Lemma readme_untouched : "README.md"%string ∉ cert_files.
Proof. apply (bool_decide_eq_true_1 ("README.md"%string ∉ cert_files)). vm_compute. reflexivity. Qed.
Lemma certificates_fit_services_witness :
  let r := run (@cert_exec toy_x509) (@Certs.main toy_x509) [] toy_machine in
  r.1.1 = 0 /\ m_files r.1.2 !! "README.md"%string = Some "certificates"%string /\ @complete toy_x509 toy_machine r.1.2.
Proof.
  destruct (@certificates_fit_services toy_x509 [] toy_machine) as [Hf Hcode].
  { intros n. unfold toy_machine, clock_at. cbn [m_clock]. lia. }
  assert (H0 : run_result (@cert_exec toy_x509) (@Certs.main toy_x509) [] toy_machine = 0) by (vm_compute; reflexivity).
  split; [exact H0|]. split.
  - exact (Hf _ readme_untouched).
  - destruct Hcode as [H1|(_ & Hc & _)]; [rewrite H0 in H1; discriminate H1|exact Hc].
Defined.
