(* ===== verification/EnginePool.v ===== *)
(** * The engine's worker pool: execution-engine/main.go

    main starts WORKER_POOL_SIZE goroutines [startWorker] on one channel; the
    subscription feeds it the delivered tasks.  Each worker executes a task and
    settles its message. *)
From S2P Require Import Prelude GoLib Effects Concurrent WorkerPool Sql Proto Float64 Float64Facts WalletProto Wallet IntentDb System.
From S2P Require Import IntentStore Crypto Scheduler Engine Mains MainsFacts Concrete.

Section engine_pool.
Context `{Postgres} `{NumericCodec} `{ProtoCodec}.

(** A task of the channel: the id the wallet will draw for it, and the message. *)
Definition task : Type := string * msg.
Definition serve_task (t : task) : proc sysE (result string unit) := executeTask t.1 t.2.
Abbreviation task_pool := (pool (E:=sysE) (S:=world) (A:=task) (R:=result string unit)).
Definition engine_step : task_pool -> task_pool -> Prop := step sys_exec serve_task.
(** [setting] is the text of WORKER_POOL_SIZE. *)
Definition engine_pool (setting : string) (taskChan : list task) (w : world) : task_pool :=
  start (Z.to_nat (pool_size setting)) taskChan w.
(** What the worker tells the stream about each message. *)
Definition settled (c : task_pool) : list (task * ack) := map (fun tr => (tr.1, settle tr.2)) (served c).

Lemma run_startWorker tasks sched w :
  run_state sys_exec (startWorker tasks) sched w = run_state sys_exec (loop serve_task tasks) sched w /\
  run_result sys_exec (startWorker tasks) sched w = map settle (run_result sys_exec (loop serve_task tasks) sched w).
Proof.
  unfold run_state, run_result.
  enough (Hrun : forall sched w, run sys_exec (startWorker tasks) sched w
    = let '(rs, w', sc) := run sys_exec (loop serve_task tasks) sched w in (map settle rs, w', sc)).
  { rewrite Hrun. by destruct (run sys_exec (loop serve_task tasks) sched w) as [[rs w'] sc]. }
  clear sched w. induction tasks as [|[txID m] tasks IH]; intros sched w; [done|].
  cbn [startWorker loop]. unfold mbind, proc_mbind. rewrite !run_bind. unfold serve_task at 1. cbn [fst snd].
  destruct (run sys_exec (executeTask txID m) sched w) as [[r w1] sc1]. rewrite !run_bind, IH.
  by destruct (run sys_exec (loop serve_task tasks) sc1 w1) as [[rs w2] sc2].
Qed.

(** C23: the engine's worker pool.  Whatever WORKER_POOL_SIZE says, however the
    workers interleave and whatever fails, every run over the delivered tasks
    ends, and when it has ended each delivered task has been executed by exactly
    one worker and settled once.  A pool of size 1 is the sequential loop: tasks
    are executed in the order of their delivery, with the world and the
    acknowledgements that startWorker alone leaves under some outcomes. *)
Theorem engine_pool_settles_all setting taskChan w :
  sn engine_step (engine_pool setting taskChan w) /\
  (exists c, rtc engine_step (engine_pool setting taskChan w) c /\ nf engine_step c) /\
  forall c, rtc engine_step (engine_pool setting taskChan w) c -> nf engine_step c ->
    map fst (settled c) ≡ₚ taskChan /\
    (pool_size setting = 1 -> map fst (settled c) = taskChan /\
     exists sched, run_state sys_exec (startWorker taskChan) sched w = shared c /\
       run_result sys_exec (startWorker taskChan) sched w = map snd (settled c)).
Proof.
  pose proof (pool_size_pos setting) as Hpos. split; [apply pool_sn|]. split; [apply pool_finishes; lia|].
  intros c Hr Hnf. unfold settled. rewrite !map_map. cbn [fst snd]. split.
  - apply (pool_ends _ _ _ _ _ _ Hr Hnf). lia.
  - intros Hone. unfold engine_pool in Hr. rewrite Hone in Hr.
    destruct (one_worker_runs _ _ _ _ _ Hr Hnf) as (Hord & sched & Hs & Hres).
    split; [exact Hord|]. exists sched. destruct (run_startWorker taskChan sched w) as [-> ->].
    rewrite Hres, map_map. by split.
Qed.
End engine_pool.
