(* ===== verification/Metrics.v ===== *)
(** * The metrics of the services

    shared/metrics/metrics.go and the package variables and init functions of
    the six main packages: what each process registers with Prometheus, what a
    [Metric] event of its handlers may tell, the loop that shows the statistics of
    the connection pool, and the routes of the metrics server. *)
From S2P Require Import Prelude GoLib Effects Float64 Json Http HttpFacts System Gateway Startup Engine Mains MainsFacts.

Inductive metric_kind : Type := Counter | Gauge | Histogram.
Record collector := mk_collector { c_kind : metric_kind; c_name : string; c_labels : list string }.

(** The collectors of the init functions, in their order. *)
Definition intent_collectors : list collector :=
  [mk_collector Counter "aien_intent_service_grpc_requests_total" ["method"; "status"];
   mk_collector Histogram "aien_intent_service_grpc_request_duration_seconds" ["method"]]%string.
Definition scheduler_collectors : list collector :=
  [mk_collector Counter "aien_scheduler_intents_scheduled_total" ["type"];
   mk_collector Counter "aien_scheduler_intents_rejected_total" ["type"; "reason"];
   mk_collector Histogram "aien_scheduler_scheduling_duration_seconds" []]%string.
Definition engine_collectors : list collector :=
  [mk_collector Counter "aien_execution_engine_tasks_executed_total" ["type"; "status"];
   mk_collector Histogram "aien_execution_engine_task_duration_seconds" ["type"];
   mk_collector Gauge "aien_execution_engine_active_workers" []]%string.
Definition validator_collectors : list collector :=
  [mk_collector Counter "aien_validator_ledger_blocks_total" ["type"];
   mk_collector Histogram "aien_validator_ledger_write_duration_seconds" [];
   mk_collector Counter "aien_validator_ledger_errors_total" []]%string.
Definition gateway_collectors : list collector :=
  [mk_collector Counter "aien_gateway_http_requests_total" ["method"; "path"; "status"];
   mk_collector Histogram "aien_gateway_http_request_duration_seconds" ["method"; "path"]]%string.
Definition init_collectors (x : service) : list collector :=
  match x with
  | WalletService => []
  | IntentService => intent_collectors
  | Scheduler => scheduler_collectors
  | ExecutionEngine => engine_collectors
  | Validator => validator_collectors
  | ApiGateway => gateway_collectors
  end.

(** MonitorDatabasePool(db, serviceName, ...): its four gauges. *)
Definition pool_collectors (serviceName : string) : list collector :=
  let gauge what := mk_collector Gauge ("aien_" +:+ serviceName +:+ "_db_connections_" +:+ what)%string [] in
  [gauge "open"; gauge "in_use"; gauge "idle"; gauge "wait_count_total"]%string.
(** The services that a process monitors, in the order of its calls. *)
Definition pools (acts : list act) : list string :=
  rev (omap (fun a => match a with MonitorPool name => Some name | _ => None end) acts).
(** Everything a process registers, init functions first, from what its main
    function did. *)
Definition registered (x : service) (acts : list act) : list collector :=
  init_collectors x ++ flat_map pool_collectors (pools acts).

(** What a [Metric] event has after the name: a value for each label, and for a
    gauge or a histogram what it is told. *)
Definition arity (c : collector) : nat :=
  length (c_labels c) + match c_kind c with Counter => 0 | Gauge | Histogram => 1 end.
Definition declared (x : service) (m : string * list string) : bool :=
  existsb (fun c => bool_decide (c_name c = m.1) && (length m.2 =? arity c)%nat) (init_collectors x).

(** The names Prometheus takes. *)
Definition name_start (c : ascii) : bool :=
  let b := byteZ c in ((97 <=? b) && (b <=? 122)) || ((65 <=? b) && (b <=? 90)) || (b =? 95) || (b =? 58).
Definition name_char (c : ascii) : bool := let b := byteZ c in name_start c || ((48 <=? b) && (b <=? 57)).
Definition valid_name (s : string) : bool :=
  match s with EmptyString => false | String c s' => name_start c && string_forall name_char s' end.
(** MustRegister does not panic: valid names, each registered once. *)
Definition registers (cs : list collector) : bool :=
  forallb (fun c => valid_name (c_name c) && forallb valid_name (c_labels c)) cs && bool_decide (NoDup (map c_name cs)).

(** ** Registration never panics *)
Definition pool_name (x : service) : option string :=
  match x with
  | IntentService => Some "intent_service" | Scheduler => Some "scheduler"
  | ExecutionEngine => Some "execution_engine" | Validator => Some "validator"
  | WalletService | ApiGateway => None
  end%string.
Definition monitored (x : service) (s : site) : Prop :=
  pools (s_acts s) = [] \/ pools (s_acts s) = option_list (pool_name x).

Lemma pools_loading l s : Forall tls_loading l -> pools (s_acts (foldr acted s l)) = pools (s_acts s).
Proof. induction 1 as [|a l Ha _ IH]; [done|]. rewrite <-IH. by destruct a. Qed.

Lemma pools_acted a s :
  pools (s_acts (acted a s)) = pools (s_acts s) ++ match a with MonitorPool name => [name] | _ => [] end.
Proof. unfold pools. destruct a; cbn; by rewrite ?app_nil_r. Qed.
Lemma pools_conn c s : pools (s_acts (with_conn c s)) = pools (s_acts s).
Proof. done. Qed.

Lemma wp_main_pools lookup x ledger c files streams :
  Effects.wp main_exec (main lookup x) (fun _ s => monitored x s) (boot ledger c files streams).
Proof.
  destruct x; cbn [main]; unfold wallet_main, intent_main, scheduler_main, engine_main, validator_main, gateway_main, connect_nats;
    repeat step_main; unfold monitored;
    repeat first [rewrite pools_acted | rewrite pools_conn | rewrite pools_loading by assumption]; first [by left | by right].
Qed.

(** The registry of every process.  However its start-up goes, what a
    service registers with Prometheus, in its init function and for its
    connection pool, has valid names and labels and no name twice, so
    MustRegister, which panics otherwise, does not. *)
Theorem registration_never_panics lookup x sched ledger c files streams :
  registers (registered x (s_acts (run_state main_exec (main lookup x) sched (boot ledger c files streams)))) = true.
Proof.
  pose proof (wp_run main_exec _ _ _ sched (wp_main_pools lookup x ledger c files streams)) as Hm. cbv beta in Hm.
  unfold registered. destruct Hm as [-> | ->]; destruct x; vm_compute; reflexivity.
Qed.

(** ** The monitoring loop
    Of [sql.DBStats] the four numbers that MonitorDatabasePool copies. *)
Record DBStats := mk_DBStats { OpenConnections : Z; InUse : Z; Idle : Z; WaitCount : Z }.
(** One tick: what each gauge is set to, in the order of the code. *)
Definition tick (serviceName : string) (stats : DBStats) : list (string * float64) :=
  zip (map c_name (pool_collectors serviceName))
    (map f_of_Z [OpenConnections stats; InUse stats; Idle stats; WaitCount stats]).
Definition set_gauges (sets : list (string * float64)) (gauges : gmap string float64) : gmap string float64 :=
  foldl (fun g nv => <[nv.1 := nv.2]> g) gauges sets.
(** [for range ticker.C]: the statistics at each tick so far. *)
Definition monitor_ticks (serviceName : string) (ticks : list DBStats) (gauges : gmap string float64)
  : gmap string float64 :=
  foldl (fun g stats => set_gauges (tick serviceName stats) g) gauges ticks.

Lemma pool_names_distinct serviceName : NoDup (map c_name (pool_collectors serviceName)).
Proof.
  cbn. set (name := fun what => ("aien_" +:+ serviceName +:+ "_db_connections_" +:+ what)%string).
  change (NoDup (name <$> ["open"; "in_use"; "idle"; "wait_count_total"]%string)). apply NoDup_fmap_2_strong.
  - intros a b _ _ Hab. unfold name in Hab. by apply (inj _), (inj _), (inj _) in Hab.
  - by apply (bool_decide_unpack _).
Qed.

Lemma set_gauges_other sets gauges name : name ∉ map fst sets -> set_gauges sets gauges !! name = gauges !! name.
Proof.
  unfold set_gauges. revert gauges; induction sets as [|[k v] sets IH]; intros gauges Hn; cbn; [done|].
  apply not_elem_of_cons in Hn as [Hk Hn]. by rewrite IH, lookup_insert_ne.
Qed.
Lemma set_gauges_all names values gauges :
  NoDup names -> length names = length values ->
  map (fun n => set_gauges (zip names values) gauges !! n) names = map Some values.
Proof.
  intros Hnd. revert values gauges; induction Hnd as [|n names Hn _ IH]; intros [|v values] gauges Hl; try done.
  cbn [map zip zip_with]. injection Hl as Hl. f_equal; [|by apply (IH values (<[n := v]> gauges))].
  unfold set_gauges. cbn [foldl fst snd].
  change (set_gauges (zip names values) (<[n := v]> gauges) !! n = Some v). rewrite set_gauges_other; [by rewrite lookup_insert_eq|].
  intros Hin. apply Hn. change (n ∈ (zip names values).*1) in Hin. rewrite fst_zip in Hin by lia. exact Hin.
Qed.
Lemma tick_names serviceName stats : map fst (tick serviceName stats) = map c_name (pool_collectors serviceName).
Proof. done. Qed.

(** The gauges of a service show the latest statistics, and the loop sets no
    other gauge. *)
Theorem monitor_shows_latest serviceName ticks stats gauges :
  let g := monitor_ticks serviceName (ticks ++ [stats]) gauges in
  map (fun c => g !! c_name c) (pool_collectors serviceName)
  = map (fun n => Some (f_of_Z n)) [OpenConnections stats; InUse stats; Idle stats; WaitCount stats] /\
  forall name, name ∉ map c_name (pool_collectors serviceName) -> g !! name = gauges !! name.
Proof.
  cbv zeta. unfold monitor_ticks. rewrite foldl_app. cbn [foldl]. split.
  - generalize (foldl (fun g stats => set_gauges (tick serviceName stats) g) gauges ticks) as g. intros g.
    pose proof (set_gauges_all (map c_name (pool_collectors serviceName))
      (map f_of_Z [OpenConnections stats; InUse stats; Idle stats; WaitCount stats]) g
      (pool_names_distinct serviceName) eq_refl) as Hall. rewrite map_map in Hall. exact Hall.
  - intros name Hname. rewrite set_gauges_other by (by rewrite tick_names).
    revert gauges. induction ticks as [|t ticks IH]; intros gauges; cbn [foldl]; [done|].
    by rewrite IH, set_gauges_other by (by rewrite tick_names).
Qed.

(** ** The metrics server: StartServer *)
Definition metrics_server (lib : libraries) (metrics : list (string * list string)) (r : Request) (w : ResponseWriter)
  : ResponseWriter :=
  if bool_decide (EscapedPath r = "*") then rw_WriteHeader StatusBadRequest w else
  match mux_route [("/metrics", promhttp lib metrics)]%string r with
  | RHandler h => h r w
  | RRedirect path => redirect lib path r w
  | RNotFound => inner (http_Error "404 page not found" StatusNotFound (mk_delegator w StatusOK))
  end.

Lemma metrics_path e p : pattern_matches "/metrics" e = true -> path_unescape e = Some p -> p = "/metrics"%string.
Proof.
  intros Hm Hp. unfold pattern_matches in Hm. change (segments "/metrics") with ["metrics"]%string in Hm.
  destruct e as [|c rest]; [done|]. cbn [segments] in Hm. destruct (Ascii.eqb_spec c slash) as [->|]; [|done].
  assert (Hp' : exists p', path_unescape rest = Some p' /\ p = String slash p').
  { unfold path_unescape in *. cbn in Hp. destruct (unescape false rest); [|done]. injection Hp as <-. eauto. }
  destruct Hp' as (p' & Hp' & ->). destruct (first_segment rest p' Hp') as (x & l & a & Hs & Hx & Hcase).
  rewrite Hs in Hm. cbn [match_segments] in Hm. apply andb_true_iff in Hm as [Ha Hl].
  apply bool_decide_eq_true in Ha. unfold segment in Ha. rewrite Hx in Ha. cbn in Ha. subst a.
  destruct Hcase as [[_ ->]|(s' & q & -> & _ & _)]; [done|]. destruct (split_on_nonempty slash s') as (y & l & Hy). by rewrite Hy in Hl.
Qed.

(** Only "/metrics" shows the metrics: every other path gets an answer that does
    not depend on them. *)
Theorem metrics_only_at_their_path lib r w metrics metrics' :
  path_unescape (EscapedPath r) = Some (Path r) -> Path r <> "/metrics"%string ->
  metrics_server lib metrics r w = metrics_server lib metrics' r w.
Proof.
  intros Hp Hne. unfold metrics_server, mux_route. case_bool_decide; [done|]. cbn [mux_match].
  generalize (if bool_decide (Method r = "CONNECT") then EscapedPath r else clean_path (EscapedPath r)) as path.
  intros path. destruct (pattern_matches "/metrics" path) eqn:Hm.
  - case_bool_decide as He; [|done]. subst path. destruct Hne. by eapply metrics_path.
  - destruct (pattern_matches "/metrics" (path +:+ String slash "")); cbn; by repeat case_match.
Qed.
