(* ===== verification/Pipeline.v ===== *)
(** * The intent pipeline as one concurrent system

    Intent service, outbox workers, schedulers, execution engines and
    validators, any number of each, on one database, one message log and one
    wallet service: which handlers may start, what the environment may do, and
    the invariant and the rely/guarantee that all of them keep. *)
From stdpp Require Import sorting.
From S2P Require Import Prelude GoLib Effects Concurrent Sql Proto Float64 WalletProto Wallet.
From S2P Require Import WalletFacts IntentDb System SystemRules IntentStore Crypto IntentHandler.
From S2P Require Import IntentFacts Outbox Scheduler Engine Validator.

Section pipeline.
Context `{Postgres} `{NumericCodec} `{ProtoCodec} `{TimeText} `{Ed25519}.

(** uuid.New() never repeats: an outbox id is drawn for one intent id. *)
Context (minted : string -> string).

Definition on_subject (prefix : string) (m : msg) : Prop := is_Some (strip_prefix prefix (Subject m)).

(** The durable consumers of the stream, the subjects each listens to, and what
    it does with a message; [arg] is the id the wallet gives its audit row, or
    the time stamp of the validator's block. *)
Inductive consumer : Type := AtScheduler | AtEngine | AtValidator.
Definition listens_to (c : consumer) : string :=
  match c with
  | AtScheduler => "intents.submitted."
  | AtEngine => "tasks.scheduled."
  | AtValidator => "intents.executed."
  end.
Definition on_message (c : consumer) (arg : string) (m : msg) : proc sysE ack :=
  match c with
  | AtScheduler => on_submitted m
  | AtEngine => r ← executeTask arg m; Ret (settle r)
  | AtValidator => on_executed arg m
  end.
(** A message for a consumer, by its position in the stream. *)
Definition delivery : Type := consumer * nat.

(** Handlers that no message starts: a submission, a read, a poll of an outbox
    worker. *)
Inductive background : proc sysE unit -> Prop :=
| back_submit id ob req :
    uuid_in id = Some id -> uuid_in ob = Some ob -> minted ob = id ->
    background (_ ← SubmitIntent id ob req; Ret tt)
| back_get req : background (_ ← GetIntent req; Ret tt)
| back_list req : background (_ ← ListIntents req; Ret tt)
| back_batch wk : background (_ ← processBatch wk; Ret tt).

(** Handlers that may start: those, and the delivery of a message of the stream
    to its consumer.  Every message may be delivered any number of times, also
    after it was acknowledged, as when a consumer is deleted and created again:
    what is shown of all runs of this system holds of the at-least-once delivery
    of JetStream in particular.  Acks.v has the system in which an acknowledged
    message is not delivered again. *)
Inductive starts (w : world) : proc sysE unit -> Prop :=
| start_background p : background p -> starts w p
| start_scheduler m :
    m ∈ w_nats w -> on_subject "intents.submitted." m -> starts w (_ ← on_submitted m; Ret tt)
| start_engine txID m :
    m ∈ w_nats w -> on_subject "tasks.scheduled." m -> starts w (_ ← executeTask txID m; Ret tt)
| start_validator ts m :
    m ∈ w_nats w -> on_subject "intents.executed." m -> starts w (_ ← on_executed ts m; Ret tt).

(** Time passes, the server drops row locks of lost connections, other clients
    call the wallet. *)
Inductive moves (w : world) : world -> Prop :=
| move_time t : w_now w <= t -> moves w (set_now t w)
| move_unlock l : l ⊆ w_locks w -> moves w (set_locks l w)
| move_wallet o sched : moves w (set_wallet (serve_db (w_now w) o sched (w_wallet w)) w).

Definition pipeline_step := system_step sys_exec starts moves.

(** Before the first request: no intents and no messages; the wallet has been
    in use. *)
Definition initial (t0 : Z) (w : world) : Prop :=
  w_db w = empty_db /\ w_nats w = [] /\ rtc (service_step (fun _ => True)) (seed_db t0) (w_wallet w).
Definition reaches (t0 : Z) (w : world) : Prop :=
  exists w0 ps, initial t0 w0 /\ rtc pipeline_step ([], w0) (ps, w).

Definition COMPLETED : string := "INTENT_STATUS_COMPLETED".
Definition PENDING : string := "INTENT_STATUS_PENDING".
Definition TRANSFER : string := "INTENT_TYPE_TRANSFER".

(** ** What never changes *)
Definition content (r : outbox_row) : msg := mk_msg (ob_topic r) (ob_payload r).
Definition same_request (r r' : intent_row) : Prop :=
  ir_type r' = ir_type r /\ ir_submitter_id r' = ir_submitter_id r /\ ir_payload r' = ir_payload r /\
  ir_priority r' = ir_priority r /\ ir_max_retries r' = ir_max_retries r /\
  ir_idempotent r' = ir_idempotent r /\ ir_deadline r' = ir_deadline r /\
  ir_signature r' = ir_signature r /\ ir_submitter_public_key r' = ir_submitter_public_key r /\
  ir_created_at r' = ir_created_at r.

Record grows (w w' : world) : Prop := {
  grows_intents : forall u r, intents (w_db w) !! u = Some r ->
    exists r', intents (w_db w') !! u = Some r' /\ same_request r r';
  grows_status : forall u r r', intents (w_db w) !! u = Some r -> intents (w_db w') !! u = Some r' ->
    ir_status r' = PENDING -> ir_status r = PENDING;
  grows_nats : w_nats w `prefix_of` w_nats w';
  grows_log : exists rows, wallet_transactions (w_wallet w') = rows ++ wallet_transactions (w_wallet w);
  grows_outbox : forall k r, outbox_events (w_db w) !! k = Some r ->
    (exists r', outbox_events (w_db w') !! k = Some r' /\ content r' = content r) \/ content r ∈ w_nats w';
  grows_once : forall k r', is_Some (intents (w_db w) !! minted k) ->
    outbox_events (w_db w') !! k = Some r' ->
    exists r, outbox_events (w_db w) !! k = Some r /\ content r = content r';
}.

Lemma same_request_refl r : same_request r r.
Proof. done. Qed.
Lemma same_request_trans r1 r2 r3 : same_request r1 r2 -> same_request r2 r3 -> same_request r1 r3.
Proof. unfold same_request. intuition congruence. Qed.

Lemma grows_messages w w' m : grows w w' -> m ∈ w_nats w -> m ∈ w_nats w'.
Proof. intros Hg Hm. destruct (grows_nats _ _ Hg) as [l ->]. apply elem_of_app. by left. Qed.

#[export] Instance grows_preorder : PreOrder grows.
Proof.
  split.
  - intros w. split; eauto using same_request_refl; [congruence|by exists []].
  - intros w1 w2 w3 H12 H23. split.
    + intros u r Hr. destruct (grows_intents _ _ H12 u r Hr) as (r2 & Hr2 & Hs2).
      destruct (grows_intents _ _ H23 u r2 Hr2) as (r3 & Hr3 & Hs3). eauto using same_request_trans.
    + intros u r r3 Hr Hr3 Hp. destruct (grows_intents _ _ H12 u r Hr) as (r2 & Hr2 & _).
      eapply (grows_status _ _ H12); [done..|]. by eapply (grows_status _ _ H23).
    + etransitivity; [apply H12|apply H23].
    + destruct (grows_log _ _ H12) as [l1 Hl1], (grows_log _ _ H23) as [l2 Hl2].
      exists (l2 ++ l1). by rewrite Hl2, Hl1, app_assoc.
    + intros k r Hr. destruct (grows_outbox _ _ H12 k r Hr) as [(r2 & Hr2 & <-)|Hn].
      * by apply (grows_outbox _ _ H23).
      * right. by eapply grows_messages.
    + intros k r3 [r Hr] Hr3. destruct (grows_intents _ _ H12 _ r Hr) as (r2 & Hr2 & _).
      destruct (grows_once _ _ H23 k r3) as (o2 & Ho2 & <-); [by eexists|done|].
      apply (grows_once _ _ H12 k o2); [by eexists|done].
Qed.

(** ** The invariant *)
(** An encoded intent that was accepted: its row has its type and payload. *)
Definition genuine (d : intent_db) (data : string) : Prop :=
  forall i, unmarshal_intent data = Some i ->
    uuid_in (Intent.Id i) = Some (Intent.Id i) /\
    exists r, intents d !! Intent.Id i = Some r /\
      varchar 50 (IntentType_String (Intent.Type_ i)) = Ok (ir_type r) /\ ir_payload r = Intent.Payload i.

(** The audit log has the transfer that [payload] asks for, under [ref]. *)
Definition pays (ref payload : string) (t : transaction) : Prop :=
  exists x, transfer.unmarshal payload = Some x /\
    tx_from t = Some (transfer.From x) /\ tx_to t = Some (transfer.To x) /\
    num_of_float (transfer.Amount x) = Some (tx_amount t) /\
    varchar_in 100 ref = Some (tx_reference_id t).
Definition paid (d : wallet_db) (ref payload : string) : Prop :=
  exists t, t ∈ wallet_transactions d /\ pays ref payload t.

(** The event of intent [u] is in the outbox or in the stream. *)
Definition announces (u : string) (m : msg) : Prop :=
  exists i, unmarshal_intent (Data m) = Some i /\ Intent.Id i = u /\
    varchar 100 ("intents.submitted." +:+ IntentType_String (Intent.Type_ i))%string = Ok (Subject m).
Definition announced (w : world) (u : string) : Prop :=
  exists m, announces u m /\
    (m ∈ w_nats w \/ exists k r, outbox_events (w_db w) !! k = Some r /\ content r = m).

Record good (w : world) : Prop := {
  good_keys : keys_ok (wallet_accounts (w_wallet w));
  good_refs : NoDup (tx_reference_id <$> wallet_transactions (w_wallet w));
  good_nats : forall m, m ∈ w_nats w -> genuine (w_db w) (Data m);
  good_outbox : forall k r, outbox_events (w_db w) !! k = Some r ->
    uuid_in k = Some k /\ genuine (w_db w) (ob_payload r) /\ is_Some (intents (w_db w) !! minted k);
  good_paid : forall u r, intents (w_db w) !! u = Some r ->
    ir_status r = COMPLETED -> ir_type r = TRANSFER -> paid (w_wallet w) u (ir_payload r);
  good_announced : forall u, is_Some (intents (w_db w) !! u) -> announced w u;
}.

Lemma genuine_grows w w' data : grows w w' -> genuine (w_db w) data -> genuine (w_db w') data.
Proof.
  intros Hg Hd i Hi. destruct (Hd i Hi) as (Hu & r & Hr & Hty & Hp). split; [done|].
  destruct (grows_intents _ _ Hg _ _ Hr) as (r' & Hr' & (Ht' & _ & Hp' & _)). exists r'. split_and!; congruence.
Qed.

Lemma paid_grows w w' ref payload : grows w w' -> paid (w_wallet w) ref payload -> paid (w_wallet w') ref payload.
Proof.
  intros [_ _ _ [rows Hrows] _ _] (t & Ht & Hp). exists t. split; [|done]. rewrite Hrows. apply elem_of_app. by right.
Qed.

Lemma announced_grows w w' u : grows w w' -> announced w u -> announced w' u.
Proof.
  intros Hg (m & Hm & Hw). exists m. split; [done|]. destruct Hw as [Hn|(k & r & Hr & <-)].
  - left. by eapply grows_messages.
  - destruct (grows_outbox _ _ Hg k r Hr) as [(r' & Hr' & Hc)|Hn]; [right; by exists k, r'|by left].
Qed.

Lemma genuine_reencoded d m i st data :
  genuine d (Data m) -> unmarshal_intent (Data m) = Some i ->
  marshal_intent (Intent.set_Status st i) = Ok data -> genuine d data.
Proof.
  intros Hm Hi Hd j Hj. apply unmarshal_marshal in Hd. rewrite Hd in Hj. injection Hj as <-.
  exact (Hm i Hi).
Qed.
End pipeline.

#[export] Instance consumer_eq_dec : EqDecision consumer.
Proof. solve_decision. Defined.
#[export] Instance consumer_countable : Countable consumer.
Proof.
  refine (inj_countable' (fun c => match c with AtScheduler => 0 | AtEngine => 1 | AtValidator => 2 end)%nat
            (fun n => match n with 0 => AtScheduler | 1 => AtEngine | _ => AtValidator end)%nat _). by intros [].
Defined.
#[export] Instance delivery_eq_dec : EqDecision delivery.
Proof. unfold delivery. apply _. Defined.
#[export] Instance delivery_countable : Countable delivery.
Proof. unfold delivery. apply _. Defined.

#[export] Hint Resolve genuine_grows paid_grows : pipeline.
#[export] Hint Extern 3 (grows _ _ _) => etransitivity; eassumption : pipeline.
