(* ===== verification/PipelineFacts.v ===== *)
(** * Every handler keeps the pipeline's invariant

    What one event does to the invariant and the guarantee of Pipeline.v, then
    the proof obligation [safe] of each handler. *)
From stdpp Require Import sorting.
From S2P Require Import Prelude GoLib Effects Concurrent Sql Proto Float64 WalletProto Wallet.
From S2P Require Import WalletFacts Ledger IntentDb System SystemRules IntentStore Crypto IntentHandler.
From S2P Require Import IntentFacts Outbox Scheduler Engine Validator Pipeline.

Section facts.
Context `{Postgres} `{NumericCodec} `{ProtoCodec} `{TimeText} `{Ed25519}.
Context (minted : string -> string).
Abbreviation good := (good minted).
Abbreviation grows := (grows minted).
Abbreviation safe := (safe sys_exec good grows).
Abbreviation keeps w w' := (good w' /\ grows w w').

(** ** Worlds that differ in nothing the invariant reads *)
Lemma keeps_same w w' :
  w_db w' = w_db w -> w_nats w' = w_nats w -> w_wallet w' = w_wallet w -> good w -> keeps w w'.
Proof.
  intros Hd Hn Hw [Gk Gr Gn Go Gp Ga].
  assert (Hgrow : grows w w').
  { split; rewrite ?Hd, ?Hn, ?Hw; eauto using same_request_refl; [congruence|by exists []]. }
  split; [|done]. split; rewrite ?Hd, ?Hn, ?Hw; try done.
  intros u Hu. eapply announced_grows; [exact Hgrow|by apply Ga].
Qed.

Definition quiet {X} (e : sysE X) : Prop :=
  match e with TxCommit _ | DbExec _ | Publish _ | WalletTransfer _ _ => False | _ => True end.

Lemma quiet_keeps {X} (e : sysE X) o w : quiet e -> good w -> keeps w (sys_exec X e o w).2.
Proof.
  intros Hq Hg. destruct e; try destruct Hq; cbn [sys_exec]; try (by apply keeps_same);
    try (by destruct o; apply keeps_same).
  destruct (ledger_exec _ _ _ _). by apply keeps_same.
Qed.

(** ** Changes of the tables *)
Lemma keeps_status w u r st now :
  intents (w_db w) !! u = Some r -> st <> PENDING ->
  (st = COMPLETED -> ir_type r = TRANSFER -> paid (w_wallet w) u (ir_payload r)) ->
  good w ->
  keeps w (set_db (mk_intent_db (<[u := set_ir_status st now r]> (intents (w_db w)))
                     (outbox_events (w_db w))) w).
Proof.
  intros Hu Hst Hpaid Hg.
  assert (Hgrow : grows w (set_db (mk_intent_db (<[u := set_ir_status st now r]> (intents (w_db w)))
                     (outbox_events (w_db w))) w)).
  { split; cbn; eauto.
    - intros v q Hq. rewrite lookup_insert. case_decide as Hv; [subst v|by eauto using same_request_refl].
      assert (q = r) as -> by congruence. eexists. split; [done|]. by repeat split.
    - intros v q q' Hq. rewrite lookup_insert. case_decide as Hv; [|congruence]. by intros [= <-].
    - by exists []. }
  split; [|exact Hgrow]. destruct Hg as [Gk Gr Gn Go Gp Ga]. split; try done.
  - intros m Hm. by eapply genuine_grows, Gn.
  - intros k q Hq. destruct (Go k q Hq) as (Hk & Hgen & [x Hx]). split; [done|]. split; [by eapply genuine_grows|].
    destruct (grows_intents _ _ _ Hgrow _ _ Hx) as (x' & Hx' & _). by exists x'.
  - intros v q. cbn. rewrite lookup_insert. case_decide as Hv; [subst v|by apply Gp].
    intros [= <-]. cbn. exact Hpaid.
  - intros v. cbn. rewrite lookup_insert_is_Some'. intros Hv. eapply announced_grows; [exact Hgrow|].
    apply Ga. destruct Hv as [<-|Hv]; [by eexists|done].
Qed.

Lemma keeps_outbox w k r r' :
  outbox_events (w_db w) !! k = Some r -> content r' = content r -> good w ->
  keeps w (set_db (mk_intent_db (intents (w_db w)) (<[k := r']> (outbox_events (w_db w)))) w).
Proof.
  intros Hk Hr Hg.
  assert (Hgrow : grows w (set_db (mk_intent_db (intents (w_db w)) (<[k := r']> (outbox_events (w_db w)))) w)).
  { split; cbn; eauto using same_request_refl.
    - congruence.
    - by exists [].
    - intros j q Hq. left. rewrite lookup_insert. case_decide as Hj; [subst j|by eauto].
      exists r'. split; [done|]. congruence.
    - intros j q _. rewrite lookup_insert. case_decide as Hj; [subst j|by eauto].
      intros [= <-]. by exists r. }
  split; [|exact Hgrow]. destruct Hg as [Gk Gr Gn Go Gp Ga]. split; try done.
  - intros j q. cbn. rewrite lookup_insert. case_decide as Hj; [subst j|by apply Go].
    intros [= <-]. destruct (Go k r Hk) as (Hk1 & Hgen & Hx). split_and!; [done| |done].
    injection Hr as _ ->. done.
  - intros u Hu. eapply announced_grows; [exact Hgrow|by apply Ga].
Qed.

Lemma keeps_delete w k :
  (forall r, outbox_events (w_db w) !! k = Some r -> content r ∈ w_nats w) -> good w ->
  keeps w (set_db (mk_intent_db (intents (w_db w)) (delete k (outbox_events (w_db w)))) w).
Proof.
  intros Hk Hg.
  assert (Hgrow : grows w (set_db (mk_intent_db (intents (w_db w)) (delete k (outbox_events (w_db w)))) w)).
  { split; cbn; eauto using same_request_refl.
    - congruence.
    - by exists [].
    - intros j q Hq. destruct (decide (k = j)) as [->|Hj]; [right; by apply Hk|].
      left. exists q. by rewrite lookup_delete_ne.
    - intros j q _ [_ Hq]%lookup_delete_Some. by exists q. }
  split; [|exact Hgrow]. destruct Hg as [Gk Gr Gn Go Gp Ga]. split; try done.
  - intros j q. cbn. intros [_ Hq]%lookup_delete_Some. by apply Go.
  - intros u Hu. eapply announced_grows; [exact Hgrow|by apply Ga].
Qed.

Lemma keeps_create w now id ob req d :
  uuid_in id = Some id -> uuid_in ob = Some ob -> minted ob = id ->
  created now id ob req (w_db w) d -> good w -> keeps w (set_db d w).
Proof.
  intros Hid Hob Hm (u & v & row & ev & tp & pay & Hu & Hv & Hrow & Hmar & Htp & Hpay & Hnu & Hnv & ->) Hg.
  assert (u = id) as -> by congruence. assert (v = ob) as -> by congruence.
  assert (pay = ev) as -> by (unfold bytea in Hpay; case_match; congruence).
  pose proof (row_in_kept _ _ Hrow) as (Hp & Hty & Hst). cbn in Hp, Hty, Hst.
  set (d := mk_intent_db _ _).
  assert (Hgrow : grows w (set_db d w)).
  { split; cbn; eauto.
    - intros x r Hx. rewrite lookup_insert_ne by congruence. eauto using same_request_refl.
    - intros x r r' Hx. rewrite lookup_insert_ne by congruence. congruence.
    - by exists [].
    - intros k r Hk. left. rewrite lookup_insert_ne by congruence. eauto.
    - intros k r [x Hx]. rewrite lookup_insert. case_decide as Hk; [subst k|by eauto].
      rewrite Hm in Hx. congruence. }
  split; [|exact Hgrow]. destruct Hg as [Gk Gr Gn Go Gp Ga]. split; try done.
  - intros m Hm'. exact (genuine_grows minted w (set_db d w) _ Hgrow (Gn m Hm')).
  - intros k r. cbn. rewrite lookup_insert. case_decide as Hk; [subst k|].
    + intros [= <-]. cbn. split; [done|]. rewrite Hm, lookup_insert_eq. split; [|by eexists].
      intros i Hi. apply unmarshal_marshal in Hmar. rewrite Hmar in Hi. injection Hi as <-. cbn.
      split; [done|]. exists row. rewrite lookup_insert_eq. done.
    + intros Hr. destruct (Go k r Hr) as (Hk1 & Hgen & [x Hx]). split; [done|].
      split; [exact (genuine_grows minted w (set_db d w) _ Hgrow Hgen)|].
      destruct (grows_intents _ _ _ Hgrow _ _ Hx) as (x' & Hx' & _). by exists x'.
  - intros x r. cbn. rewrite lookup_insert. case_decide as Hx; [subst x|by apply Gp].
    intros [= <-] Hc. apply varchar_fits in Hst; [|cbn; lia]. rewrite Hst in Hc. discriminate Hc.
  - intros x. cbn. rewrite lookup_insert_is_Some'. intros [<-|Hx].
    + exists (mk_msg tp ev). split.
      * apply unmarshal_marshal in Hmar. eexists. split; [exact Hmar|]. by split.
      * right. eexists ob, _. cbn. rewrite lookup_insert_eq. done.
    + eapply announced_grows; [exact Hgrow|by apply Ga].
Qed.

(** ** Statements *)
(** What must hold in the world in which a statement takes effect. *)
Definition licensed (w : world) (s : stmt) : Prop :=
  match s with
  | InsertIntent _ _ | InsertOutbox _ _ _ _ => False
  | UpdateStatus st id | ClaimStatus st id _ =>
      (String.length st <= 50)%nat /\ st <> PENDING /\
      forall u r, st = COMPLETED -> uuid_in id = Some u -> intents (w_db w) !! u = Some r ->
        ir_type r = TRANSFER -> paid (w_wallet w) u (ir_payload r)
  | OutboxProcessing _ | OutboxUpdate _ _ _ => True
  | OutboxDelete id =>
      forall u r, uuid_in id = Some u -> outbox_events (w_db w) !! u = Some r -> content r ∈ w_nats w
  end.

Lemma licensed_keeps w s n d :
  licensed w s -> exec_stmt (w_now w) s (w_db w) = Ok (n, d) -> good w -> keeps w (set_db d w).
Proof.
  intros Hl Hex Hg.
  assert (Hsame : keeps w (set_db (w_db w) w)) by (by apply keeps_same).
  destruct s as [i r|i tp p t|st i|st i from|i|st retry i|i]; try done; cbn in Hex, Hl; unfold uuid_arg in Hex;
    destruct (uuid_in i) as [u|] eqn:Hu; try discriminate Hex; cbn in Hex.
  - destruct Hl as (Hlen & Hp & Hl). apply result_bind_Ok in Hex as (st' & Hst & Hex). apply varchar_fits in Hst as ->; [|done].
    destruct (intents (w_db w) !! u) as [r|] eqn:Hr; injection Hex as <- <-; [|done].
    apply keeps_status; eauto.
  - destruct Hl as (Hlen & Hp & Hl). apply result_bind_Ok in Hex as (st' & Hst & Hex). apply varchar_fits in Hst as ->; [|done].
    destruct (intents (w_db w) !! u) as [r|] eqn:Hr; [|by injection Hex as <- <-].
    case_bool_decide; injection Hex as <- <-; [|done]. apply keeps_status; eauto.
  - destruct (outbox_events (w_db w) !! u) as [r|] eqn:Hr; injection Hex as <- <-; [|done].
    by eapply keeps_outbox.
  - apply result_bind_Ok in Hex as (st' & Hst & Hex).
    destruct (outbox_events (w_db w) !! u) as [r|] eqn:Hr; injection Hex as <- <-; [|done].
    by eapply keeps_outbox.
  - injection Hex as <- <-. apply keeps_delete; eauto.
Qed.

(** A status that was written is there. *)
Lemma update_status_written now st u r n d d' :
  uuid_in u = Some u -> intents d !! u = Some r -> (String.length st <= 50)%nat ->
  exec_stmt now (UpdateStatus st u) d = Ok (n, d') ->
  exists r', intents d' !! u = Some r' /\ ir_status r' = st.
Proof.
  intros Hu Hr Hl Hex. cbn in Hex. unfold uuid_arg in Hex. rewrite Hu in Hex. cbn in Hex.
  apply result_bind_Ok in Hex as (st' & Hst & Hex). apply varchar_fits in Hst as ->; [|done].
  rewrite Hr in Hex. injection Hex as _ <-. cbn. rewrite lookup_insert_eq. by eexists.
Qed.

(** Statements that may run in any world. *)
Definition harmless (s : stmt) : bool :=
  match s with
  | InsertIntent _ _ | InsertOutbox _ _ _ _ | OutboxDelete _ => false
  | UpdateStatus st _ | ClaimStatus st _ _ =>
      negb (bool_decide (st = COMPLETED)) && negb (bool_decide (st = PENDING)) && (String.length st <=? 50)%nat
  | OutboxProcessing _ | OutboxUpdate _ _ _ => true
  end.
Lemma harmless_licensed w s : harmless s = true -> licensed w s.
Proof.
  destruct s; cbn; try done; intros [[Hc Hp]%andb_true_iff Hl]%andb_true_iff;
    apply negb_true_iff, bool_decide_eq_false in Hc, Hp;
    (split; [by apply Nat.leb_le|]; split; [done|]); by intros u r ->.
Qed.

Lemma harmless_stmts_keep l w d :
  Forall (fun s => harmless s = true) l -> exec_stmts (w_now w) l (w_db w) = Ok d -> good w -> keeps w (set_db d w).
Proof.
  intros Hl. revert w; induction Hl as [|s l Hs _ IH]; intros w Hex Hg; cbn in Hex.
  - injection Hex as <-. by apply keeps_same.
  - destruct (exec_stmt (w_now w) s (w_db w)) as [[n d1]|e] eqn:Hd1; [|done].
    destruct (licensed_keeps w s n d1) as [Hg1 Hgr1]; [by apply harmless_licensed|done..|].
    destruct (IH (set_db d1 w)) as [Hg2 Hgr2]; [done..|]. split; [done|]. by etransitivity.
Qed.

(** ** The wallet *)
Lemma keeps_wallet w o now d :
  d = w_wallet w \/ op_effect now o (w_wallet w) = Ok d -> good w -> keeps w (set_wallet d w).
Proof.
  intros [->|He] Hg; [by apply keeps_same|].
  apply op_effect_inv in He as (_ & (row & Hrow & _ & _ & _ & _ & _ & _ & Hfresh) & Hk); [|apply Hg].
  assert (Hgrow : grows w (set_wallet d w)).
  { split; cbn; eauto using same_request_refl; [congruence|by exists [row]]. }
  split; [|exact Hgrow]. destruct Hg as [Gk Gr Gn Go Gp Ga]. split; try done.
  - cbn. rewrite Hrow. cbn. constructor; [|done]. intros (t & Ht & Hin)%list_elem_of_fmap.
    unfold ref_exists in Hfresh. assert (Htrue : existsb (fun t => bool_decide (tx_reference_id t = tx_reference_id row))
      (wallet_transactions (w_wallet w)) = true); [|congruence].
    apply existsb_exists. exists t. split; [by apply list_elem_of_In|by apply bool_decide_eq_true].
  - intros u r Hu Hs Ht. eapply (paid_grows minted w); [exact Hgrow|]. by apply Gp.
Qed.

Lemma wallet_rpc_effect now txID req d :
  let o := OpTransfer txID (TransferRequest.FromAccountId req) (TransferRequest.ToAccountId req)
             (TransferRequest.Amount req) (TransferRequest.ReferenceId req) in
  let '(r, d') := wallet_rpc now txID req d in
  (d' = d \/ op_effect now o d = Ok d') /\ (is_ok r = true -> op_effect now o d = Ok d').
Proof.
  intros o. pose proof (serve_effect now o [] d) as Hs. cbv zeta in Hs.
  unfold serve_ok, serve_db, run_result, run_state, o, serve in Hs. unfold mbind, proc_mbind in Hs.
  rewrite run_bind in Hs. unfold wallet_rpc. destruct req as [a b x rf]. cbn [TransferRequest.FromAccountId
    TransferRequest.ToAccountId TransferRequest.Amount TransferRequest.ReferenceId] in *.
  destruct (run _ _ _ _) as [[r s] sc]. cbn in Hs |- *. destruct (is_ok r); [naive_solver|].
  split; [naive_solver|done].
Qed.

Lemma logged_pays now txID x ref payload d d' :
  keys_ok (wallet_accounts d) -> transfer.unmarshal payload = Some x ->
  op_effect now (OpTransfer txID (transfer.From x) (transfer.To x) (transfer.Amount x) ref) d = Ok d' ->
  paid d' ref payload.
Proof.
  intros Hk Hx (_ & (row & Hrow & _ & Hf & Ht & Ha & Hr & _) & _)%op_effect_inv; [|done].
  exists row. split; [rewrite Hrow; left|]. by exists x.
Qed.

(** ** Rules *)
Definition stable {A} (Q : A -> world -> Prop) : Prop := forall a w w', grows w w' -> good w' -> Q a w -> Q a w'.

Lemma safe_ret_stable {A} (a : A) Q w : stable Q -> good w -> Q a w -> safe (Ret a) Q w.
Proof. intros HQ Hg Ha w' Hgr Hg'. by eapply HQ. Qed.

Lemma safe_leaf {A} (a : A) Q w w2 :
  (forall w', grows w w' -> good w' -> Q a w') -> grows w w2 -> safe (Ret a) Q w2.
Proof. intros Ha Hgr w' Hgr' Hg. apply Ha; [by etransitivity|done]. Qed.

Lemma safe_vis {A X} (e : sysE X) (k : X -> proc sysE A) Q w :
  (forall o w', grows w w' -> good w' -> keeps w' (sys_exec X e o w').2) ->
  (forall o w', grows w w' -> good w' ->
     let r := sys_exec X e o w' in grows w r.2 -> good r.2 -> safe (k r.1) Q r.2) ->
  safe (Vis e k) Q w.
Proof.
  intros Hkeep Hk o w' Hgr Hg. specialize (Hkeep o w' Hgr Hg). specialize (Hk o w' Hgr Hg). cbv zeta in Hk.
  destruct (sys_exec X e o w') as [x w'']. cbn in Hkeep, Hk. destruct Hkeep as [Hg2 Hgr2].
  split_and!; [done..|]. apply Hk; [|done]. by etransitivity.
Qed.

Lemma safe_quiet {A X} (e : sysE X) (k : X -> proc sysE A) Q w :
  quiet e -> (forall x w', grows w w' -> good w' -> safe (k x) Q w') -> safe (Vis e k) Q w.
Proof. intros Hq Hk. apply safe_vis; [intros; by apply quiet_keeps|]. cbv zeta. eauto. Qed.

Lemma safe_metric {A} name labels (p : proc sysE A) Q w :
  (forall w', grows w w' -> good w' -> safe p Q w') -> safe (metric name labels p) Q w.
Proof. intros Hp. apply safe_quiet; [done|]. intros _. apply Hp. Qed.

Lemma safe_defer {A} t (body : proc sysE A) Q w :
  stable Q -> good w -> safe body Q w -> safe (defer_tx_rollback t body) Q w.
Proof.
  intros HQ Hg Hb. unfold defer_tx_rollback. apply safe_bind; [apply _|done|]. eapply safe_weaken; [|exact Hb]. intros a w' Ha.
  apply safe_quiet; [done|]. intros _ w'' Hgr Hg''. apply safe_ret_stable; [done|done|by eapply HQ].
Qed.

(** A [call]: its error leaf, and the rest after a success. *)
Lemma safe_tx_begin {A} onerr (k : tx -> proc sysE A) Q w :
  (forall e w', grows w w' -> good w' -> Q (onerr e) w') ->
  (forall w', grows w w' -> good w' -> safe (k (mk_tx [] [])) Q w') ->
  safe (call DbBegin onerr k) Q w.
Proof.
  intros He Hk. apply safe_vis; [intros; by apply quiet_keeps|]. cbv zeta. intros o w' _ _ Hgr Hg.
  assert (Herr : forall e w2, grows w w2 -> safe (Ret (onerr e)) Q w2) by (eauto using safe_leaf).
  destruct o; cbn in *; auto.
Qed.

Lemma safe_tx_exec {A} t s onerr (k : tx -> proc sysE A) Q w :
  (forall e w', grows w w' -> good w' -> Q (onerr e) w') ->
  (forall w', grows w w' -> good w' -> safe (k (mk_tx (tx_stmts t ++ [s]) (tx_locks t))) Q w') ->
  safe (call (TxExec t s) onerr k) Q w.
Proof.
  intros He Hk. apply safe_vis; [intros; by apply quiet_keeps|]. cbv zeta. intros o w' _ _ Hgr Hg.
  assert (Herr : forall e w2, grows w w2 -> safe (Ret (onerr e)) Q w2) by (eauto using safe_leaf).
  destruct o; cbn in *; auto. destruct (exec_stmts _ _ _); auto.
Qed.

(** After a commit: the statements took effect in some world on the way. *)
Definition committed_in (t : tx) (w w' : world) : Prop :=
  exists w0 d, grows w w0 /\ exec_stmts (w_now w0) (tx_stmts t) (w_db w0) = Ok d /\ grows (set_db d w0) w'.

Lemma safe_tx_commit {A} t onerr (k : unit -> proc sysE A) Q w :
  (forall e w', grows w w' -> good w' -> Q (onerr e) w') ->
  (forall w' d, grows w w' -> good w' -> exec_stmts (w_now w') (tx_stmts t) (w_db w') = Ok d -> keeps w' (set_db d w')) ->
  (forall w', grows w w' -> good w' -> committed_in t w w' -> safe (k tt) Q w') ->
  safe (call (TxCommit t) onerr k) Q w.
Proof.
  intros He Hcommit Hk. assert (Hrel : forall w', good w' -> keeps w' (release t w')) by (intros; by apply keeps_same).
  apply safe_vis.
  - intros o w' Hgr Hg. cbn. destruct (exec_stmts _ _ _) as [d|e] eqn:Hd; [|by apply Hrel].
    destruct (Hcommit w' d Hgr Hg Hd) as [Hg2 Hgr2]. destruct (Hrel _ Hg2) as [Hg3 Hgr3].
    assert (keeps w' (release t (set_db d w'))) by (split; [done|by etransitivity]). destruct o; cbn; auto.
  - cbv zeta. intros o w' Hgr0 Hg0 Hgr Hg.
    assert (Herr : forall e w2, grows w w2 -> safe (Ret (onerr e)) Q w2) by (eauto using safe_leaf).
    cbn in *. destruct (exec_stmts _ _ _) as [d|] eqn:Hd; [|cbn in *; auto]. destruct o; cbn in *; auto.
    apply Hk; [done|done|]. exists w', d. split_and!; [done..|].
    destruct (Hcommit w' d Hgr0 Hg0 Hd) as [Hg2 _]. by apply Hrel.
Qed.

(** After a statement of its own: it took effect in some world on the way. *)
Definition executed_in (s : stmt) (n : Z) (w w' : world) : Prop :=
  exists w0 d, grows w w0 /\ exec_stmt (w_now w0) s (w_db w0) = Ok (n, d) /\ grows (set_db d w0) w'.

Lemma safe_db_exec {A} s onerr (k : Z -> proc sysE A) Q w :
  (forall w', grows w w' -> good w' -> licensed w' s) ->
  (forall e w', grows w w' -> good w' -> Q (onerr e) w') ->
  (forall n w', grows w w' -> good w' -> executed_in s n w w' -> safe (k n) Q w') ->
  safe (call (DbExec s) onerr k) Q w.
Proof.
  intros Hl He Hk. apply safe_vis.
  - intros o w' Hgr Hg. assert (Hsame : keeps w' (set_db (w_db w') w')) by (by apply keeps_same).
    assert (Hdo : forall n d, exec_stmt (w_now w') s (w_db w') = Ok (n, d) -> keeps w' (set_db d w')).
    { intros n d Hd. by eapply licensed_keeps; [apply Hl|..]. }
    cbn. destruct o; cbn; try done; destruct (exec_stmt _ _ _) as [[n d]|e']; cbn; eauto.
  - cbv zeta. intros o w' Hgr0 Hg0 Hgr Hg.
    assert (Herr : forall e w2, grows w w2 -> safe (Ret (onerr e)) Q w2) by (eauto using safe_leaf).
    cbn in *. destruct o; cbn in *; auto;
      destruct (exec_stmt _ _ _) as [[n d]|e'] eqn:Hd; cbn in *; auto.
    apply Hk; [done|done|]. exists w', d. split_and!; [done..|reflexivity].
Qed.

(** A read of one row. *)
Lemma safe_query_intent {A} id (k : result sqlerr (string * intent_row) -> proc sysE A) Q w :
  (forall e w', grows w w' -> good w' -> safe (k (Err (SqlError e))) Q w') ->
  (forall w', grows w w' -> good w' -> safe (k (query_intent id (w_db w'))) Q w') ->
  safe (Vis (QueryIntent id) k) Q w.
Proof.
  intros He Hk. apply safe_vis; [intros; by apply quiet_keeps|]. cbv zeta. intros o w' _ _. destruct o; cbn; auto.
Qed.

(** [DbExec] whose result is only logged. *)
Lemma safe_db_run {A} s (k : result sqlerr Z -> proc sysE A) Q w :
  (forall w', grows w w' -> good w' -> licensed w' s) ->
  (forall r w', grows w w' -> good w' -> safe (k r) Q w') ->
  safe (Vis (DbExec s) k) Q w.
Proof.
  intros Hl Hk. apply safe_vis; [|cbv zeta; eauto].
  intros o w' Hgr Hg. assert (Hsame : keeps w' (set_db (w_db w') w')) by (by apply keeps_same).
  assert (Hdo : forall n d, exec_stmt (w_now w') s (w_db w') = Ok (n, d) -> keeps w' (set_db d w')).
  { intros n d Hd. by eapply licensed_keeps; [apply Hl|..]. }
  cbn. destruct o; cbn; try done; destruct (exec_stmt _ _ _) as [[n d]|e']; cbn; eauto.
Qed.

Lemma keeps_publish w m : genuine (w_db w) (Data m) -> good w -> keeps w (set_nats (w_nats w ++ [m]) w).
Proof.
  intros Hm Hg. assert (Hgrow : grows w (set_nats (w_nats w ++ [m]) w)).
  { split; cbn; eauto using same_request_refl; [congruence|by eexists|by exists []]. }
  split; [|exact Hgrow]. destruct Hg as [Gk Gr Gn Go Gp Ga]. split; try done.
  - cbn. intros x [Hx|Hx]%elem_of_app; [by apply Gn|]. apply list_elem_of_singleton in Hx as ->. done.
  - intros u Hu. eapply announced_grows; [exact Hgrow|by apply Ga].
Qed.

Lemma safe_publish {A} m (k : result string unit -> proc sysE A) Q w :
  (forall w', grows w w' -> good w' -> genuine (w_db w') (Data m)) ->
  (forall r w', grows w w' -> good w' -> (is_ok r = true -> m ∈ w_nats w') -> safe (k r) Q w') ->
  safe (Vis (Publish m) k) Q w.
Proof.
  intros Hm Hk. apply safe_vis.
  - intros o w' Hgr Hg. assert (Hp : keeps w' (set_nats (w_nats w' ++ [m]) w')) by (apply keeps_publish; auto).
    assert (Hn : keeps w' w') by (split; [done|reflexivity]). destruct o; cbn; auto.
  - cbv zeta. intros o w' _ _ Hgr Hg. apply Hk; [done|done|]. destruct o; cbn; try done.
    intros _. apply elem_of_app. right. by apply list_elem_of_singleton.
Qed.

Lemma safe_transfer {A} txID x ref payload (k : result grpc_status TransferResponse.t -> proc sysE A) Q w :
  transfer.unmarshal payload = Some x ->
  (forall r w', grows w w' -> good w' -> (is_ok r = true -> paid (w_wallet w') ref payload) -> safe (k r) Q w') ->
  safe (Vis (WalletTransfer txID (TransferRequest.mk (transfer.From x) (transfer.To x) (transfer.Amount x) ref)) k) Q w.
Proof.
  intros Hx Hk. apply safe_vis.
  - intros o w' Hgr Hg. cbn [sys_exec].
    pose proof (wallet_rpc_effect (w_now w') txID (TransferRequest.mk (transfer.From x) (transfer.To x)
      (transfer.Amount x) ref) (w_wallet w')) as Hr. cbv zeta in Hr. destruct (wallet_rpc _ _ _ _) as [r d].
    assert (keeps w' (set_wallet d w')) by (eapply keeps_wallet; [apply Hr|done]).
    assert (keeps w' w') by (split; [done|reflexivity]). destruct o; done.
  - cbv zeta. intros o w' _ Hg0 Hgr Hg. apply Hk; [done|done|]. revert Hgr Hg. cbn [sys_exec].
    pose proof (wallet_rpc_effect (w_now w') txID (TransferRequest.mk (transfer.From x) (transfer.To x)
      (transfer.Amount x) ref) (w_wallet w')) as Hr. cbv zeta in Hr. destruct (wallet_rpc _ _ _ _) as [r d].
    destruct o; cbn; try done. intros _ _ Hok. eapply logged_pays; [|exact Hx|by apply Hr]. apply Hg0.
Qed.
End facts.
