(* ===== verification/PipelineSafe.v ===== *)
(** * The proof obligation of each handler of the pipeline *)
From stdpp Require Import sorting.
From S2P Require Import Prelude GoLib Effects Concurrent Sql Proto Float64 WalletProto Wallet.
From S2P Require Import WalletFacts WalletProps Ledger IntentDb System SystemRules IntentStore Crypto IntentHandler.
From S2P Require Import IntentFacts Outbox Scheduler Engine Validator Pipeline PipelineFacts.

Section handlers.
Context `{Postgres} `{NumericCodec} `{ProtoCodec} `{TimeText} `{Ed25519}.
Context (minted : string -> string).
Abbreviation good := (good minted).
Abbreviation grows := (grows minted).
Abbreviation safe := (safe sys_exec good grows).
Abbreviation harmless_handler p := (forall w, good w -> safe p (fun _ _ => True) w).
Abbreviation all_neutral := (all_neutral sys_exec good grows).

Lemma stable_true {A} : stable minted (fun (_ : A) _ => True).
Proof. done. Qed.

Lemma quiet_neutral {X} (e : sysE X) : quiet e -> neutral sys_exec good grows e.
Proof. intros Hq o w Hg. by apply quiet_keeps. Qed.

(** The handler's result is thrown away. *)
Lemma safe_discard {A B} (p : proc sysE A) (b : B) w :
  good w -> safe p (fun _ _ => True) w -> safe (_ ← p; Ret b) (fun _ _ => True) w.
Proof. intros Hg Hp. apply safe_bind; [apply _|done|]. eapply safe_weaken; [|exact Hp]. by intros. Qed.
Lemma safe_answer {A B} (p : proc sysE A) (f : A -> B) w :
  good w -> safe p (fun _ _ => True) w -> safe (a ← p; Ret (f a)) (fun _ _ => True) w.
Proof. intros Hg Hp. apply safe_bind; [apply _|done|]. eapply safe_weaken; [|exact Hp]. by intros. Qed.

(** ** Submissions and reads *)
(** The row of an accepted request, whatever happened to its status since. *)
Definition stored_request (id : string) (req : SubmitIntentRequest.t) (w : world) : Prop :=
  exists now row0 row, row_in (PostgresStore.row_of_request now req) = Ok row0 /\
    intents (w_db w) !! id = Some row /\ same_request row0 row.

Lemma stored_request_grows id req w w' : grows w w' -> stored_request id req w -> stored_request id req w'.
Proof.
  intros Hg (now & row0 & row & Hrow0 & Hr & Hs). destruct (grows_intents _ _ _ Hg _ _ Hr) as (row' & Hr' & Hs').
  exists now, row0, row'. split_and!; [done..|]. by eapply same_request_trans.
Qed.

Lemma created_stored now id ob req w d :
  uuid_in id = Some id -> created now id ob req (w_db w) d -> stored_request id req (set_db d w).
Proof.
  intros Hid (u & v & row & ev & tp & pay & Hu & _ & Hrow & _ & _ & _ & _ & _ & ->).
  assert (u = id) as -> by congruence. exists now, row, row. split_and!; [done| |done]. cbn. by rewrite lookup_insert_eq.
Qed.

(** What an accepted submission promises, from then on. *)
Definition create_promise (id : string) (req : SubmitIntentRequest.t) {X} (r : result X Intent.t) (w : world) : Prop :=
  is_ok r = true -> stored_request id req w.

Lemma safe_create id ob req w :
  uuid_in id = Some id -> uuid_in ob = Some ob -> minted ob = id -> good w ->
  safe (PostgresStore.Create id ob req) (create_promise id req) w.
Proof.
  intros Hid Hob Hm Hg. apply safe_quiet; [done|]. intros now w1 _ Hg1. cbv zeta.
  apply safe_tx_begin; [done|]. intros w2 _ Hg2. apply safe_defer; [|done|].
  { intros a w3 w4 Hgr _ Hp Ha. eapply stored_request_grows; [exact Hgr|by apply Hp]. }
  apply safe_tx_exec; [done|]. intros w3 _ Hg3.
  destruct (marshal_intent _) as [data|e] eqn:Hdata; [|by apply safe_ret].
  apply safe_tx_exec; [done|]. intros w4 _ Hg4. apply safe_tx_commit; [done| |].
  - intros w5 d _ Hg5 Hd. apply (keeps_create minted w5 now id ob req d Hid Hob Hm); [|done].
    eapply created_stmts; [exact Hdata|exact Hd].
  - intros w5 _ _ (w0 & d & _ & Hd & Hgr). apply safe_ret. intros w6 Hgr6 _ _.
    apply (stored_request_grows id req (set_db d w0)); [by etransitivity|]. apply (created_stored now id ob); [exact Hid|].
    eapply created_stmts; [exact Hdata|exact Hd].
Qed.

Definition submit_promise (id : string) (req : SubmitIntentRequest.t) {X Y} (r : result X Y) (w : world) : Prop :=
  is_ok r = true -> authentic req /\ stored_request id req w.

Lemma submit_promise_grows id req {X Y} (r : result X Y) w w' :
  grows w w' -> submit_promise id req r w -> submit_promise id req r w'.
Proof. intros Hgr Hp Hr. destruct (Hp Hr) as [Ha Hs]. split; [done|]. by eapply stored_request_grows. Qed.

Lemma safe_submit id ob req w :
  uuid_in id = Some id -> uuid_in ob = Some ob -> minted ob = id -> good w ->
  safe (SubmitIntent id ob req) (submit_promise id req) w.
Proof.
  intros Hid Hob Hm Hg. destruct (submit_cases (E:=sysE) id ob req) as [[Ha ->]|(_ & st & -> & _)]; [|done].
  apply safe_bind; [apply _|done|]. eapply safe_weaken; [|by apply safe_create]. cbn beta. intros r w1 Hp w2 Hgr _ Hok.
  split; [done|]. eapply stored_request_grows; [exact Hgr|]. apply Hp. by destruct r.
Qed.

Lemma safe_get req : harmless_handler (GetIntent req).
Proof.
  intros w Hg. unfold GetIntent. case_bool_decide; [done|]. apply safe_answer; [done|].
  apply safe_quiet; [done|]. by intros.
Qed.

Lemma safe_list req : harmless_handler (ListIntents req).
Proof.
  intros w Hg. apply safe_answer; [done|]. apply safe_quiet; [done|]. intros [n|e] w1 _ Hg1; [|done].
  apply safe_quiet; [done|]. by intros [rows|e] w2 _ Hg2.
Qed.

(** ** The outbox worker *)
(** What a worker knows about an event it has claimed. *)
Definition event_msg (ev : OutboxEvent) : msg := mk_msg (Topic ev) (Payload ev).
Definition claimed (ev : OutboxEvent) (w : world) : Prop :=
  uuid_in (ID ev) = Some (ID ev) /\ genuine (w_db w) (Payload ev) /\
  is_Some (intents (w_db w) !! minted (ID ev)) /\
  forall r, outbox_events (w_db w) !! ID ev = Some r -> content r = event_msg ev.

Lemma claimed_grows ev w w' : grows w w' -> claimed ev w -> claimed ev w'.
Proof.
  intros Hg (Hu & Hgen & Hi & Hc). split; [done|]. split; [eauto with pipeline|]. split.
  - destruct Hi as [r Hr]. destruct (grows_intents _ _ _ Hg _ _ Hr) as (r' & Hr' & _). by exists r'.
  - intros r' Hr'. destruct (grows_once _ _ _ Hg _ _ Hi Hr') as (r & Hr & <-). by apply Hc.
Qed.

Lemma query_outbox_in threshold limit locked d kr :
  kr ∈ query_outbox threshold limit locked d ->
  outbox_events d !! kr.1 = Some kr.2 /\ claimable threshold kr = true.
Proof.
  unfold query_outbox. intros Hin%list_elem_of_In. apply list_elem_of_In, subseteq_take in Hin.
  rewrite order_outbox_perm in Hin. apply list_elem_of_In, filter_In in Hin as [Hin [Hc _]%andb_true_iff].
  split; [|done]. destruct kr as [k r]. by apply list_elem_of_In, elem_of_map_to_list in Hin.
Qed.

Lemma claimed_rows threshold limit w :
  good w -> Forall (fun ev => claimed ev w) (map event_of_row (query_outbox threshold limit (w_locks w) (w_db w))).
Proof.
  intros Hg. apply Forall_forall. intros ev Hev. apply list_elem_of_In, in_map_iff in Hev as (kr & <- & Hin).
  apply list_elem_of_In, query_outbox_in in Hin as [Hr _].
  destruct (good_outbox _ _ Hg _ _ Hr) as (Hu & Hgen & Hi). split_and!; try done.
  cbn. intros r Hr'. by replace r with kr.2 by congruence.
Qed.

Lemma safe_publish_events n events w :
  good w -> Forall (fun ev => claimed ev w) events -> safe (publish_events n events) (fun _ _ => True) w.
Proof.
  revert w; induction events as [|ev events IH]; intros w Hg Hev; [done|].
  apply Forall_cons in Hev as [Hev Hevs]. cbn [publish_events].
  assert (Hrest : forall w', grows w w' -> good w' -> safe (publish_events n events) (fun _ _ => True) w').
  { intros w' Hgr Hg'. apply IH; [done|]. eapply Forall_impl; [exact Hevs|]. intros e. by apply claimed_grows. }
  apply safe_publish.
  { intros w' Hgr _. destruct Hev as (_ & Hev & _). eauto with pipeline. }
  intros [u|e] w1 Hgr1 Hg1 Hpub; (apply safe_db_run; [|intros _ w2 Hgr2 Hg2; apply Hrest; [by etransitivity|done]]).
  - intros w2 Hgr2 Hg2 k r Hk Hr. pose proof (claimed_grows _ _ _ Hgr1 Hev) as Hev1.
    pose proof (claimed_grows _ _ _ Hgr2 Hev1) as (Hu & _ & _ & Hc).
    assert (k = ID ev) as -> by congruence. rewrite (Hc r Hr). by apply (grows_messages _ _ _ _ Hgr2), Hpub.
  - done.
Qed.

Lemma safe_claim_events t events (k : tx -> proc sysE (result string unit)) w :
  Forall (fun s => harmless s = true) (tx_stmts t) ->
  (forall t' w', grows w w' -> good w' -> Forall (fun s => harmless s = true) (tx_stmts t') ->
     safe (k t') (fun _ _ => True) w') ->
  good w -> safe (claim_events t events k) (fun _ _ => True) w.
Proof.
  revert t w; induction events as [|ev events IH]; intros t w Ht Hk Hg; cbn [claim_events].
  - by apply Hk.
  - apply safe_tx_exec; [done|]. intros w1 Hgr1 Hg1. apply IH; [|intros t' w' Hgr|done].
    + apply Forall_app. split; [done|]. by repeat constructor.
    + apply Hk. by etransitivity.
Qed.

Lemma safe_batch wk : harmless_handler (processBatch wk).
Proof.
  intros w Hg. apply safe_tx_begin; [done|]. intros w1 _ Hg1. apply safe_quiet; [done|].
  intros now w2 _ Hg2. cbv zeta. apply safe_vis; [intros; by apply quiet_keeps|]. cbv zeta.
  intros o w3 _ Hg3 _ Hg4.
  assert (Hev : Forall (fun ev => claimed ev (sys_exec _ (TxQueryOutbox (mk_tx [] []) (now - minute) (batchSize wk)) o w3).2)
    (map event_of_row (query_outbox (now - minute) (batchSize wk) (w_locks w3) (w_db w3)))).
  { eapply Forall_impl; [by apply claimed_rows|]. intros ev. apply claimed_grows. by apply quiet_keeps. }
  destruct o; try done. cbn [sys_exec fst snd] in *.
  set (rows := query_outbox _ _ _ _) in *. set (w4 := set_locks _ w3) in *.
  apply safe_defer; [by apply stable_true|done|]. destruct (map event_of_row rows) as [|ev evs] eqn:Hrows; [done|].
  rewrite <-Hrows in *. apply safe_claim_events; [done| |done]. intros t' w5 Hgr5 Hg5 Ht'.
  apply safe_tx_commit; [done| |].
  - intros w6 d _ Hg6 Hd. by eapply harmless_stmts_keep.
  - intros w6 Hgr6 Hg6 _. apply safe_publish_events; [done|]. eapply Forall_impl; [exact Hev|].
    intros e. apply claimed_grows. by etransitivity.
Qed.

(** ** The scheduler *)
Section decoded.
Context (m : msg) (i : Intent.t) (Hi : unmarshal_intent (Data m) = Some i).

Lemma genuine_sent st data w w' :
  genuine (w_db w) (Data m) -> marshal_intent (Intent.set_Status st i) = Ok data -> grows w w' -> genuine (w_db w') data.
Proof. intros Hm Hd Hgr. eapply genuine_reencoded; [eauto with pipeline|exact Hi|exact Hd]. Qed.

(** The scheduler's answer is Ok only once the intent is past PENDING. *)
Definition taken (u : string) (w : world) : Prop :=
  exists r, intents (w_db w) !! u = Some r /\ ir_status r <> PENDING.

Lemma taken_grows u w w' : grows w w' -> taken u w -> taken u w'.
Proof.
  intros Hg (r & Hr & Hs). destruct (grows_intents _ _ _ Hg u r Hr) as (r' & Hr' & _). exists r'. split; [done|].
  intros Hp. apply Hs. by eapply (grows_status _ _ _ Hg).
Qed.
Definition took {A} (r : result A unit) (w : world) : Prop := is_ok r = true -> taken (Intent.Id i) w.

Lemma stable_took {A} : stable minted (took (A:=A)).
Proof. intros r w w' Hgr _ Hr Hok. eapply taken_grows; [exact Hgr|by apply Hr]. Qed.

Lemma safe_took {A} (p : proc sysE (result A unit)) w :
  good w -> taken (Intent.Id i) w -> safe p (fun _ _ => True) w -> safe p took w.
Proof.
  intros Hg Ht Hp. eapply safe_weaken; [|apply safe_frame; [apply _|exact Hp]].
  cbn beta. intros r w' (_ & Hgr & _) _. by eapply taken_grows.
Qed.

Lemma genuine_row w : genuine (w_db w) (Data m) ->
  uuid_in (Intent.Id i) = Some (Intent.Id i) /\ exists r, intents (w_db w) !! Intent.Id i = Some r.
Proof. intros Hm. destruct (Hm i Hi) as (Hid & r & Hr & _). split; [done|]. by exists r. Qed.

Lemma update_takes st n w w0 w' d :
  (String.length st <= 50)%nat -> st <> PENDING -> genuine (w_db w) (Data m) -> grows w w0 ->
  exec_stmt (w_now w0) (UpdateStatus st (Intent.Id i)) (w_db w0) = Ok (n, d) -> grows (set_db d w0) w' ->
  taken (Intent.Id i) w'.
Proof.
  intros Hl Hst Hm Hgr Hex Hgr'. destruct (genuine_row w0) as (Hid & r & Hr); [eauto with pipeline|].
  destruct (update_status_written _ _ _ _ _ _ _ Hid Hr Hl Hex) as (r' & Hr' & Hs).
  eapply taken_grows; [exact Hgr'|]. exists r'. split; [done|]. by rewrite Hs.
Qed.

Lemma safe_republish w : good w -> genuine (w_db w) (Data m) -> taken (Intent.Id i) w -> safe (republish i) took w.
Proof.
  intros Hg Hm Ht. apply safe_took; [done..|]. unfold republish. destruct (marshal_intent _) as [data|] eqn:Hd; [|done].
  apply safe_publish; [|done]. intros w' Hgr _. by eapply genuine_sent.
Qed.

Lemma safe_reject_expired w : genuine (w_db w) (Data m) -> safe (reject_expired i) took w.
Proof.
  intros Hm. apply safe_db_exec; [by intros; apply harmless_licensed|done|].
  intros n w' _ Hg' (w0 & d & Hgr & Hex & Hgr'). apply safe_took; [done| |by apply safe_metric].
  eapply update_takes; [| |exact Hm|exact Hgr|exact Hex|exact Hgr']; [cbn; lia|done].
Qed.

Lemma safe_publish_task w : genuine (w_db w) (Data m) -> safe (publish_task i) (fun _ _ => True) w.
Proof.
  intros Hm. unfold publish_task. destruct (marshal_intent _) as [data|] eqn:Hd; [|done].
  apply safe_publish; [intros w' Hgr _; by eapply genuine_sent|]. intros [|] w' _ _ _; [by apply safe_metric|done].
Qed.

Lemma safe_schedule_intent w : good w -> genuine (w_db w) (Data m) -> safe (schedule i) took w.
Proof.
  intros Hg Hm. apply safe_tx_begin; [done|]. intros w1 Hgr1 Hg1. apply safe_defer; [by apply stable_took|done|].
  apply safe_tx_exec; [done|]. intros w2 Hgr2 Hg2. apply safe_tx_commit; [done| |].
  - intros w3 d _ Hg3 Hd. eapply harmless_stmts_keep; [|exact Hd|done]. by repeat constructor.
  - intros w3 Hgr3 Hg3 (w0 & d & Hgr0 & Hex & Hgr'). cbn [exec_stmts tx_stmts app] in Hex.
    destruct (exec_stmt _ _ _) as [[n d1]|e] eqn:Hex1; [|done]. injection Hex as ->.
    apply safe_took; [done| |].
    + eapply update_takes; [| |exact Hm| |exact Hex1|exact Hgr']; [cbn; lia|done|].
      do 2 (etransitivity; [eassumption|]). exact Hgr0.
    + apply safe_publish_task. eapply genuine_grows; [|exact Hm]. by do 2 (etransitivity; [eassumption|]).
Qed.

Lemma safe_schedule_steps w : good w -> genuine (w_db w) (Data m) -> safe (schedule_steps i) took w.
Proof.
  intros Hg Hm. apply safe_query_intent; [done|]. intros w1 Hgr1 Hg1.
  assert (Hm1 : genuine (w_db w1) (Data m)) by eauto with pipeline.
  destruct (genuine_row w1 Hm1) as (Hid & row & Hrow).
  unfold query_intent, uuid_arg. rewrite Hid. cbn [mbind result_bind]. rewrite Hrow. cbv beta iota zeta.
  case_bool_decide as Hst; cbn [negb].
  - apply safe_quiet; [done|]. intros now w2 Hgr2 Hg2. cbv zeta.
    destruct (match ir_deadline row with Some _ => _ | None => _ end);
      [apply safe_reject_expired|apply safe_schedule_intent]; eauto with pipeline.
  - assert (Ht : taken (Intent.Id i) w1) by (by exists row).
    case_bool_decide; [by apply safe_republish|]. by apply safe_took.
Qed.
End decoded.

(** An acknowledged submission is past PENDING. *)
Definition acked_past (m : msg) (a : ack) (w : world) : Prop :=
  a = Ack -> forall i, unmarshal_intent (Data m) = Some i -> taken (Intent.Id i) w.

Lemma safe_schedule m : forall w, good w -> genuine (w_db w) (Data m) -> safe (on_submitted m) (acked_past m) w.
Proof.
  intros w Hg Hm.
  assert (Hst : stable minted (fun (r : result string unit) => acked_past m (settle r))).
  { intros r w1 w2 Hgr _ Hp Ha i Hi. eapply taken_grows; [exact Hgr|by apply Hp]. }
  apply safe_bind; [apply _|done|]. apply safe_weaken with (Q := fun r => acked_past m (settle r)).
  { intros r w' Hr w2 Hgr Hg2. by eapply Hst. }
  apply safe_quiet; [done|]. intros start w1 Hgr1 Hg1. apply safe_bind; [apply _|done|].
  apply safe_weaken with (Q := fun r => acked_past m (settle r)).
  { intros r w' Hr. apply safe_quiet; [done|]. intros now w2 Hgr2 Hg2. apply safe_metric. intros w3 Hgr3 Hg3.
    apply safe_ret_stable; [exact Hst|done|]. eapply Hst; [|done|eapply Hst; [exact Hgr2|done|exact Hr]]. done. }
  destruct (unmarshal_intent (Data m)) as [i|] eqn:Hi; [|by intros w2 _ _].
  eapply safe_weaken; [|by eapply safe_schedule_steps; eauto with pipeline].
  intros r w' Hr Ha j Hj. assert (j = i) as -> by congruence. apply Hr. by destruct r.
Qed.

(** ** The execution engine *)
Lemma transfer_typed t ty : varchar 50 (IntentType_String t) = Ok ty -> ty = TRANSFER -> t = INTENT_TYPE_TRANSFER.
Proof.
  intros Hv ->. unfold IntentType_String, EnumStringOf in Hv.
  destruct (enum_lookup IntentType_name t) as [s|] eqn:Hs; cbn [default] in Hv.
  - apply enum_lookup_in, list_elem_of_In in Hs. cbn in Hs.
    repeat (destruct Hs as [[= <- <-]|Hs]; [done|]). done.
  - exfalso. apply varchar_Ok, varchar_in_Some in Hv as [_ Hv]. unfold itoa in Hv. destruct (Z.ltb_spec t 0).
    + cbn in Hv. destruct (varchar_chars 49 _); done.
    + destruct (dec_digits_leading (Z.to_nat (Z.log2 t)) t "") as (d & r & Hd & He); [done|].
      change (utoa t) with (dec_digits (S (Z.to_nat (Z.log2 t))) t "") in Hv. rewrite He in Hv.
      assert (Hc : d = 0 \/ d = 1 \/ d = 2 \/ d = 3 \/ d = 4 \/ d = 5 \/ d = 6 \/ d = 7 \/ d = 8 \/ d = 9) by lia.
      cbn [varchar_chars] in Hv. repeat destruct Hc as [->|Hc]; try subst d; cbn in Hv;
        destruct (varchar_chars 49 r); discriminate Hv.
Qed.

Lemma safe_execution txID i w :
  good w ->
  safe (runExecutionSimulation txID i)
    (fun r w' => is_ok r = true -> Intent.Type_ i = INTENT_TYPE_TRANSFER ->
                 paid (w_wallet w') (Intent.Id i) (Intent.Payload i)) w.
Proof.
  intros Hg. unfold runExecutionSimulation. destruct (Z.eqb_spec (Intent.Type_ i) INTENT_TYPE_TRANSFER) as [Ht|Ht].
  - destruct (transfer.unmarshal (Intent.Payload i)) as [x|] eqn:Hx; [|by intros w1 _ _].
    eapply safe_transfer; [exact Hx|]. intros r w1 Hgr1 Hg1 Hp. destruct r; [|by intros w2 _ _].
    intros w2 Hgr2 Hg2 _ _. eapply paid_grows; [exact Hgr2|by apply Hp].
  - destruct (Intent.Type_ i =? INTENT_TYPE_COMPUTE); [|by intros w1 _ _ _]. apply safe_quiet; [done|]. by intros r w1 _ _ w2 _ _ _.
Qed.

(** Recording a result: COMPLETED only for work that paid a transfer. *)
Lemma safe_record_result m i r w :
  genuine (w_db w) (Data m) -> unmarshal_intent (Data m) = Some i ->
  (is_ok r = true -> Intent.Type_ i = INTENT_TYPE_TRANSFER -> paid (w_wallet w) (Intent.Id i) (Intent.Payload i)) ->
  safe (record_result i r) (fun _ _ => True) w.
Proof.
  intros Hm Hi Hr. unfold record_result.
  set (st := if is_ok r then COMPLETED else "INTENT_STATUS_FAILED"%string).
  set (pst := if is_ok r then INTENT_STATUS_COMPLETED else INTENT_STATUS_FAILED).
  assert ((match r with
           | Ok _ => ("INTENT_STATUS_COMPLETED"%string, INTENT_STATUS_COMPLETED)
           | Err _ => ("INTENT_STATUS_FAILED"%string, INTENT_STATUS_FAILED)
           end) = (st, pst)) as -> by (by destruct r).
  apply safe_db_exec; [|done|].
  - intros w3 Hgr3 Hg3. split; [by destruct r; cbn; lia|]. split; [by destruct r|]. intros u row Hst Hu Hrow Hty.
    assert (Hm3 : genuine (w_db w3) (Data m)) by eauto with pipeline.
    destruct (Hm3 i Hi) as (Hid & row' & Hrow' & Hv & Hp).
    assert (u = Intent.Id i) as -> by congruence. assert (row' = row) as -> by congruence. rewrite Hp.
    eapply paid_grows; [exact Hgr3|]. apply Hr; [by destruct r|by eapply transfer_typed].
  - intros n' w3 Hgr3 Hg3 _. destruct (marshal_intent _) as [data|e] eqn:Hd; [|by apply safe_metric].
    apply safe_publish; [|intros; by apply safe_metric]. intros w4 Hgr4 Hg4.
    eapply genuine_sent; [exact Hi|exact Hm|exact Hd|]. by etransitivity.
Qed.

Lemma safe_execute_steps txID m i w :
  good w -> genuine (w_db w) (Data m) -> unmarshal_intent (Data m) = Some i ->
  safe (execute_steps txID i) (fun _ _ => True) w.
Proof.
  intros Hg Hm Hi. apply safe_db_exec; [by intros; apply harmless_licensed|done|].
  intros n w1 Hgr1 Hg1 _. destruct (n =? 0); [done|]. apply safe_bind; [apply _|done|].
  eapply safe_weaken; [|apply safe_frame; [apply _|by apply safe_execution]]. cbn beta. intros r w2 (Hr & Hgr2 & Hg2).
  eapply safe_record_result; [|exact Hi|exact Hr]. eauto with pipeline.
Qed.

Lemma safe_task txID m w :
  good w -> genuine (w_db w) (Data m) -> safe (executeTask txID m) (fun _ _ => True) w.
Proof.
  intros Hg Hm. apply safe_metric. intros w1 Hgr1 Hg1. apply safe_bind; [apply _|done|].
  apply safe_weaken with (Q := fun _ _ => True); [intros r w2 _; by apply safe_metric|].
  destruct (unmarshal_intent (Data m)) as [i|] eqn:Hi; [|done].
  apply safe_quiet; [done|]. intros start w2 Hgr2 Hg2. apply safe_bind; [apply _|done|].
  apply safe_weaken with (Q := fun _ _ => True).
  { intros r w3 _. apply safe_quiet; [done|]. intros now w4 _ Hg4. by apply safe_metric. }
  eapply safe_execute_steps; [done| |exact Hi]. eauto with pipeline.
Qed.

(** ** The validator *)
Lemma ledger_neutral {A} (p : proc ledgerE A) : all_neutral (proc_map (@LedgerOp) p).
Proof. induction p as [a|X e k IH]; cbn; [done|]. split; [by apply quiet_neutral|done]. Qed.

Lemma safe_audit ts m : harmless_handler (on_executed ts m).
Proof.
  intros w Hg. apply safe_answer; [done|]. apply safe_quiet; [done|]. intros start w1 _ Hg1.
  apply safe_bind; [apply _|done|]. apply safe_weaken with (Q := fun _ _ => True).
  { intros r w2 _. apply safe_quiet; [done|]. intros now w3 _ Hg3. by apply safe_metric. }
  assert (Herr : forall (r : result failure unit) w', good w' -> safe (verification_error r) (fun _ _ => True) w').
  { intros r w' _. by apply safe_metric. }
  unfold audit_steps. destruct (unmarshal_intent (Data m)) as [i|]; [|by apply Herr].
  apply safe_quiet; [done|]. intros [[u row]|e] w2 _ Hg2; [|by apply Herr].
  destruct (_ && _); [by apply Herr|]. apply safe_bind; [apply _|done|].
  eapply safe_weaken; [|apply safe_frame; [apply _|apply safe_all_neutral, ledger_neutral]].
  cbn beta. intros [b|e] w3 (_ & _ & Hg3); [|by apply Herr]. apply safe_metric. intros w4 _ Hg4.
  by destruct (first10 (Hash b)), (first10 (PrevHash b)).
Qed.

(** ** All of them *)
Lemma background_safe w p : good w -> background minted p -> safe p (fun _ _ => True) w.
Proof.
  intros Hg Hp. destruct Hp; (apply safe_discard; [done|]).
  - eapply safe_weaken; [|by apply safe_submit]. done.
  - by apply safe_get.
  - by apply safe_list.
  - by apply safe_batch.
Qed.

(** A delivery, wherever its message is in the stream, and what its
    acknowledgement says. *)
Definition handled (d : delivery) (w : world) : Prop :=
  exists m, w_nats w !! d.2 = Some m /\ (d.1 = AtScheduler -> acked_past m Ack w).

Lemma handled_grows d w w' : grows w w' -> handled d w -> handled d w'.
Proof.
  intros Hg (m & Hm & Hp). exists m. split; [eapply prefix_lookup_Some; [exact Hm|by apply (grows_nats _ _ _ Hg)]|].
  intros Hc Ha i Hi. eapply taken_grows; [exact Hg|by apply Hp].
Qed.

Lemma safe_message d arg m w :
  good w -> w_nats w !! d.2 = Some m -> safe (on_message d.1 arg m) (fun a w' => a = Ack -> handled d w') w.
Proof.
  intros Hg Hm. assert (Hgen : genuine (w_db w) (Data m)) by (apply (good_nats _ _ Hg); by eapply list_elem_of_lookup_2).
  assert (Hkeep : forall p : proc sysE ack, safe p (fun a w' => d.1 = AtScheduler -> acked_past m a w') w ->
    safe p (fun a w' => a = Ack -> handled d w') w).
  { intros p Hp. eapply safe_weaken; [|apply safe_frame; [apply _|exact Hp]]. cbn beta. intros a w' (Ha & Hgr & _) ->.
    exists m. split; [|exact Ha]. eapply prefix_lookup_Some; [exact Hm|by apply (grows_nats _ _ _ Hgr)]. }
  apply Hkeep. destruct d as [[] n]; cbn [fst on_message].
  - eapply safe_weaken; [|by apply safe_schedule]. by intros a w' Ha _.
  - eapply safe_weaken; [|by apply safe_answer, safe_task]. done.
  - eapply safe_weaken; [|by apply safe_audit]. done.
Qed.
Lemma starts_safe w p : good w -> starts minted w p -> safe p (fun _ _ => True) w.
Proof.
  intros Hg Hp. destruct Hp as [p Hp|m Hm _|txID m Hm _|ts m Hm _]; [by apply background_safe|..]; (apply safe_discard; [done|]).
  - eapply safe_weaken; [|apply safe_schedule; [done|by apply (good_nats _ _ Hg)]]. done.
  - apply safe_task; [done|]. by apply (good_nats _ _ Hg).
  - by apply safe_audit.
Qed.

Lemma moves_keep w w' : good w -> moves w w' -> good w' /\ grows w w'.
Proof.
  intros Hg Hm. destruct Hm as [t Ht|l Hl|o sched]; [by apply keeps_same..|].
  pose proof (serve_effect (w_now w) o sched (w_wallet w)) as Hs. cbv zeta in Hs.
  eapply keeps_wallet; [|done]. destruct (serve_ok _ _ _ _); naive_solver.
Qed.

Lemma initial_good t0 w : initial t0 w -> good w.
Proof.
  intros (Hdb & Hn & Hw). split; rewrite ?Hdb, ?Hn; cbn.
  - by eapply reachable_keys.
  - by eapply reachable_log_unique.
  - by intros m ?%elem_of_nil.
  - intros k r. by rewrite lookup_empty.
  - intros u r. by rewrite lookup_empty.
  - intros u. rewrite lookup_empty. by intros [].
Qed.

Abbreviation pipeline_safe := (pool_safe sys_exec good grows (fun _ _ => True)).
Lemma pipeline_safe_steps c c' :
  pipeline_safe c -> rtc (pipeline_step minted) c c' -> pipeline_safe c' /\ grows c.2 c'.2.
Proof. intros Hc Hr. exact (system_safe sys_exec good grows _ _ _ c c' starts_safe moves_keep Hc Hr). Qed.

Theorem pipeline_invariant t0 w0 ps w :
  initial t0 w0 -> rtc (pipeline_step minted) ([], w0) (ps, w) ->
  pool_safe sys_exec good grows (fun _ _ => True) (ps, w) /\ grows w0 w.
Proof.
  intros Hi Hr. apply pipeline_safe_steps in Hr; [exact Hr|]. split; [by eapply initial_good|constructor].
Qed.
End handlers.
