(* ===== verification/PipelineProps.v ===== *)
(** * What the pipeline guarantees end to end

    Theorems about every world that any number of concurrent submissions,
    outbox workers, schedulers, engines and validators can reach, with
    redelivered messages, crashes and lost acknowledgements, and concrete runs
    of what can still go wrong. *)
From stdpp Require Import sorting.
From S2P Require Import Prelude GoLib Effects Concurrent Sql Proto Float64 Float64Facts WalletProto Wallet.
From S2P Require Import WalletFacts WalletProps Ledger IntentDb System SystemRules IntentStore Crypto.
From S2P Require Import IntentHandler Concrete IntentFacts Outbox Scheduler Engine Validator Pipeline.
From S2P Require Import PipelineFacts PipelineSafe.

Section guarantees.
Context `{Postgres} `{NumericCodec} `{ProtoCodec} `{TimeText} `{Ed25519}.
Context (minted : string -> string).

Lemma reaches_good t0 w : reaches minted t0 w -> good minted w.
Proof. intros (w0 & ps & Hi & Hr). by eapply pipeline_invariant in Hr as [[Hg _] _]. Qed.

(** The audit log of a good world has one row per reference. *)
Lemma good_paid_once w u r :
  good minted w -> intents (w_db w) !! u = Some r -> ir_status r = COMPLETED -> ir_type r = TRANSFER ->
  exists t, t ∈ wallet_transactions (w_wallet w) /\ pays u (ir_payload r) t /\
    forall t', t' ∈ wallet_transactions (w_wallet w) -> tx_reference_id t' = tx_reference_id t -> t' = t.
Proof.
  intros Hw Hu Hs Ht. destruct (good_paid _ _ Hw u r Hu Hs Ht) as (t & Hin & Hp).
  exists t. split_and!; [done..|]. intros t' Hin' Href.
  apply list_elem_of_lookup_1 in Hin as [i Hi], Hin' as [j Hj].
  assert (i = j) as ->; [|congruence].
  eapply (NoDup_lookup _ _ _ (tx_reference_id t) (good_refs _ _ Hw)); rewrite list_lookup_fmap, ?Hi, ?Hj; cbn; congruence.
Qed.

(** C5: a transfer intent that is COMPLETED has been paid exactly once.  In every
    reachable world the wallet's audit log holds one row under the intent's id
    as reference, and it moves the amount of the intent's payload between the
    accounts of the payload; however often the task was scheduled, delivered
    or executed, and whatever failed. *)
Theorem completed_transfer_paid_once t0 w u r :
  reaches minted t0 w -> intents (w_db w) !! u = Some r ->
  ir_status r = COMPLETED -> ir_type r = TRANSFER ->
  exists t, t ∈ wallet_transactions (w_wallet w) /\ pays u (ir_payload r) t /\
    forall t', t' ∈ wallet_transactions (w_wallet w) -> tx_reference_id t' = tx_reference_id t -> t' = t.
Proof. intros Hw%reaches_good. by apply good_paid_once. Qed.

(** C7: no accepted intent is forgotten.  In every reachable world each stored
    intent has its "submitted" event, with its id and on the subject of its
    type, in the outbox table or in the NATS stream: the row and the event are
    written together, and the event leaves the table only after it is in the
    stream. *)
Theorem stored_intents_announced t0 w u :
  reaches minted t0 w -> is_Some (intents (w_db w) !! u) -> announced w u.
Proof. intros Hw%reaches_good. apply (good_announced _ _ Hw). Qed.

(** C11: what later steps cannot undo.  From any reachable state on, whatever
    runs and fails, no intent disappears and every column but its status and the
    time of its last change stays as accepted; an intent that left PENDING does
    not return to it; no row of the wallet's audit log changes; and an outbox
    event stays until its message is in the stream.  The stream keeps its
    messages in their order: no event of the model removes one, since the code
    sets no limit on the stream. *)
Theorem pipeline_is_monotone t0 w0 ps w ps' w' :
  initial t0 w0 -> rtc (pipeline_step minted) ([], w0) (ps, w) ->
  rtc (pipeline_step minted) (ps, w) (ps', w') ->
  (forall u r, intents (w_db w) !! u = Some r ->
     exists r', intents (w_db w') !! u = Some r' /\ same_request r r' /\
       (ir_status r' = PENDING -> ir_status r = PENDING)) /\
  w_nats w `prefix_of` w_nats w' /\
  (exists rows, wallet_transactions (w_wallet w') = rows ++ wallet_transactions (w_wallet w)) /\
  (forall k o, outbox_events (w_db w) !! k = Some o ->
     (exists o', outbox_events (w_db w') !! k = Some o' /\ content o' = content o) \/ content o ∈ w_nats w').
Proof.
  intros Hi Hr Hr'. apply (pipeline_invariant minted t0 w0 ps w Hi) in Hr as [Hsafe _].
  apply pipeline_safe_steps in Hr'; [|exact Hsafe].
  destruct Hr' as [_ [Hg1 Hg2 Hg3 Hg4 Hg5 _]]. split_and!; try done. intros u r Hu.
  destruct (Hg1 u r Hu) as (r' & Hr' & Hs). exists r'. split_and!; [done..|]. by apply (Hg2 u r r').
Qed.
End guarantees.

(** ** Concrete runs *)
Module Run.
#[local] Existing Instance concrete_postgres.
#[local] Existing Instance exact_codec.
#[local] Existing Instance concrete_codec.
#[local] Existing Instance concrete_time.
#[local] Existing Instance concrete_ed25519.

Definition intent_id : string := "00000000-0000-4000-8000-00000000000a".
Definition outbox_id : string := "00000000-0000-4000-8000-00000000000b".
Definition minted (_ : string) : string := intent_id.
Definition q : string := String (Zbyte 34) "".
Definition payload : string :=
  ("{" +:+ q +:+ "from" +:+ q +:+ ":" +:+ q +:+ "user-alice-001" +:+ q +:+ "," +:+ q +:+ "to" +:+ q +:+ ":"
   +:+ q +:+ "user-bob-001" +:+ q +:+ "," +:+ q +:+ "amount" +:+ q +:+ ":25}")%string.
Definition request : SubmitIntentRequest.t :=
  let bytes := GetSignBytes (IntentType_String INTENT_TYPE_TRANSFER) "user-alice-001" payload in
  SubmitIntentRequest.mk INTENT_TYPE_TRANSFER payload None "user-alice-001"
    (hex_encode (ed_sign "" bytes)) (hex_encode (ed_keygen "").1).

Definition w0 : world := mk_world empty_db ∅ [] (seed_db 0) None 1000000 [].
Definition do {A} (p : proc sysE A) (sched : list outcome) (w : world) : world :=
  run_state sys_exec (_ ← p; Ret tt) sched w.
Definition message (n : nat) (w : world) : msg := nth n (w_nats w) (mk_msg "" "").

(** Submit, publish, schedule, execute: the normal course. *)
Definition submitted : world := do (SubmitIntent (E:=sysE) intent_id outbox_id request) [] w0.
Definition published : world := do (processBatch (NewWorker 0 0 0)) [] submitted.
Definition scheduled : world := do (on_submitted (message 0 published)) [] published.
Definition executed : world := do (executeTask "tx-1" (message 1 scheduled)) [] scheduled.
Definition status (w : world) : option string := ir_status <$> intents (w_db w) !! intent_id.

Example run_statuses :
  (status submitted, status scheduled, status executed,
   map Subject (w_nats executed), length (wallet_transactions (w_wallet executed)),
   size (outbox_events (w_db published))) =
  (Some "INTENT_STATUS_PENDING", Some "INTENT_STATUS_SCHEDULED", Some "INTENT_STATUS_COMPLETED",
   ["intents.submitted.INTENT_TYPE_TRANSFER"; "tasks.scheduled.INTENT_TYPE_TRANSFER";
    "intents.executed.INTENT_TYPE_TRANSFER"], 1%nat, 0%nat)%string.
Proof. vm_compute. reflexivity. Qed.

(** The checks of the theorems below, as computations. *)
Definition pays_b (ref payload : string) (t : transaction) : bool :=
  match transfer.unmarshal payload with
  | Some x =>
      bool_decide (tx_from t = Some (transfer.From x)) && bool_decide (tx_to t = Some (transfer.To x)) &&
      bool_decide (num_of_float (transfer.Amount x) = Some (tx_amount t)) &&
      bool_decide (varchar_in 100 ref = Some (tx_reference_id t))
  | None => false
  end.
Lemma pays_b_pays ref payload t : pays_b ref payload t = true -> pays ref payload t.
Proof.
  unfold pays_b, pays. destruct (transfer.unmarshal payload) as [x|]; [|done].
  intros [[[Hf%bool_decide_eq_true Ht%bool_decide_eq_true]%andb_true_iff
    Ha%bool_decide_eq_true]%andb_true_iff Hr%bool_decide_eq_true]%andb_true_iff. by exists x.
Qed.
Definition row_is (st ty : string) (w : world) : bool :=
  match intents (w_db w) !! intent_id with
  | Some r => bool_decide (ir_status r = st) && bool_decide (ir_type r = ty)
  | None => false
  end.
Lemma row_is_row st ty w : row_is st ty w = true ->
  exists r, intents (w_db w) !! intent_id = Some r /\ ir_status r = st /\ ir_type r = ty.
Proof.
  unfold row_is. destruct (intents (w_db w) !! intent_id) as [r|]; [|done].
  intros [Hs%bool_decide_eq_true Ht%bool_decide_eq_true]%andb_true_iff. by exists r.
Qed.
Definition logged_b (w : world) : bool :=
  match intents (w_db w) !! intent_id with
  | Some r => existsb (pays_b intent_id (ir_payload r)) (wallet_transactions (w_wallet w))
  | None => false
  end.
Lemma logged_b_paid w r :
  logged_b w = true -> intents (w_db w) !! intent_id = Some r -> paid (w_wallet w) intent_id (ir_payload r).
Proof.
  unfold logged_b. intros Hl Hr. rewrite Hr in Hl. apply existsb_exists in Hl as (t & Hin & Ht).
  exists t. split; [by apply list_elem_of_In|by apply pays_b_pays].
Qed.

(** Each of these worlds is reachable. *)
Abbreviation reached w := (rtc (pipeline_step minted) ([], w0) ([], w)).
Lemma w0_initial : initial 0 w0.
Proof. split_and!; [done..|constructor]. Qed.
Lemma reached_reaches w : reached w -> reaches minted 0 w.
Proof. intros Hr. exists w0, []. by split; [apply w0_initial|]. Qed.
Lemma reached_do {A} (p : proc sysE A) sched w :
  reached w -> starts minted w (_ ← p; Ret tt) -> reached (do p sched w).
Proof. intros Hw Hp. etransitivity; [exact Hw|]. by apply run_to_end. Qed.
Lemma do_steps {A} (p : proc sysE A) sched w :
  starts minted w (_ ← p; Ret tt) -> rtc (pipeline_step minted) ([], w) ([], do p sched w).
Proof. apply run_to_end. Qed.
Lemma message_in m w : existsb (fun x => bool_decide (x = m)) (w_nats w) = true -> m ∈ w_nats w.
Proof. intros (x & Hx & ->%bool_decide_eq_true)%existsb_exists. by apply list_elem_of_In. Qed.
Lemma some_is_Some {A} (o : option A) : (match o with Some _ => true | None => false end) = true -> is_Some o.
Proof. destruct o; [by eexists|done]. Qed.

Lemma reached_submitted : reached submitted.
Proof. apply reached_do; [done|]. by apply start_background, back_submit. Qed.
Lemma reached_published : reached published.
Proof. apply reached_do; [apply reached_submitted|]. apply start_background, back_batch. Qed.
Lemma reached_scheduled : reached scheduled.
Proof.
  apply reached_do; [apply reached_published|]. apply start_scheduler; [apply message_in; vm_compute; reflexivity|].
  apply some_is_Some. vm_compute. reflexivity.
Qed.
Lemma reached_executed : reached executed.
Proof.
  apply reached_do; [apply reached_scheduled|]. apply start_engine; [apply message_in; vm_compute; reflexivity|].
  apply some_is_Some. vm_compute. reflexivity.
Qed.

Lemma completed_transfer_paid_once_witness :
  exists r t, intents (w_db executed) !! intent_id = Some r /\ ir_status r = COMPLETED /\
    t ∈ wallet_transactions (w_wallet executed) /\ pays intent_id (ir_payload r) t.
Proof.
  destruct (row_is_row COMPLETED TRANSFER executed ltac:(vm_compute; reflexivity)) as (r & Hr & Hst & Hty).
  destruct (completed_transfer_paid_once minted 0 executed intent_id r) as (t & Ht & Hp & _).
  - apply reached_reaches, reached_executed.
  - exact Hr.
  - exact Hst.
  - exact Hty.
  - exists r, t. exact (conj Hr (conj Hst (conj Ht Hp))).
Defined.

Lemma stored_intents_announced_witness : announced submitted intent_id /\ announced executed intent_id.
Proof.
  split.
  - apply (stored_intents_announced minted 0); [apply reached_reaches, reached_submitted|].
    apply some_is_Some. vm_compute. reflexivity.
  - apply (stored_intents_announced minted 0); [apply reached_reaches, reached_executed|].
    apply some_is_Some. vm_compute. reflexivity.
Defined.

Lemma pipeline_is_monotone_witness :
  w_nats scheduled `prefix_of` w_nats executed /\ length (w_nats scheduled) = 2%nat.
Proof.
  split; [|vm_compute; reflexivity].
  destruct (pipeline_is_monotone minted 0 w0 [] scheduled [] executed) as (_ & Hn & _).
  - exact w0_initial.
  - exact reached_scheduled.
  - unfold executed. apply do_steps. apply start_engine; [apply message_in; vm_compute; reflexivity|]. apply some_is_Some. vm_compute. reflexivity.
  - exact Hn.
Defined.

(** ** Paid, but FAILED *)
(** The answer of the wallet is lost after it has committed. *)
Definition unanswered : world :=
  do (executeTask "tx-1" (message 1 scheduled)) [Done; Done; Done; AckLost "deadline exceeded"] scheduled.

(** The converse of "completed means paid" does not hold: a world is
    reachable in which the transfer is in the wallet's audit log and the intent
    is FAILED, since the engine takes every error of the wallet call, a lost
    answer included, for a transfer that was not made; the redelivered task is
    then skipped. *)
Theorem paid_intent_can_be_failed :
  exists t0 w u r, reaches minted t0 w /\ intents (w_db w) !! u = Some r /\
    ir_status r = "INTENT_STATUS_FAILED" /\ paid (w_wallet w) u (ir_payload r).
Proof.
  destruct (row_is_row "INTENT_STATUS_FAILED" TRANSFER unanswered ltac:(vm_compute; reflexivity)) as (r & Hr & Hst & _).
  exists 0, unanswered, intent_id, r. split; [|split; [exact Hr|split; [exact Hst|]]].
  - apply reached_reaches. unfold unanswered. apply reached_do; [apply reached_scheduled|].
    apply start_engine; [apply message_in; vm_compute; reflexivity|].
    apply some_is_Some. vm_compute. reflexivity.
  - apply logged_b_paid; [vm_compute; reflexivity|exact Hr].
Qed.

(** ** Completed, then re-scheduled, then FAILED *)
Definition first_steps : nat := 3.
Definition slow : proc sysE unit := _ ← on_submitted (message 0 published); Ret tt.
Definition slow_rest : proc sysE unit := (run_n sys_exec first_steps slow [] published).1.
Definition w_slow : world := (run_n sys_exec first_steps slow [] published).2.
Definition w_done : world :=
  do (executeTask "tx-1" (message 1 (do (on_submitted (message 0 published)) [] w_slow))) []
    (do (on_submitted (message 0 published)) [] w_slow).
Definition w_again : world := run_state sys_exec slow_rest [] w_done.
Definition w_failed : world := do (executeTask "tx-2" (message 3 w_again)) [] w_again.

Example again_statuses :
  (status w_slow, status w_done, status w_again, status w_failed,
   length (wallet_transactions (w_wallet w_failed))) =
  (Some "INTENT_STATUS_PENDING", Some "INTENT_STATUS_COMPLETED", Some "INTENT_STATUS_SCHEDULED",
   Some "INTENT_STATUS_FAILED", 1%nat)%string.
Proof. vm_compute. reflexivity. Qed.

Lemma beside {A} ps (p : proc sysE A) sched w :
  starts minted w (_ ← p; Ret tt) -> rtc (pipeline_step minted) (ps, w) (ps, do p sched w).
Proof. apply run_to_end. Qed.

Lemma reached_w_done : rtc (pipeline_step minted) ([], w0) ([slow_rest], w_done).
Proof.
  etransitivity; [exact reached_published|].
  eapply rtc_l; [apply (system_spawn _ _ _ [] published slow)|].
  { apply start_scheduler; [apply message_in; vm_compute; reflexivity|]. apply some_is_Some. vm_compute. reflexivity. }
  etransitivity; [exact (run_n_steps sys_exec (starts minted) moves first_steps [slow] 0 slow [] published eq_refl)|].
  cbn [list_insert insert]. fold slow_rest w_slow. unfold w_done.
  etransitivity; [apply (beside _ (on_submitted (message 0 published)))|apply beside].
  - apply start_scheduler; [apply message_in; vm_compute; reflexivity|]. apply some_is_Some. vm_compute. reflexivity.
  - apply start_engine; [apply message_in; vm_compute; reflexivity|]. apply some_is_Some. vm_compute. reflexivity.
Qed.

Lemma w_done_failed : rtc (pipeline_step minted) ([slow_rest], w_done) ([], w_failed).
Proof.
  etransitivity; [exact (finish_thread sys_exec (starts minted) moves [slow_rest] 0 slow_rest [] w_done eq_refl)|].
  unfold w_failed. apply beside. apply start_engine; [apply message_in; vm_compute; reflexivity|].
  apply some_is_Some. vm_compute. reflexivity.
Qed.

(** C40: COMPLETED is not final.  The scheduler reads the status in one statement
    and writes SCHEDULED in a later one without a condition; when the same
    submission is delivered twice, the slower delivery can put a COMPLETED
    transfer back to SCHEDULED, and the second execution, refused by the wallet
    as a duplicate, leaves the paid intent FAILED. *)
Theorem completed_intent_can_become_failed :
  exists t0 w0 ps w ps' w' u r r',
    initial t0 w0 /\ rtc (pipeline_step minted) ([], w0) (ps, w) /\
    rtc (pipeline_step minted) (ps, w) (ps', w') /\
    intents (w_db w) !! u = Some r /\ ir_status r = COMPLETED /\
    intents (w_db w') !! u = Some r' /\ ir_status r' = "INTENT_STATUS_FAILED" /\
    paid (w_wallet w') u (ir_payload r').
Proof.
  destruct (row_is_row COMPLETED TRANSFER w_done ltac:(vm_compute; reflexivity)) as (r & Hr & Hst & _).
  destruct (row_is_row "INTENT_STATUS_FAILED" TRANSFER w_failed ltac:(vm_compute; reflexivity)) as (r' & Hr' & Hst' & _).
  exists 0, w0, [slow_rest], w_done, [], w_failed, intent_id, r, r'.
  split; [exact w0_initial|]. split; [exact reached_w_done|]. split; [exact w_done_failed|].
  split; [exact Hr|]. split; [exact Hst|]. split; [exact Hr'|]. split; [exact Hst'|].
  apply logged_b_paid; [vm_compute; reflexivity|exact Hr'].
Qed.
End Run.
