(* ===== verification/Typed.v ===== *)
(** * Types of what the services store, send and count

    A discipline on handlers: the statuses they write and the metrics they update
    are declared ones, and the types they write and the subjects they publish on
    are made with the text of a type number (its declared name, or its digits).  Every
    handler keeps it, so every reachable world of the pipeline does. *)
From stdpp Require Import sorting.
From S2P Require Import Prelude GoLib Effects Concurrent Sql Proto Float64 Json JsonFacts WalletProto Wallet Ledger.
From S2P Require Import WalletFacts Float64Facts IntentDb System SystemRules IntentStore Crypto IntentHandler Concrete.
From S2P Require Import IntentFacts Outbox Scheduler Engine Validator Mains Metrics Pipeline PipelineProps.

(** ** The types *)
(** The statuses that are ever stored. *)
Definition stored_statuses : list string :=
  ["INTENT_STATUS_PENDING"; "INTENT_STATUS_SCHEDULED"; "INTENT_STATUS_EXECUTING"; "INTENT_STATUS_COMPLETED";
   "INTENT_STATUS_FAILED"]%string.
Definition outbox_statuses : list string := ["PENDING"; "PROCESSING"; "FAILED"]%string.
Definition subject_prefixes : list string := ["intents.submitted."; "tasks.scheduled."; "intents.executed."]%string.

(** The name of an intent type other than UNSPECIFIED; a number that has no name
    is written in decimal. *)
Definition type_text (s : string) : Prop := exists t, t <> INTENT_TYPE_UNSPECIFIED /\ s = IntentType_String t.
Definition row_typed (r : intent_row) : Prop := ir_status r ∈ stored_statuses /\ type_text (ir_type r).
Definition outbox_typed (r : outbox_row) : Prop :=
  ob_status r ∈ outbox_statuses /\ exists s, type_text s /\ ob_topic r = ("intents.submitted." +:+ s)%string.
Definition message_typed (m : msg) : Prop :=
  exists prefix t, prefix ∈ subject_prefixes /\ Subject m = (prefix +:+ IntentType_String t)%string.

Definition stmt_typed (s : stmt) : Prop :=
  match s with
  | InsertIntent _ r => row_typed r
  | InsertOutbox _ topic _ _ => exists s, type_text s /\ topic = ("intents.submitted." +:+ s)%string
  | UpdateStatus st _ => st ∈ stored_statuses
  | ClaimStatus st _ from => st ∈ stored_statuses /\ from ∈ stored_statuses
  | OutboxUpdate st _ _ => st ∈ outbox_statuses
  | OutboxProcessing _ | OutboxDelete _ => True
  end.
Definition tx_typed (t : tx) : Prop := Forall stmt_typed (tx_stmts t).

Record world_typed (w : world) : Prop := {
  typed_intents : forall u r, intents (w_db w) !! u = Some r -> row_typed r;
  typed_outbox : forall k r, outbox_events (w_db w) !! k = Some r -> outbox_typed r;
  typed_nats : Forall message_typed (w_nats w);
  typed_metrics : Forall (fun m => exists x, declared x m = true) (w_metrics w);
}.

(** ** Text without blanks is stored as it is *)
Definition no_blank (s : string) : bool := string_forall (fun c => negb (byteZ c =? 32)) s.
Lemma varchar_no_blank n s s' : no_blank s = true -> varchar n s = Ok s' -> s' = s.
Proof.
  rewrite varchar_Ok, varchar_in_Some. unfold no_blank. intros Hs [_ Hv]. revert Hs Hv.
  revert n s'; induction s as [|c s IH]; intros n s'; cbn [varchar_chars string_forall].
  { by intros _ [= <-]. }
  intros [Hc Hs]%andb_true_iff. destruct (utf8_cont c).
  - intros (x & Hx & ->)%fmap_Some. by rewrite (IH _ _ Hs Hx).
  - destruct n as [|n]; [|intros (x & Hx & ->)%fmap_Some; by rewrite (IH _ _ Hs Hx)].
    cbn [string_forall]. unfold blank. apply negb_true_iff in Hc. rewrite Hc. done.
Qed.
Lemma itoa_no_blank n : no_blank (itoa n) = true.
Proof.
  assert (Hu : forall k, 0 <= k -> no_blank (utoa k) = true).
  { intros k Hk. destruct (utoa_digits k Hk) as [Hd _]. revert Hd. generalize (utoa k) as s. induction s as [|c s IH]; [done|].
    unfold no_blank in *. cbn [string_forall]. intros [Hc Hs]%andb_true_iff. rewrite IH by done. unfold is_digit in Hc. lia. }
  unfold itoa. destruct (Z.ltb_spec n 0); [|by apply Hu].
  unfold no_blank in *. rewrite string_forall_app. by rewrite (Hu (- n)) by lia.
Qed.
Lemma type_string_no_blank t : no_blank (IntentType_String t) = true.
Proof.
  unfold IntentType_String, EnumStringOf, IntentType_name. cbn [enum_lookup].
  repeat (case_match; [reflexivity|]). apply itoa_no_blank.
Qed.
Lemma type_text_no_blank s : type_text s -> no_blank s = true.
Proof. intros (t & _ & ->). apply type_string_no_blank. Qed.
Lemma varchar_type n s s' : type_text s -> varchar n s = Ok s' -> s' = s.
Proof. intros Hs. by apply varchar_no_blank, type_text_no_blank. Qed.
Lemma varchar_status n s s' : s ∈ stored_statuses -> varchar n s = Ok s' -> s' = s.
Proof.
  intros Hs. apply varchar_no_blank. revert s Hs. apply Forall_forall. repeat constructor.
Qed.
Lemma varchar_outbox_status n s s' : s ∈ outbox_statuses -> varchar n s = Ok s' -> s' = s.
Proof. intros Hs. apply varchar_no_blank. revert s Hs. apply Forall_forall. repeat constructor. Qed.

(** ** Statements keep the tables typed *)
Section statements.
Context `{Postgres}.
Implicit Types d : intent_db.

Definition db_typed d : Prop :=
  (forall u r, intents d !! u = Some r -> row_typed r) /\
  (forall k r, outbox_events d !! k = Some r -> outbox_typed r).

Lemma db_typed_intent u r d :
  row_typed r -> db_typed d -> db_typed (mk_intent_db (<[u := r]> (intents d)) (outbox_events d)).
Proof.
  intros Hr [Hi Ho]. split; [|exact Ho]. intros v r' Hv. cbn in Hv.
  apply lookup_insert_Some in Hv as [[_ <-]|[_ Hv]]; [exact Hr|by eapply Hi].
Qed.
Lemma db_typed_event k r d :
  outbox_typed r -> db_typed d -> db_typed (mk_intent_db (intents d) (<[k := r]> (outbox_events d))).
Proof.
  intros Hr [Hi Ho]. split; [exact Hi|]. intros v r' Hv. cbn in Hv.
  apply lookup_insert_Some in Hv as [[_ <-]|[_ Hv]]; [exact Hr|by eapply Ho].
Qed.

Lemma row_in_typed r r' : row_typed r -> row_in r = Ok r' -> row_typed r'.
Proof.
  unfold row_in. intros [Hst Hty]. rewrite result_bind_Ok. intros (ty & Ht & Hr). apply varchar_type in Ht; [subst ty|done].
  apply result_bind_Ok in Hr as (st & Hs & Hr). apply varchar_status in Hs; [subst st|done].
  do 4 (apply result_bind_Ok in Hr as (? & _ & Hr)). injection Hr as <-. by split.
Qed.

Lemma exec_stmt_typed now s d n d' : stmt_typed s -> db_typed d -> exec_stmt now s d = Ok (n, d') -> db_typed d'.
Proof.
  intros Hs Hd. destruct s as [id r|id topic payload t|st id|st id from|id|st retry id|id]; cbn [exec_stmt stmt_typed] in *;
    rewrite result_bind_Ok; intros (u & _ & Hx).
  - apply result_bind_Ok in Hx as (row & Hrow & Hx). apply row_in_typed in Hrow; [|done].
    case_match; [done|]. injection Hx as <- <-. by apply db_typed_intent.
  - apply result_bind_Ok in Hx as (tp & Htp & Hx). apply result_bind_Ok in Hx as (pay & _ & Hx).
    case_match; [done|]. injection Hx as <- <-. apply db_typed_event; [|done]. split; [cbn; set_solver|].
    destruct Hs as (s & Hs & ->). exists s. split; [done|]. apply varchar_no_blank in Htp; [exact Htp|].
    unfold no_blank. rewrite string_forall_app. by apply type_text_no_blank.
  - apply result_bind_Ok in Hx as (st' & Hst & Hx). apply varchar_status in Hst; [subst st'|done].
    destruct (intents d !! u) as [r|] eqn:Hr; injection Hx as <- <-; [|done].
    apply db_typed_intent; [|done]. destruct (proj1 Hd u r Hr) as [_ Hty]. destruct r. by split.
  - apply result_bind_Ok in Hx as (st' & Hst & Hx). apply varchar_status in Hst; [subst st'|by destruct Hs].
    destruct (intents d !! u) as [r|] eqn:Hr; [|by injection Hx as <- <-]. case_bool_decide; injection Hx as <- <-; [|done].
    apply db_typed_intent; [|done]. destruct (proj1 Hd u r Hr) as [_ Hty]. destruct r. by split; [apply Hs|].
  - destruct (outbox_events d !! u) as [r|] eqn:Hr; injection Hx as <- <-; [|done].
    apply db_typed_event; [|done]. destruct (proj2 Hd u r Hr) as [_ Htp]. destruct r. split; [cbn; set_solver|done].
  - apply result_bind_Ok in Hx as (st' & Hst & Hx). apply varchar_outbox_status in Hst; [subst st'|done].
    destruct (outbox_events d !! u) as [r|] eqn:Hr; injection Hx as <- <-; [|done].
    apply db_typed_event; [|done]. destruct (proj2 Hd u r Hr) as [_ Htp]. destruct r. by split.
  - injection Hx as <- <-. split; [apply Hd|]. intros k r Hk. cbn in Hk.
    apply lookup_delete_Some in Hk as [_ Hk]. by eapply Hd.
Qed.

Lemma exec_stmts_typed now l d d' : Forall stmt_typed l -> db_typed d -> exec_stmts now l d = Ok d' -> db_typed d'.
Proof.
  intros Hl. revert d. induction Hl as [|s l Hs _ IH]; intros d Hd; cbn; [by intros [= <-]|].
  destruct (exec_stmt now s d) as [[n d1]|e] eqn:Hx; [|done]. apply IH. by eapply exec_stmt_typed.
Qed.
End statements.

(** ** Events: what they may be asked, and what they then answer *)
Section events.
Context `{Postgres} `{NumericCodec}.

Definition event_typed (svc : service) {X} (e : sysE X) : Prop :=
  match e with
  | TxExec t s => tx_typed t /\ stmt_typed s
  | TxQueryOutbox t _ _ | TxCommit t => tx_typed t
  | DbExec s => stmt_typed s
  | Publish m => message_typed m
  | Metric name labels => declared svc (name, labels) = true
  | _ => True
  end.
Definition answer_typed {X} (e : sysE X) : X -> Prop :=
  match e in sysE X return X -> Prop with
  | DbBegin | TxExec _ _ => fun r => match r with Ok t => tx_typed t | Err _ => True end
  | TxQueryOutbox _ _ _ => fun r =>
      match r with Ok (t, rows) => tx_typed t /\ Forall (fun kr => outbox_typed kr.2) rows | Err _ => True end
  | QueryIntent _ => fun r => match r with Ok (_, row) => row_typed row | Err _ => True end
  | _ => fun _ => True
  end.

Lemma world_typed_same w w' :
  w_db w' = w_db w -> w_nats w' = w_nats w -> w_metrics w' = w_metrics w -> world_typed w -> world_typed w'.
Proof. intros H1 H2 H3 [Hi Ho Hn Hm]. split; by rewrite ?H1, ?H2, ?H3. Qed.
Lemma world_typed_db d w : db_typed d -> world_typed w -> world_typed (set_db d w).
Proof. intros [Hi Ho] Hw. split; [exact Hi|exact Ho|apply Hw|apply Hw]. Qed.
Lemma db_of_world w : world_typed w -> db_typed (w_db w).
Proof. intros Hw. split; apply Hw. Qed.
Lemma world_typed_publish m w : message_typed m -> world_typed w -> world_typed (set_nats (w_nats w ++ [m]) w).
Proof.
  intros Hm Hw. split; try apply Hw. cbn. apply Forall_app. split; [apply Hw|]. by repeat constructor.
Qed.
Ltac same :=
  match goal with Hw : world_typed ?w |- _ => first [exact Hw | refine (world_typed_same w _ _ _ _ Hw); reflexivity] end.

Lemma event_sound svc X (e : sysE X) o w :
  event_typed svc e -> world_typed w ->
  answer_typed e (sys_exec _ e o w).1 /\ world_typed (sys_exec _ e o w).2.
Proof.
  intros He Hw. pose proof (db_of_world w Hw) as Hd.
  destruct e as [|t s|t threshold limit|t|t|s|id|f|f limit|m|txID req|Y e| |d|name labels]; cbn [event_typed answer_typed sys_exec] in *.
  - destruct o; (split; [|exact Hw]); cbn; try done. constructor.
  - split; [|by destruct o]. destruct o; try done. cbn. destruct (exec_stmts _ _ _); [|done].
    destruct He as [Ht Hs]. apply Forall_app. split; [exact Ht|by repeat constructor].
  - destruct o; cbn; (split; [|same]); try done. split; [exact He|].
    apply Forall_forall. intros [k r] Hk. unfold query_outbox in Hk. apply elem_of_take in Hk as (i & Hi & _).
    apply list_elem_of_lookup_2 in Hi. rewrite order_outbox_perm in Hi.
    apply list_elem_of_In, filter_In in Hi as [Hi _]. apply list_elem_of_In, elem_of_map_to_list in Hi. by eapply Hd.
  - split; [done|]. destruct (exec_stmts _ (tx_stmts t) _) as [d|err] eqn:Hx; [|same].
    assert (Hd' : db_typed d) by by eapply exec_stmts_typed.
    assert (Hc : world_typed (set_db d w)) by by apply world_typed_db. destruct o; cbn; same.
  - split; [done|same].
  - split; [done|]. unfold autocommit.
    destruct o; cbn; destruct (exec_stmt (w_now w) s (w_db w)) as [[rows d]|err] eqn:Hx; cbn;
      (apply world_typed_db; [|done]); first [exact Hd | by eapply exec_stmt_typed].
  - split; [|by destruct o]. destruct o; try done. cbn. destruct (query_intent id (w_db w)) as [[u r]|err] eqn:Hq; [|done].
    unfold query_intent in Hq. apply result_bind_Ok in Hq as (u' & _ & Hq). case_match eqn:Hr; [|done].
    injection Hq as -> ->. by eapply Hd.
  - split; [done|by destruct o].
  - split; [done|by destruct o].
  - split; [done|]. destruct o; cbn; try done; by apply world_typed_publish.
  - split; [done|]. destruct (wallet_rpc _ _ _ _) as [r d]. destruct o; cbn; same.
  - destruct (ledger_exec _ e o (w_ledger w)) as [x file]. split; [done|same].
  - done.
  - split; [done|]. destruct o; cbn; same.
  - split; [done|]. destruct Hw as [Hi Ho Hn Hm]. split; try done. cbn. constructor; [by exists svc|done].
Qed.
End events.

(** ** Programs *)
Section programs.
Context `{Postgres} `{NumericCodec} `{ProtoCodec} `{TimeText} `{Ed25519}.

Fixpoint typed (svc : service) {R} (p : proc sysE R) (Q : R -> Prop) : Prop :=
  match p with
  | Ret r => Q r
  | Vis e k => event_typed svc e /\ forall x, answer_typed e x -> typed svc (k x) Q
  end.
Abbreviation fine svc p := (typed svc p (fun _ => True)).

Lemma typed_bind svc {A B} (p : proc sysE A) (f : A -> proc sysE B) Q :
  typed svc p (fun a => typed svc (f a) Q) -> typed svc (p ≫= f) Q.
Proof. induction p as [a|X e k IH]; cbn; [done|]. intros [He Hk]. split; [done|]. intros x Hx. by apply IH, Hk. Qed.
Lemma typed_mono svc {A} (p : proc sysE A) (Q Q' : A -> Prop) :
  (forall a, Q a -> Q' a) -> typed svc p Q -> typed svc p Q'.
Proof. intros HQ. induction p as [a|X e k IH]; cbn; [apply HQ|]. intros [He Hk]. split; [done|]. auto. Qed.
Lemma typed_call svc {A R} (e : sysE (result sqlerr A)) onerr (k : A -> proc sysE R) Q :
  event_typed svc e -> (forall err, Q (onerr err)) -> (forall x, answer_typed e (Ok x) -> typed svc (k x) Q) ->
  typed svc (call e onerr k) Q.
Proof. intros He Herr Hk. split; [exact He|]. intros [x|err] Hx; [by apply Hk|apply Herr]. Qed.
Lemma typed_defer svc {R} t (body : proc sysE R) Q : typed svc body Q -> typed svc (defer_tx_rollback t body) Q.
Proof. intros Hb. apply typed_bind. eapply typed_mono; [|exact Hb]. intros a Ha. by split. Qed.
Lemma typed_metric svc {R} name labels (k : proc sysE R) Q :
  declared svc (name, labels) = true -> typed svc k Q -> typed svc (metric name labels k) Q.
Proof. intros Hd Hk. by split. Qed.
Lemma typed_ledger svc {R} (p : proc ledgerE R) : fine svc (proc_map (@LedgerOp) p).
Proof. induction p as [r|X e k IH]; cbn; [done|]. by split. Qed.

(** One construct of a program; [?] for what its event must meet. *)
Ltac typed_step :=
  lazymatch goal with
  | |- True => exact I
  | |- typed _ (defer_tx_rollback _ _) _ => apply typed_defer
  | |- typed _ (call _ _ _) _ =>
      apply typed_call; [cbn [event_typed]|intros ?; cbv beta|intros ? ?; cbn [answer_typed] in *; cbv beta]
  | |- typed _ (metric _ _ _) _ => apply typed_metric; [reflexivity|]
  | |- typed _ (proc_map _ _ ≫= _) _ => apply typed_bind; eapply typed_mono; [|apply typed_ledger]; intros ? _
  | |- typed _ (_ ≫= _) _ => apply typed_bind
  | |- typed _ (Vis _ _) _ => split; [cbn [event_typed]|intros ? ?; cbn [answer_typed] in *; cbv beta]
  | |- typed _ (Ret _) _ => cbn [typed]
  | |- typed _ (match ?x with _ => _ end) _ => destruct x eqn:?
  | |- typed _ (let _ := _ in _) _ => cbv zeta
  end.

Lemma create_typed id ob req :
  SubmitIntentRequest.Type_ req <> INTENT_TYPE_UNSPECIFIED -> fine IntentService (PostgresStore.Create id ob req).
Proof.
  intros Ht. unfold PostgresStore.Create. repeat typed_step; try done.
  - split; [done|]. split; [cbn; set_solver|]. by exists (SubmitIntentRequest.Type_ req).
  - split; [done|]. exists (IntentType_String (SubmitIntentRequest.Type_ req)). split; [|done].
    by exists (SubmitIntentRequest.Type_ req).
Qed.

Lemma submit_typed id ob req : fine IntentService (SubmitIntent id ob req).
Proof.
  unfold SubmitIntent. destruct (Z.eqb_spec (SubmitIntentRequest.Type_ req) INTENT_TYPE_UNSPECIFIED); [done|].
  repeat typed_step. eapply typed_mono; [|by apply create_typed]. done.
Qed.
Lemma select_typed id : fine IntentService (PostgresStore.Get id).
Proof. unfold PostgresStore.Get. by repeat typed_step. Qed.
Lemma page_typed st sub size token : fine IntentService (PostgresStore.List st sub size token).
Proof. unfold PostgresStore.List. by repeat typed_step. Qed.
Lemma get_typed req : fine IntentService (GetIntent req).
Proof. unfold GetIntent. repeat typed_step. eapply typed_mono; [|apply select_typed]. done. Qed.
Lemma list_typed req : fine IntentService (ListIntents req).
Proof. unfold ListIntents. typed_step. eapply typed_mono; [|apply page_typed]. done. Qed.
Lemma interceptor_typed code_name method {A} (p : proc sysE (result grpc_status A)) :
  fine IntentService p -> fine IntentService (metricsInterceptor code_name method p).
Proof.
  intros Hp. unfold metricsInterceptor. typed_step; [done|]. typed_step. eapply typed_mono; [|exact Hp]. intros r _.
  by repeat typed_step.
Qed.

Lemma claim_typed t events k :
  tx_typed t -> (forall t, tx_typed t -> fine IntentService (k t)) -> fine IntentService (claim_events t events k).
Proof.
  intros Ht Hk. revert t Ht; induction events as [|ev events IH]; intros t Ht; cbn [claim_events]; [by apply Hk|].
  typed_step; [by split|done|by apply IH].
Qed.
Lemma publish_typed n events :
  Forall (fun ev => exists s, type_text s /\ Topic ev = ("intents.submitted." +:+ s)%string) events ->
  fine IntentService (publish_events n events).
Proof.
  induction 1 as [|ev events (s & (t & _ & ->) & Htopic) _ IH]; [done|]. cbn [publish_events].
  typed_step; [exists "intents.submitted."%string, t; split; [set_solver|done]|].
  typed_step; (typed_step; [|exact IH]); cbn; [done|]. destruct (n <=? RetryCount ev); set_solver.
Qed.
Lemma batch_typed wk : fine IntentService (processBatch wk).
Proof.
  unfold processBatch. repeat (typed_step; try done).
  match goal with H : _ /\ _ |- _ => destruct H as [Ht Hrows] end.
  apply claim_typed; [done|]. intros t' Ht'. typed_step; [done|done|]. apply publish_typed.
  match goal with H : map event_of_row _ = _ |- _ => rewrite <-H end.
  apply Forall_map. eapply Forall_impl; [exact Hrows|]. by intros [k r] [_ Htopic].
Qed.

Lemma message_typed_mk prefix i data :
  prefix ∈ subject_prefixes -> message_typed (mk_msg (prefix +:+ IntentType_String (Intent.Type_ i)) data).
Proof. intros Hp. by exists prefix, (Intent.Type_ i). Qed.
Ltac subject := apply message_typed_mk; set_solver.

Lemma scheduler_typed m : fine Scheduler (on_submitted m).
Proof.
  unfold on_submitted, handleSubmittedIntent, schedule_steps, republish, reject_expired, schedule, publish_task.
  repeat (typed_step; try done); first [subject | split; [done|] | idtac]; cbn; set_solver.
Qed.
Lemma record_typed intent r : fine ExecutionEngine (record_result intent r).
Proof.
  unfold record_result. destruct r; cbv beta iota zeta; repeat (typed_step; try done); first [subject | cbn; set_solver].
Qed.
Lemma engine_typed txID m : fine ExecutionEngine (executeTask txID m).
Proof.
  unfold executeTask, execute_steps, runExecutionSimulation.
  repeat (typed_step; try done); first [cbn; split; set_solver | eapply typed_mono; [|apply record_typed]; intros; by repeat typed_step].
Qed.
Lemma validator_typed ts m : fine Validator (on_executed ts m).
Proof.
  unfold on_executed, handleExecutedIntent, audit_steps, verification_error. by repeat (typed_step; try done).
Qed.
End programs.

(** ** The pipeline *)
Section pipeline.
Context `{Postgres} `{NumericCodec} `{ProtoCodec} `{TimeText} `{Ed25519} (minted : string -> string).

Definition pool_typed (c : list (proc sysE unit) * world) : Prop :=
  world_typed c.2 /\ Forall (fun p => exists svc, typed svc p (fun _ => True)) c.1.

Lemma background_typed p : background minted p -> typed IntentService p (fun _ => True).
Proof.
  destruct 1; apply typed_bind; (eapply typed_mono; [by intros ?|]);
    auto using submit_typed, get_typed, list_typed, batch_typed.
Qed.
Definition service_of (c : consumer) : service :=
  match c with AtScheduler => Scheduler | AtEngine => ExecutionEngine | AtValidator => Validator end.
Lemma message_typed_by c arg m : typed (service_of c) (on_message c arg m) (fun _ => True).
Proof.
  destruct c; cbn [on_message service_of]; [apply scheduler_typed| |apply validator_typed].
  apply typed_bind. eapply typed_mono; [by intros ?|apply engine_typed].
Qed.
Lemma starts_typed w p : starts minted w p -> exists svc, typed svc p (fun _ => True).
Proof.
  destruct 1 as [p Hp|m _ _|txID m _ _|ts m _ _];
    [exists IntentService; by apply background_typed|exists Scheduler|exists ExecutionEngine|exists Validator];
    apply typed_bind; (eapply typed_mono; [by intros ?|]);
    auto using scheduler_typed, engine_typed, validator_typed.
Qed.

Lemma pipeline_step_typed c c' : pipeline_step minted c c' -> pool_typed c -> pool_typed c'.
Proof.
  intros Hs [Hw Hps]. destruct Hs as [c c' Hev|ps w p Hp|ps w i|ps w w' Hm]; unfold pool_typed in *; cbn [fst snd] in *.
  - destruct Hev as [ps w i X e k o Hi]. cbn [fst snd] in *.
    destruct (Forall_lookup_1 _ _ _ _ Hps Hi) as [svc [He Hk]].
    destruct (event_sound svc X e o w He Hw) as [Ha Hw']. split; [exact Hw'|].
    apply Forall_insert; [exact Hps|]. exists svc. by apply Hk.
  - split; [exact Hw|]. constructor; [by eapply starts_typed|exact Hps].
  - split; [exact Hw|]. by apply Forall_delete.
  - split; [|exact Hps]. destruct Hm; by apply (world_typed_same w).
Qed.

(** Types are sound.  From a typed world, for instance the empty one, whatever
    runs and fails, every stored intent has one of the five statuses PENDING,
    SCHEDULED, EXECUTING, COMPLETED and FAILED and a type other than UNSPECIFIED,
    every outbox event is PENDING, PROCESSING or FAILED and goes to the submitted
    subject of such a type, every message is on a subject of a type that one of
    the three consumers listens to, and every metric that was updated is
    registered by a service with that number of labels. *)
Theorem pipeline_well_typed w0 ps w :
  world_typed w0 -> rtc (pipeline_step minted) ([], w0) (ps, w) -> world_typed w.
Proof.
  intros Hw0 Hr. assert (Hp : pool_typed ([], w0)) by (split; [exact Hw0|constructor]).
  remember ([], w0) as c eqn:Hc. clear Hc. remember (ps, w) as c' eqn:Hc'. revert Hp.
  induction Hr as [c|c1 c2 c3 Hs _ IH]; intros Hp; [subst c; apply Hp|].
  apply IH; [done|]. by eapply pipeline_step_typed.
Qed.
End pipeline.

Lemma empty_typed wallet ledger t : world_typed (mk_world empty_db ∅ [] wallet ledger t []).
Proof. split; [intros u r Hl; cbn in Hl; by rewrite lookup_empty in Hl|intros k r Hl; cbn in Hl; by rewrite lookup_empty in Hl|apply Forall_nil_2..]. Qed.

Section witness.
#[local] Existing Instance concrete_postgres.
#[local] Existing Instance exact_codec.
#[local] Existing Instance concrete_codec.
#[local] Existing Instance concrete_time.
#[local] Existing Instance concrete_ed25519.
Lemma pipeline_well_typed_witness :
  world_typed Run.executed /\ length (w_nats Run.executed) = 3%nat /\ length (w_metrics Run.executed) = 6%nat.
Proof.
  split; [|split; vm_compute; reflexivity].
  apply (pipeline_well_typed Run.minted Run.w0 [] Run.executed).
  - apply empty_typed.
  - exact Run.reached_executed.
Defined.
End witness.
