(* ===== verification/OutboxFacts.v ===== *)
(** * What one batch, and the polling loop, of the outbox worker do

    A batch without failures publishes the claimed events oldest first and
    deletes them; under any failures every event is delivered, retried or given
    up by the rules of the worker; polling without failures drains the table. *)
From stdpp Require Import sorting.
From S2P Require Import Prelude GoLib Effects Concurrent Sql Proto Float64 Float64Facts Wallet IntentDb System.
From S2P Require Import SystemRules IntentStore Crypto IntentHandler Concrete Outbox Pipeline PipelineSafe.
From S2P Require Import PipelineProps.

Section outbox.
Context `{Postgres} `{NumericCodec}.
Abbreviation run := (run sys_exec).

(** Outbox keys are UUIDs as PostgreSQL prints them. *)
Definition keys_canonical (m : gmap string outbox_row) : Prop :=
  forall k r, m !! k = Some r -> uuid_in k = Some k.

Fixpoint remove_all (ks : list string) (m : gmap string outbox_row) : gmap string outbox_row :=
  match ks with [] => m | k :: ks' => remove_all ks' (delete k m) end.

Lemma lookup_remove_all ks m k :
  remove_all ks m !! k = if decide (k ∈ ks) then None else m !! k.
Proof.
  revert m; induction ks as [|j ks IH]; intros m; cbn [remove_all].
  - by rewrite decide_False by apply not_elem_of_nil.
  - rewrite IH. destruct (decide (k ∈ ks)) as [Hk|Hk].
    + by rewrite decide_True by (by right).
    + rewrite lookup_delete. destruct (decide (j = k)) as [->|Hne].
      * by rewrite decide_True by left.
      * rewrite decide_False; [done|]. rewrite elem_of_cons. naive_solver.
Qed.

(** ** Without failures *)
Definition set_outbox (m : gmap string outbox_row) (w : world) : world :=
  set_db (mk_intent_db (intents (w_db w)) m) w.

Lemma run_publish_events n events w :
  Forall (fun ev => uuid_in (ID ev) = Some (ID ev)) events ->
  run (publish_events n events) [] w
  = (Ok tt, set_nats (w_nats w ++ map event_msg events)
              (set_outbox (remove_all (map ID events) (outbox_events (w_db w))) w), []).
Proof.
  intros Hu. revert w; induction Hu as [|ev events Hev _ IH]; intros w.
  - cbn. rewrite app_nil_r. by destruct w as [[] ? ? ? ? ? ?].
  - cbn [publish_events Effects.run sys_exec hd tl updateEventStatus deleteEvent autocommit exec_stmt].
    cbn [publish_events Effects.run sys_exec hd tl updateEventStatus deleteEvent autocommit exec_stmt].
    unfold uuid_arg. cbn [w_db set_nats]. rewrite Hev. cbn [mbind result_bind set_db]. rewrite IH. cbn.
    by rewrite <-app_assoc.
Qed.
(** The rows moved to PROCESSING. *)
Definition processing (now : Z) (r : outbox_row) : outbox_row :=
  set_ob_status "PROCESSING" (ob_retry_count r) (ts_in now) r.
Fixpoint mark (now : Z) (ks : list string) (m : gmap string outbox_row) : gmap string outbox_row :=
  match ks with [] => m | k :: ks' => mark now ks' (alter (processing now) k m) end.

Lemma exec_stmts_app now l1 l2 d :
  exec_stmts now (l1 ++ l2) d = match exec_stmts now l1 d with Ok d' => exec_stmts now l2 d' | Err e => Err e end.
Proof.
  revert d; induction l1 as [|s l1 IH]; intros d; cbn; [done|].
  destruct (exec_stmt now s d) as [[n d']|e]; [apply IH|done].
Qed.

Lemma exec_processing now ks d :
  Forall (fun k => uuid_in k = Some k) ks ->
  exec_stmts now (map OutboxProcessing ks) d = Ok (mk_intent_db (intents d) (mark now ks (outbox_events d))).
Proof.
  intros Hks. revert d; induction Hks as [|k ks Hk _ IH]; intros [im om]; [done|].
  cbn [map exec_stmts exec_stmt]. unfold uuid_arg. rewrite Hk. cbn [mbind result_bind outbox_events intents].
  destruct (om !! k) as [r|] eqn:Hr; rewrite IH; cbn [mark intents outbox_events]; do 3 f_equal.
  - apply map_eq. intros j. rewrite lookup_insert, lookup_alter. case_decide; [subst j; by rewrite Hr|done].
  - symmetry. apply map_eq. intros j. rewrite lookup_alter. case_decide; [subst j; by rewrite Hr|done].
Qed.

Lemma run_claim_events t events (k : tx -> proc sysE (result string unit)) d w :
  exec_stmts (w_now w) (tx_stmts t) (w_db w) = Ok d ->
  Forall (fun ev => uuid_in (ID ev) = Some (ID ev)) events ->
  run (claim_events t events k) [] w
  = run (k (mk_tx (tx_stmts t ++ map OutboxProcessing (map ID events)) (tx_locks t))) [] w.
Proof.
  intros Hd Hev. revert t d Hd; induction Hev as [|ev events Hu _ IH]; intros t d Hd; cbn [claim_events map].
  - rewrite app_nil_r. by destruct t.
  - unfold call. cbn [Effects.run sys_exec hd tl read]. rewrite exec_stmts_app, Hd.
    pose proof (exec_processing (w_now w) [ID ev] d) as Hone. cbn [map] in Hone.
    rewrite Hone by (by constructor). rewrite (IH _ (mk_intent_db (intents d) (mark (w_now w) [ID ev] (outbox_events d)))).
    + cbn [tx_stmts tx_locks]. by rewrite <-app_assoc.
    + cbn [tx_stmts]. rewrite exec_stmts_app, Hd. by apply Hone; constructor.
Qed.

Lemma lookup_mark_other now ks m k : k ∉ ks -> mark now ks m !! k = m !! k.
Proof.
  revert m; induction ks as [|j ks IH]; intros m Hk; cbn [mark]; [done|].
  rewrite IH by (intros ?; apply Hk; by right). rewrite lookup_alter_ne; [done|].
  intros ->. apply Hk. left.
Qed.

Lemma remove_all_mark now ks m : remove_all ks (mark now ks m) = remove_all ks m.
Proof.
  apply map_eq. intros k. rewrite !lookup_remove_all. case_decide; [done|by apply lookup_mark_other].
Qed.

Lemma locks_released (L : gset string) ks :
  (forall k, k ∈ ks -> k ∉ L) -> (list_to_set ks ∪ L) ∖ list_to_set ks = L.
Proof. intros Hk. apply set_eq. intros x. specialize (Hk x). set_solver. Qed.

(** The rows a batch at this moment would claim. *)
Definition claimed_rows_of (wk : OutboxWorker) (w : world) : list (string * outbox_row) :=
  query_outbox (w_now w - minute) (batchSize wk) (w_locks w) (w_db w).

Lemma claimed_rows_in wk w kr :
  kr ∈ claimed_rows_of wk w ->
  outbox_events (w_db w) !! kr.1 = Some kr.2 /\ claimable (w_now w - minute) kr = true /\ kr.1 ∉ w_locks w.
Proof.
  intros Hin. destruct (query_outbox_in _ _ _ _ _ Hin) as [Hr Hc]. split_and!; [done..|].
  unfold claimed_rows_of, query_outbox in Hin.
  apply list_elem_of_In in Hin. apply list_elem_of_In, subseteq_take in Hin.
  rewrite order_outbox_perm in Hin. apply list_elem_of_In, filter_In in Hin as [_ Hl].
  apply andb_true_iff in Hl as [_ Hl%negb_true_iff%bool_decide_eq_false]. done.
Qed.

Lemma claimed_rows_uuid wk w :
  keys_canonical (outbox_events (w_db w)) ->
  Forall (fun ev => uuid_in (ID ev) = Some (ID ev)) (map event_of_row (claimed_rows_of wk w)).
Proof.
  intros Hk. apply Forall_forall. intros ev Hev. apply list_elem_of_In, in_map_iff in Hev as (kr & <- & Hin).
  apply list_elem_of_In, claimed_rows_in in Hin as [Hr _]. by eapply Hk.
Qed.

Definition rows_msgs (rows : list (string * outbox_row)) : list msg := map (fun kr => content kr.2) rows.

(** What a batch without failures leaves. *)
Definition delivered (rows : list (string * outbox_row)) (w : world) : world :=
  set_nats (w_nats w ++ rows_msgs rows) (set_outbox (remove_all (map fst rows) (outbox_events (w_db w))) w).

Lemma run_batch wk w :
  keys_canonical (outbox_events (w_db w)) ->
  run (processBatch wk) [] w = (Ok tt, delivered (claimed_rows_of wk w) w, []).
Proof.
  intros Hk. unfold processBatch, call. cbn [Effects.run sys_exec hd tl read].
  fold (claimed_rows_of wk w). pose proof (claimed_rows_uuid wk w Hk) as Hu.
  assert (Hlocks : forall k, k ∈ map fst (claimed_rows_of wk w) -> k ∉ w_locks w).
  { intros k (kr & <- & Hin)%list_elem_of_In%in_map_iff. by apply list_elem_of_In, claimed_rows_in in Hin as (_ & _ & Hl). }
  set (rows := claimed_rows_of wk w) in *. rewrite app_nil_r. cbn [tx_stmts].
  unfold defer_tx_rollback, mbind, proc_mbind. rewrite run_bind.
  assert (Hids : map ID (map event_of_row rows) = map fst rows) by (rewrite map_map; by apply map_ext).
  assert (Hmsgs : map event_msg (map event_of_row rows) = rows_msgs rows) by (rewrite map_map; by apply map_ext).
  destruct (map event_of_row rows) as [|ev evs] eqn:Hevs.
  - destruct rows; [|done]. cbn. unfold delivered. cbn. rewrite app_nil_r.
    destruct w as [[] L ? ? ? ? ?]. unfold release. cbn. unfold set_nats, set_outbox, set_db, set_locks. cbn.
    do 3 f_equal. set_solver.
  - rewrite (run_claim_events _ _ _ (w_db w)) by done. rewrite Hids. cbn [tx_stmts app tx_locks].
    unfold call. cbn [Effects.run sys_exec hd tl tx_stmts]. rewrite exec_processing; cbn [w_db set_locks w_now].
    2: { rewrite <-Hids. apply Forall_map. exact Hu. }
    cbn [fst snd]. rewrite run_publish_events by done. rewrite Hmsgs, Hids.
    unfold delivered, release, set_outbox, set_nats, set_db, set_locks. cbn. rewrite remove_all_mark.
    do 3 f_equal. by rewrite locks_released, difference_disjoint_L by set_solver.
Qed.

(** A batch without failures returns nil, publishes exactly the rows it
    claims, oldest first and at most batchSize of them, deletes them from the
    table and changes nothing else; a claimable unlocked row is left out only
    when the batch is full. *)
Theorem batch_delivers wk w :
  keys_canonical (outbox_events (w_db w)) ->
  let rows := claimed_rows_of wk w in
  run_result sys_exec (processBatch wk) [] w = Ok tt /\
  run_state sys_exec (processBatch wk) [] w = delivered rows w /\
  StronglySorted oldest_first rows /\ (length rows <= Z.to_nat (batchSize wk))%nat /\
  (forall k r, outbox_events (w_db w) !! k = Some r -> claimable (w_now w - minute) (k, r) = true ->
     k ∉ w_locks w -> (length rows < Z.to_nat (batchSize wk))%nat -> (k, r) ∈ rows).
Proof.
  intros Hk rows. unfold run_result, run_state. rewrite run_batch by done. fold rows. split_and!; try done.
  - unfold rows, claimed_rows_of, query_outbox. set (l := order_outbox _).
    assert (Hs : StronglySorted oldest_first l) by apply order_outbox_sorted.
    rewrite <-(take_drop (Z.to_nat (batchSize wk)) l) in Hs. by eapply StronglySorted_app_1_l.
  - unfold rows, claimed_rows_of, query_outbox. rewrite length_take. lia.
  - intros k r Hr Hc Hl Hlen. unfold rows, claimed_rows_of, query_outbox in *. rewrite length_take in Hlen.
    rewrite take_ge by lia. rewrite order_outbox_perm. apply list_elem_of_In, filter_In. split.
    + by apply list_elem_of_In, elem_of_map_to_list.
    + rewrite Hc. cbn. by rewrite bool_decide_false.
Qed.

(** ** Draining *)
(** The rows of a table in one state, and a table with no batch under way. *)
Definition in_state (st : string) (m : gmap string outbox_row) : gmap string outbox_row :=
  filter (fun kr => ob_status kr.2 = st) m.
Definition at_rest (m : gmap string outbox_row) : Prop :=
  forall k r, m !! k = Some r -> ob_status r = "PENDING"%string \/ ob_status r = "FAILED"%string.

Lemma elem_in_state st m k r : (k, r) ∈ map_to_list (in_state st m) <-> m !! k = Some r /\ ob_status r = st.
Proof. rewrite elem_of_map_to_list. unfold in_state. by rewrite map_lookup_filter_Some. Qed.

Lemma map_to_list_remove_all (m : gmap string outbox_row) l1 l2 :
  map_to_list m ≡ₚ l1 ++ l2 -> map_to_list (remove_all (map fst l1) m) ≡ₚ l2.
Proof.
  revert m; induction l1 as [|[k r] l1 IH]; intros m Hm; [done|]. cbn. apply IH.
  assert (Hk : m !! k = Some r) by (apply elem_of_map_to_list; rewrite Hm; left).
  pose proof (map_to_list_delete m k r Hk) as Hd. rewrite <-Hd in Hm. cbn in Hm.
  by apply Permutation_cons_inv in Hm.
Qed.

(** A batch takes from the PENDING rows, as many as it may. *)
Lemma pending_rows wk w :
  w_locks w = ∅ -> at_rest (outbox_events (w_db w)) ->
  let pending := in_state "PENDING" (outbox_events (w_db w)) in
  exists rest, map_to_list pending ≡ₚ claimed_rows_of wk w ++ rest /\
    length (claimed_rows_of wk w) = (Z.to_nat (batchSize wk) `min` size pending)%nat.
Proof.
  intros HL Hp pending. unfold claimed_rows_of, query_outbox.
  set (l := order_outbox _). assert (Hl : l ≡ₚ map_to_list pending).
  { unfold l. rewrite order_outbox_perm. apply NoDup_Permutation.
    - apply NoDup_ListNoDup, List.NoDup_filter, NoDup_ListNoDup, NoDup_map_to_list.
    - apply NoDup_map_to_list.
    - intros [k r]. unfold pending. rewrite elem_in_state, <-elem_of_map_to_list, !list_elem_of_In, filter_In, <-list_elem_of_In, elem_of_map_to_list.
      unfold claimable. cbn [fst snd]. rewrite HL, (bool_decide_eq_false_2 (k ∈ ∅)) by set_solver. split.
      + intros [Hr [Hc _]%andb_true_iff]. split; [done|]. destruct (Hp k r Hr) as [Hs|Hs]; [done|]. by rewrite Hs in Hc.
      + intros [Hr Hs]. split; [done|]. by rewrite Hs. }
  exists (drop (Z.to_nat (batchSize wk)) l). rewrite take_drop. split; [done|].
  by rewrite length_take, Hl, length_map_to_list.
Qed.

Lemma in_state_remove_all st ks m : in_state st (remove_all ks m) = remove_all ks (in_state st m).
Proof.
  apply map_eq. intros k. apply option_eq. intros r. unfold in_state.
  rewrite map_lookup_filter_Some, !lookup_remove_all. case_decide; [naive_solver|]. by rewrite map_lookup_filter_Some.
Qed.

Lemma delivered_at_rest wk w :
  at_rest (outbox_events (w_db w)) -> keys_canonical (outbox_events (w_db w)) ->
  let m' := outbox_events (w_db (delivered (claimed_rows_of wk w) w)) in at_rest m' /\ keys_canonical m'.
Proof.
  intros Hp Hk m'. subst m'. cbn. split; intros k r; rewrite lookup_remove_all; case_decide; try done.
  - apply Hp.
  - apply Hk.
Qed.

(** The rows that were given up stay where they are. *)
Lemma given_up_stay m rows :
  (forall kr, kr ∈ rows -> m !! kr.1 = Some kr.2 /\ ob_status kr.2 = "PENDING"%string) ->
  in_state "FAILED" (remove_all (map fst rows) m) = in_state "FAILED" m.
Proof.
  intros Hrows. rewrite in_state_remove_all. apply map_eq. intros k. rewrite lookup_remove_all.
  case_decide as Hin; [|done]. symmetry. apply map_lookup_filter_None. right. intros r Hr Hst.
  apply list_elem_of_fmap in Hin as (kr & -> & Hkr). destruct (Hrows kr Hkr) as [Hm Hs]. cbn in Hst.
  assert (r = kr.2) as -> by congruence. by rewrite Hs in Hst.
Qed.

(** C26: polling drains the outbox.  With no row locked, no batch under way
    (every row PENDING or FAILED) and no failure, enough polls (their number
    times batchSize reaches the number of PENDING rows) publish every PENDING
    event exactly once, nothing else, and leave exactly the rows that were FAILED,
    given up, as they were. *)
Theorem outbox_drains wk polls w :
  let pending := in_state "PENDING" (outbox_events (w_db w)) in
  w_locks w = ∅ -> at_rest (outbox_events (w_db w)) -> keys_canonical (outbox_events (w_db w)) ->
  (size pending <= polls * Z.to_nat (batchSize wk))%nat ->
  let w' := run_state sys_exec (worker_loop wk polls) [] w in
  outbox_events (w_db w') = in_state "FAILED" (outbox_events (w_db w)) /\ intents (w_db w') = intents (w_db w) /\
  exists sent, w_nats w' = w_nats w ++ sent /\ sent ≡ₚ rows_msgs (map_to_list pending).
Proof.
  unfold run_state. revert w; induction polls as [|n IH]; intros w; cbv zeta; intros HL Hp Hk Hn.
  - cbn in Hn |- *. assert (Hs : size (in_state "PENDING" (outbox_events (w_db w))) = 0%nat) by lia.
    apply map_size_empty_inv in Hs. split_and!; [|done|].
    + symmetry. apply map_filter_id. intros k r Hr. destruct (Hp k r Hr) as [Hst|Hst]; [|done].
      by eapply (map_filter_empty_not_lookup _ _ k r) in Hs.
    + exists []. rewrite app_nil_r, Hs. split; [done|]. by rewrite map_to_list_empty.
  - cbn [worker_loop]. unfold mbind, proc_mbind. rewrite run_bind, run_batch by done. cbn [Effects.run sys_exec hd tl].
    destruct (pending_rows wk w HL Hp) as (rest & Hperm & Hlen).
    destruct (delivered_at_rest wk w Hp Hk) as [Hp' Hk'].
    set (rows := claimed_rows_of wk w) in *. set (w1 := set_now _ (delivered rows w)).
    pose proof (map_to_list_remove_all _ rows rest Hperm) as Hrest. rewrite <-in_state_remove_all in Hrest.
    assert (Hsize : (size (in_state "PENDING" (outbox_events (w_db w)))
                     = length rows + size (in_state "PENDING" (outbox_events (w_db w1))))%nat).
    { rewrite <-!length_map_to_list. cbn. rewrite Hrest, Hperm. by rewrite length_app. }
    destruct (IH w1) as (Ho & Hi & sent & Hs & Hsent); try done; [lia|]. split_and!; [|done|].
    + rewrite Ho. apply given_up_stay. intros [k r] Hin. apply elem_in_state. rewrite Hperm. apply elem_of_app. by left.
    + exists (rows_msgs rows ++ sent). rewrite Hs. cbn. split; [by rewrite <-app_assoc|].
      rewrite Hsent. unfold rows_msgs. rewrite Hperm, map_app. f_equiv. cbn. by rewrite Hrest.
Qed.

(** ** Under every schedule of failures *)
(** What may become of a row: it stays, it is being processed, it waits for
    another try, or it is given up. *)
Definition row_step (max : Z) (r r' : outbox_row) : Prop :=
  r' = r \/
  content r' = content r /\ ob_created_at r' = ob_created_at r /\
  (ob_status r' = "PROCESSING" /\ ob_retry_count r' = ob_retry_count r \/
   ob_status r' = "PENDING" /\ ob_retry_count r' = ob_retry_count r + 1 /\ ob_retry_count r < max \/
   ob_status r' = "FAILED" /\ ob_retry_count r' = ob_retry_count r + 1 /\ max <= ob_retry_count r).

Record effect (max : Z) (touched : list string) (w w' : world) : Prop := {
  effect_intents : intents (w_db w') = intents (w_db w);
  effect_nats : w_nats w ⊆ w_nats w';
  effect_new : forall k, outbox_events (w_db w) !! k = None -> outbox_events (w_db w') !! k = None;
  effect_untouched : forall k, k ∉ touched -> outbox_events (w_db w') !! k = outbox_events (w_db w) !! k;
  effect_row : forall k r, outbox_events (w_db w) !! k = Some r ->
    (exists r', outbox_events (w_db w') !! k = Some r' /\ row_step max r r') \/
    (outbox_events (w_db w') !! k = None /\ content r ∈ w_nats w');
}.

Lemma effect_refl max ks w w' :
  w_db w' = w_db w -> w_nats w' = w_nats w -> effect max ks w w'.
Proof. intros Hd Hn. split; rewrite ?Hd, ?Hn; try done. intros k r Hr. left. exists r. split; [done|by left]. Qed.

Lemma effect_same max ks w w1 w2 :
  w_db w2 = w_db w1 -> w_nats w2 = w_nats w1 -> effect max ks w w1 -> effect max ks w w2.
Proof. intros Hd Hn [A B C D F]. split; rewrite ?Hd, ?Hn; done. Qed.

Lemma effect_publish max ks w w1 m :
  effect max ks w w1 -> effect max ks w (set_nats (w_nats w1 ++ [m]) w1).
Proof.
  intros [A B C D F]. split; try done; cbn.
  - intros x Hx. apply elem_of_app. left. by apply B.
  - intros k r Hr. destruct (F k r Hr) as [?|[? ?]]; [by left|]. right. split; [done|]. apply elem_of_app. by left.
Qed.

Lemma effect_update max ks w w1 k r r' :
  effect max ks w w1 -> outbox_events (w_db w) !! k = Some r -> k ∈ ks -> row_step max r r' ->
  effect max ks w (set_outbox (<[k := r']> (outbox_events (w_db w1))) w1).
Proof.
  intros [A B C D F] Hr Hk Hstep. split; try done; cbn; intros j.
  - intros Hj. rewrite lookup_insert_ne by congruence. by apply C.
  - intros Hj. rewrite lookup_insert_ne by (intros ->; done). by apply D.
  - intros q Hq. rewrite lookup_insert. case_decide as Hj; [subst j|by apply F].
    left. exists r'. split; [done|]. congruence.
Qed.

Lemma effect_delete max ks w w1 k r :
  effect max ks w w1 -> outbox_events (w_db w) !! k = Some r -> k ∈ ks -> content r ∈ w_nats w1 ->
  effect max ks w (set_outbox (delete k (outbox_events (w_db w1))) w1).
Proof.
  intros [A B C D F] Hr Hk Hin. split; try done; cbn; intros j.
  - intros Hj. rewrite lookup_delete. case_decide; [done|by apply C].
  - intros Hj. rewrite lookup_delete_ne by (intros ->; done). by apply D.
  - intros q Hq. rewrite lookup_delete. case_decide as Hj; [subst j|by apply F].
    right. split; [done|]. congruence.
Qed.

(** A claimed event and its row, before and during the batch. *)
Definition event_row (w w1 : world) (ev : OutboxEvent) : Prop :=
  uuid_in (ID ev) = Some (ID ev) /\
  exists r r1, outbox_events (w_db w) !! ID ev = Some r /\ ev = event_of_row (ID ev, r) /\
    outbox_events (w_db w1) !! ID ev = Some r1 /\ content r1 = content r /\
    ob_created_at r1 = ob_created_at r /\ ob_retry_count r1 = ob_retry_count r.

Lemma event_row_other w w1 m ev k :
  ID ev <> k -> event_row w w1 ev ->
  event_row w (set_outbox (delete k (outbox_events (w_db w1))) w1) ev /\
  event_row w (set_outbox (<[k := m]> (outbox_events (w_db w1))) w1) ev.
Proof.
  intros Hk (Hu & r & r1 & Hrow & He & Hrow1 & Hc & Hcr & Hrc).
  split; split; try done; exists r, r1; cbn; rewrite ?lookup_delete_ne, ?lookup_insert_ne by done; by split_and!.
Qed.

Abbreviation wp := (wp sys_exec).

(** One statement: it does nothing, or what it says. *)
Lemma wp_db_run {R} s (k : result sqlerr Z -> proc sysE R) Q w :
  (forall r, wp (k r) Q w) ->
  (forall r n d, exec_stmt (w_now w) s (w_db w) = Ok (n, d) -> wp (k r) Q (set_db d w)) ->
  wp (Vis (DbExec s) k) Q w.
Proof.
  intros Hsame Hdo. assert (Hw : set_db (w_db w) w = w) by (by destruct w).
  apply wp_vis. intros [|e|e|n e]; cbn [sys_exec autocommit fst snd]; rewrite ?Hw; auto;
    destruct (exec_stmt _ _ _) as [[n' d]|e'] eqn:E; cbn [fst snd]; rewrite ?Hw; eauto.
Qed.

Lemma wp_publish_events max ks events w w1 :
  NoDup (map ID events) -> Forall (event_row w w1) events -> Forall (fun ev => ID ev ∈ ks) events ->
  effect max ks w w1 ->
  wp (publish_events max events) (fun _ w' => effect max ks w w') w1.
Proof.
  revert w1; induction events as [|ev events IH]; intros w1 Hnd Hrows Hks Heff; [done|].
  apply NoDup_cons in Hnd as [Hni Hnd]. apply Forall_cons in Hrows as [Hev Hrows].
  apply Forall_cons in Hks as [Hkev Hks]. cbn [publish_events].
  assert (Hne : forall e, e ∈ events -> ID e <> ID ev).
  { intros e He Heq. apply Hni. apply list_elem_of_In, in_map_iff. exists e. by rewrite <-list_elem_of_In. }
  destruct Hev as (Hu & r & r1 & Hrow & He & Hrow1 & Hc & Hcr & Hrc).
  assert (Hcont : content r = mk_msg (Topic ev) (Payload ev)) by (by rewrite He).
  assert (Hretry : RetryCount ev = ob_retry_count r) by (by rewrite He).
  assert (Hfail : forall w2, effect max ks w w2 -> Forall (event_row w w2) events ->
    outbox_events (w_db w2) !! ID ev = Some r1 ->
    wp (Vis (updateEventStatus (ID ev) (if max <=? RetryCount ev then "FAILED" else "PENDING") (RetryCount ev + 1))
          (fun _ => publish_events max events)) (fun _ w' => effect max ks w w') w2).
  { intros w2 Heff2 Hrows2 Hr2. apply wp_db_run; [intros _; by apply IH|]. intros _ n d Hd.
    cbn [exec_stmt] in Hd. unfold uuid_arg in Hd. rewrite Hu in Hd. cbn [mbind result_bind] in Hd.
    apply result_bind_Ok in Hd as (st & Hst & Hd). rewrite Hr2 in Hd. injection Hd as _ <-.
    assert (st = if max <=? RetryCount ev then "FAILED"%string else "PENDING"%string) as ->.
    { destruct (max <=? RetryCount ev); vm_compute in Hst; congruence. }
    apply IH; [done| |done|].
    - apply Forall_forall. intros e Hin. rewrite Forall_forall in Hrows2.
      refine (proj2 (event_row_other w w2 _ e (ID ev) _ _)); [by apply Hne|by apply Hrows2].
    - eapply effect_update; [exact Heff2|exact Hrow|exact Hkev|]. right. cbn. split; [by rewrite <-Hc|].
      split; [done|]. rewrite Hretry. destruct (Z.leb_spec max (ob_retry_count r)); [right; right|right; left]; done. }
  assert (Hpub : forall w2, w2 = set_nats (w_nats w1 ++ [mk_msg (Topic ev) (Payload ev)]) w1 ->
            effect max ks w w2 /\ Forall (event_row w w2) events /\ outbox_events (w_db w2) !! ID ev = Some r1).
  { intros w2 ->. split; [by apply effect_publish|]. done. }
  apply wp_publish.
  - intros e. by apply Hfail.
  - intros e. destruct (Hpub _ eq_refl) as (? & ? & ?). by apply Hfail.
  - destruct (Hpub _ eq_refl) as (Heff2 & Hrows2 & Hr2). set (w2 := set_nats _ w1) in *.
    apply wp_db_run; [intros _; by apply IH|]. intros _ n d Hd.
    cbn [exec_stmt] in Hd. unfold uuid_arg in Hd. rewrite Hu in Hd. cbn [mbind result_bind] in Hd.
    injection Hd as _ <-. apply IH; [done| |done|].
    + apply Forall_forall. intros e Hin. rewrite Forall_forall in Hrows2.
      refine (proj1 (event_row_other w w2 r e (ID ev) _ _)); [by apply Hne|by apply Hrows2].
    + apply (effect_delete max ks w w2 (ID ev) r); [exact Heff2|exact Hrow|exact Hkev|]. rewrite Hcont. apply elem_of_app. right.
      by apply list_elem_of_singleton.
Qed.

Lemma wp_claim_events t events (k : tx -> proc sysE (result string unit)) Q w :
  (forall e, Q (Err e) w) ->
  wp (k (mk_tx (tx_stmts t ++ map OutboxProcessing (map ID events)) (tx_locks t))) Q w ->
  wp (claim_events t events k) Q w.
Proof.
  intros He. revert t; induction events as [|ev events IH]; intros t Hk; cbn [claim_events].
  - cbn in Hk. rewrite app_nil_r in Hk. by destruct t.
  - apply wp_tx_exec; [intros e; apply He|]. intros d _. apply IH. cbn [tx_stmts tx_locks]. by rewrite <-app_assoc.
Qed.

Lemma lookup_mark now ks m k :
  NoDup ks -> k ∈ ks -> mark now ks m !! k = processing now <$> m !! k.
Proof.
  revert m; induction ks as [|j ks IH]; intros m Hnd Hk; [by apply elem_of_nil in Hk|].
  apply NoDup_cons in Hnd as [Hni Hnd]. cbn [mark]. apply elem_of_cons in Hk as [->|Hk].
  - rewrite lookup_mark_other by done. by rewrite lookup_alter_eq.
  - rewrite IH by done. rewrite lookup_alter_ne; [done|]. by intros ->.
Qed.

Lemma effect_mark max now ks w :
  NoDup ks -> effect max ks w (set_outbox (mark now ks (outbox_events (w_db w))) w).
Proof.
  intros Hnd. assert (Hsome : forall k r, outbox_events (w_db w) !! k = Some r ->
    exists r', mark now ks (outbox_events (w_db w)) !! k = Some r' /\ row_step max r r').
  { intros k r Hr. destruct (decide (k ∈ ks)) as [Hk|Hk].
    - exists (processing now r). rewrite lookup_mark, Hr by done. split; [done|]. right. split_and!; [done..|by left].
    - exists r. rewrite lookup_mark_other by done. split; [done|by left]. }
  split; cbn; try done.
  - intros k Hk. destruct (decide (k ∈ ks)); [by rewrite lookup_mark, Hk|by rewrite lookup_mark_other].
  - intros k Hk. by apply lookup_mark_other.
  - intros k r Hr. left. by apply Hsome.
Qed.

Lemma claimed_rows_nodup wk w : NoDup (map fst (claimed_rows_of wk w)).
Proof.
  unfold claimed_rows_of, query_outbox. set (l := order_outbox _).
  assert (Hnd : NoDup (map fst l)).
  { unfold l. rewrite order_outbox_perm. apply NoDup_ListNoDup.
    assert (Hall : NoDup (map fst (map_to_list (outbox_events (w_db w))))) by apply NoDup_fst_map_to_list.
    revert Hall. generalize (map_to_list (outbox_events (w_db w))). intros q Hq. induction q as [|x q IH]; cbn; [constructor|].
    cbn in Hq. apply NoDup_cons in Hq as [Hx Hq]. case_match; cbn; [|by apply IH]. constructor; [|by apply IH].
    intros (y & Hy & Hin)%in_map_iff. apply Hx. apply list_elem_of_In, in_map_iff. exists y. split; [done|].
    by apply filter_In in Hin as [Hin _]. }
  rewrite <-(take_drop (Z.to_nat (batchSize wk)) l), map_app in Hnd. by apply NoDup_app in Hnd as [Hnd _].
Qed.

(** C27: what a batch does under every schedule of failures.  Intents and rows it
    did not claim are untouched and no row appears; a claimed row is gone only
    if its message is in the stream, and otherwise keeps its message and is
    unchanged, or PROCESSING with the same retry count, or one retry later
    PENDING when its count was below maxRetries and FAILED exactly when it was
    not. *)
Theorem batch_effect wk w sched :
  keys_canonical (outbox_events (w_db w)) ->
  effect (maxRetries wk) (map fst (claimed_rows_of wk w)) w (run_state sys_exec (processBatch wk) sched w).
Proof.
  intros Hk. set (Q := fun (_ : result string unit) w' => effect (maxRetries wk) (map fst (claimed_rows_of wk w)) w w').
  apply (wp_run sys_exec (processBatch wk) Q w sched).
  assert (Hsame : forall r w', w_db w' = w_db w -> w_nats w' = w_nats w -> Q r w') by (intros; by apply effect_refl).
  unfold processBatch. apply wp_db_begin; [intros e; by apply Hsame|]. apply wp_now. cbv zeta.
  apply wp_call. intros o. destruct o; cbn [sys_exec fst snd]; try (by apply Hsame).
  fold (claimed_rows_of wk w). cbn [tx_stmts tx_locks]. rewrite app_nil_r.
  set (rows := claimed_rows_of wk w) in *. set (w1 := set_locks _ w).
  apply wp_defer_tx. pose proof (claimed_rows_uuid wk w Hk) as Hu. fold rows in Hu.
  assert (Hids : map ID (map event_of_row rows) = map fst rows) by (rewrite map_map; by apply map_ext).
  destruct (map event_of_row rows) as [|ev evs] eqn:Hevs; [apply effect_refl; reflexivity|].
  rewrite <-Hevs in *.
  apply wp_claim_events; [intros e; apply effect_refl; reflexivity|]. cbn [tx_stmts tx_locks app]. rewrite Hids.
  assert (Hex : exec_stmts (w_now w1) (map OutboxProcessing (map fst rows)) (w_db w1)
                = Ok (mk_intent_db (intents (w_db w)) (mark (w_now w) (map fst rows) (outbox_events (w_db w))))).
  { rewrite exec_processing; [done|]. rewrite <-Hids. apply Forall_map. exact Hu. }
  pose proof (effect_mark (maxRetries wk) (w_now w) (map fst rows) w (claimed_rows_nodup wk w)) as Hmark.
  apply wp_tx_commit; cbn [tx_stmts].
  - intros e. apply effect_refl; reflexivity.
  - intros e d. rewrite Hex. intros [= <-]. eapply effect_same; [| |exact Hmark]; done.
  - intros d. rewrite Hex. intros [= <-]. eapply (wp_mono sys_exec (publish_events _ _)).
    2: { apply (wp_publish_events (maxRetries wk) (map fst rows) (map event_of_row rows) w).
         - rewrite Hids. apply claimed_rows_nodup.
         - apply Forall_forall. intros e Hin. apply list_elem_of_In, in_map_iff in Hin as ([k r] & <- & Hin).
           apply list_elem_of_In in Hin as Hin'. apply claimed_rows_in in Hin' as (Hr & _). cbn in Hr.
           split; [by eapply Hk|]. exists r, (processing (w_now w) r). cbn. split; [done|]. split; [done|].
           rewrite lookup_mark; [by rewrite Hr|apply claimed_rows_nodup|].
           apply list_elem_of_In, in_map_iff. by exists (k, r).
         - apply Forall_forall. intros e Hin. rewrite <-Hids. apply list_elem_of_In, in_map, list_elem_of_In, Hin.
         - eapply effect_same; [| |exact Hmark]; done. }
    intros r w' Heff. eapply effect_same; [| |exact Heff]; done.
Qed.
End outbox.

(** ** The table after one submission *)
Section concrete_outbox.
#[local] Existing Instance concrete_postgres.
#[local] Existing Instance exact_codec.

Definition one_row_ok (m : gmap string outbox_row) : bool :=
  match map_to_list m with
  | [(k, r)] => bool_decide (uuid_in k = Some k) && bool_decide (ob_status r = "PENDING")
  | _ => false
  end.
Lemma one_row_keys m : one_row_ok m = true ->
  keys_canonical m /\ forall k r, m !! k = Some r -> ob_status r = "PENDING"%string.
Proof.
  unfold one_row_ok. destruct (map_to_list m) as [|[k r] [|]] eqn:Hl; try done.
  intros [Hk%bool_decide_eq_true Hr%bool_decide_eq_true]%andb_true_iff.
  split; intros j q Hj%elem_of_map_to_list; rewrite Hl in Hj; apply list_elem_of_singleton in Hj; by injection Hj as -> ->.
Qed.
Lemma submitted_ok : one_row_ok (outbox_events (w_db Run.submitted)) = true.
Proof. vm_compute. reflexivity. Qed.

Lemma batch_delivers_witness :
  run_result sys_exec (processBatch (NewWorker 0 0 0)) [] Run.submitted = Ok tt /\
  length (claimed_rows_of (NewWorker 0 0 0) Run.submitted) = 1%nat.
Proof.
  split; [|vm_compute; reflexivity].
  apply (batch_delivers (NewWorker 0 0 0) Run.submitted). apply one_row_keys, submitted_ok.
Defined.

(** One event waits next to one that was given up. *)
Definition given_up_id : string := "00000000-0000-4000-8000-0000000000ff".
Definition with_given_up : world :=
  set_outbox (<[given_up_id := mk_outbox_row "intents.submitted.INTENT_TYPE_COMPUTE" "x" "FAILED" 6 0 0]>
                (outbox_events (w_db Run.submitted))) Run.submitted.
Lemma with_given_up_ok :
  keys_canonical (outbox_events (w_db with_given_up)) /\ at_rest (outbox_events (w_db with_given_up)).
Proof.
  destruct (one_row_keys _ submitted_ok) as [Hk Hp]. split; intros k r; cbn -[Run.submitted]; rewrite lookup_insert;
    (case_decide as Hkey; [subst k; intros [= <-]|]).
  - vm_compute. reflexivity.
  - apply Hk.
  - by right.
  - intros Hr. left. by eapply Hp.
Qed.

Lemma outbox_drains_witness :
  outbox_events (w_db (run_state sys_exec (worker_loop (NewWorker 0 0 0) 1) [] with_given_up))
    = in_state "FAILED" (outbox_events (w_db with_given_up)) /\
  (size (outbox_events (w_db with_given_up)) = 2 /\ size (in_state "FAILED" (outbox_events (w_db with_given_up))) = 1)%nat.
Proof.
  split; [|vm_compute; split; reflexivity].
  apply (outbox_drains (NewWorker 0 0 0) 1 with_given_up).
  - vm_compute. reflexivity.
  - exact (proj2 with_given_up_ok).
  - exact (proj1 with_given_up_ok).
  - apply Nat.leb_le. vm_compute. reflexivity.
Defined.

Lemma batch_effect_witness :
  effect 5 (map fst (claimed_rows_of (NewWorker 0 0 0) Run.submitted)) Run.submitted
    (run_state sys_exec (processBatch (NewWorker 0 0 0)) [Done; Done; Done; Done; Done; Lost "no responders"] Run.submitted).
Proof. apply (batch_effect (NewWorker 0 0 0) Run.submitted). apply one_row_keys, submitted_ok. Defined.
End concrete_outbox.
