(* ===== verification/ServiceFacts.v ===== *)
(** * Scheduler, execution engine and validator, one message at a time

    The outcome of each handler on every branch and under every schedule of
    failures: what it answers, what it writes, what it publishes. *)
From stdpp Require Import sorting.
From S2P Require Import Prelude GoLib Sha256 Effects Sql Proto Float64 WalletProto Wallet WalletFacts Ledger.
From S2P Require Import LedgerFacts IntentDb System SystemRules IntentStore Scheduler Engine Validator.
From S2P Require Import Float64Facts Concrete Pipeline PipelineFacts PipelineProps.

Section services.
Context `{Postgres} `{NumericCodec} `{ProtoCodec}.
Abbreviation wp := (wp sys_exec).

(** The tables with one intent's status written. *)
Definition with_status (st : string) (u : string) (r : intent_row) (w : world) : intent_db :=
  mk_intent_db (<[u := set_ir_status st (ts_in (w_now w)) r]> (intents (w_db w))) (outbox_events (w_db w)).

(** Everything but tables, stream, wallet, ledger and metrics is as before. *)
Definition touched (w : world) (d : intent_db) (added : list msg) (w' : world) : Prop :=
  w_db w' = d /\ w_nats w' = w_nats w ++ added /\ w_wallet w' = w_wallet w /\
  w_ledger w' = w_ledger w /\ w_locks w' = w_locks w /\ w_now w' = w_now w.

Lemma touched_nothing w w' :
  w_db w' = w_db w -> w_nats w' = w_nats w -> w_wallet w' = w_wallet w -> w_ledger w' = w_ledger w ->
  w_locks w' = w_locks w -> w_now w' = w_now w -> touched w (w_db w) [] w'.
Proof. intros. unfold touched. by rewrite app_nil_r. Qed.

Lemma exec_update_status now st id u r d :
  uuid_in id = Some u -> intents d !! u = Some r -> text_ok st = true -> (String.length st <= 50)%nat ->
  exec_stmt now (UpdateStatus st id) d
  = Ok (1, mk_intent_db (<[u := set_ir_status st (ts_in now) r]> (intents d)) (outbox_events d)).
Proof.
  intros Hu Hr Ht Hl. cbn. unfold uuid_arg. rewrite Hu. cbn.
  assert (Hv : varchar 50 st = Ok st); [|by rewrite Hv; cbn; rewrite Hr].
  apply varchar_Ok, varchar_in_Some. split; [done|]. clear Ht. revert Hl. generalize 50%nat. induction st as [|c st IH]; intros n Hn; [done|]. cbn in Hn |- *.
  destruct (utf8_cont c); [by rewrite IH by lia|]. destruct n as [|n]; [lia|]. by rewrite IH by lia.
Qed.

(** ** The scheduler *)
Definition task_of (i : Intent.t) (data : string) : msg :=
  mk_msg ("tasks.scheduled." +:+ IntentType_String (Intent.Type_ i))%string data.
Definition SCHEDULED : string := "INTENT_STATUS_SCHEDULED".
Definition EXECUTING : string := "INTENT_STATUS_EXECUTING".
Definition FAILED : string := "INTENT_STATUS_FAILED".
Definition past_deadline (now : Z) (r : intent_row) : bool :=
  match ir_deadline r with Some deadline => deadline <? now | None => false end.

Inductive scheduling (i : Intent.t) (w : world) : result string unit -> intent_db -> list msg -> Prop :=
(** A database error, or an id that is no UUID, before anything was written. *)
| sched_error e : scheduling i w (Err e) (w_db w) []
(** An orphan message. *)
| sched_unknown u :
    uuid_in (Intent.Id i) = Some u -> intents (w_db w) !! u = None -> scheduling i w (Ok tt) (w_db w) []
(** Already past PENDING: nothing is written; a SCHEDULED task may be sent again. *)
| sched_skip u r :
    uuid_in (Intent.Id i) = Some u -> intents (w_db w) !! u = Some r -> ir_status r <> PENDING ->
    scheduling i w (Ok tt) (w_db w) []
| sched_resend u r data :
    uuid_in (Intent.Id i) = Some u -> intents (w_db w) !! u = Some r -> ir_status r = SCHEDULED ->
    marshal_intent (Intent.set_Status INTENT_STATUS_SCHEDULED i) = Ok data ->
    scheduling i w (Ok tt) (w_db w) [task_of i data]
(** Past its deadline: FAILED, even when the acknowledgement was lost. *)
| sched_expired u r res :
    uuid_in (Intent.Id i) = Some u -> intents (w_db w) !! u = Some r -> ir_status r = PENDING ->
    past_deadline (w_now w) r = true -> scheduling i w res (with_status FAILED u r w) []
(** SCHEDULED but the task was not seen to be published. *)
| sched_unsent u r e added :
    uuid_in (Intent.Id i) = Some u -> intents (w_db w) !! u = Some r -> ir_status r = PENDING ->
    past_deadline (w_now w) r = false ->
    (added = [] \/ exists data, marshal_intent (Intent.set_Status INTENT_STATUS_SCHEDULED i) = Ok data /\
                                added = [task_of i data]) ->
    scheduling i w (Err e) (with_status SCHEDULED u r w) added
(** SCHEDULED and published. *)
| sched_done u r data :
    uuid_in (Intent.Id i) = Some u -> intents (w_db w) !! u = Some r -> ir_status r = PENDING ->
    past_deadline (w_now w) r = false ->
    marshal_intent (Intent.set_Status INTENT_STATUS_SCHEDULED i) = Ok data ->
    scheduling i w (Ok tt) (with_status SCHEDULED u r w) [task_of i data].

Definition scheduled_as i w (r : result string unit) (w' : world) : Prop :=
  exists d added, scheduling i w r d added /\ touched w d added w'.

Lemma scheduled_error i e w : scheduled_as i w (Err e) w.
Proof. exists (w_db w), []. split; [constructor|by apply touched_nothing]. Qed.

Section stored.
Context (i : Intent.t) (u : string) (r : intent_row) (w : world).
Context (Hu : uuid_in (Intent.Id i) = Some u) (Hr : intents (w_db w) !! u = Some r).

Lemma update_intent st :
  text_ok st = true -> (String.length st <= 50)%nat ->
  exec_stmt (w_now w) (UpdateStatus st (Intent.Id i)) (w_db w) = Ok (1, with_status st u r w).
Proof. intros Ht Hst. by apply exec_update_status. Qed.

Lemma wp_republish : ir_status r = SCHEDULED -> wp (republish i) (scheduled_as i w) w.
Proof.
  intros Hst. assert (Hskip : scheduled_as i w (Ok tt) w).
  { exists (w_db w), []. split; [eapply sched_skip; [done..|by rewrite Hst]|by apply touched_nothing]. }
  unfold republish. destruct (marshal_intent _) as [data|e] eqn:Hd; [|done]. fold (task_of i data).
  assert (Hsent : scheduled_as i w (Ok tt) (set_nats (w_nats w ++ [task_of i data]) w)).
  { exists (w_db w), [task_of i data]. split; [by eapply sched_resend|done]. }
  by apply wp_publish.
Qed.

Lemma wp_reject_expired :
  ir_status r = PENDING -> past_deadline (w_now w) r = true -> wp (reject_expired i) (scheduled_as i w) w.
Proof.
  intros Hst Hexp. assert (Hfail : forall res w1, w1 = set_db (with_status FAILED u r w) w ->
    forall w', touched w1 (w_db w1) [] w' -> scheduled_as i w res w').
  { intros res w1 -> w' Ht. exists (with_status FAILED u r w), []. split; [by eapply sched_expired|exact Ht]. }
  apply wp_db_exec; [intros e; apply scheduled_error| |]; intros *; rewrite update_intent by (done || (cbn; lia)); intros [= _ <-].
  - eapply Hfail; [done|by apply touched_nothing].
  - apply wp_metric. eapply Hfail; [done|by apply touched_nothing].
Qed.

Section pending.
Context (Hst : ir_status r = PENDING) (Hpd : past_deadline (w_now w) r = false).
Let w1 : world := set_db (with_status SCHEDULED u r w) w.

Lemma scheduled_unsent e : scheduled_as i w (Err e) w1.
Proof.
  exists (with_status SCHEDULED u r w), []. split; [eapply sched_unsent; [done..|by left]|].
  unfold touched. by rewrite app_nil_r.
Qed.

Lemma wp_publish_task : wp (publish_task i) (scheduled_as i w) w1.
Proof.
  unfold publish_task. destruct (marshal_intent _) as [data|e] eqn:Hd; [|apply scheduled_unsent]. fold (task_of i data).
  apply wp_publish; [intros e; apply scheduled_unsent|intros e|apply wp_metric];
    exists (with_status SCHEDULED u r w), [task_of i data]; (split; [|done]).
  - eapply sched_unsent; [done..|]. right. by exists data.
  - by eapply sched_done.
Qed.

Lemma wp_schedule : wp (schedule i) (scheduled_as i w) w.
Proof.
  assert (Hupd : exec_stmts (w_now w) [UpdateStatus "INTENT_STATUS_SCHEDULED" (Intent.Id i)] (w_db w) = Ok (with_status SCHEDULED u r w)).
  { cbn [exec_stmts]. by rewrite update_intent by (done || (cbn; lia)). }
  apply wp_db_begin; [intros e; apply scheduled_error|]. apply wp_defer_tx.
  apply wp_tx_exec; [intros e; autorewrite with world; apply scheduled_error|]. intros d _. cbn [tx_stmts tx_locks app].
  apply wp_tx_commit; cbn [tx_stmts].
  - intros e. autorewrite with world. apply scheduled_error.
  - intros e d1. rewrite Hupd. intros [= <-]. autorewrite with world. apply scheduled_unsent.
  - intros d1. rewrite Hupd. intros [= <-]. autorewrite with world. eapply wp_mono; [|apply wp_publish_task].
    intros res w' Hs. by autorewrite with world.
Qed.
End pending.
End stored.

Lemma wp_schedule_steps i w : wp (schedule_steps i) (scheduled_as i w) w.
Proof.
  assert (Hsame : touched w (w_db w) [] w) by (by apply touched_nothing).
  unfold schedule_steps. apply wp_query_intent; [intros e; apply scheduled_error|].
  unfold query_intent, uuid_arg. destruct (uuid_in (Intent.Id i)) as [u|] eqn:Hu; cbn [mbind result_bind];
    [|apply scheduled_error].
  destruct (intents (w_db w) !! u) as [r|] eqn:Hr; [|exists (w_db w), []; split; [by eapply sched_unknown|done]].
  cbv zeta. destruct (bool_decide (ir_status r = _)) eqn:Hst; cbn [negb];
    [apply bool_decide_eq_true in Hst|apply bool_decide_eq_false in Hst].
  - apply wp_now. destruct (match ir_deadline r with Some _ => _ | None => _ end) eqn:Hexp;
      [by eapply wp_reject_expired|by eapply wp_schedule].
  - case_bool_decide as Hsch; [by eapply wp_republish|]. exists (w_db w), []. split; [by eapply sched_skip|done].
Qed.

(** C21: what the scheduler does with a submission, on every branch and under
    every schedule of failures.  An undecodable message is refused and changes
    nothing; otherwise the answer, the status written and the messages published
    are one of the cases of [scheduling]: in particular Ok for a PENDING intent
    means that it is SCHEDULED with its task published, or FAILED past its
    deadline, and no other row, wallet or ledger state changes. *)
Theorem scheduler_outcome m w sched :
  let r := run_result sys_exec (handleSubmittedIntent m) sched w in
  let w' := run_state sys_exec (handleSubmittedIntent m) sched w in
  match unmarshal_intent (Data m) with
  | None => is_ok r = false /\ touched w (w_db w) [] w'
  | Some i => scheduled_as i w r w'
  end.
Proof.
  cbv zeta. set (Q := fun (r : result string unit) w' => match unmarshal_intent (Data m) with
    | None => is_ok r = false /\ touched w (w_db w) [] w' | Some i => scheduled_as i w r w' end).
  apply (wp_run sys_exec (handleSubmittedIntent m) Q w sched). unfold handleSubmittedIntent. apply wp_now.
  apply wp_bind. eapply wp_mono; [|instantiate (1 := Q); unfold Q].
  - intros r w' Hr. observe. unfold Q in *. destruct (unmarshal_intent (Data m)).
    + destruct Hr as (d & added & Hs & Ht). by exists d, added.
    + done.
  - destruct (unmarshal_intent (Data m)) as [i|]; [apply wp_schedule_steps|].
    split; [done|]. by apply touched_nothing.
Qed.

(** ** The execution engine *)
Definition row_status (st : string) (t : Z) (u : string) (r : intent_row) (d : intent_db) : intent_db :=
  mk_intent_db (<[u := set_ir_status st t r]> (intents d)) (outbox_events d).
Definition executed_of (i : Intent.t) (data : string) : msg :=
  mk_msg ("intents.executed." +:+ IntentType_String (Intent.Type_ i))%string data.

(** What running the intent's work may come to: whether it counts as a success,
    the wallet afterwards, and the time it took. *)
Inductive works (txID : string) (i : Intent.t) (now : Z) (wl : wallet_db) : bool -> wallet_db -> Z -> Prop :=
| works_bad_payload :
    Intent.Type_ i = INTENT_TYPE_TRANSFER -> transfer.unmarshal (Intent.Payload i) = None ->
    works txID i now wl false wl now
| works_transfer x ok d :
    Intent.Type_ i = INTENT_TYPE_TRANSFER -> transfer.unmarshal (Intent.Payload i) = Some x ->
    (let '(r, d') := wallet_rpc now txID (TransferRequest.mk (transfer.From x) (transfer.To x)
                       (transfer.Amount x) (Intent.Id i)) wl in
     ok = is_ok r /\ d = d') ->
    works txID i now wl ok d now
| works_unanswered x d :
    Intent.Type_ i = INTENT_TYPE_TRANSFER -> transfer.unmarshal (Intent.Payload i) = Some x ->
    d = wl \/
    d = (wallet_rpc now txID (TransferRequest.mk (transfer.From x) (transfer.To x)
           (transfer.Amount x) (Intent.Id i)) wl).2 ->
    works txID i now wl false d now
| works_compute ok t :
    Intent.Type_ i = INTENT_TYPE_COMPUTE ->
    (ok = true /\ t = now + 2000000000 \/ ok = false /\ t = now) -> works txID i now wl ok wl t
| works_nothing :
    Intent.Type_ i <> INTENT_TYPE_TRANSFER -> Intent.Type_ i <> INTENT_TYPE_COMPUTE ->
    works txID i now wl true wl now.

Inductive executing (txID : string) (i : Intent.t) (d0 : intent_db) (now : Z) (wl : wallet_db)
  : result string unit -> intent_db -> list msg -> wallet_db -> Prop :=
(** The claim failed and wrote nothing. *)
| exec_error e : executing txID i d0 now wl (Err e) d0 [] wl
(** Nothing to claim: unknown, or in any state but SCHEDULED. *)
| exec_skip u :
    uuid_in (Intent.Id i) = Some u -> (forall r, intents d0 !! u = Some r -> ir_status r <> SCHEDULED) ->
    executing txID i d0 now wl (Ok tt) d0 [] wl
(** Claimed, but the answer of the claim was lost: no work is done. *)
| exec_claim_lost u r t e :
    uuid_in (Intent.Id i) = Some u -> intents d0 !! u = Some r -> ir_status r = SCHEDULED ->
    executing txID i d0 now wl (Err e) (row_status EXECUTING t u r d0) [] wl
(** The work was done and its result could not be written, or was written
    without an answer. *)
| exec_unsettled u r ok d t t' st e :
    uuid_in (Intent.Id i) = Some u -> intents d0 !! u = Some r -> ir_status r = SCHEDULED ->
    works txID i now wl ok d t -> (st = EXECUTING \/ st = if ok then COMPLETED else FAILED) ->
    executing txID i d0 now wl (Err e) (row_status st t' u r d0) [] d
(** Settled; the notification may be missing. *)
| exec_settled u r (ok : bool) d t t' added :
    uuid_in (Intent.Id i) = Some u -> intents d0 !! u = Some r -> ir_status r = SCHEDULED ->
    works txID i now wl ok d t ->
    (added = [] \/ exists data,
       marshal_intent (Intent.set_Status (if ok then INTENT_STATUS_COMPLETED else INTENT_STATUS_FAILED) i) = Ok data /\
       added = [executed_of i data]) ->
    executing txID i d0 now wl (Ok tt) (row_status (if ok then COMPLETED else FAILED) t' u r d0) added d.

Definition executed_as txID i w (r : result string unit) (w' : world) : Prop :=
  exists d added wl, executing txID i (w_db w) (w_now w) (w_wallet w) r d added wl /\
    w_db w' = d /\ w_nats w' = w_nats w ++ added /\ w_wallet w' = wl /\ w_ledger w' = w_ledger w /\
    w_locks w' = w_locks w.

(** Tables, stream, ledger and locks as in [w1]; wallet and clock as given. *)
Definition after_work (w1 : world) (d : wallet_db) (t : Z) (w' : world) : Prop :=
  w_db w' = w_db w1 /\ w_nats w' = w_nats w1 /\ w_ledger w' = w_ledger w1 /\ w_locks w' = w_locks w1 /\
  w_wallet w' = d /\ w_now w' = t.

Lemma wp_execution txID i w :
  wp (runExecutionSimulation txID i)
    (fun r w' => exists d t, works txID i (w_now w) (w_wallet w) (is_ok r) d t /\ after_work w d t w') w.
Proof.
  unfold runExecutionSimulation. destruct (Z.eqb_spec (Intent.Type_ i) INTENT_TYPE_TRANSFER) as [Ht|Ht].
  - destruct (transfer.unmarshal (Intent.Payload i)) as [x|] eqn:Hx.
    + apply wp_vis. intros o. cbn [sys_exec].
      destruct (wallet_rpc _ _ _ _) as [r d] eqn:Hr.
      assert (Hdone : works txID i (w_now w) (w_wallet w) (is_ok r) d (w_now w)).
      { eapply works_transfer; [done..|]. by rewrite Hr. }
      assert (Hlost : works txID i (w_now w) (w_wallet w) false (w_wallet w) (w_now w)) by (eapply works_unanswered; [done..|by left]).
      assert (Hack : works txID i (w_now w) (w_wallet w) false d (w_now w)).
      { eapply works_unanswered; [done..|]. right. by rewrite Hr. }
      destruct o; cbn; [destruct r; exists d, (w_now w)|exists (w_wallet w), (w_now w)|exists d, (w_now w)
        |exists (w_wallet w), (w_now w)]; (split; [assumption|by repeat split]).
    + cbn. exists (w_wallet w), (w_now w). split; [by constructor|by repeat split].
  - destruct (Z.eqb_spec (Intent.Type_ i) INTENT_TYPE_COMPUTE) as [Hc|Hc].
    + apply wp_vis. intros o. destruct o; cbn; eexists _, _; (split; [apply works_compute; [done|]|by repeat split]); auto.
    + cbn. exists (w_wallet w), (w_now w). split; [by constructor|by repeat split].
Qed.

Lemma exec_claim now id u r d :
  uuid_in id = Some u -> intents d !! u = Some r ->
  exec_stmt now (ClaimStatus "INTENT_STATUS_EXECUTING" id "INTENT_STATUS_SCHEDULED") d
  = if bool_decide (ir_status r = "INTENT_STATUS_SCHEDULED"%string)
    then Ok (1, mk_intent_db (<[u := set_ir_status "INTENT_STATUS_EXECUTING" (ts_in now) r]> (intents d)) (outbox_events d))
    else Ok (0, d).
Proof. intros Hu Hr. cbn. unfold uuid_arg. rewrite Hu. cbn. by rewrite Hr. Qed.

Lemma executed_error txID i e w : executed_as txID i w (Err e) w.
Proof. exists (w_db w), [], (w_wallet w). rewrite app_nil_r. split; [constructor|done]. Qed.

(** A claim that changes no row leaves the engine nothing to do. *)
Lemma exec_claim_none now id u d :
  uuid_in id = Some u -> (forall r, intents d !! u = Some r -> ir_status r <> SCHEDULED) ->
  exec_stmt now (ClaimStatus "INTENT_STATUS_EXECUTING" id "INTENT_STATUS_SCHEDULED") d = Ok (0, d).
Proof.
  intros Hu Hno. destruct (intents d !! u) as [r|] eqn:Hr.
  - rewrite (exec_claim _ _ u r) by done. by rewrite bool_decide_false by (by apply Hno).
  - cbn. unfold uuid_arg. rewrite Hu. cbn. by rewrite Hr.
Qed.

(** Recording the result of the work [res] in [w2], after the claim in [w]. *)
Section record.
Context (txID : string) (i : Intent.t) (u : string) (r : intent_row) (w w2 : world) (res : result string unit).
Context (wl : wallet_db) (t : Z).
Context (Hu : uuid_in (Intent.Id i) = Some u) (Hr : intents (w_db w) !! u = Some r) (Hst : ir_status r = SCHEDULED).
Context (Hworks : works txID i (w_now w) (w_wallet w) (is_ok res) wl t).
Let w1 : world := set_db (row_status EXECUTING (ts_in (w_now w)) u r (w_db w)) w.
Context (Hafter : after_work w1 wl t w2).
Let st : string := if is_ok res then COMPLETED else FAILED.

Lemma record_unset e status t' w' :
  w_db w' = row_status status t' u r (w_db w) -> status = EXECUTING \/ status = st ->
  w_nats w' = w_nats w2 -> w_wallet w' = w_wallet w2 -> w_ledger w' = w_ledger w2 -> w_locks w' = w_locks w2 ->
  executed_as txID i w (Err e) w'.
Proof.
  destruct Hafter as (_ & Hn & Hled & Hlk & Hwl & _). cbn [w1 set_db w_nats w_ledger w_locks] in *. intros Hdb Hcase ? ? ? ?. exists (w_db w'), [], wl.
  split; [rewrite Hdb; by eapply exec_unsettled|]. rewrite app_nil_r. split_and!; congruence.
Qed.

Lemma record_set t' added w' :
  w_db w' = row_status st t' u r (w_db w) ->
  added = [] \/ (exists data,
    marshal_intent (Intent.set_Status (if is_ok res then INTENT_STATUS_COMPLETED else INTENT_STATUS_FAILED) i) = Ok data /\
    added = [executed_of i data]) ->
  w_nats w' = w_nats w2 ++ added -> w_wallet w' = w_wallet w2 -> w_ledger w' = w_ledger w2 -> w_locks w' = w_locks w2 ->
  executed_as txID i w (Ok tt) w'.
Proof.
  destruct Hafter as (_ & Hn & Hled & Hlk & Hwl & _). cbn [w1 set_db w_nats w_ledger w_locks] in *. intros Hdb Hadd Hn' ? ? ?. exists (w_db w'), added, wl.
  split; [rewrite Hdb; by eapply exec_settled|]. rewrite Hn', Hn. split_and!; congruence.
Qed.

Lemma exec_record now :
  exec_stmt now (UpdateStatus st (Intent.Id i)) (w_db w2) = Ok (1, row_status st (ts_in now) u r (w_db w)).
Proof.
  assert (Hlen : (String.length st <= 50)%nat) by (unfold st; destruct (is_ok res); cbn; lia).
  destruct Hafter as (Hd & _). rewrite Hd, (exec_update_status _ _ _ u (set_ir_status EXECUTING (ts_in (w_now w)) r) _ Hu); [|by cbn; rewrite lookup_insert_eq|unfold st; by destruct (is_ok res)|exact Hlen].
  unfold row_status. cbn. by rewrite insert_insert_eq.
Qed.

Lemma wp_record_result : wp (record_result i res) (executed_as txID i w) w2.
Proof.
  unfold record_result.
  assert ((match res with
      | Ok _ => ("INTENT_STATUS_COMPLETED"%string, INTENT_STATUS_COMPLETED)
      | Err _ => ("INTENT_STATUS_FAILED"%string, INTENT_STATUS_FAILED)
      end) = (st, if is_ok res then INTENT_STATUS_COMPLETED else INTENT_STATUS_FAILED)) as -> by (unfold st; by destruct res).
  apply wp_db_exec; [intros e|intros e n d|intros n d]; rewrite ?exec_record.
  - destruct Hafter as (Hd & _). by eapply record_unset; [rewrite Hd|left|..].
  - intros [= _ <-]. by eapply record_unset; [|right|..].
  - intros [= _ <-]. destruct (marshal_intent _) as [data|e] eqn:Hdata.
    + fold (executed_of i data). apply wp_publish; [intros e; apply wp_metric|intros e; apply wp_metric|apply wp_metric].
      * eapply (record_set _ []); [done|by left|by rewrite app_nil_r|done..].
      * eapply record_set; [done|right; by exists data|done..].
      * eapply record_set; [done|right; by exists data|done..].
    + apply wp_metric. eapply (record_set _ []); [done|by left|by rewrite app_nil_r|done..].
Qed.
End record.

Lemma wp_execute_steps txID i w : wp (execute_steps txID i) (executed_as txID i w) w.
Proof.
  unfold execute_steps. destruct (uuid_in (Intent.Id i)) as [u|] eqn:Hu.
  2: { apply wp_db_exec; [intros e; apply executed_error|..]; intros *; cbn; unfold uuid_arg; by rewrite Hu. }
  assert (Hcase : (forall r, intents (w_db w) !! u = Some r -> ir_status r <> SCHEDULED) \/
    exists r, intents (w_db w) !! u = Some r /\ ir_status r = SCHEDULED).
  { destruct (intents (w_db w) !! u) as [r|]; [destruct (decide (ir_status r = SCHEDULED))|]; naive_solver. }
  destruct Hcase as [Hno|(r & Hr & Hst)].
  - apply wp_db_exec; [intros e; apply executed_error|..]; intros *; rewrite (exec_claim_none _ _ u) by done.
    + intros [= _ <-]. autorewrite with world. apply executed_error.
    + intros [= <- <-]. autorewrite with world. exists (w_db w), [], (w_wallet w). autorewrite with world.
      split; [by eapply exec_skip|done].
  - apply wp_db_exec; [intros e; apply executed_error|..]; intros *; rewrite (exec_claim _ _ u r) by done;
      rewrite bool_decide_true by done.
    + intros [= _ <-]. eexists _, [], _. rewrite app_nil_r. split; [by eapply exec_claim_lost|by split_and!].
    + intros [= <- <-]. cbn [Z.eqb]. apply wp_bind. eapply wp_mono; [|apply wp_execution].
      intros res w2 (wl & t & Hworks & Hafter). by eapply wp_record_result.
Qed.

(** C22: what the engine does with a task, on every branch and under every
    schedule of failures.  An undecodable task is refused and changes nothing;
    otherwise the answer, status, notification and wallet are one of the cases
    of [executing]: a task is acknowledged only when its intent is in a state
    other than SCHEDULED already or has been settled as COMPLETED or FAILED by
    this run, COMPLETED exactly when the work counted as a success. *)
Theorem engine_outcome txID m w sched :
  let r := run_result sys_exec (executeTask txID m) sched w in
  let w' := run_state sys_exec (executeTask txID m) sched w in
  match unmarshal_intent (Data m) with
  | None => is_ok r = false /\ touched w (w_db w) [] w'
  | Some i => executed_as txID i w r w'
  end.
Proof.
  cbv zeta. set (Q := fun (r : result string unit) w' => match unmarshal_intent (Data m) with
    | None => is_ok r = false /\ touched w (w_db w) [] w' | Some i => executed_as txID i w r w' end).
  apply (wp_run sys_exec (executeTask txID m) Q w sched). unfold executeTask. apply wp_metric. apply wp_bind.
  apply wp_mono with (Q := Q).
  - intros r w' Hr. apply wp_metric. unfold Q in *. by destruct (unmarshal_intent (Data m)).
  - unfold Q. destruct (unmarshal_intent (Data m)) as [i|]; [|split; [done|]; by apply touched_nothing].
    apply wp_now. apply wp_bind. apply wp_mono with (Q := executed_as txID i w).
    + intros r w' Hr. observe. exact Hr.
    + apply (wp_execute_steps txID i (add_metric _ _ w)).
Qed.

(** A handler of a task or a submission does not write the row of an intent
    that is EXECUTING. *)
Lemma executing_leaves txID i d0 now wl res d added wl' u r :
  executing txID i d0 now wl res d added wl' -> intents d0 !! u = Some r -> ir_status r = EXECUTING ->
  intents d !! u = Some r.
Proof.
  intros He Hu Hst.
  assert (Hother : forall st t v q, intents d0 !! v = Some q -> ir_status q = SCHEDULED ->
            intents (row_status st t v q d0) !! u = Some r).
  { intros st t v q Hv Hq. cbn. rewrite lookup_insert_ne; [done|]. intros ->.
    assert (q = r) as -> by congruence. rewrite Hst in Hq. discriminate Hq. }
  destruct He; eauto.
Qed.

Lemma scheduling_leaves i w res d added u r :
  scheduling i w res d added -> intents (w_db w) !! u = Some r -> ir_status r = EXECUTING ->
  intents d !! u = Some r.
Proof.
  intros Hs Hu Hst.
  assert (Hother : forall st v q, intents (w_db w) !! v = Some q -> ir_status q = PENDING ->
            intents (with_status st v q w) !! u = Some r).
  { intros st v q Hv Hq. cbn. rewrite lookup_insert_ne; [done|]. intros ->.
    assert (q = r) as -> by congruence. rewrite Hst in Hq. discriminate Hq. }
  destruct Hs; eauto.
Qed.

(** EXECUTING is left only by the run that entered it.  Once an intent is in
    that state and its engine is gone (a crash, or a lost final write), no
    later delivery of any task or submission, with any failures, changes its
    row; and without failures its own task is acknowledged and thus dropped,
    though nothing was settled. *)
Theorem executing_strands w u r :
  uuid_in u = Some u -> intents (w_db w) !! u = Some r -> ir_status r = EXECUTING ->
  (forall txID m sched,
     intents (w_db (run_state sys_exec (executeTask txID m) sched w)) !! u = Some r) /\
  (forall m sched,
     intents (w_db (run_state sys_exec (handleSubmittedIntent m) sched w)) !! u = Some r) /\
  (forall txID m i, unmarshal_intent (Data m) = Some i -> Intent.Id i = u ->
     settle (run_result sys_exec (executeTask txID m) [] w) = Ack).
Proof.
  intros Huu Hu Hst. split_and!.
  - intros txID m sched. set (Q := fun (_ : result string unit) w' => intents (w_db w') !! u = Some r).
    apply (wp_run sys_exec (executeTask txID m) Q w sched). unfold executeTask. apply wp_metric. apply wp_bind.
    apply wp_mono with (Q := Q); [intros x w' Hx; by apply wp_metric|].
    destruct (unmarshal_intent (Data m)) as [i|]; [|done]. apply wp_now. apply wp_bind.
    eapply wp_mono; [|apply wp_execute_steps]. intros x w' (d & added & wl & He & Hd & _). observe. unfold Q. cbn. rewrite Hd. by eapply executing_leaves.
  - intros m sched. set (Q := fun (_ : result string unit) w' => intents (w_db w') !! u = Some r).
    apply (wp_run sys_exec (handleSubmittedIntent m) Q w sched). unfold handleSubmittedIntent. apply wp_now.
    apply wp_bind. destruct (unmarshal_intent (Data m)) as [i|]; [|by observe].
    eapply wp_mono; [|apply wp_schedule_steps]. intros x w' (d & added & Hs & Hd & _). observe. unfold Q. cbn. rewrite Hd. by eapply scheduling_leaves.
  - intros txID m i Hi Hid. unfold executeTask, run_result, metric. cbn [run sys_exec hd tl]. rewrite Hi.
    unfold mbind, proc_mbind. rewrite run_bind. cbn [run sys_exec hd tl fst snd]. unfold execute_steps, call.
    rewrite run_bind. cbn [run sys_exec hd tl fst snd autocommit w_db add_metric w_now].
    rewrite (exec_claim _ _ u r) by (rewrite ?Hid; done). rewrite bool_decide_false by (by rewrite Hst). done.
Qed.

(** ** The validator *)
Lemma calculateHash_length b : String.length (calculateHash b) = 64%nat.
Proof. unfold calculateHash. by rewrite hex_encode_length, sha256_length. Qed.

Lemma next_block_hashes bs ts id ty st :
  chain bs -> String.length (Hash (next_block (last bs) ts id ty st)) = 64%nat /\
    String.length (PrevHash (next_block (last bs) ts id ty st)) = 64%nat.
Proof.
  intros Hc. unfold next_block. destruct (last bs) as [b0|] eqn:Hl; cbn [Hash PrevHash]; rewrite calculateHash_length.
  - rewrite last_lookup in Hl. destruct (Hc _ _ Hl) as (_ & _ & ->). by rewrite calculateHash_length.
  - split; [done|by vm_compute].
Qed.

Lemma first10_long s : (10 <= String.length s)%nat -> exists t, first10 s = Some t.
Proof. intros Hs. unfold first10. destruct (Nat.ltb_spec (String.length s) 10); [lia|eauto]. Qed.

(** The block the validator writes for a settled intent. *)
Definition audited (ts : string) (bs : list Block) (i : Intent.t) (w : world) (b : Block) : Prop :=
  exists u r, uuid_in (Intent.Id i) = Some u /\ intents (w_db w) !! u = Some r /\
    (ir_status r = COMPLETED \/ ir_status r = FAILED) /\
    b = next_block (last bs) ts (Intent.Id i) (ir_type r) (ir_status r).

Definition audit_contract (ts : string) (bs : list Block) (m : msg) (w : world)
    (res : result failure unit) (w' : world) : Prop :=
  (w_db w' = w_db w /\ w_nats w' = w_nats w /\ w_wallet w' = w_wallet w /\ w_locks w' = w_locks w) /\
  match res with
  | Ok _ => exists i b, unmarshal_intent (Data m) = Some i /\ audited ts bs i w b /\
      append_contract (w_ledger w) bs b (Ok b) (w_ledger w')
  | Err (Failed _) => w_ledger w' = w_ledger w \/
      exists i b e, unmarshal_intent (Data m) = Some i /\ audited ts bs i w b /\
        append_contract (w_ledger w) bs b (Err e) (w_ledger w')
  | Err Panicked => False
  end.

Lemma wp_audit_steps ts m bs w :
  ledger_holds (w_ledger w) bs -> ends_line (default "" (w_ledger w)) -> small_text ts = true ->
  (forall i u r, unmarshal_intent (Data m) = Some i -> uuid_in (Intent.Id i) = Some u ->
     intents (w_db w) !! u = Some r -> small_text (Intent.Id i) = true /\ small_text (ir_type r) = true) ->
  wp (audit_steps ts m) (audit_contract ts bs m w) w.
Proof.
  intros Hl He Hts Hsmall.
  assert (Hkeep : forall e, wp (verification_error (Err (Failed e))) (audit_contract ts bs m w) w).
  { intros e. apply wp_metric. split; [done|by left]. }
  unfold audit_steps. destruct (unmarshal_intent (Data m)) as [i|] eqn:Hi; [|apply Hkeep].
  apply wp_query_intent; [intros e; apply Hkeep|]. unfold query_intent, uuid_arg.
  destruct (uuid_in (Intent.Id i)) as [u|] eqn:Hu; cbn [mbind result_bind]; [|apply Hkeep].
  destruct (intents (w_db w) !! u) as [r|] eqn:Hr; [|apply Hkeep]. cbv zeta.
  destruct (Hsmall i u r eq_refl Hu Hr) as [Hid Hty].
  assert (Hcase : (ir_status r = COMPLETED \/ ir_status r = FAILED) \/
    negb (bool_decide (ir_status r = "INTENT_STATUS_COMPLETED")) &&
    negb (bool_decide (ir_status r = "INTENT_STATUS_FAILED")) = true).
  { unfold COMPLETED, FAILED. repeat case_bool_decide; auto. }
  destruct Hcase as [Hst|Hst]; [|rewrite Hst; apply Hkeep].
  assert (negb (bool_decide (ir_status r = "INTENT_STATUS_COMPLETED")) &&
    negb (bool_decide (ir_status r = "INTENT_STATUS_FAILED")) = false) as ->.
  { unfold COMPLETED, FAILED in Hst. repeat case_bool_decide; tauto. }
  assert (Hstx : small_text (ir_status r) = true) by (destruct Hst as [->| ->]; reflexivity).
  set (b := next_block (last bs) ts (Intent.Id i) (ir_type r) (ir_status r)).
  assert (Haud : audited ts bs i w b) by (by exists u, r).
  destruct (next_block_hashes bs ts (Intent.Id i) (ir_type r) (ir_status r)) as [Hh Hp];
    [by eapply ledger_holds_chain|]. fold b in Hh, Hp.
  apply wp_bind. apply (wp_proc_map (@LedgerOp) ledger_exec sys_exec w_ledger (fun w f => set_ledger f w)).
  { intros X e o t. cbn [sys_exec]. by destruct (ledger_exec X e o (w_ledger t)). }
  { done. } { done. } { by intros []. }
  eapply wp_mono; [|by apply wp_Append]. intros res f Hres. fold b in Hres. destruct res as [b'|e].
  - destruct Hres as (-> & Hres). apply wp_metric.
    destruct (first10_long (Hash b) ltac:(lia)) as [x ->], (first10_long (PrevHash b) ltac:(lia)) as [y ->].
    split; [done|]. exists i, b. split; [done|]. split; [done|]. by split.
  - apply wp_metric. split; [done|]. right. by exists i, b, e.
Qed.

(** C24: what the validator does with a notification, on every branch and under
    every schedule of failures, over a verified ledger that is absent, empty or
    ends in a newline, as every completed Append leaves it, with an intent id and
    type of at most 1000 ASCII characters.  (Without the
    final newline the new line joins the last one: [missing_newline_poisons] of
    LedgerProps.v.)  Ok means that the database shows the intent COMPLETED or
    FAILED and that exactly one block with its id, type and status was appended,
    linked to the last block, and the ledger still verifies; an error leaves the
    ledger as it was or followed by a prefix of that block's line; slicing the
    hashes for the log line never panics, and database, stream and wallet are not
    written. *)
Theorem validator_outcome ts m bs w sched :
  ledger_holds (w_ledger w) bs -> ends_line (default "" (w_ledger w)) -> small_text ts = true ->
  (forall i u r, unmarshal_intent (Data m) = Some i -> uuid_in (Intent.Id i) = Some u ->
     intents (w_db w) !! u = Some r -> small_text (Intent.Id i) = true /\ small_text (ir_type r) = true) ->
  audit_contract ts bs m w (run_result sys_exec (handleExecutedIntent ts m) sched w)
    (run_state sys_exec (handleExecutedIntent ts m) sched w).
Proof.
  intros Hl He Hts Hsmall. apply wp_run. unfold handleExecutedIntent. apply wp_now. apply wp_bind.
  eapply wp_mono; [|by apply (wp_audit_steps ts m bs)]. intros r w' Hc. apply wp_now. by apply wp_metric.
Qed.
End services.

(** ** The concrete run *)
Section concrete_services.
#[local] Existing Instance concrete_postgres.
#[local] Existing Instance exact_codec.
#[local] Existing Instance concrete_codec.

(** The engine pays and then loses the database. *)
Definition stranded : world :=
  Run.do (executeTask "tx-1" (Run.message 1 Run.scheduled)) [Done; Done; Done; Done; Lost "bad connection"] Run.scheduled.
Lemma stranded_row : Run.row_is EXECUTING TRANSFER stranded = true.
Proof. vm_compute. reflexivity. Qed.

Lemma executing_strands_witness :
  exists r, intents (w_db stranded) !! Run.intent_id = Some r /\ ir_status r = EXECUTING /\
    length (wallet_transactions (w_wallet stranded)) = 1%nat /\
    intents (w_db (run_state sys_exec (executeTask "tx-2" (Run.message 1 stranded)) [] stranded)) !! Run.intent_id = Some r.
Proof.
  destruct (Run.row_is_row _ _ _ stranded_row) as (r & Hr & Hst & _). exists r.
  split; [exact Hr|]. split; [exact Hst|]. split; [vm_compute; reflexivity|].
  assert (Hu : uuid_in Run.intent_id = Some Run.intent_id) by (vm_compute; reflexivity).
  apply (proj1 (executing_strands stranded Run.intent_id r Hu Hr Hst)).
Defined.

Lemma validator_outcome_witness :
  audit_contract "2024-01-01T00:00:00Z" [] (Run.message 2 Run.executed) Run.executed
    (run_result sys_exec (handleExecutedIntent "2024-01-01T00:00:00Z" (Run.message 2 Run.executed)) [] Run.executed)
    (run_state sys_exec (handleExecutedIntent "2024-01-01T00:00:00Z" (Run.message 2 Run.executed)) [] Run.executed).
Proof.
  assert (Hled : w_ledger Run.executed = None) by (vm_compute; reflexivity).
  apply (validator_outcome "2024-01-01T00:00:00Z" (Run.message 2 Run.executed) [] Run.executed []).
  - rewrite Hled. reflexivity.
  - rewrite Hled. left. reflexivity.
  - vm_compute. reflexivity.
  - intros i u r Hi Hu Hr.
    assert (Hid : Intent.Id i = Run.intent_id).
    { assert (Hb : (match unmarshal_intent (Data (Run.message 2 Run.executed)) with
                    | Some j => bool_decide (Intent.Id j = Run.intent_id) | None => false end) = true)
        by (vm_compute; reflexivity).
      rewrite Hi in Hb. by apply bool_decide_eq_true in Hb. }
    destruct (Run.row_is_row COMPLETED TRANSFER Run.executed ltac:(vm_compute; reflexivity)) as (r' & Hr' & _ & Hty).
    rewrite Hid in Hu |- *. assert (Hu' : uuid_in Run.intent_id = Some Run.intent_id) by (vm_compute; reflexivity).
    assert (r = r') as -> by congruence. rewrite Hty. split; vm_compute; reflexivity.
Defined.
End concrete_services.
