(* ===== verification/PipelineLive.v ===== *)
(** * What brings an intent forward

    When nothing fails: a batch brings an event to the stream, the scheduler sends
    the task of an intent that waits, and the engine gives it a final status. *)
From stdpp Require Import sorting.
From S2P Require Import Prelude GoLib Effects Concurrent Sql Proto Float64 WalletProto Wallet.
From S2P Require Import WalletFacts WalletProps Ledger IntentDb System SystemRules IntentStore Crypto IntentHandler.
From S2P Require Import IntentFacts Concrete Outbox Scheduler Engine Validator Pipeline PipelineFacts PipelineSafe PipelineProps.
From S2P Require Import Float64Facts Mains Metrics Typed OutboxFacts ServiceFacts.

Section live.
Context `{Postgres} `{NumericCodec} `{ProtoCodec} `{TimeText} `{Ed25519}.
Context (minted : string -> string).
Abbreviation good := (good minted).
Abbreviation grows := (grows minted).
Abbreviation succeeds := (succeeds sys_exec).

(** ** One handler *)
Definition has_status (sts : list string) (u : string) (w : world) : Prop :=
  exists r, intents (w_db w) !! u = Some r /\ ir_status r ∈ sts.
(** The task of [i] is in the stream, at position [n] or later. *)
Definition sent_since (n : nat) (i : Intent.t) (w : world) : Prop :=
  exists data pos, marshal_intent (Intent.set_Status INTENT_STATUS_SCHEDULED i) = Ok data /\
    (n <= pos)%nat /\ w_nats w !! pos = Some (task_of i data).
Lemma just_sent i data l :
  marshal_intent (Intent.set_Status INTENT_STATUS_SCHEDULED i) = Ok data ->
  forall w, w_nats w = l ++ [task_of i data] -> sent_since (length l) i w.
Proof. intros Hd w Hw. exists data, (length l). rewrite Hw. split_and!; [done..|]. by apply list_lookup_middle. Qed.

Section scheduled.
Context (i : Intent.t) (r : intent_row).
Context (Hid : uuid_in (Intent.Id i) = Some (Intent.Id i)).
Context (data : string) (Hdata : marshal_intent (Intent.set_Status INTENT_STATUS_SCHEDULED i) = Ok data).

(** What the scheduler leaves of a waiting intent: a task, or the end of it. *)
Definition moved_on (n : nat) (w : world) : Prop :=
  has_status [FAILED] (Intent.Id i) w \/ has_status [SCHEDULED] (Intent.Id i) w /\ sent_since n i w.

Lemma status_written st t w :
  intents (w_db w) = <[Intent.Id i := set_ir_status st t r]> (intents (w_db w)) -> has_status [st] (Intent.Id i) w.
Proof.
  intros Hw. exists (set_ir_status st t r). rewrite Hw, lookup_insert_eq. split; [done|]. by apply list_elem_of_singleton.
Qed.

Lemma schedule_succeeds w :
  intents (w_db w) !! Intent.Id i = Some r -> succeeds (schedule i) (fun _ => moved_on (length (w_nats w))) w.
Proof.
  intros Hr. assert (Hupd : exec_stmts (w_now w) [UpdateStatus "INTENT_STATUS_SCHEDULED" (Intent.Id i)] (w_db w)
    = Ok (with_status SCHEDULED (Intent.Id i) r w)).
  { cbn [exec_stmts]. by rewrite (exec_update_status _ _ _ (Intent.Id i) r) by (done || (cbn; lia)). }
  unfold schedule, call. apply succeeds_vis. cbn [sys_exec read fst snd]. apply succeeds_bind.
  apply succeeds_vis. cbn [sys_exec read fst snd tx_stmts app]. rewrite Hupd. cbn [fst snd].
  apply succeeds_vis. cbn [sys_exec read fst snd tx_stmts app tx_locks]. rewrite Hupd. cbn [fst snd].
  unfold publish_task. rewrite Hdata. apply succeeds_vis. cbn [sys_exec fst snd].
  unfold Effects.succeeds, run_result, run_state. cbn. right. split.
  - exists (set_ir_status SCHEDULED (ts_in (w_now w)) r). cbn. rewrite lookup_insert_eq. split; [done|].
    by apply list_elem_of_singleton.
  - by eapply just_sent.
Qed.

Lemma schedule_steps_succeeds w :
  intents (w_db w) !! Intent.Id i = Some r -> ir_status r ∈ [PENDING; SCHEDULED] ->
  succeeds (schedule_steps i) (fun _ => moved_on (length (w_nats w))) w.
Proof.
  intros Hr Hst. apply succeeds_vis. cbn [sys_exec read fst snd]. unfold query_intent, uuid_arg. rewrite Hid.
  cbn [mbind result_bind]. rewrite Hr. cbv zeta. case_bool_decide as Hp; cbn [negb].
  - apply succeeds_vis. cbn [sys_exec fst snd]. destruct (match ir_deadline r with Some _ => _ | None => _ end).
    + unfold reject_expired, call. apply succeeds_vis. cbn [sys_exec autocommit].
      rewrite (exec_update_status _ _ _ (Intent.Id i) r) by (done || (cbn; lia)). cbn [fst snd].
      unfold Effects.succeeds, run_result, run_state. cbn. left.
      exists (set_ir_status FAILED (ts_in (w_now w)) r). cbn. rewrite lookup_insert_eq. split; [done|].
      by apply list_elem_of_singleton.
    + by apply schedule_succeeds.
  - assert (Hs : ir_status r = SCHEDULED).
    { apply elem_of_cons in Hst as [Hx|Hst]; [by destruct Hp|]. by apply list_elem_of_singleton in Hst. }
    rewrite bool_decide_eq_true_2 by exact Hs. unfold republish. rewrite Hdata. apply succeeds_vis. cbn [sys_exec fst snd].
    unfold Effects.succeeds, run_result, run_state. cbn. right. split.
    + exists r. split; [done|]. rewrite Hs. by apply list_elem_of_singleton.
    + by eapply just_sent.
Qed.

Lemma scheduler_succeeds m w :
  unmarshal_intent (Data m) = Some i -> intents (w_db w) !! Intent.Id i = Some r -> ir_status r ∈ [PENDING; SCHEDULED] ->
  succeeds (on_submitted m) (fun _ => moved_on (length (w_nats w))) w.
Proof.
  intros Hm Hr Hst. unfold on_submitted, handleSubmittedIntent. apply succeeds_bind, succeeds_vis.
  cbn [sys_exec fst snd]. apply succeeds_bind. rewrite Hm. eapply succeeds_mono; [|by apply schedule_steps_succeeds].
  intros a w' Hw'. exact Hw'.
Qed.
End scheduled.

(** The work itself leaves the tables alone. *)
Lemma simulation_succeeds txID i w : succeeds (runExecutionSimulation txID i) (fun _ w' => w_db w' = w_db w) w.
Proof.
  unfold runExecutionSimulation. destruct (_ =? _).
  - destruct (transfer.unmarshal (Intent.Payload i)) as [x|]; [|done]. apply succeeds_vis. cbn [sys_exec].
    destruct (wallet_rpc _ _ _ _) as [[resp|st] d]; done.
  - destruct (_ =? _); [|done]. by apply succeeds_vis.
Qed.

Lemma record_succeeds i res q w :
  uuid_in (Intent.Id i) = Some (Intent.Id i) -> intents (w_db w) !! Intent.Id i = Some q ->
  succeeds (record_result i res) (fun _ => has_status [COMPLETED; FAILED] (Intent.Id i)) w.
Proof.
  intros Hid Hq. unfold record_result, call.
  assert (Hset : forall st, st ∈ [COMPLETED; FAILED] -> text_ok st = true -> (String.length st <= 50)%nat ->
    sys_exec _ (DbExec (UpdateStatus st (Intent.Id i))) Done w
    = (Ok 1, set_db (with_status st (Intent.Id i) q w) w) /\
    has_status [COMPLETED; FAILED] (Intent.Id i) (set_db (with_status st (Intent.Id i) q w) w)).
  { intros st Hst Htx Hlen. split.
    - cbn [sys_exec autocommit]. by rewrite (exec_update_status _ _ _ (Intent.Id i) q).
    - exists (set_ir_status st (ts_in (w_now w)) q). cbn. by rewrite lookup_insert_eq. }
  assert (HC : COMPLETED ∈ [COMPLETED; FAILED]) by left. assert (HF : FAILED ∈ [COMPLETED; FAILED]) by (right; left).
  destruct (Hset _ HC eq_refl ltac:(cbn; lia)) as [EC SC], (Hset _ HF eq_refl ltac:(cbn; lia)) as [EF SF]. unfold COMPLETED in EC. unfold FAILED in EF.
  destruct res as [u|e]; apply succeeds_vis; rewrite ?EC, ?EF;
    cbn [fst snd]; (destruct (marshal_intent _); [apply succeeds_vis|]); first [exact SC | exact SF].
Qed.

Lemma engine_succeeds txID m i w :
  unmarshal_intent (Data m) = Some i -> uuid_in (Intent.Id i) = Some (Intent.Id i) ->
  has_status [SCHEDULED] (Intent.Id i) w ->
  succeeds (executeTask txID m) (fun _ => has_status [COMPLETED; FAILED] (Intent.Id i)) w.
Proof.
  intros Hm Hid (r & Hr & Hst%list_elem_of_singleton). unfold executeTask. apply succeeds_vis.
  cbn [sys_exec fst snd]. apply succeeds_bind. rewrite Hm. apply succeeds_vis. cbn [sys_exec fst snd].
  apply succeeds_bind. unfold execute_steps, call. apply succeeds_vis. cbn [sys_exec autocommit].
  rewrite (exec_claim _ _ (Intent.Id i) r), bool_decide_eq_true_2 by done. cbn [fst snd Z.eqb].
  apply succeeds_bind. eapply succeeds_mono; [|apply simulation_succeeds]. cbn beta. intros res w1 Hw1. cbn [set_db w_db] in Hw1.
  eapply succeeds_mono; [|eapply record_succeeds; [exact Hid|rewrite Hw1; cbn; apply lookup_insert_eq]].
  intros a w2 Hw2. exact Hw2.
Qed.

(** ** Outbox workers, one batch after the other *)
Abbreviation steps := (rtc (system_step sys_exec (fun _ => background minted) moves)).
Abbreviation pipeline_safe := (pool_safe sys_exec good grows (fun _ _ => True)).

Lemma background_steps c c' : pipeline_safe c -> steps c c' -> pipeline_safe c' /\ grows c.2 c'.2.
Proof.
  intros Hc Hs. apply (system_safe sys_exec good grows (fun _ => background minted) moves _ c c'); [| |exact Hc|exact Hs].
  - intros w p Hg Hp. by eapply starts_safe, start_background.
  - by apply moves_keep.
Qed.

Definition waiting (o : outbox_row) : Prop := ob_status o = "PENDING"%string \/ ob_status o = "PROCESSING"%string.

Lemma good_keys_canonical w : good w -> keys_canonical (outbox_events (w_db w)).
Proof. intros Hg k r Hr. by destruct (good_outbox _ _ Hg k r Hr). Qed.

Lemma batch_steps ps w :
  pipeline_safe (ps, w) -> let wk := NewWorker 0 0 0 in steps (ps, w) (ps, delivered (claimed_rows_of wk w) w).
Proof.
  intros [Hg _] wk. pose proof (run_to_end sys_exec (fun _ => background minted) moves ps w (_ ← processBatch wk; Ret tt) []) as Hr.
  unfold run_state, mbind, proc_mbind in Hr. rewrite run_bind, run_batch in Hr by (by apply good_keys_canonical).
  apply Hr, back_batch.
Qed.

(** [o]'s message was added to the stream, and the intents were left alone. *)
Definition brought (o : outbox_row) (w w' : world) : Prop :=
  intents (w_db w') = intents (w_db w) /\ exists l, w_nats w' = w_nats w ++ l /\ content o ∈ l.

(** Batches of the default size bring a row that may be claimed to the stream,
    however many are ahead of it. *)
Lemma claimable_delivered n ps w k o :
  (size (outbox_events (w_db w)) <= n)%nat -> pipeline_safe (ps, w) -> w_locks w = ∅ ->
  outbox_events (w_db w) !! k = Some o -> claimable (w_now w - minute) (k, o) = true ->
  exists w', steps (ps, w) (ps, w') /\ brought o w w'.
Proof.
  revert w; induction n as [|n IH]; intros w Hn Hsafe HL Hk Hc.
  { assert (Hnil : outbox_events (w_db w) = ∅) by (apply map_size_empty_inv; lia). by rewrite Hnil in Hk. }
  set (wk := NewWorker 0 0 0). set (rows := claimed_rows_of wk w). pose proof (batch_steps ps w Hsafe) as Hstep.
  cbv zeta in Hstep. fold wk rows in Hstep.
  assert (Hrow : k ∈ map fst rows -> (k, o) ∈ rows).
  { intros ([k' o'] & Hkr & Hin)%list_elem_of_fmap. pose proof (claimed_rows_in _ _ _ Hin) as (Hr & _ & _).
    cbn in Hkr, Hr. subst k'. by replace o with o' by congruence. }
  destruct (decide (k ∈ map fst rows)) as [Hin%Hrow|Hout].
  - exists (delivered rows w). split; [exact Hstep|]. split; [done|]. exists (rows_msgs rows). split; [done|]. unfold rows_msgs. apply list_elem_of_In, in_map_iff. exists (k, o). split; [done|]. by apply list_elem_of_In.
  - assert (Hrest : outbox_events (w_db (delivered rows w)) !! k = Some o).
    { cbn. by rewrite lookup_remove_all, decide_False. }
    assert (Hfull : rows <> []).
    { intros Hnil. destruct (batch_delivers wk w (good_keys_canonical w (proj1 Hsafe))) as (_ & _ & _ & _ & Hin).
      fold rows in Hin. destruct Hout. apply (list_elem_of_fmap_2' fst _ (k, o)); [|done].
      apply Hin; [done|done|by rewrite HL|]. rewrite Hnil. cbn. lia. }
    assert (Hsize : (size (outbox_events (w_db (delivered rows w))) < size (outbox_events (w_db w)))%nat).
    { destruct rows as [|[k1 o1] rows'] eqn:Hrows; [done|]. apply map_subset_size. split.
      - apply map_subseteq_spec. intros j q. cbn -[remove_all]. rewrite lookup_remove_all. by case_decide.
      - intros Hsub. pose proof (claimed_rows_in wk w (k1, o1)) as Hin. fold rows in Hin. rewrite Hrows in Hin.
        destruct (Hin ltac:(left)) as (Hr & _ & _). rewrite map_subseteq_spec in Hsub. specialize (Hsub k1 o1 Hr).
        cbn -[remove_all] in Hsub. rewrite lookup_remove_all, decide_True in Hsub; [done|]. left. }
    pose proof (background_steps _ _ Hsafe Hstep) as [Hsafe' _].
    destruct (IH (delivered rows w)) as (w' & Hs & Hi & l & Hl & Hm); [lia|done|done|done|done|].
    exists w'. split; [by etransitivity|]. split; [by rewrite Hi|]. exists (rows_msgs rows ++ l).
    split; [by rewrite Hl, app_assoc|]. apply elem_of_app. by right.
Qed.

Lemma event_delivered ps w k o :
  pipeline_safe (ps, w) -> outbox_events (w_db w) !! k = Some o -> waiting o ->
  exists w', steps (ps, w) (ps, w') /\ brought o w w'.
Proof.
  intros Hsafe Hk Ho. set (t := Z.max (w_now w) (ob_updated_at o + minute + 2000)).
  set (w1 := set_now t (set_locks ∅ w)).
  assert (Hmove : steps (ps, w) (ps, w1)).
  { eapply rtc_l; [apply system_env, (move_unlock w ∅); set_solver|]. apply rtc_once, system_env.
    apply (move_time (set_locks ∅ w)). cbn. lia. }
  assert (Hc : claimable (w_now w1 - minute) (k, o) = true).
  { unfold claimable. cbn. destruct Ho as [-> | ->]; [done|]. cbn. apply Z.ltb_lt.
    pose proof (ts_in_near (t - minute)). lia. }
  destruct (claimable_delivered (size (outbox_events (w_db w1))) ps w1 k o) as (w' & Hs & Hb); try done.
  { by eapply background_steps. }
  exists w'. split; [by etransitivity|exact Hb].
Qed.

(** ** Settled *)
Definition settled_since (u : string) (r : intent_row) (w : world) : Prop :=
  exists r', intents (w_db w) !! u = Some r' /\ same_request r r' /\ ir_status r' ∈ [COMPLETED; FAILED].

Lemma settled_by_growth u r w w' :
  grows w w' -> intents (w_db w) !! u = Some r -> has_status [COMPLETED; FAILED] u w' -> settled_since u r w'.
Proof.
  intros Hg Hr (r1 & Hr1 & Hst). destruct (grows_intents _ _ _ Hg u r Hr) as (r2 & Hr2 & Hs). exists r2.
  split; [done|]. split; [done|]. by replace r2 with r1 by congruence.
Qed.

Lemma announced_subject m i :
  unmarshal_intent (Data m) = Some i ->
  varchar 100 ("intents.submitted." +:+ IntentType_String (Intent.Type_ i))%string = Ok (Subject m) ->
  on_subject "intents.submitted." m.
Proof.
  intros Hi Hv. apply varchar_no_blank in Hv.
  - unfold on_subject. rewrite Hv, strip_prefix_app. by eexists.
  - unfold no_blank. rewrite string_forall_app. apply andb_true_iff. split; [done|]. apply type_string_no_blank.
Qed.

End live.
