(* ===== verification/LoadTestFacts.v ===== *)
(** * Correctness of the load tester, end to end *)
From S2P Require Import Prelude GoLib Sha256 Effects Sql Proto Float64 Json JsonFacts Http HttpFacts Redis Ledger Wallet.
From S2P Require Import IntentDb System SystemRules IntentStore Crypto IntentHandler Engine Gateway LoadTest.
From S2P Require Import IntentFacts GatewayFacts GatewayTokens GatewayIntents.

(** ** The payload, as the engine reads it *)
(** One member of an object, before a comma or the closing brace. *)
Lemma parse_member f d k v x c t :
  is_ascii k = true -> parse_value f d (v +:+ String c t) = Some (x, String c t) -> is_ws c = false ->
  parse_members (S f) d (marshal_string k +:+ ":" +:+ v +:+ String c t)
  = if byteZ c =? 125 then Some ([(k, x)], t)
    else if byteZ c =? 44 then
      match parse_members f d t with Some (l, r) => Some ((k, x) :: l, r) | None => None end
    else None.
Proof.
  intros Hk Hv Hc. change ":"%string with (String (Zbyte 58) ""). rewrite marshal_string_app. cbn [parse_members skip_ws].
  change (is_ws (Zbyte 34)) with false. cbv iota. cbn [head_is].
  change (byteZ (Zbyte 34) =? 34) with true. cbv iota. cbn [mbind option_bind].
  rewrite parse_marshal_string by done. cbn [String.append skip_ws].
  change (is_ws (Zbyte 58)) with false. cbv iota. cbn [head_is].
  change (byteZ (Zbyte 58) =? 58) with true. cbv iota. cbn [mbind option_bind].
  rewrite Hv. cbn [skip_ws]. by rewrite Hc.
Qed.

(** A number that scans is a value. *)
Lemma parse_number f d s lit rest :
  scan_number s = Some (lit, rest) -> parse_value (S f) d s = Some (JNum lit, rest).
Proof.
  intros Hs. destruct s as [|c s]; [done|].
  assert (Hc : is_digit c = true \/ byteZ c = 45).
  { unfold scan_number, scan_sign in Hs. cbn [head_is] in Hs. destruct (Z.eqb_spec (byteZ c) 45); [by right|left].
    unfold scan_int in Hs. cbn [head_is] in Hs. destruct (Z.eqb_spec (byteZ c) 48) as [E|E].
    - unfold is_digit. by rewrite E.
    - unfold digits1 in Hs. cbn [span_digits] in Hs. by destruct (is_digit c). }
  assert (Hb : 48 <= byteZ c <= 57 \/ byteZ c = 45).
  { destruct Hc as [Hc|Hc]; [left; unfold is_digit in Hc; lia|by right]. }
  cbn [parse_value skip_ws].
  assert (Hw : is_ws c = false) by (unfold is_ws; lia). rewrite Hw.
  repeat (rewrite (proj2 (Z.eqb_neq (byteZ c) _)) by lia). cbv zeta iota. by rewrite Hs.
Qed.
Lemma parse_quoted f d s rest :
  is_ascii s = true -> parse_value (S f) d (marshal_string s +:+ rest) = Some (JStr s, rest).
Proof.
  intros Hs. rewrite marshal_string_app. cbn [parse_value skip_ws].
  change (is_ws (Zbyte 34)) with false. cbv iota zeta.
  change (byteZ (Zbyte 34) =? 34) with true. cbv iota. by rewrite parse_marshal_string.
Qed.

Lemma parse_braced f d t l r :
  d < max_depth -> (exists t', t = String (Zbyte 34) t') -> parse_members f (d + 1) t = Some (l, r) ->
  parse_value (S f) d (String (Zbyte 123) t) = Some (JObj l, r).
Proof.
  intros Hd [t' Ht] Hl. cbn [parse_value skip_ws]. change (is_ws (Zbyte 123)) with false. cbv iota zeta.
  change (byteZ (Zbyte 123) =? 34) with false. change (byteZ (Zbyte 123) =? 123) with true. cbv iota.
  rewrite (proj2 (Z.leb_gt _ _) Hd). rewrite Ht in Hl |- *. cbn [skip_ws].
  change (is_ws (Zbyte 34)) with false. cbv iota.
  change (head_is 125 (String (Zbyte 34) t')) with (@None string). cbv iota. by rewrite Hl.
Qed.

Section facts.
Context `{Postgres} `{NumericCodec} `{ProtoCodec} `{TimeText} `{Ed25519} `{Redis} `{FloatText}.

Lemma payload_parses x s :
  is_ascii (IntentPayload.From x) = true -> is_ascii (IntentPayload.To x) = true ->
  IntentPayload.marshal x = Some s ->
  exists lit, num_float lit = Some (IntentPayload.Amount x) /\
    parse_json s = Some (JObj [("from", JStr (IntentPayload.From x)); ("to", JStr (IntentPayload.To x));
                               ("amount", JNum lit)]%string).
Proof.
  intros Hf Ht Hm. unfold IntentPayload.marshal in Hm. apply bind_Some in Hm as (a & Ha & [= <-]).
  destruct (float_text_reads _ _ Ha) as (lit & Hlit & Hscan). exists lit. split; [done|].
  set (members := (marshal_string "from" +:+ ":" +:+ marshal_string (IntentPayload.From x) +:+ "," +:+
        marshal_string "to" +:+ ":" +:+ marshal_string (IntentPayload.To x) +:+ "," +:+
        marshal_string "amount" +:+ ":" +:+ a +:+ "}")%string).
  change (parse_json (String (Zbyte 123) members) = Some (JObj
    [("from"%string, JStr (IntentPayload.From x)); ("to"%string, JStr (IntentPayload.To x)); ("amount"%string, JNum lit)])).
  rewrite (parse_json_fuel _ (S (4 + json_fuel (String (Zbyte 123) members)))) by lia.
  generalize (json_fuel (String (Zbyte 123) members)) as f. intros f.
  rewrite (parse_braced (4 + f) 0 members [("from"%string, JStr (IntentPayload.From x));
    ("to"%string, JStr (IntentPayload.To x)); ("amount"%string, JNum lit)] ""); [done|done|eexists; reflexivity|].
  change (4 + f)%nat with (S (S (S (S f)))).
  change members with (marshal_string "from" +:+ ":" +:+ marshal_string (IntentPayload.From x) +:+ String (Zbyte 44)
    (marshal_string "to" +:+ ":" +:+ marshal_string (IntentPayload.To x) +:+ String (Zbyte 44)
      (marshal_string "amount" +:+ ":" +:+ a +:+ String (Zbyte 125) "")))%string. clear members.
  rewrite (parse_member _ _ "from" _ (JStr (IntentPayload.From x))) by (done || by apply parse_quoted).
  change (byteZ (Zbyte 44) =? 125) with false. change (byteZ (Zbyte 44) =? 44) with true. cbv iota.
  rewrite (parse_member _ _ "to" _ (JStr (IntentPayload.To x))) by (done || by apply parse_quoted).
  change (byteZ (Zbyte 44) =? 125) with false. change (byteZ (Zbyte 44) =? 44) with true. cbv iota.
  rewrite (parse_member _ _ "amount" a (JNum lit)); [done|done| |done].
  by apply parse_number, Hscan.
Qed.

(** The engine decodes the payload to the transfer it was made from. *)
Lemma engine_reads_payload x s :
  is_ascii (IntentPayload.From x) = true -> is_ascii (IntentPayload.To x) = true ->
  IntentPayload.marshal x = Some s ->
  transfer.unmarshal s
  = Some (transfer.mk (IntentPayload.From x) (IntentPayload.To x) (IntentPayload.Amount x)).
Proof.
  intros Hf Ht Hm. destruct (payload_parses x s Hf Ht Hm) as (lit & Hlit & Hp).
  unfold transfer.unmarshal, unmarshal_struct. rewrite Hp. cbn [decode_struct decode_members].
  change (field_of transfer.keys "from") with (Some "from"%string).
  change (field_of transfer.keys "to") with (Some "to"%string).
  change (field_of transfer.keys "amount") with (Some "amount"%string).
  cbn [transfer.set_field transfer.zero]. rewrite bool_decide_eq_true_2 by done. cbn [set_string transfer.set_field].
  rewrite bool_decide_eq_false_2, bool_decide_eq_true_2 by done. cbn [set_string transfer.set_field].
  rewrite !bool_decide_eq_false_2 by done. cbn [set_num]. by rewrite Hlit.
Qed.

(** ** The request, as the gateway reads it *)
Lemma gateway_reads_request q :
  is_ascii (SubmitReq.Type_ q) = true -> is_ascii (SubmitReq.Payload q) = true ->
  is_ascii (SubmitReq.SubmitterID q) = true -> is_ascii (SubmitReq.Signature q) = true ->
  is_ascii (SubmitReq.SubmitterPublicKey q) = true ->
  SubmitIntentHTTPRequest.unmarshal (SubmitReq.marshal q)
  = Some (SubmitIntentHTTPRequest.mk (SubmitReq.Type_ q) (SubmitReq.Payload q) (SubmitReq.SubmitterID q)
            (SubmitReq.Signature q) (SubmitReq.SubmitterPublicKey q) None).
Proof.
  destruct q as [ty p s sg k]. cbn [SubmitReq.Type_ SubmitReq.Payload SubmitReq.SubmitterID SubmitReq.Signature
    SubmitReq.SubmitterPublicKey]. intros Hty Hp Hs Hsg Hk.
  unfold SubmitIntentHTTPRequest.unmarshal, unmarshal_struct, SubmitReq.marshal. rewrite parse_print_object.
  - cbn [SubmitReq.members map scalar_json fst snd SubmitReq.Type_ SubmitReq.Payload SubmitReq.SubmitterID
      SubmitReq.Signature SubmitReq.SubmitterPublicKey decode_struct].
    assert (Hset : forall key v b l, In key SubmitIntentHTTPRequest.keys ->
      decode_members SubmitIntentHTTPRequest.keys SubmitIntentHTTPRequest.set_field ((key, v) :: l) b
      = match SubmitIntentHTTPRequest.set_field key v b with
        | Some b' => decode_members SubmitIntentHTTPRequest.keys SubmitIntentHTTPRequest.set_field l b'
        | None => None
        end).
    { intros key v b l Hkey. cbn [decode_members].
      by repeat (destruct Hkey as [<-|Hkey]; [reflexivity|]). }
    rewrite !Hset by (cbn; tauto). reflexivity.
  - cbn [SubmitReq.members members_ok forallb scalar_ok fst snd SubmitReq.Type_ SubmitReq.Payload
      SubmitReq.SubmitterID SubmitReq.Signature SubmitReq.SubmitterPublicKey].
    by rewrite Hty, Hp, Hs, Hsg, Hk.
Qed.

(** ** Runs of the gateway in which nothing fails *)
Lemma succeeds_sys {R} (p : proc sysE R) Q g :
  succeeds sys_exec p (fun r w => Q r (mk_gw w (gw_redis g))) (gw_sys g) -> succeeds gw_exec (sys p) Q g.
Proof. unfold succeeds. unfold run_result at 2, run_state at 2. by rewrite run_sys. Qed.
Lemma succeeds_rpc {A} (serve : proc sysE (result grpc_status A)) Q g :
  succeeds sys_exec serve (fun r w => Q r (mk_gw w (gw_redis g))) (gw_sys g) -> succeeds gw_exec (rpc serve) Q g.
Proof. unfold succeeds. unfold run_result at 2, run_state at 2. by rewrite run_rpc. Qed.

(** Create succeeds when the database can take both rows. *)
Lemma create_succeeds id ob req w d' :
  created (w_now w) id ob req (w_db w) d' ->
  succeeds sys_exec (PostgresStore.Create id ob req)
    (fun r w' => r = Ok (PostgresStore.intent_of_request (w_now w) id req) /\ w' = set_db d' w) w.
Proof.
  intros (u & v & row & ev & tp & pay & Hu & Hv & Hrow & Hm & Htp & Hpay & Hi & Ho & ->).
  assert (Hs1 : exec_stmts (w_now w) [InsertIntent id (PostgresStore.row_of_request (w_now w) req)] (w_db w)
          = Ok (mk_intent_db (<[u := row]> (intents (w_db w))) (outbox_events (w_db w)))).
  { cbn [exec_stmts exec_stmt]. unfold uuid_arg. rewrite Hu. cbn [mbind result_bind]. rewrite Hrow.
    cbn [mbind result_bind]. by rewrite Hi. }
  assert (Hs2 : exec_stmts (w_now w) [InsertIntent id (PostgresStore.row_of_request (w_now w) req);
      InsertOutbox ob ("intents.submitted." +:+ IntentType_String (SubmitIntentRequest.Type_ req)) ev (w_now w)] (w_db w)
      = Ok (mk_intent_db (<[u := row]> (intents (w_db w)))
              (<[v := mk_outbox_row tp pay "PENDING" 0 (ts_in (w_now w)) (ts_in (w_now w))]> (outbox_events (w_db w))))).
  { cbn [exec_stmts exec_stmt]. unfold uuid_arg. rewrite Hu. cbn [mbind result_bind]. rewrite Hrow.
    cbn [mbind result_bind]. rewrite Hi, Hv. cbn [mbind result_bind].
    rewrite Htp. cbn [mbind result_bind]. rewrite Hpay. cbn [mbind result_bind outbox_events]. by rewrite Ho. }
  apply succeeds_vis. cbn [sys_exec fst snd]. cbv zeta. apply succeeds_vis. cbn [sys_exec read fst snd].
  unfold defer_tx_rollback. apply succeeds_bind. apply succeeds_vis. cbn [sys_exec read fst snd tx_stmts app].
  rewrite Hs1, Hm. cbn iota zeta. apply succeeds_vis. cbn [sys_exec read fst snd tx_stmts app]. rewrite Hs2.
  apply succeeds_vis. cbn [sys_exec fst snd tx_stmts]. rewrite Hs2. cbn iota. cbn [fst snd].
  unfold succeeds, run_result, run_state. cbn. rewrite !release_nil. done.
Qed.

Context (gw : Gateway) (lib : libraries).

(** ** The middleware lets an authorized submission through *)
Lemma succeeds_logging next r w Q g :
  succeeds gw_exec (next r (mk_delegator w StatusOK))
    (fun d g' => exists d0, d = Some d0 /\ forall ms, Q (Some (inner d0)) (with_metrics ms g')) g ->
  succeeds gw_exec (loggingMiddleware next r w) Q g.
Proof.
  intros Hn. unfold loggingMiddleware. apply succeeds_vis. cbn [gw_exec sys_exec fst snd].
  assert (Hg : mk_gw (gw_sys g) (gw_redis g) = g) by (by destruct g). rewrite Hg. apply succeeds_bind.
  unfold succeeds at 1 in Hn. unfold succeeds at 1. destruct Hn as (d & -> & Hd). revert Hd.
  generalize (run_state gw_exec (next r (mk_delegator w StatusOK)) [] g) as g'. intros g' Hd.
  apply succeeds_vis. cbn [gw_exec sys_exec fst snd].
  destruct (negb _ && negb _).
  - do 2 apply succeeds_vis. apply (Hd [_; _]).
  - specialize (Hd []). by destruct g' as [[] ?].
Qed.

Lemma succeeds_auth next r w Q g :
  auth_exempt (Path r) = false -> authorized gw lib (w_now (gw_sys g)) r = true ->
  (forall v, succeeds gw_exec (next (with_value "user" v r) w) Q g) ->
  succeeds gw_exec (authMiddleware gw lib next r w) Q g.
Proof.
  intros Hex Ha Hn. unfold authMiddleware. rewrite Hex. unfold authorized in Ha.
  set (h := header_get r "Authorization") in *.
  destruct (bool_decide (h = "")); [done|]. destruct (has_prefix h "Bearer "); [|done].
  cbn [negb orb andb] in *. apply succeeds_bind. unfold validateJWT.
  destruct (token_claims gw lib (trim_prefix h "Bearer ")) as [c|e]; [|done].
  apply succeeds_vis. cbn [gw_exec sys_exec fst snd].
  assert (Hg : mk_gw (gw_sys g) (gw_redis g) = g) by (by destruct g). rewrite Hg.
  rewrite Z.leb_antisym in Ha. apply negb_true_iff in Ha. rewrite Ha. unfold succeeds at 1. apply Hn.
Qed.

(** The limiter is switched off, or the minute has room. *)
Definition limiter_open (r : Request) (g : gw_world) : Prop :=
  let now := w_now (gw_sys g) in
  getenv gw "DISABLE_RATE_LIMITER" = "true"%string \/
  key_at now (rate_key (client_ip r) now) (gw_redis g) = None \/
  exists n d, key_at now (rate_key (client_ip r) now) (gw_redis g) = Some (itoa n, d) /\ 0 <= n < 10.

Lemma limiter_count r g :
  let now := w_now (gw_sys g) in let k := rate_key (client_ip r) now in
  (key_at now k (gw_redis g) = None \/
   exists n d, key_at now k (gw_redis g) = Some (itoa n, d) /\ 0 <= n < 10) ->
  exists n, (redis_INCR now k (gw_redis g)).1 = Ok n /\ 1 <= n <= 10.
Proof.
  cbv zeta. intros [Hk|(n & d & Hk & Hn)].
  - destruct (INCR_missing _ _ _ Hk) as [-> _]. exists 1. split; [done|lia].
  - destruct (INCR_number _ _ _ _ _ Hk) as [-> _]; [lia|]. exists (n + 1). split; [done|lia].
Qed.

Lemma succeeds_limiter next r w Q g :
  limiter_open r g -> fresh w ->
  (forall g' w', gw_sys g' = gw_sys g -> fresh w' ->
     (forall k, strip_prefix "rate:" k = None ->
        key_at (w_now (gw_sys g)) k (gw_redis g') = key_at (w_now (gw_sys g)) k (gw_redis g)) ->
     succeeds gw_exec (next r w') Q g') ->
  succeeds gw_exec (rateLimitMiddleware gw next r w) Q g.
Proof.
  intros Hopen Hw Hn. unfold rateLimitMiddleware. case_bool_decide as Hoff; [by apply Hn|].
  destruct Hopen as [Hon|Hopen]; [done|]. case_match; [|by apply Hn].
  apply succeeds_vis. cbn [gw_exec sys_exec fst snd]. cbv zeta. apply succeeds_vis.
  destruct (limiter_count r g Hopen) as (n & Hincr & Hrange). cbn [gw_exec gw_sys gw_redis].
  set (now := w_now (gw_sys g)) in *. set (rk := rate_key (client_ip r) now) in *.
  pose proof (fun k => INCR_other now k rk (gw_redis g)) as Hother.
  destruct (redis_INCR now rk (gw_redis g)) as [res s]. cbn [fst snd] in *. subst res.
  assert (Hne : forall k, strip_prefix "rate:" k = None -> k <> rk).
  { intros k Hk ->. unfold rk, rate_key in Hk. by rewrite strip_prefix_app in Hk. }
  assert (Hcount : forall s', (forall k, strip_prefix "rate:" k = None -> key_at now k s' = key_at now k (gw_redis g)) ->
    succeeds gw_exec (limit_count next n r w) Q (mk_gw (gw_sys g) s')).
  { intros s' Hs'. unfold limit_count. cbv zeta. rewrite (proj2 (Z.ltb_ge 10 n)) by lia.
    apply Hn; [done| |done]. unfold fresh, rate_headers in *. by destruct w as [[c h b] st]; cbn in *; subst c. }
  unfold limit_result. case_match.
  - apply succeeds_vis. cbn [gw_exec fst snd gw_sys gw_redis]. apply Hcount. intros k Hk.
    rewrite EXPIRE_at by done. rewrite decide_False by by apply Hne. by apply Hother, Hne.
  - apply Hcount. intros k Hk. by apply Hother, Hne.
Qed.

(** ** A submission that the gateway and the service accept *)
Lemma succeeds_submitIntent ids r w g q d' Q :
  fresh w -> BodyErr r = None -> SubmitIntentHTTPRequest.unmarshal (Body r) = Some q ->
  SubmitIntentHTTPRequest.Signature q <> ""%string ->
  HTTPIntentType.parseIntentType (SubmitIntentHTTPRequest.Type_ q) <> INTENT_TYPE_UNSPECIFIED ->
  let req := translate (HTTPIntentType.parseIntentType (SubmitIntentHTTPRequest.Type_ q)) q in
  let now := w_now (gw_sys g) in
  key_at now (idempotency_key (SubmitIntentHTTPRequest.Signature q)) (gw_redis g) = None ->
  authentic req -> created now ids.1 ids.2 req (w_db (gw_sys g)) d' ->
  (forall d g', code_of d = Some StatusCreated -> w_db (gw_sys g') = d' -> Q (Some d) g') ->
  succeeds gw_exec (submitIntent lib ids r w) Q g.
Proof.
  intros Hw Hb Hq Hsg Hty req now Hcache Hauth Hcr HQ. unfold submitIntent. rewrite Hb, Hq. cbv zeta.
  rewrite (proj2 (Z.eqb_neq _ _) Hty), bool_decide_eq_false_2 by done. apply succeeds_vis.
  cbn [gw_exec fst snd]. fold now. rewrite Hcache. cbn [fmap option_fmap option_map].
  unfold forward_intent. apply succeeds_bind. apply succeeds_rpc. unfold metricsInterceptor.
  apply succeeds_vis. cbn [sys_exec fst snd]. apply succeeds_bind.
  fold req. destruct (submit_cases (E:=sysE) ids.1 ids.2 req) as [[_ ->]|(Hn & _)]; [|done].
  apply succeeds_bind. pose proof (create_succeeds ids.1 ids.2 req (gw_sys g) d' Hcr) as [Hres Hst].
  unfold succeeds at 1. change (store_Create ids.1 ids.2 req) with (PostgresStore.Create ids.1 ids.2 req).
  rewrite Hres, Hst. unfold succeeds at 1. cbn [run_result run_state run fst snd].
  apply succeeds_vis. cbn [sys_exec fst snd]. unfold metric. apply succeeds_vis. apply succeeds_vis.
  cbn [sys_exec fst snd]. unfold succeeds at 1. cbn [run_result run_state run fst snd]. cbv zeta.
  rewrite submit_response_text, bool_decide_eq_false_2 by done. apply succeeds_vis.
  unfold succeeds, respond. cbn [run_result run_state run fst snd gw_exec]. apply HQ; [|done].
  apply writeJSON_code. unfold fresh in *. by destruct w as [[c h b] st]; cbn in *; subst c.
Qed.

(** ** What the load tester builds *)
Lemma payload_ascii tx s :
  is_ascii (IntentPayload.From tx) = true -> is_ascii (IntentPayload.To tx) = true ->
  IntentPayload.marshal tx = Some s -> is_ascii s = true.
Proof.
  intros Hf Ht Hm. unfold IntentPayload.marshal in Hm. apply bind_Some in Hm as (a & Ha & Hs).
  apply float_text_ascii in Ha. apply (f_equal (default ""%string)) in Hs. cbn [default from_option id] in Hs.
  rewrite <-Hs. auto 20 with ascii.
Qed.

Definition grpc_request (q : SubmitReq.t) : SubmitIntentRequest.t :=
  SubmitIntentRequest.mk INTENT_TYPE_TRANSFER (SubmitReq.Payload q) None (SubmitReq.SubmitterID q)
    (SubmitReq.Signature q) (SubmitReq.SubmitterPublicKey q).

Lemma build_signed seed pub priv tx payload :
  GenerateKeyPair (Ok seed) = Ok (pub, priv) -> IntentPayload.marshal tx = Some payload ->
  exists sg, build pub priv tx = Ok (SubmitReq.mk "TRANSFER" payload (IntentPayload.From tx) sg pub) /\
    is_ascii sg = true /\ is_ascii pub = true /\ sg <> ""%string /\
    Verify (GetSignBytes "INTENT_TYPE_TRANSFER" (IntentPayload.From tx) payload) sg pub = Ok true.
Proof.
  intros Hk Hm. set (bytes := GetSignBytes "INTENT_TYPE_TRANSFER" (IntentPayload.From tx) payload).
  destruct (sign_verify seed bytes) as (pub' & priv' & sg & Hk' & Hs & Hv).
  rewrite Hk in Hk'. injection Hk' as <- <-. exists sg. unfold build. rewrite Hm. cbn [default from_option id].
  fold bytes. rewrite Hs. split; [done|].
  assert (Hsg : exists b, sg = hex_encode (ed_sign b bytes)).
  { unfold Sign in Hs. apply result_bind_Ok in Hs as (b & _ & [= <-]). by exists b. }
  destruct Hsg as [b ->]. split; [auto with ascii|]. split; [|split; [|done]].
  - unfold GenerateKeyPair in Hk. destruct (ed_keygen seed) as [p s]. injection Hk as <- _. auto with ascii.
  - intros Hnil. apply (f_equal String.length) in Hnil. rewrite hex_encode_length, ed_sign_length in Hnil. done.
Qed.

(** C14: the load tester's transfers reach the engine as they stand in the CSV
    file.  For every transfer between ASCII account names (the sender's not empty)
    with an encodable amount, under a generated key and a token of the gateway
    that has not expired, the worker builds a request.  If nothing fails while it
    is served, the limiter has room for its client (at most nine submissions in
    this minute), its signature has no entry in the cache (the same row was not
    accepted within the last day: that would be answered 200) and the database
    takes the two rows, it is answered 201, and the payload of the PENDING intent
    it leaves is decoded by the engine to exactly the sender, the receiver and the
    amount that were read. *)
Theorem load_test_reaches_engine seed pub priv tx payload addr tok c metrics ids g d' :
  GenerateKeyPair (Ok seed) = Ok (pub, priv) ->
  is_ascii (IntentPayload.From tx) = true -> is_ascii (IntentPayload.To tx) = true ->
  IntentPayload.From tx <> ""%string -> IntentPayload.marshal tx = Some payload ->
  token_claims gw lib tok = Ok c -> unix (w_now (gw_sys g)) <= JWTClaims.Exp c ->
  exists q, build pub priv tx = Ok q /\
    let r := submission_request addr tok q in
    (limiter_open r g -> key_at (w_now (gw_sys g)) (idempotency_key (SubmitReq.Signature q)) (gw_redis g) = None ->
     created (w_now (gw_sys g)) ids.1 ids.2 (grpc_request q) (w_db (gw_sys g)) d' ->
     succeeds gw_exec (serve_http gw lib metrics ids r new_response) (fun answer g' =>
       exists w u row, answer = Some w /\ rw_status w = StatusCreated /\ uuid_in ids.1 = Some u /\
         intents (w_db (gw_sys g')) !! u = Some row /\ ir_status row = "INTENT_STATUS_PENDING"%string /\
         transfer.unmarshal (ir_payload row)
         = Some (transfer.mk (IntentPayload.From tx) (IntentPayload.To tx) (IntentPayload.Amount tx))) g).
Proof.
  intros Hk Hf Ht Hne Hm Htok Hexp. destruct (build_signed seed pub priv tx payload Hk Hm) as (sg & Hb & Hsa & Hpa & Hsne & Hv).
  eexists. split; [exact Hb|]. set (q := SubmitReq.mk _ _ _ _ _). intros r Hopen Hcache Hcr.
  set (http := SubmitIntentHTTPRequest.mk "TRANSFER" payload (IntentPayload.From tx) sg pub None).
  assert (Hread : SubmitIntentHTTPRequest.unmarshal (Body r) = Some http).
  { apply gateway_reads_request; try done. by eapply payload_ascii. }
  apply succeeds_logging. apply succeeds_auth; [done| |].
  { rewrite (bearer_authorized gw lib tok r _ c); [by apply Z.leb_le|reflexivity|done]. }
  intros v. apply succeeds_limiter; [done|done|]. intros g' w' Hg' Hw' Hkeys.
  rewrite mux_intents by done.
  eapply (succeeds_submitIntent ids _ _ _ http d'); rewrite ?Hg'; try done.
  - by rewrite Hkeys.
  - intros d g2 Hd Hdb. exists d. split; [done|]. intros ms.
    destruct Hcr as (u & v' & row & ev & tp & pay & Hu & _ & Hrow & _ & _ & _ & _ & _ & Hd').
    exists (inner d), u, row. split; [done|]. split; [unfold rw_status, code_of in *; by rewrite Hd|].
    split; [done|]. split; [cbn; rewrite Hdb, Hd'; cbn; by rewrite lookup_insert_eq|].
    destruct (row_in_kept _ _ Hrow) as (Hp & _ & Hst). split.
    + symmetry. apply varchar_fits in Hst; [done|cbn; lia].
    + rewrite Hp. cbn. by apply engine_reads_payload.
Qed.
End facts.
