(* ===== verification/LoadMain.v ===== *)
(** * The main function of the load tester: scripts/load_test_csv.go

    Preparation (login, reading, cleaning, seeding, keys) is one program that
    ends the process on the first error; the workers are a pool over the closed
    channel of all transfers, and the counters what their jobs came to.  Flags
    are arguments, console output is left out. *)
From S2P Require Import Prelude GoLib Effects WorkerPool Sql Proto Float64 Json Http Redis Ledger Wallet.
From S2P Require Import IntentDb System IntentStore Crypto IntentHandler Gateway LoadTest.

(** The process talks to the gateway and, on a connection of its own, to the
    database; it reads a file and the random source. *)
Inductive loadE : Type -> Type :=
| Http (X : Type) (e : gwE X) : loadE X
| Seed (X : Type) (e : seedE X) : loadE X
| OpenCsv (path : string) : loadE (result string (list (result string (list string))))
| TruncateIntents : loadE (result sqlerr unit)
| TruncateAccounts : loadE (result sqlerr unit)
| RandomSeed : loadE (result string string).
Arguments Http {_} _.
Arguments Seed {_} _.

(** [ld_tx]: the open transaction of the seeding connection.  [ld_csv], [ld_seed]:
    what the file and the random source hold. *)
Record load_world `{Redis} := mk_load {
  ld_gw : gw_world;
  ld_tx : option wallet_db;
  ld_csv : string -> option (list (result string (list string)));
  ld_seed : string;
}.
Arguments mk_load {_} _ _ _ _.

Section exec.
Context `{Postgres} `{NumericCodec} `{Redis}.

Definition on_gw (f : gw_world -> gw_world) (w : load_world) : load_world :=
  mk_load (f (ld_gw w)) (ld_tx w) (ld_csv w) (ld_seed w).
Definition on_sys (f : world -> world) (w : load_world) : load_world :=
  on_gw (fun g => mk_gw (f (gw_sys g)) (gw_redis g)) w.

(** TRUNCATE TABLE intents, outbox_events, wallet_transactions CASCADE *)
Definition truncate_intents (w : world) : world :=
  set_db empty_db (set_wallet (mk_wallet_db (wallet_accounts (w_wallet w)) []) w).
(** TRUNCATE TABLE wallet_accounts CASCADE: no table has a foreign key to it. *)
Definition truncate_accounts (w : world) : world :=
  set_wallet (mk_wallet_db ∅ (wallet_transactions (w_wallet w))) w.

(** A statement outside any transaction that cannot be refused. *)
Definition plain (o : outcome) (f : world -> world) (w : load_world) : result sqlerr unit * load_world :=
  match o with
  | Done => (Ok tt, on_sys f w)
  | AckLost e => (Err (SqlError e), on_sys f w)
  | Lost e | Torn _ e => (Err (SqlError e), w)
  end.

Definition load_exec X (e : loadE X) (o : outcome) (w : load_world) : X * load_world :=
  match e in loadE X return X * load_world with
  | Http e => let '(x, g) := gw_exec _ e o (ld_gw w) in (x, on_gw (fun _ => g) w)
  | Seed e =>
      let sys := gw_sys (ld_gw w) in
      let '(x, s) := seed_exec (w_now sys) _ e o (mk_session (w_wallet sys) (ld_tx w)) in
      (x, mk_load (mk_gw (set_wallet (committed s) sys) (gw_redis (ld_gw w))) (open_tx s) (ld_csv w) (ld_seed w))
  | OpenCsv path =>
      (match o, ld_csv w path with
       | Done, Some reads => Ok reads
       | Done, None => Err "no such file or directory"%string
       | Lost e, _ | AckLost e, _ | Torn _ e, _ => Err e
       end, w)
  | TruncateIntents => plain o truncate_intents w
  | TruncateAccounts => plain o truncate_accounts w
  | RandomSeed =>
      (match o with Done => Ok (ld_seed w) | Lost e | AckLost e | Torn _ e => Err e end, w)
  end.
End exec.

Section main.
Context `{Postgres} `{ProtoCodec} `{TimeText} `{Ed25519} `{FloatText} `{NumericCodec} `{Redis}.
Context (parse_float : string -> option float64).
(** The server's side of one request; it draws identifiers per request. *)
Context (handle : nat -> Request -> ResponseWriter -> proc gwE (option ResponseWriter)).
(** The order in which a map is ranged over, and the address of the client. *)
Context (order : gset string -> list string) (addr : string).

(** [if err != nil { logFatalf(...) }] *)
Definition or_fatal {E A B} (r : result E A) (k : A -> proc loadE (option B)) : proc loadE (option B) :=
  match r with Ok x => k x | Err _ => Ret None end.
Definition clean_tables (clean : bool) : proc loadE (result sqlerr unit) :=
  if clean then
    let? _ := TruncateIntents else Err in
    let? _ := TruncateAccounts else Err in
    Ret (Ok tt)
  else Ret (Ok tt).

(** Steps 1 to 4: the token, the transfers and the keys; [None] is exit code 1.
    [sql.Open] only checks its constant argument. *)
Definition prepare (csvPath : string) (limit : Z) (clean : bool)
  : proc loadE (option (string * list IntentPayload.t * (string * string))) :=
  login ← proc_map (fun X e => Http e) (loginToGateway (handle 0) addr);
  or_fatal login (fun jwtToken =>
  Vis (OpenCsv csvPath) (fun file =>
  or_fatal (readTransactionsFromCSV parse_float file limit) (fun transactions =>
  cleaned ← clean_tables clean;
  or_fatal cleaned (fun _ =>
  seeded ← proc_map (fun X e => Seed e) (preseedBalances order transactions);
  or_fatal seeded (fun _ =>
  Vis RandomSeed (fun rand =>
  or_fatal (GenerateKeyPair rand) (fun keys =>
  Ret (Some (jwtToken, transactions, keys))))))))).

(** Step 5: the jobs, numbered for the identifiers their requests draw, and the
    goroutines. *)
Definition job : Type := nat * IntentPayload.t.
Definition jobs (transactions : list IntentPayload.t) : list job := imap (fun i tx => (S i, tx)) transactions.
Definition work (jwtToken : string) (keys : string * string) (j : job) : proc gwE bool :=
  run_job (handle j.1) addr jwtToken keys.1 keys.2 j.2.
Definition submission_step (jwtToken : string) (keys : string * string)
  : pool (E:=gwE) (S:=gw_world) (A:=job) (R:=bool) -> pool -> Prop :=
  step gw_exec (work jwtToken keys).
Definition submissions (concurrency : Z) (transactions : list IntentPayload.t) (g : gw_world)
  : pool (E:=gwE) (S:=gw_world) (A:=job) (R:=bool) :=
  start (Z.to_nat concurrency) (jobs transactions) g.

(** The counters. *)
Definition successCount (c : pool (E:=gwE) (S:=gw_world) (A:=job) (R:=bool)) : Z :=
  Z.of_nat (length (filter (fun jr : job * bool => jr.2 = true) (served c))).
Definition failCount (c : pool (E:=gwE) (S:=gw_world) (A:=job) (R:=bool)) : Z :=
  Z.of_nat (length (filter (fun jr : job * bool => jr.2 = false) (served c))).
End main.
