(* ===== verification/LoadMainFacts.v ===== *)
(** * What the load tester reads, seeds and submits *)
From S2P Require Import Prelude GoLib Effects WorkerPool Sql Proto Float64 Float64Facts Json Http Redis Ledger Wallet.
From S2P Require Import IntentDb System IntentStore Crypto IntentHandler Gateway LoadTest LoadMain.

(** ** The CSV file *)
Section csv.
Context (parse_float : string -> option float64).
Abbreviation reads := (list (result string (list string))).

(** What a row says, once the columns are known; [None] for what is skipped. *)
Definition transfer_of (typeIdx amountIdx fromIdx toIdx : nat) (row : list string) : option IntentPayload.t :=
  ty ← row !! typeIdx;
  if negb (bool_decide (ty = "TRANSFER"%string)) then None else
  text ← row !! amountIdx;
  amount ← parse_float text;
  from ← row !! fromIdx;
  to ← row !! toIdx;
  Some (IntentPayload.mk from to amount).

(** As csv.Reader hands them out: every record has as many fields as the first. *)
Definition rectangular (n : nat) (rows : list (list string)) : Prop := Forall (fun row => length row = n) rows.

Lemma header_map_fold headers k (m : gmap string nat) name i :
  fold_left (fun m ih => <[ih.2 := ih.1]> m) (imap (fun j h => (k + j, h)%nat) headers) m !! name = Some i ->
  (exists j, i = (k + j)%nat /\ headers !! j = Some name) \/ m !! name = Some i.
Proof.
  revert k m; induction headers as [|h headers IH]; intros k m; cbn; [by right|].
  rewrite (imap_ext _ (fun j x => (S k + j, x)%nat)) by (intros; cbn; f_equal; lia).
  intros [(j & -> & Hj)|Hm]%IH.
  - left. exists (S j). split; [lia|exact Hj].
  - rewrite Nat.add_0_r in Hm. apply lookup_insert_Some in Hm as [[<- <-]|[_ Hm]]; [|by right].
    left. exists 0%nat. split; [lia|done].
Qed.

Lemma header_map_lt headers name i : header_map headers !! name = Some i -> headers !! i = Some name.
Proof.
  intros Hm. unfold header_map in Hm.
  destruct (header_map_fold headers 0 ∅ name i) as [(j & -> & Hj)|Hm'].
  - rewrite <-Hm. f_equal.
  - exact Hj.
  - by rewrite lookup_empty in Hm'.
Qed.

Lemma read_rows_spec ti ai fi di limit n rows tail acc :
  (ti < n)%nat -> (ai < n)%nat -> (fi < n)%nat -> (di < n)%nat -> rectangular n rows ->
  Z.of_nat (length acc) < Z.max 1 limit ->
  let found := acc ++ omap (transfer_of ti ai fi di) rows in
  read_rows parse_float ti ai fi di limit (map Ok rows ++ tail) acc
  = if Z.max 1 limit <=? Z.of_nat (length found) then Ok (take (Z.to_nat (Z.max 1 limit)) found)
    else read_rows parse_float ti ai fi di limit tail found.
Proof.
  intros Ht Ha Hf Hd Hrows. revert acc. induction Hrows as [|row rows Hrow _ IH]; intros acc Hacc found; subst found.
  { cbn. rewrite app_nil_r. by rewrite (proj2 (Z.leb_gt _ _) Hacc). }
  destruct (lookup_lt_is_Some_2 row ti) as [ty Hty]; [lia|].
  destruct (lookup_lt_is_Some_2 row ai) as [text Htext]; [lia|].
  destruct (lookup_lt_is_Some_2 row fi) as [from Hfrom]; [lia|].
  destruct (lookup_lt_is_Some_2 row di) as [to Hto]; [lia|].
  assert (Htr : transfer_of ti ai fi di row
    = if negb (bool_decide (ty = "TRANSFER"%string)) then None else
      match parse_float text with Some amount => Some (IntentPayload.mk from to amount) | None => None end).
  { unfold transfer_of. rewrite Hty. cbn [mbind option_bind]. destruct (negb _); [done|].
    rewrite Htext. cbn [mbind option_bind]. destruct (parse_float text); [|done]. cbn [mbind option_bind].
    rewrite Hfrom. cbn [mbind option_bind]. by rewrite Hto. }
  cbn [map app read_rows omap list_omap]. rewrite Htr, Hty, Htext, Hfrom, Hto.
  destruct (negb _); [by apply IH|]. destruct (parse_float text) as [amount|]; [|by apply IH].
  set (tx := IntentPayload.mk from to amount).
  rewrite (cons_middle tx acc (omap _ rows)), app_assoc.
  set (acc' := acc ++ [tx]). assert (Hlen : length acc' = S (length acc)) by (unfold acc'; rewrite length_app; cbn; lia).
  destruct (Z.leb_spec limit (Z.of_nat (length acc'))).
  - rewrite (proj2 (Z.leb_le _ _)) by (rewrite length_app; lia).
    replace (Z.to_nat (Z.max 1 limit)) with (length acc') by lia. by rewrite take_app_length.
  - apply IH. lia.
Qed.

(** C37: the CSV reader against its reference.  Over a file whose records all
    have as many fields as its header, and whose header names the four columns,
    the transfers read are the first [limit] rows that are of type TRANSFER and
    have a readable amount, in the order of the file; a limit below one is taken
    as one.  An error of the reader counts only if it comes before enough rows
    have been found, and then nothing is returned. *)
Theorem csv_reads_transfers headers rows tail limit ti ai fi di :
  header_map headers !! "type"%string = Some ti -> header_map headers !! "amount"%string = Some ai ->
  header_map headers !! "nameOrig"%string = Some fi -> header_map headers !! "nameDest"%string = Some di ->
  rectangular (length headers) rows -> (tail = [] \/ exists e rest, tail = Err e :: rest) ->
  let found := omap (transfer_of ti ai fi di) rows in
  let wanted := Z.to_nat (Z.max 1 limit) in
  readTransactionsFromCSV parse_float (Ok (Ok headers :: map Ok rows ++ tail)) limit
  = match tail with
    | Err e :: _ => if (wanted <=? length found)%nat then Ok (take wanted found) else Err e
    | _ => Ok (take wanted found)
    end.
Proof.
  intros Ht Ha Hf Hd Hrows Htail found wanted. cbn [readTransactionsFromCSV]. rewrite Ht, Ha, Hf, Hd.
  apply header_map_lt, lookup_lt_Some in Ht, Ha, Hf, Hd.
  rewrite (read_rows_spec _ _ _ _ _ (length headers)) by (done || cbn; lia). cbn [app]. fold found wanted.
  assert (Hcmp : (Z.max 1 limit <=? Z.of_nat (length found)) = (wanted <=? length found)%nat).
  { unfold wanted. destruct (Nat.leb_spec (Z.to_nat (Z.max 1 limit)) (length found)); lia. }
  rewrite Hcmp. destruct Htail as [->|(e & rest & ->)]; cbn.
  - destruct (Nat.leb_spec wanted (length found)); [done|]. by rewrite take_ge by lia.
  - by destruct (wanted <=? length found)%nat.
Qed.
End csv.

(** A column too many, a payment, an unreadable amount, and a broken record after
    the second transfer. *)
Definition csv_headers : list string := ["step"; "type"; "amount"; "nameOrig"; "nameDest"].
Definition csv_rows : list (list string) :=
  [["1"; "PAYMENT"; "1"; "a"; "b"]; ["1"; "TRANSFER"; "x"; "a"; "b"];
   ["1"; "TRANSFER"; "1"; "c"; "d"]; ["2"; "TRANSFER"; "1"; "e"; "f"]].
Definition reads_one (s : string) : option float64 := if bool_decide (s = "1"%string) then Some (f_of_Z 1) else None.
Lemma csv_reads_transfers_witness :
  let file := Ok (Ok csv_headers :: map Ok csv_rows ++ [Err "bare quote"%string]) in
  let c := IntentPayload.mk "c" "d" (f_of_Z 1) in
  let e := IntentPayload.mk "e" "f" (f_of_Z 1) in
  readTransactionsFromCSV reads_one file 2 = Ok [c; e] /\
  readTransactionsFromCSV reads_one file 3 = Err "bare quote"%string /\
  readTransactionsFromCSV reads_one file 0 = Ok [c].
Proof.
  intros file c e. unfold file.
  assert (Hrows : rectangular (length csv_headers) csv_rows) by (repeat constructor).
  split_and!; (etransitivity; [apply (csv_reads_transfers reads_one csv_headers csv_rows _ _ 1 2 3 4);
    [reflexivity..|exact Hrows|right; eauto]|reflexivity]).
Defined.

(** ** Seeding *)
Section seeding.
Context `{NumericCodec} (now : Z).

(** What seeding the accounts [ids] comes to: all the names must fit their
    column; the accounts there are stay, the others get the seed balance. *)
Definition new_account : account := mk_account (Num (10 ^ 9 * units_per_one)) now now.
Definition stored_names (ids : list string) : gset string := list_to_set (omap (varchar_in 100) ids).
Definition seed_spec (ids : list string) (d : wallet_db) : option wallet_db :=
  if bool_decide (Forall (fun id => is_Some (varchar_in 100 id)) ids) then
    Some (mk_wallet_db (wallet_accounts d ∪ gset_to_gmap new_account (stored_names ids)) (wallet_transactions d))
  else None.
Definition names (transactions : list IntentPayload.t) : list string :=
  flat_map (fun t => [IntentPayload.From t; IntentPayload.To t]) transactions.

Lemma elem_unique_accounts transactions x : x ∈ unique_accounts transactions <-> x ∈ names transactions.
Proof.
  assert (Hgen : forall acc : gset string, x ∈ fold_left (fun acc t => {[IntentPayload.To t]} ∪ ({[IntentPayload.From t]} ∪ acc)) transactions acc
    <-> x ∈ acc \/ x ∈ names transactions).
  { induction transactions as [|t transactions IH]; intros acc; cbn.
    - set_solver.
    - rewrite IH. set_solver. }
  unfold unique_accounts. rewrite Hgen. set_solver.
Qed.

(** The order and the multiplicity of the names do not matter. *)
Lemma seed_spec_set ids ids' d : (forall x, x ∈ ids <-> x ∈ ids') -> seed_spec ids d = seed_spec ids' d.
Proof.
  intros Hx. unfold seed_spec, stored_names.
  rewrite (bool_decide_ext _ (Forall (fun id => is_Some (varchar_in 100 id)) ids')).
  2:{ rewrite !Forall_forall. split; intros Hf y Hy; apply Hf, Hx, Hy. }
  case_bool_decide; [|done]. do 4 f_equal. apply set_eq. intros y.
  rewrite !elem_of_list_to_set, !list_elem_of_omap. split; intros (z & Hz & Hv); exists z; (split; [by apply Hx|done]).
Qed.

Lemma seed_spec_nil d : seed_spec [] d = Some d.
Proof.
  unfold seed_spec, stored_names. rewrite bool_decide_eq_true_2 by constructor. cbn.
  rewrite gset_to_gmap_empty, map_union_empty. by destruct d.
Qed.

Lemma seed_spec_cons id ids d :
  seed_spec (id :: ids) d = match sql_seed_account now id seed_amount d with Ok (_, d') => seed_spec ids d' | Err _ => None end.
Proof.
  unfold sql_seed_account, seed_amount, seed_spec, stored_names.
  destruct (varchar 100 id) as [id'|e] eqn:Hv.
  2:{ rewrite bool_decide_eq_false_2; [done|]. intros Hf. apply Forall_cons in Hf as [[id' Hs%varchar_Ok] _]. congruence. }
  apply varchar_Ok in Hv as Hid.
  cbn [mbind result_bind]. rewrite num_of_whole by lia.
  rewrite (bool_decide_ext _ (Forall (fun id => is_Some (varchar_in 100 id)) ids)).
  2:{ rewrite Forall_cons, Hid. naive_solver. }
  case_bool_decide; [|done].
  f_equal. assert (Homap : omap (varchar_in 100) (id :: ids) = id' :: omap (varchar_in 100) ids) by (cbn; by rewrite Hid).
  rewrite Homap. destruct (wallet_accounts d !! id') as [a|] eqn:Ha; f_equal; apply map_eq; intros y;
    rewrite !lookup_union, !lookup_gset_to_gmap; cbn [list_to_set foldr wallet_accounts].
  - destruct (decide (y = id')) as [->|Hy]; [by rewrite Ha, !union_Some_l|].
    f_equal. apply option_guard_iff. set_solver.
  - destruct (decide (y = id')) as [->|Hy].
    + rewrite Ha, lookup_insert_eq, left_id by apply _. rewrite option_guard_True by set_solver. by rewrite union_Some_l.
    + rewrite lookup_insert_ne by done. f_equal. apply option_guard_iff. set_solver.
Qed.

(** All or nothing: an error left the database alone, unless only the
    acknowledgement of the commit was lost. *)
Definition seeded_or_not (ids : list string) (d : wallet_db) (r : result sqlerr unit) (s : session wallet_db) : Prop :=
  open_tx s = None /\
  match r with
  | Ok _ => seed_spec ids d = Some (committed s)
  | Err _ => committed s = d \/ seed_spec ids d = Some (committed s)
  end.

Lemma wp_insert_accounts all ids d0 d :
  seed_spec ids d = seed_spec all d0 ->
  wp (seed_exec now) (insert_accounts ids) (fun r s => seeded_or_not all d0 r (mk_session (committed s) None))
    (mk_session d0 (Some d)).
Proof.
  revert d; induction ids as [|id ids IH]; intros d Hd; cbn [insert_accounts].
  - rewrite seed_spec_nil in Hd. intros [|e|e|n e]; (split; [done|]); cbn; auto.
  - eapply wp_stmt_tx; [reflexivity|by split; [|left]|]. intros [] d' Hins. apply IH.
    by rewrite <-Hd, seed_spec_cons, Hins.
Qed.

Lemma run_insert_accounts ids d0 d :
  (run_result (seed_exec now) (insert_accounts ids) [] (mk_session d0 (Some d)) = Ok tt) <-> seed_spec ids d <> None.
Proof.
  revert d; induction ids as [|id ids IH]; intros d; cbn [insert_accounts].
  - by rewrite seed_spec_nil.
  - rewrite seed_spec_cons. unfold run_result. cbn [call run hd tl seed_exec stmt_tx open_tx].
    destruct (sql_seed_account now id seed_amount d) as [[[] d']|e]; cbn; [apply IH|done].
Qed.

(** C38: seeding is one step.  Under every schedule of failures, and in whatever
    order the map of accounts is ranged over, [preseedBalances] gives every
    account of the transfers that does not exist yet the balance of one billion,
    leaves all other accounts and the journal alone, and leaves no transaction
    open; an error means that nothing changed, or that only the acknowledgement
    of the commit was lost.  Without failures it succeeds exactly if every name
    is well-formed UTF-8 without NUL and fits the 100 characters of its column,
    blanks at its end aside. *)
Theorem preseed_all_or_nothing order transactions d :
  (forall accounts, order accounts ≡ₚ elements accounts) ->
  (forall sched, seeded_or_not (names transactions) d
     (run_result (seed_exec now) (preseedBalances order transactions) sched (mk_session d None))
     (run_state (seed_exec now) (preseedBalances order transactions) sched (mk_session d None))) /\
  (run_result (seed_exec now) (preseedBalances order transactions) [] (mk_session d None) = Ok tt <->
     Forall (fun id => text_ok id = true /\ is_Some (varchar_chars 100 id)) (names transactions)).
Proof.
  assert (Hfits : forall id, text_ok id = true /\ is_Some (varchar_chars 100 id) <-> is_Some (varchar_in 100 id)).
  { intros id. unfold varchar_in. destruct (text_ok id); [naive_solver|]. split; [naive_solver|by intros []]. }
  rewrite (Forall_iff _ _ _ Hfits). intros Horder. set (ids := order (unique_accounts transactions)).
  assert (Hids : seed_spec ids d = seed_spec (names transactions) d).
  { apply seed_spec_set. intros x. unfold ids. by rewrite Horder, elem_of_elements, elem_unique_accounts. }
  split.
  - intros sched. apply wp_run. unfold preseedBalances. eapply wp_begin; [reflexivity|by split; [|left]|].
    apply wp_bind. eapply wp_stmt_tx; [reflexivity|by split; [|left]|]. intros [] d' [= <-].
    eapply wp_mono; [|by apply wp_insert_accounts]. intros r s HQ o. exact HQ.
  - unfold preseedBalances. fold ids. unfold run_result. cbn [call run hd tl seed_exec begin_tx]. cbn.
    unfold mbind, proc_mbind. rewrite run_bind. pose proof (run_insert_accounts ids d d) as Hrun. unfold run_result in Hrun.
    pose proof (run_nil (seed_exec now) (insert_accounts ids) (mk_session d (Some d))) as Hnil.
    destruct (run _ _ _ _) as [[r s'] sched']. cbn in *. rewrite Hrun, Hids. unfold seed_spec.
    case_bool_decide; naive_solver.
Qed.
End seeding.

(** A name of a file in Latin-1 is refused. *)
Example latin1_refused : varchar 100 ("Ren" +:+ String (Zbyte 233) "")%string = Err err_encoding.
Proof. reflexivity. Qed.

(** Two copies of one transfer; the acknowledgement of the commit is lost. *)
Definition twice : list IntentPayload.t :=
  let t := IntentPayload.mk "alice" "bob" (f_of_Z 5) in [t; t].
Lemma preseed_all_or_nothing_witness :
  let run sched := run (seed_exec 0) (preseedBalances elements twice) sched (mk_session (mk_wallet_db ∅ []) None) in
  let lost := run [Done; Done; Done; Done; AckLost "eof"] in
  seeded_or_not 0 (names twice) (mk_wallet_db ∅ []) lost.1.1 lost.1.2 /\ (run []).1.1 = Ok tt.
Proof.
  destruct (preseed_all_or_nothing 0 elements twice (mk_wallet_db ∅ [])) as [Hall Hok]; [reflexivity|].
  split; [apply (Hall [Done; Done; Done; Done; AckLost "eof"])|].
  apply Hok. repeat constructor; vm_compute; eauto.
Defined.

(** ** Submitting *)
Section submitting.
Context `{Postgres} `{ProtoCodec} `{TimeText} `{Ed25519} `{FloatText} `{NumericCodec} `{Redis}.
Context (handle : nat -> Request -> ResponseWriter -> proc gwE (option ResponseWriter)) (addr : string).

Lemma counts_add c : successCount c + failCount c = Z.of_nat (length (served c)).
Proof.
  unfold successCount, failCount. generalize (served c) as l. intros l. induction l as [|[j []] l IH]; [done|..];
    rewrite !filter_cons; repeat case_decide; cbn [length snd] in *; (done || lia).
Qed.

Lemma jobs_payloads transactions : map snd (jobs transactions) = transactions.
Proof.
  unfold jobs. generalize S at 1. induction transactions as [|t transactions IH]; intros f; cbn; [done|].
  f_equal. apply IH.
Qed.

(** The workers of the load tester, whatever the gateway does and however
    their requests interleave and fail.  Every run ends.  With at least one
    worker a run that has ended has taken every transfer of the file exactly
    once, and the two counters add up to their number, so "Requests Sent" is
    right; with none, or a negative number, nothing is ever sent. *)
Theorem submissions_all_counted jwtToken keys concurrency transactions g :
  sn (submission_step handle addr jwtToken keys) (submissions concurrency transactions g) /\
  (exists c, rtc (submission_step handle addr jwtToken keys) (submissions concurrency transactions g) c /\
             nf (submission_step handle addr jwtToken keys) c) /\
  forall c, rtc (submission_step handle addr jwtToken keys) (submissions concurrency transactions g) c ->
    nf (submission_step handle addr jwtToken keys) c ->
    if 0 <? concurrency then
      map (fun jr => jr.1.2) (served c) ≡ₚ transactions /\
      successCount c + failCount c = Z.of_nat (length transactions)
    else c = submissions concurrency transactions g.
Proof.
  split; [apply pool_sn|]. unfold submissions. destruct (Z.ltb_spec 0 concurrency) as [Hc|Hc].
  - split; [apply pool_finishes; lia|]. intros c Hr Hnf.
    destruct (pool_ends _ _ _ _ _ _ Hr Hnf) as [_ Hserved]; [lia|].
    assert (Htx : map (fun jr => jr.1.2) (served c) ≡ₚ transactions).
    { rewrite <-(jobs_payloads transactions). rewrite <-Hserved, map_map. reflexivity. }
    split; [exact Htx|]. by rewrite counts_add, <-Htx, length_map.
  - replace (Z.to_nat concurrency) with 0%nat by lia. split; [|intros c Hr _; by eapply pool_empty].
    eexists. split; [reflexivity|]. intros [c' Hs]. by inversion Hs; subst.
Qed.
End submitting.
