(* ===== verification/Keygen.v ===== *)
(** * The key and signing utility: scripts/keygen.go

    [main] maps the arguments and the random source to what is printed and the
    exit code.  The texts of hex errors and the table of printable characters
    beyond ASCII are arguments. *)
From S2P Require Import Prelude GoLib Json Crypto.

(** ** [%q]: strconv.Quote *)
Definition backslash : string := chr 92.
Definition quote_char (c : ascii) : string :=
  let b := byteZ c in
  if (b =? 34) || (b =? 92) then (backslash +:+ String c "")%string
  else if (32 <=? b) && (b <? 127) then String c ""
  else if b =? 7 then "\a"
  else if b =? 8 then "\b"
  else if b =? 12 then "\f"
  else if b =? 10 then "\n"
  else if b =? 13 then "\r"
  else if b =? 9 then "\t"
  else if b =? 11 then "\v"
  else ("\x" +:+ hex2 b)%string.

(** The number of a character of two, three or four bytes. *)
Definition rune_of (r : string) : Z :=
  match r with
  | String a (String b EmptyString) => (byteZ a - 192) * 64 + (byteZ b - 128)
  | String a (String b (String c EmptyString)) =>
      ((byteZ a - 224) * 64 + (byteZ b - 128)) * 64 + (byteZ c - 128)
  | String a (String b (String c (String d EmptyString))) =>
      (((byteZ a - 240) * 64 + (byteZ b - 128)) * 64 + (byteZ c - 128)) * 64 + (byteZ d - 128)
  | _ => 65533
  end.
Definition hex_pair (r : Z) : string := (hex2 (r / 256) +:+ hex2 (r mod 256))%string.

Section keygen.
Context `{Ed25519}.
Context (is_print : Z -> bool) (hex_error : string -> string).

Definition quote_rune (r : string) : string :=
  let z := rune_of r in
  if is_print z then r
  else if z <? 65536 then ("\u" +:+ hex_pair z)%string
  else ("\U" +:+ hex_pair (z / 65536) +:+ hex_pair (z mod 65536))%string.
Definition Quote (s : string) : string :=
  (quote +:+ utf8_map quote_char quote_rune (fun c => "\x" +:+ hex2 (byteZ c)) s +:+ quote)%string.

(** ** The output *)
Definition lines (l : list string) : string := foldr (fun x s => x +:+ newline +:+ s)%string ""%string l.
Definition rule : string := "================================================================================".

Definition member (name value : string) : string :=
  ("  " +:+ quote +:+ name +:+ quote +:+ ": " +:+ value)%string.
(** [%s] between quotes: nothing is escaped. *)
Definition verbatim (s : string) : string := (quote +:+ s +:+ quote)%string.
(** The part of the output that is to be sent. *)
Definition request_text (intentType submitterID payload signature pubKeyHex : string) : string :=
  lines ["{"; member "type" (verbatim intentType) +:+ ","; member "submitter_id" (verbatim submitterID) +:+ ",";
         member "payload" (Quote payload) +:+ ","; member "signature" (verbatim signature) +:+ ",";
         member "submitter_public_key" (verbatim pubKeyHex); "}"]%string.

Definition usage : string :=
  lines ["Error: Missing arguments for signing.";
         "Usage: go run scripts/keygen.go --sign <privkey_hex> <type> <submitter_id> <payload_json>"]%string.
Definition bad_key (err : string) : string :=
  lines ["Error: Invalid private key hex format (expected 128 characters/64 bytes): " +:+ err]%string.

(** [privBytes[32:]] *)
Definition public_half (privBytes : string) : string := String.substring 32 (String.length privBytes - 32) privBytes.

Definition sign_command (privKeyHex intentType submitterID payload : string) : string * Z :=
  match hex_decode privKeyHex with
  | None => (bad_key (hex_error privKeyHex), 1)
  | Some privBytes =>
      if negb (slen privBytes =? 64) then (bad_key "<nil>", 1) else
      let pubKeyHex := hex_encode (public_half privBytes) in
      let signBytes := GetSignBytes intentType submitterID payload in
      match Sign signBytes privKeyHex with
      | Err err => (lines ["Error signing payload: " +:+ err]%string, 1)
      | Ok signature =>
          ((lines [""; rule; "🔒 DETERMINISTIC SIGN BYTES:"; signBytes; rule; ""; "🚀 COMPLETED REST JSON PAYLOAD:"]
            +:+ request_text intentType submitterID payload signature pubKeyHex +:+ lines [rule])%string, 0)
      end
  end.

(** The payload of the suggested command, as it stands between the single
    quotes. *)
Definition suggested_payload : string :=
  let q := (backslash +:+ quote)%string in
  ("{" +:+ q +:+ "from" +:+ q +:+ ":" +:+ q +:+ "alice" +:+ q +:+ "," +:+ q +:+ "to" +:+ q +:+ ":" +:+
   q +:+ "bob" +:+ q +:+ "," +:+ q +:+ "amount" +:+ q +:+ ":100}")%string.
Definition generate_command (rand : result string string) : string * Z :=
  match GenerateKeyPair rand with
  | Err err => (lines ["Failed to generate keys: " +:+ err]%string, 1)
  | Ok (pubHex, privHex) =>
      (lines [""; rule; "🔑 NEW ED25519 KEYPAIR GENERATED"; rule; "Public Key (Hex):  " +:+ pubHex;
              "Private Key (Hex): " +:+ privHex; rule; ""; "To sign a request, run:";
              "go run scripts/keygen.go --sign " +:+ privHex +:+ " TRANSFER user-alice-001 '" +:+ suggested_payload +:+ "'";
              rule]%string, 0)
  end.

(** [args] is os.Args[1:]. *)
Definition main (args : list string) (rand : result string string) : string * Z :=
  match args with
  | "--sign"%string :: args' =>
      match args' with
      | privKeyHex :: intentType :: submitterID :: payload :: _ => sign_command privKeyHex intentType submitterID payload
      | _ => (usage, 1)
      end
  | _ => generate_command rand
  end.
End keygen.
