(* ===== verification/KeygenFacts.v ===== *)
(** * What keygen signs, and what the gateway makes of it *)
From S2P Require Import Prelude GoLib Effects Sql Proto Float64 Json JsonFacts Http Redis System IntentStore Crypto IntentHandler.
From S2P Require Import IntentDb IntentFacts Gateway GatewayFacts GatewayIntents LoadTestFacts Keygen.

(** ** Text that needs no escaping *)
Definition plain_char (c : ascii) : bool :=
  let b := byteZ c in (32 <=? b) && (b <? 127) && negb (b =? 34) && negb (b =? 92).
Definition plain_text : string -> bool := string_forall plain_char.

Lemma scan_plain_char c s : plain_char c = true -> scan_string (String c s) = prepend (String c "") (scan_string s).
Proof. destruct c as [[] [] [] [] [] [] [] []]; intros Hc; try discriminate Hc; reflexivity. Qed.
Lemma plain_ascii s : plain_text s = true -> is_ascii s = true.
Proof.
  induction s as [|c s IH]; [done|]. unfold plain_text, is_ascii in *. cbn. intros [Hc Hs]%andb_true_iff.
  rewrite IH by done. unfold plain_char in Hc. lia.
Qed.
Lemma parse_plain s rest : plain_text s = true -> parse_string (s +:+ quote +:+ rest) = Some (s, rest).
Proof.
  intros Hs. unfold parse_string.
  assert (Hscan : scan_string (s +:+ quote +:+ rest) = Some (s, rest)).
  { induction s as [|c s IH]; [reflexivity|]. unfold plain_text in *. cbn in Hs. apply andb_true_iff in Hs as [Hc Hs].
    change ((String c s +:+ quote +:+ rest)%string) with (String c (s +:+ quote +:+ rest)).
    rewrite scan_plain_char, IH by done. reflexivity. }
  rewrite Hscan, to_valid_utf8_ascii by (by apply plain_ascii). done.
Qed.

Lemma hex_digit_plain_char v : 0 <= v < 16 -> plain_char (hex_digit v) = true.
Proof. intros Hv. unfold plain_char, hex_digit. case_match; rewrite byteZ_Zbyte by lia; lia. Qed.
Lemma hex_encode_plain s : plain_text (hex_encode s) = true.
Proof.
  induction s as [|c s IH]; [done|]. unfold plain_text in *. cbn. destruct (nibbles c) as (Hd & Hm & _).
  by rewrite (hex_digit_plain_char _ Hd), (hex_digit_plain_char _ Hm).
Qed.

(** ** [%q], read as JSON *)
(** The bytes that [%q] writes in a way JSON has, too. *)
Definition json_char (c : ascii) : bool :=
  let b := byteZ c in (32 <=? b) && (b <? 127) || (b =? 8) || (b =? 9) || (b =? 10) || (b =? 12) || (b =? 13).

Lemma scan_quote_char c s :
  byteZ c <? 128 = true ->
  scan_string (quote_char c +:+ s) = if json_char c then prepend (String c "") (scan_string s) else None.
Proof. destruct c as [[] [] [] [] [] [] [] []]; intros Hc; try discriminate Hc; reflexivity. Qed.

Lemma parse_quote is_print s rest :
  is_ascii s = true ->
  parse_string (utf8_map quote_char (quote_rune is_print) (fun c => "\x" +:+ hex2 (byteZ c)) s +:+ quote +:+ rest)
  = if string_forall json_char s then Some (s, rest) else None.
Proof.
  intros Hs. unfold parse_string. set (bad := fun c : ascii => ("\x" +:+ hex2 (byteZ c))%string).
  assert (Hscan : scan_string (utf8_map quote_char (quote_rune is_print) bad s +:+ quote +:+ rest)
    = if string_forall json_char s then Some (s, rest) else None).
  { induction s as [|c s IH]; [reflexivity|]. apply andb_true_iff in Hs as [Hc Hs].
    rewrite utf8_map_ascii, string_app_assoc, scan_quote_char by done. cbn [string_forall].
    destruct (json_char c); [|done]. rewrite (IH Hs). by destruct (string_forall json_char s). }
  rewrite Hscan. destruct (string_forall json_char s); [|done]. by rewrite to_valid_utf8_ascii.
Qed.

(** ** The printed request *)
(** One line of the request: a key and a quoted value. *)
Lemma parse_line f d k body :
  plain_text k = true ->
  parse_members (S (S f)) d (newline +:+ member k (quote +:+ body))
  = match parse_string body with
    | Some (x, r) =>
        match skip_ws r with
        | EmptyString => None
        | String e r' =>
            if byteZ e =? 125 then Some ([(k, JStr x)], r')
            else if byteZ e =? 44 then
              match parse_members (S f) d r' with Some (l, r) => Some ((k, JStr x) :: l, r) | None => None end
            else None
        end
    | None => None
    end.
Proof.
  intros Hk. unfold member. cbn [parse_members].
  assert (Hskip : skip_ws (newline +:+ "  " +:+ quote +:+ k +:+ quote +:+ ": " +:+ quote +:+ body)
    = String (Zbyte 34) (k +:+ quote +:+ ": " +:+ quote +:+ body)) by reflexivity.
  rewrite Hskip. cbn [head_is]. change (byteZ (Zbyte 34) =? 34) with true. cbv iota. cbn [mbind option_bind].
  rewrite parse_plain by done.
  assert (Hcolon : head_is 58 (skip_ws (": " +:+ quote +:+ body)) = Some (" " +:+ quote +:+ body)%string) by reflexivity.
  rewrite Hcolon. cbn [mbind option_bind]. cbn [parse_value].
  assert (Hval : skip_ws (" " +:+ quote +:+ body) = String (Zbyte 34) body) by reflexivity.
  rewrite Hval. change (byteZ (Zbyte 34) =? 34) with true. cbv iota zeta.
  by destruct (parse_string body) as [[x r]|].
Qed.

(** A verbatim value and the comma after it. *)
Lemma parse_verbatim_line f d k s rest :
  plain_text k = true -> plain_text s = true ->
  parse_members (S (S f)) d (newline +:+ member k (verbatim s) +:+ "," +:+ rest)
  = match parse_members (S f) d rest with Some (l, r) => Some ((k, JStr s) :: l, r) | None => None end.
Proof.
  intros Hk Hs. unfold verbatim.
  replace (newline +:+ member k (quote +:+ s +:+ quote) +:+ "," +:+ rest)%string
    with (newline +:+ member k (quote +:+ s +:+ quote +:+ "," +:+ rest))%string.
  2:{ unfold member. by rewrite !string_app_assoc. }
  rewrite parse_line, parse_plain by done. reflexivity.
Qed.

Section request.
Context (is_print : Z -> bool).
Context (intentType submitterID payload signature pubKeyHex : string).
Hypothesis (Htype : plain_text intentType = true) (Hsubmitter : plain_text submitterID = true)
  (Hpayload : is_ascii payload = true) (Hsignature : plain_text signature = true) (Hkey : plain_text pubKeyHex = true).
Abbreviation text := (request_text is_print intentType submitterID payload signature pubKeyHex).

Lemma request_members f d :
  parse_members (S (S (S (S (S (S f)))))) d
    (newline +:+ member "type" (verbatim intentType) +:+ "," +:+
     newline +:+ member "submitter_id" (verbatim submitterID) +:+ "," +:+
     newline +:+ member "payload" (Quote is_print payload) +:+ "," +:+
     newline +:+ member "signature" (verbatim signature) +:+ "," +:+
     newline +:+ member "submitter_public_key" (verbatim pubKeyHex) +:+ newline +:+ "}" +:+ newline)
  = if string_forall json_char payload then
      Some ([("type", JStr intentType); ("submitter_id", JStr submitterID); ("payload", JStr payload);
             ("signature", JStr signature); ("submitter_public_key", JStr pubKeyHex)]%string, newline)
    else None.
Proof.
  rewrite !parse_verbatim_line by done.
  set (rest := (newline +:+ member "signature" _ +:+ _)%string).
  replace (newline +:+ member "payload" (Quote is_print payload) +:+ "," +:+ rest)%string
    with (newline +:+ member "payload" (quote +:+ utf8_map quote_char (quote_rune is_print)
            (fun c => "\x" +:+ hex2 (byteZ c)) payload +:+ quote +:+ "," +:+ rest))%string.
  2:{ unfold member, Quote. by rewrite !string_app_assoc. }
  rewrite parse_line, parse_quote by done. destruct (string_forall json_char payload); [|done].
  change (skip_ws ("," +:+ rest)) with (String (Zbyte 44) rest). change (byteZ (Zbyte 44) =? 125) with false.
  change (byteZ (Zbyte 44) =? 44) with true. cbv iota. unfold rest. rewrite parse_verbatim_line by done.
  replace (newline +:+ member "submitter_public_key" (verbatim pubKeyHex) +:+ newline +:+ "}" +:+ newline)%string
    with (newline +:+ member "submitter_public_key" (quote +:+ pubKeyHex +:+ quote +:+ newline +:+ "}" +:+ newline))%string.
  2:{ unfold member, verbatim. by rewrite !string_app_assoc. }
  rewrite parse_line, parse_plain by done. reflexivity.
Qed.

Lemma request_parses :
  parse_json text = if string_forall json_char payload then
    Some (JObj [("type", JStr intentType); ("submitter_id", JStr submitterID); ("payload", JStr payload);
                ("signature", JStr signature); ("submitter_public_key", JStr pubKeyHex)]%string) else None.
Proof.
  rewrite (parse_json_fuel _ (S (6 + json_fuel text))) by lia.
  generalize (json_fuel text) as f. intros f. unfold request_text, lines. cbn [foldr].
  rewrite !string_app_assoc, string_app_nil_r.
  set (ms := (newline +:+ _)%string). change (("{" +:+ ms)%string) with (String (Zbyte 123) ms).
  cbn [parse_value skip_ws]. change (is_ws (Zbyte 123)) with false. cbv iota zeta.
  change (byteZ (Zbyte 123) =? 34) with false. change (byteZ (Zbyte 123) =? 123) with true.
  change (max_depth <=? 0) with false. cbv iota.
  change (head_is 125 (skip_ws ms)) with (@None string). cbv iota.
  unfold ms. change (6 + f)%nat with (S (S (S (S (S (S f)))))). rewrite request_members.
  by destruct (string_forall json_char payload).
Qed.

(** The gateway reads the request as it was meant, or not at all. *)
Lemma gateway_reads_text :
  SubmitIntentHTTPRequest.unmarshal text = if string_forall json_char payload then
    Some (SubmitIntentHTTPRequest.mk intentType payload submitterID signature pubKeyHex None) else None.
Proof.
  unfold SubmitIntentHTTPRequest.unmarshal, unmarshal_struct. rewrite request_parses.
  destruct (string_forall json_char payload); [|done]. reflexivity.
Qed.
End request.

Section keygen.
Context `{Postgres} `{NumericCodec} `{ProtoCodec} `{TimeText} `{Ed25519} `{Redis}.
Context (is_print : Z -> bool) (hex_error : string -> string).
Abbreviation main := (main is_print hex_error).

(** What [--sign] signs, and the request it prints. *)
Definition keygen_signature (privBytes ty sub payload : string) : string :=
  ed_sign privBytes (GetSignBytes ty sub payload).
Definition keygen_request (privBytes ty sub payload : string) : string :=
  request_text is_print ty sub payload (hex_encode (keygen_signature privBytes ty sub payload))
    (hex_encode (public_half privBytes)).

Lemma sign_command_ok priv privBytes ty sub payload :
  hex_decode priv = Some privBytes -> slen privBytes = 64 ->
  exists before after, sign_command is_print hex_error priv ty sub payload
    = ((before +:+ keygen_request privBytes ty sub payload +:+ after)%string, 0).
Proof.
  intros Hpriv Hlen. unfold sign_command. rewrite Hpriv, Hlen. cbn [negb Z.eqb Pos.eqb].
  assert (Hs : Sign (GetSignBytes ty sub payload) priv = Ok (hex_encode (keygen_signature privBytes ty sub payload))).
  { unfold Sign. rewrite (proj2 (decode_sized_Ok _ _ PrivateKeySize priv privBytes)) by done. reflexivity. }
  rewrite Hs. eexists _, _. reflexivity.
Qed.

(** The two commands fit together.  [main] ends with code 0 exactly when it
    has a key: the random source for a new pair, a 64-byte hex key and four
    arguments for a signature; signing itself never fails then.  With a generated
    key the request it prints carries the generated public key and a signature
    that verifies over the given type, submitter and payload.  For a plain type
    and submitter and an ASCII payload the request is read back with exactly
    these members, unless the payload has a control character that [%q] writes
    as Go does and JSON does not have: then it is not JSON. *)
Theorem keygen_signs :
  (forall rand, (main [] rand).2 = 0 <-> exists seed, rand = Ok seed) /\
  (forall args rand, (main ("--sign"%string :: args) rand).2 = 0 <->
     exists priv privBytes ty sub payload rest, args = priv :: ty :: sub :: payload :: rest /\
       hex_decode priv = Some privBytes /\ slen privBytes = 64) /\
  forall seed ty sub payload rest rand, exists pub priv sg before after,
    GenerateKeyPair (Ok seed) = Ok (pub, priv) /\
    main ("--sign" :: priv :: ty :: sub :: payload :: rest)%string rand
    = ((before +:+ request_text is_print ty sub payload sg pub +:+ after)%string, 0) /\
    Verify (GetSignBytes ty sub payload) sg pub = Ok true /\
    (plain_text ty && plain_text sub && is_ascii payload = true ->
     SubmitIntentHTTPRequest.unmarshal (request_text is_print ty sub payload sg pub)
     = if string_forall json_char payload then Some (SubmitIntentHTTPRequest.mk ty payload sub sg pub None) else None).
Proof.
  split_and!.
  - intros [seed|e]; cbn.
    + unfold Keygen.main, generate_command, GenerateKeyPair. destruct (ed_keygen seed). split; [intros _; by exists seed|done].
    + split; [done|]. by intros [seed Hseed].
  - intros args rand. split.
    + destruct args as [|priv [|ty [|sub [|payload rest]]]]; [done..|]. cbn [Keygen.main]. unfold sign_command.
      destruct (hex_decode priv) as [privBytes|] eqn:Hpriv; [|done].
      destruct (Z.eqb_spec (slen privBytes) 64); [|done]. intros _. eauto 10.
    + intros (priv & privBytes & ty & sub & payload & rest & -> & Hpriv & Hlen). cbn [Keygen.main].
      destruct (sign_command_ok priv privBytes ty sub payload Hpriv Hlen) as (b & a & ->). done.
  - intros seed ty sub payload rest rand. destruct (sign_verify seed (GetSignBytes ty sub payload)) as (pub & priv & sg & Hg & Hs & Hv).
    pose proof (ed_private_length seed) as Hlen. pose proof (ed_public_half seed) as Hhalf.
    pose proof Hg as Hgen. cbn [GenerateKeyPair] in Hg. destruct (ed_keygen seed) as [pk sk]. cbn in Hlen, Hhalf. injection Hg as <- <-.
    assert (Hsk : slen sk = 64) by (unfold slen; by rewrite Hlen).
    destruct (sign_command_ok (hex_encode sk) sk ty sub payload) as (b & a & Hcmd); [apply hex_decode_encode|done|].
    assert (Hsg : sg = hex_encode (keygen_signature sk ty sub payload)).
    { unfold Sign in Hs. rewrite decode_encode in Hs by done. cbn in Hs. by injection Hs as <-. }
    exists (hex_encode pk), (hex_encode sk), sg, b, a.
    split; [exact Hgen|]. split; [|split; [exact Hv|]].
    + cbn [Keygen.main]. rewrite Hcmd, Hsg. unfold keygen_request, public_half. rewrite Hlen.
      change (64 - 32)%nat with 32%nat. by rewrite Hhalf.
    + intros [[Hty Hsub]%andb_true_iff Hp]%andb_true_iff. subst sg.
      apply gateway_reads_text; auto using hex_encode_plain.
Qed.

(** The names of the types as the gateway takes them are not the ones that are
    verified. *)
Lemma type_names_differ ty sub payload :
  HTTPIntentType.parseIntentType ty <> INTENT_TYPE_UNSPECIFIED ->
  GetSignBytes (IntentType_String (HTTPIntentType.parseIntentType ty)) sub payload <> GetSignBytes ty sub payload.
Proof.
  unfold HTTPIntentType.parseIntentType, GetSignBytes. set (head := fun s => match s with String c _ => byteZ c | _ => 0 end).
  repeat (case_bool_decide;
    [subst ty; intros _ Heq; apply (f_equal head) in Heq; vm_compute in Heq; discriminate Heq|]).
  intros Hne. by destruct Hne.
Qed.

(** C36: the requests of keygen are not accepted.  keygen signs over the type as
    it is given and sends that type; the gateway takes TRANSFER, COMPUTE, QUERY
    and SCHEDULED only, and the intent service verifies over INTENT_TYPE_TRANSFER
    and so on.  Whatever fails, a request that keygen prints for a type and a
    submitter of plain characters (printable ASCII that JSON leaves as it is) and
    an ASCII payload is answered 201 only if ed25519 accepts the signature of one
    text for another text. *)
Theorem keygen_requests_refused gw lib metrics ids privBytes ty sub payload r sched g w :
  plain_text ty = true -> plain_text sub = true -> is_ascii payload = true -> slen privBytes = 64 ->
  post_intents r -> Body r = keygen_request privBytes ty sub payload ->
  run_result gw_exec (serve_http gw lib metrics ids r new_response) sched g = Some w -> rw_status w = StatusCreated ->
  let signed := GetSignBytes ty sub payload in
  let verified := GetSignBytes (IntentType_String (HTTPIntentType.parseIntentType ty)) sub payload in
  verified <> signed /\ ed_verify (public_half privBytes) verified (ed_sign privBytes signed) = true.
Proof.
  intros Hty Hsub Hp Hlen Hr Hb Hw Hst signed verified.
  destruct (wp_run _ _ _ g sched (wp_post_intents gw lib metrics ids r g Hr) w Hw Hst) as (_ & q & Hq & Hauth & _).
  rewrite Hb in Hq. unfold keygen_request in Hq. rewrite gateway_reads_text in Hq by auto using hex_encode_plain.
  destruct (string_forall json_char payload); [|done]. injection Hq as <-.
  destruct Hauth as (Htype & _ & Hver). cbn in Htype, Hver. split; [by apply type_names_differ|].
  apply verify_true_iff in Hver as (pk & sg & Hpk & _ & Hsg & _ & Hv).
  rewrite hex_decode_encode in Hpk, Hsg. injection Hpk as <-. injection Hsg as <-. exact Hv.
Qed.
End keygen.

(** The payload of the command that keygen suggests has backslashes before its
    quotes, also between the single quotes of a shell: it is not JSON. *)
Example suggested_payload_is_not_json : parse_json suggested_payload = None.
Proof. vm_compute. reflexivity. Qed.
