(* ===== verification/GatewayLedger.v ===== *)
(** * Correctness of the gateway: the ledger page *)
From S2P Require Import Prelude GoLib Effects Sql Proto Float64 Json JsonFacts Http Redis Ledger LedgerFacts LedgerProps.
From S2P Require Import IntentDb System IntentStore Gateway GatewayIntents.

(** ** The loop that swaps the ends reverses *)
Lemma reverse_blocks_middle fuel : forall (a m c : list string),
  (length m <= fuel)%nat ->
  reverse_blocks fuel (length a) (length a + length m - 1) (a ++ m ++ c) = a ++ rev m ++ c.
Proof.
  induction fuel as [|f IH]; intros a m c Hf.
  { destruct m; [done|]. cbn in Hf. lia. }
  destruct m as [|x m]; cbn [reverse_blocks].
  { rewrite (proj2 (Nat.ltb_ge _ _)) by (cbn; lia). done. }
  induction m as [|y m _] using rev_ind.
  { rewrite (proj2 (Nat.ltb_ge _ _)) by (cbn; lia). done. }
  rewrite (proj2 (Nat.ltb_lt _ _)) by (cbn; rewrite length_app; cbn; lia).
  assert (Hi : (a ++ (x :: m ++ [y]) ++ c) !! length a = Some x) by (by apply (list_lookup_middle a ((m ++ [y]) ++ c) x)).
  assert (Hl : (length a + length (x :: m ++ [y]) - 1 = length (a ++ x :: m))%nat)
    by (cbn; rewrite !length_app; cbn; lia).
  assert (Hs : a ++ (x :: m ++ [y]) ++ c = (a ++ x :: m) ++ y :: c) by (cbn; by rewrite <-!app_assoc).
  rewrite Hl, Hi. rewrite Hs at 1. rewrite list_lookup_middle by done.
  assert (Hu : <[length (a ++ x :: m) := x]> (<[length a := y]> (a ++ (x :: m ++ [y]) ++ c))
               = (a ++ [y]) ++ m ++ (x :: c)).
  { cbn [app]. rewrite insert_app_r_alt, Nat.sub_diag by done. cbn [insert list_insert].
    rewrite <-(app_assoc m). cbn [app].
    replace (a ++ y :: m ++ y :: c) with ((a ++ y :: m) ++ y :: c) by (by rewrite <-app_assoc).
    replace (length (a ++ x :: m)) with (length (a ++ y :: m)) by (by rewrite !length_app).
    rewrite insert_app_r_alt, Nat.sub_diag by done. cbn. by rewrite <-!app_assoc. }
  rewrite Hu. specialize (IH (a ++ [y]) m (x :: c)).
  replace (length a + 1)%nat with (length (a ++ [y])) by (rewrite length_app; cbn; lia).
  replace (length (a ++ x :: m) - 1)%nat with (length (a ++ [y]) + length m - 1)%nat
    by (rewrite !length_app; cbn; lia).
  rewrite IH by (cbn in Hf; rewrite length_app in Hf; cbn in Hf; lia).
  cbn [rev]. rewrite rev_app_distr. cbn. by rewrite <-!app_assoc.
Qed.
Lemma reverse_blocks_rev l : reverse_blocks (length l) 0 (length l - 1) l = rev l.
Proof.
  pose proof (reverse_blocks_middle (length l) [] l [] ltac:(done)) as Hr. cbn in Hr. by rewrite !app_nil_r in Hr.
Qed.

(** ** The page *)
Definition valid_json (line : string) : bool := bool_decide (is_Some (parse_json line)).
Definition array_text (items : list string) : string := ("[" +:+ String.concat "," items +:+ "]")%string.

Lemma join_raw l :
  join_items encode_json (map JvRaw l)
  = if forallb valid_json l then Some (String.concat "," (map (compact_text false) l)) else None.
Proof.
  induction l as [|x l IH]; [done|]. cbn [map forallb].
  assert (Hx : encode_json (JvRaw x) = if valid_json x then Some (compact_text false x) else None).
  { cbn [encode_json]. unfold compact_json, valid_json. by destruct (parse_json x). }
  destruct l as [|y l].
  - cbn [map join_items]. rewrite Hx. cbn. by destruct (valid_json x).
  - change (join_items encode_json (JvRaw x :: map JvRaw (y :: l)))
      with (match encode_json (JvRaw x), join_items encode_json (map JvRaw (y :: l)) with
            | Some a, Some b => Some (a +:+ "," +:+ b)%string
            | _, _ => None
            end).
    rewrite Hx, IH. destruct (valid_json x); [|done]. by destruct (forallb valid_json (y :: l)).
Qed.

(** What GET /api/ledger shows of the non-empty lines of the file. *)
Definition page_of (lines : list string) : string :=
  match lines with
  | [] => "[]"
  | _ => if forallb valid_json lines then (array_text (map (compact_text false) (rev lines)) +:+ newline)%string else ""
  end.

Lemma scan_render bs :
  Forall (fun b => block_small b = true) bs ->
  scan_lines (render bs) = (map marshal_block bs, false) /\ ends_line (render bs).
Proof.
  induction bs as [|b bs IH] using rev_ind; intros Hs; [split; [done|by left]|].
  apply Forall_app in Hs as [Hs Hb]. rewrite Forall_singleton in Hb. destruct (IH Hs) as [IH1 IH2].
  destruct (marshal_block_line b Hb) as [Hn Hl]. rewrite render_snoc. split.
  - rewrite scan_lines_append by (done || by rewrite IH1). rewrite IH1. cbn [fst]. by rewrite map_app.
  - right. exists (render bs +:+ marshal_block b)%string. symmetry. apply string_app_assoc.
Qed.

Lemma blocks_page bs :
  Forall (fun b => block_small b = true) bs ->
  let lines := filter nonempty (map marshal_block bs) in
  lines = map marshal_block bs /\ forallb valid_json lines = true /\
  map (compact_text false) (rev lines) = map marshal_block (rev bs).
Proof.
  intros Hs. cbv zeta.
  assert (Hb : forall b, block_small b = true ->
    nonempty (marshal_block b) = true /\ valid_json (marshal_block b) = true /\
    compact_text false (marshal_block b) = marshal_block b).
  { intros b Hb%block_small_ok. pose proof (compact_object _ (block_members_ok b Hb)) as Hc. split; [done|].
    unfold compact_json in Hc. unfold valid_json, marshal_block. destruct (parse_json _); [|done].
    split; [done|]. congruence. }
  assert (Hf : filter nonempty (map marshal_block bs) = map marshal_block bs).
  { induction Hs as [|b bs Hb' Hs IH]; [done|]. cbn [map]. rewrite filter_cons, decide_True, IH; [done|].
    destruct (Hb b Hb') as [-> _]. done. }
  rewrite Hf. split; [done|]. split.
  - induction Hs as [|b bs Hb' Hs IH]; [done|]. cbn. destruct (Hb b Hb') as (_ & -> & _). apply IH.
    cbn [map] in Hf. rewrite filter_cons, decide_True in Hf; [by injection Hf|]. by destruct (Hb b Hb') as [-> _].
  - rewrite <-map_rev, map_map. apply map_ext_in. intros b Hin. apply in_rev, list_elem_of_In in Hin.
    rewrite Forall_forall in Hs. by apply Hb, Hs.
Qed.

Section page.
Context `{Postgres} `{NumericCodec} `{ProtoCodec} `{TimeText} `{Redis}.

(** The ledger page shows the ledger, newest block first.  For every file
    whose lines fit the scanner, GET /api/ledger answers 200 without changing
    anything, with the array of the non-empty lines in reverse order; for a file
    written by the ledger engine that is the array of its blocks as the engine
    encoded them, last appended first.  But as soon as one line is not JSON -
    after a torn write, say - the body is empty, still under status 200. *)
Theorem ledger_page_newest_first r g content sched :
  Method r = MethodGet -> w_ledger (gw_sys g) = Some content -> (scan_lines content).2 = false ->
  exists d, run_result gw_exec (handleAPILedger r start) (Done :: sched) g = Some d /\
    run_state gw_exec (handleAPILedger r start) (Done :: sched) g = g /\
    rw_status (inner d) = StatusOK /\ rw_body (inner d) = page_of (filter nonempty (scan_lines content).1) /\
    forall bs, content = render bs -> Forall (fun b => block_small b = true) bs -> bs <> [] ->
      rw_body (inner d) = (array_text (map marshal_block (rev bs)) +:+ newline)%string.
Proof.
  intros Hm Hfile Hscan. unfold handleAPILedger. rewrite Hm, bool_decide_eq_true_2 by done. cbn [negb].
  set (w := set_header "Content-Type" _ _).
  assert (Hrun : run gw_exec (Vis (Sys (LedgerOp OpenRead)) (fun file =>
      match file with
      | Ok None => respond (Write "[]" w)
      | Ok (Some (content, rerr)) => respond (ledger_answer content rerr w)
      | Err err => respond (writeError StatusInternalServerError ("failed to open ledger: " +:+ err)%string w)
      end)) (Done :: sched) g = (Some (ledger_answer content None w), g, sched)).
  { cbn [run hd tl gw_exec sys_exec ledger_exec]. rewrite Hfile.
    cbn [fmap option_fmap option_map respond run]. destruct g as [[] rs]. cbn in *. by subst. }
  unfold run_result, run_state. rewrite Hrun. cbn [fst snd]. eexists. split; [done|]. split; [done|].
  assert (Hbody : rw_status (inner (ledger_answer content None w)) = StatusOK /\
    rw_body (inner (ledger_answer content None w)) = page_of (filter nonempty (scan_lines content).1)).
  { unfold ledger_answer, scan_reader. destruct (scan_lines content) as [lines tl]. cbn [fst snd] in *. subst tl.
    rewrite reverse_blocks_rev. set (l := filter nonempty lines). unfold page_of.
    destruct l as [|x l]; [done|]. destruct (rev (x :: l)) as [|y l'] eqn:Hr.
    { apply (f_equal length) in Hr. by rewrite length_rev in Hr. }
    unfold writeJSON. cbn [encode_json]. rewrite join_raw, <-Hr.
    assert (Hv : forallb valid_json (rev (x :: l)) = forallb valid_json (x :: l)).
    { apply eq_true_iff_eq. rewrite !forallb_forall. setoid_rewrite <-in_rev. done. }
    rewrite Hv. by destruct (forallb valid_json (x :: l)). }
  destruct Hbody as [Hst Hbody]. split; [done|]. split; [done|]. intros bs -> Hs Hne.
  destruct (scan_render bs Hs) as [Hsc _]. destruct (blocks_page bs Hs) as (Hl & Hv & Hc).
  rewrite Hbody, Hsc. cbn [fst]. unfold page_of. rewrite Hc, Hv.
  destruct (filter nonempty (map marshal_block bs)) eqn:Hf; [|done]. by destruct bs.
Qed.
End page.
