(* ===== verification/Platform.v ===== *)
(** * The whole platform as one concurrent system

    Any number of HTTP requests in the gateway, and of submissions, outbox
    workers, schedulers, engines and validators behind it, on one database, one
    message log, one wallet service and one cache: which programs may start,
    what the surroundings may do, and what a program leaves behind when it ends. *)
From S2P Require Import Prelude GoLib Effects Concurrent Sql Proto Float64 WalletProto Wallet Json Http Redis Ledger.
From S2P Require Import IntentDb System IntentStore Crypto IntentHandler Gateway IntentFacts GatewayIntents.
From S2P Require Import Outbox Scheduler Engine Validator Pipeline PipelineFacts PipelineSafe.

(** The end of a thread: an answered request, with the identifiers that were
    drawn for it, a delivery with what the consumer tells the stream, or other
    work that is done. *)
Inductive ended : Type :=
| Answered (ids : string * string) (r : Request) (answer : option ResponseWriter)
| Delivered (d : delivery) (a : ack)
| Handled.

Section platform.
Context `{Postgres} `{NumericCodec} `{ProtoCodec} `{TimeText} `{Ed25519} `{Redis}.
Context (gw : Gateway) (lib : libraries) (minted : string -> string).

(** What uuid.New() draws for one request: two well-formed identifiers, the
    second for this intent alone. *)
Definition drawn (ids : string * string) : Prop :=
  uuid_in ids.1 = Some ids.1 /\ uuid_in ids.2 = Some ids.2 /\ minted ids.2 = ids.1.

Definition request_thread (metrics : list (string * list string)) (ids : string * string) (r : Request)
  : proc gwE ended :=
  a ← serve_http gw lib metrics ids r new_response; Ret (Answered ids r a).
Definition background_thread (p : proc sysE unit) : proc gwE ended := _ ← sys p; Ret Handled.
Definition delivery_thread (d : delivery) (arg : string) (m : msg) : proc gwE ended :=
  a ← sys (on_message d.1 arg m); Ret (Delivered d a).

(** A request arrives, a handler of the pipeline starts, or a message of the
    stream is delivered, for the first time or again. *)
Inductive enters (g : gw_world) : proc gwE ended -> Prop :=
| enter_request metrics ids r : drawn ids -> enters g (request_thread metrics ids r)
| enter_background p : background minted p -> enters g (background_thread p)
| enter_delivery d arg m :
    w_nats (gw_sys g) !! d.2 = Some m -> on_subject (listens_to d.1) m -> enters g (delivery_thread d arg m).

(** The surroundings of the pipeline move, or the cache loses, gains or changes
    entries. *)
Inductive shifts (g : gw_world) : gw_world -> Prop :=
| shift_sys w : moves (gw_sys g) w -> shifts g (mk_gw w (gw_redis g))
| shift_redis s : shifts g (mk_gw (gw_sys g) s).

Definition platform_step : list (proc gwE ended) * gw_world -> list (proc gwE ended) * gw_world -> Prop :=
  system_step gw_exec enters shifts.

Definition platform_initial (t0 : Z) (g : gw_world) : Prop := initial t0 (gw_sys g).

(** ** The invariant and the rely, on the part behind the gateway *)
Definition sound : gw_world -> Prop := on_part gw_sys (good minted).
Definition extends : gw_world -> gw_world -> Prop := part_grows gw_sys (grows minted).
#[export] Instance extends_preorder : PreOrder extends.
Proof. apply part_grows_preorder, _. Qed.

(** The columns that are written once; a deadline is stored to the microsecond. *)
Definition stored_columns (req : SubmitIntentRequest.t) (row : intent_row) : Prop :=
  ir_payload row = SubmitIntentRequest.Payload req /\
  varchar 50 (IntentType_String (SubmitIntentRequest.Type_ req)) = Ok (ir_type row) /\
  varchar 100 (SubmitIntentRequest.SubmitterId req) = Ok (ir_submitter_id row) /\
  (let c := PostgresStore.constraints_of (SubmitIntentRequest.Constraints req) in
   ir_priority row = IntentConstraints.Priority c /\ ir_max_retries row = IntentConstraints.MaxRetries c /\
   ir_idempotent row = IntentConstraints.Idempotent c /\ ir_deadline row = ts_in <$> IntentConstraints.Deadline c) /\
  varchar 130 (SubmitIntentRequest.Signature req) = Ok (ir_signature row) /\
  varchar 70 (SubmitIntentRequest.SubmitterPublicKey req) = Ok (ir_submitter_public_key row).

(** The intent of the JSON body of [r] is stored under [id]. *)
Definition accepted_intent (id : string) (r : Request) (w : world) : Prop :=
  exists httpReq, SubmitIntentHTTPRequest.unmarshal (Body r) = Some httpReq /\
    let req := translate (HTTPIntentType.parseIntentType (SubmitIntentHTTPRequest.Type_ httpReq)) httpReq in
    authentic req /\ stored_request id req w.

(** What a 201 to POST /intents promises. *)
Definition created_promise (ids : string * string) (r : Request) (code : option Z) (g : gw_world) : Prop :=
  post_intents r -> code = Some StatusCreated ->
  (exists t, GatewayFacts.authorized gw lib t r = true) /\ accepted_intent ids.1 r (gw_sys g).

(** What a thread that has ended promises. *)
Definition end_promise (e : ended) (g : gw_world) : Prop :=
  match e with
  | Answered ids r (Some w) => created_promise ids r (Some (rw_status w)) g
  | Delivered d Ack => handled d (gw_sys g)
  | Answered _ _ None | Delivered _ Nak | Handled => True
  end.
End platform.
