(* ===== verification/PlatformFacts.v ===== *)
(** * What the whole platform guarantees

    The obligation of every thread of Platform.v, from the obligations of
    PipelineSafe.v and rules for the gateway's events, and the theorems about
    every state that the platform reaches. *)
From S2P Require Import Prelude GoLib Effects Concurrent Sql Proto Float64 WalletProto Wallet Json Http Redis Ledger.
From S2P Require Import IntentDb System SystemRules IntentStore Crypto IntentHandler Gateway IntentFacts.
From S2P Require Import GatewayFacts GatewayIntents.
From S2P Require Import Outbox Scheduler Engine Validator Pipeline PipelineFacts PipelineSafe PipelineProps Platform.

Section obligations.
Context `{Postgres} `{NumericCodec} `{ProtoCodec} `{TimeText} `{Ed25519} `{Redis}.
Context (gw : Gateway) (lib : libraries) (minted : string -> string).
Abbreviation good := (good minted).
Abbreviation grows := (grows minted).
Abbreviation sound := (sound minted).
Abbreviation extends := (extends minted).
Abbreviation safe := (safe gw_exec sound extends).
Abbreviation sys_safe := (Concurrent.safe sys_exec good grows).
Abbreviation neutral := (all_neutral gw_exec sound extends).
Abbreviation sys_neutral := (all_neutral sys_exec good grows).
Abbreviation quiet := PipelineFacts.quiet.

(** ** Events *)
Lemma gw_exec_sys X (e : sysE X) o g :
  gw_exec _ (Sys e) o g = ((sys_exec _ e o (gw_sys g)).1, mk_gw (sys_exec _ e o (gw_sys g)).2 (gw_redis g)).
Proof. cbn. by destruct (sys_exec X e o (gw_sys g)). Qed.

(** Everything but what may change the tables, the stream or the wallet. *)
Definition gw_quiet {X} (e : gwE X) : Prop := match e with Sys e => quiet e | _ => True end.
Lemma same_behind g g' : gw_sys g' = gw_sys g -> sound g -> sound g' /\ extends g g'.
Proof. intros Hs Hg. unfold sound, extends, on_part, part_grows. rewrite Hs. by split. Qed.
Lemma gw_quiet_neutral {X} (e : gwE X) : gw_quiet e -> Concurrent.neutral gw_exec sound extends e.
Proof.
  intros Hq o g Hg. destruct e as [X e|k|k v ttl|k|k ttl| |]; cbn [gw_quiet] in Hq.
  1: { rewrite gw_exec_sys. by apply quiet_keeps. }
  all: apply same_behind; [|exact Hg]; cbn; try destruct (redis_INCR _ _ _); by destruct o.
Qed.

Lemma safe_gw {A X} (e : gwE X) (k : X -> proc gwE A) Q g :
  gw_quiet e -> (forall x g', extends g g' -> sound g' -> safe (k x) Q g') -> safe (Vis e k) Q g.
Proof.
  intros He Hk. apply safe_neutral; [apply _|by apply gw_quiet_neutral|]. intros o g' Hgr Hg.
  destruct (gw_exec X e o g') as [x g'']. eauto.
Qed.

Lemma safe_sys {A} (p : proc sysE A) Q g :
  sys_safe p Q (gw_sys g) -> safe (sys p) (fun a g' => Q a (gw_sys g')) g.
Proof. apply (safe_proc_map _ sys_exec gw_exec gw_sys (fun g w => mk_gw w (gw_redis g))); [apply gw_exec_sys|done]. Qed.

(** ** Calls of the intent service *)
Definition lasting {A} (P : result grpc_status A -> world -> Prop) : Prop :=
  (forall st w, P (Err st) w) /\ forall r w w', grows w w' -> P r w -> P r w'.

Lemma safe_interceptor {A} code_name name (p : proc sysE (result grpc_status A)) P w :
  lasting P -> good w -> (forall w', good w' -> sys_safe p P w') -> sys_safe (metricsInterceptor code_name name p) P w.
Proof.
  intros [_ HP] Hg Hp. apply safe_quiet; [done|]. intros start w1 _ Hg1. apply safe_bind; [apply _|done|].
  eapply safe_weaken; [|by apply Hp]. intros r w2 Hr. apply safe_quiet; [done|]. intros now w3 H23 _.
  apply safe_metric. intros w4 H34 _. apply safe_metric. intros w5 H45 _. apply safe_ret. intros w6 H56 _.
  eapply HP; [|exact Hr]. by do 3 (etransitivity; [eassumption|]).
Qed.

Lemma safe_rpc {A} (serve : proc sysE (result grpc_status A)) P g :
  lasting P -> (forall w', good w' -> sys_safe serve P w') -> safe (rpc serve) (fun r g' => P r (gw_sys g')) g.
Proof.
  intros [He HP] Hs. apply safe_gw; [done|]. intros [u|st] g1 _ Hg1; [|intros g2 _ _; apply He].
  apply safe_bind; [apply _|done|]. eapply safe_weaken; [|by apply safe_sys, Hs]. cbn beta. intros r g2 Hr.
  apply safe_gw; [done|]. intros [u'|st] g3 H23 _; intros g4 H34 _; [|apply He].
  eapply HP; [|exact Hr]. unfold extends, Concurrent.part_grows in *. by etransitivity.
Qed.

Lemma submit_lasting id req : lasting (submit_promise (X:=grpc_status) (Y:=SubmitIntentResponse.t) id req).
Proof. split; [done|]. intros r w w'. apply submit_promise_grows. Qed.

Lemma safe_submit_rpc ids req g :
  drawn minted ids ->
  safe (rpc (metricsInterceptor (code_name lib) "/intent.v1.IntentService/SubmitIntent" (SubmitIntent ids.1 ids.2 req)))
    (fun r g' => submit_promise ids.1 req r (gw_sys g')) g.
Proof.
  intros (Hid & Hob & Hm). apply safe_rpc; [apply submit_lasting|]. intros w Hg.
  apply safe_interceptor; [apply submit_lasting|done|]. intros w' Hg'. by apply safe_submit.
Qed.

(** ** Submissions *)
(** What a handler's answer promises; [None] is a panic. *)
Definition answer_promise (ids : string * string) (r : Request) (d : option responseWriterDelegator) (g : gw_world) : Prop :=
  match d with
  | Some d => code_of d = Some StatusCreated -> accepted_intent ids.1 r (gw_sys g)
  | None => True
  end.
Lemma answer_other ids r d g : code_of d <> Some StatusCreated -> answer_promise ids r (Some d) g.
Proof. intros Hne Hc. by destruct Hne. Qed.
Lemma error_other ids r c m w g : fresh w -> c <> StatusCreated -> answer_promise ids r (Some (writeError c m w)) g.
Proof. intros Hw Hc. apply answer_other. unfold writeError. rewrite writeJSON_code by done. congruence. Qed.
Lemma accepted_extends id r g g' : extends g g' -> accepted_intent id r (gw_sys g) -> accepted_intent id r (gw_sys g').
Proof. intros Hgr (q & Hq & Ha & Hs). exists q. split; [done|]. split; [done|]. by eapply stored_request_grows. Qed.

Lemma safe_forward ids sg q r w g :
  drawn minted ids -> fresh w -> sound g -> SubmitIntentHTTPRequest.unmarshal (Body r) = Some q ->
  safe (forward_intent lib ids.1 ids.2 sg
          (translate (HTTPIntentType.parseIntentType (SubmitIntentHTTPRequest.Type_ q)) q) w) (answer_promise ids r) g.
Proof.
  intros Hids Hw Hg Hq. unfold forward_intent. apply safe_bind; [apply _|done|].
  eapply safe_weaken; [|by apply safe_submit_rpc]. cbn beta. intros [resp|st] g1 Hp.
  - destruct (Hp eq_refl) as [Ha Hs]. cbv zeta.
    assert (Hyes : forall d g2, extends g1 g2 -> safe (respond d) (answer_promise ids r) g2).
    { intros d g2 H12 g3 H23 _ _. apply (accepted_extends _ _ g1); [by etransitivity|]. by exists q. }
    destruct (encode_json _); [case_bool_decide|]; [by apply Hyes| |by apply Hyes].
    apply safe_gw; [done|]. intros x g2 H12 _. by apply Hyes.
  - intros g2 _ _. apply answer_other. by apply grpc_error_code.
Qed.

Lemma safe_submitIntent ids r w g :
  drawn minted ids -> fresh w -> sound g -> safe (submitIntent lib ids r w) (answer_promise ids r) g.
Proof.
  intros Hids Hw Hg. unfold submitIntent.
  destruct (BodyErr r); [intros g' _ _; by apply error_other|].
  destruct (SubmitIntentHTTPRequest.unmarshal (Body r)) as [q|] eqn:Hq; [|intros g' _ _; by apply error_other].
  cbv zeta. case_match; [intros g' _ _; by apply error_other|].
  case_bool_decide; [by apply safe_forward|]. apply safe_gw; [done|].
  intros [[|c s]|] g1 _ Hg1; [by apply safe_forward| |by apply safe_forward].
  intros g2 _ _. apply answer_other. unfold cache_hit, code_of, fresh in *. destruct w as [[c0 h b] st].
  cbn in *. by subst c0.
Qed.

(** ** The other routes touch nothing *)
Lemma neutral_sys {A} (p : proc sysE A) : sys_neutral p -> neutral (sys p).
Proof. apply (all_neutral_map _ sys_exec gw_exec gw_sys (fun g w => mk_gw w (gw_redis g))); [apply gw_exec_sys|done]. Qed.
Lemma neutral_vis {A X} (e : gwE X) (k : X -> proc gwE A) : gw_quiet e -> (forall x, neutral (k x)) -> neutral (Vis e k).
Proof. intros He Hk. split; [by apply gw_quiet_neutral|done]. Qed.
Lemma sys_neutral_vis {A X} (e : sysE X) (k : X -> proc sysE A) :
  quiet e -> (forall x, sys_neutral (k x)) -> sys_neutral (Vis e k).
Proof. intros He Hk. split; [by apply quiet_neutral|done]. Qed.

Lemma neutral_rpc {A} name (serve : proc sysE (result grpc_status A)) :
  sys_neutral serve -> neutral (rpc (metricsInterceptor (code_name lib) name serve)).
Proof.
  intros Hs. apply neutral_vis; [done|]. intros [u|st]; [|done]. apply all_neutral_bind.
  - apply neutral_sys, sys_neutral_vis; [done|]. intros start. apply all_neutral_bind; [done|]. intros r.
    apply sys_neutral_vis; [done|]. intros now. do 2 (apply sys_neutral_vis; [done|]; intros _). done.
  - intros r. by apply neutral_vis.
Qed.
Lemma neutral_get req : sys_neutral (GetIntent req).
Proof.
  unfold GetIntent. case_bool_decide; [done|]. apply all_neutral_bind; [|done]. by apply sys_neutral_vis.
Qed.
Lemma neutral_list req : sys_neutral (ListIntents req).
Proof.
  apply all_neutral_bind; [|done]. apply sys_neutral_vis; [done|]. intros [n|e]; [|done].
  apply sys_neutral_vis; [done|]. by intros [rows|e].
Qed.

Definition harmless_route (h : Handler) : Prop := forall r w, neutral (h r w).
Lemma health_harmless : harmless_route (handleHealth lib).
Proof. intros r w. unfold handleHealth. case_match; [done|]. by apply neutral_vis. Qed.
Lemma login_harmless : harmless_route (handleLogin gw).
Proof.
  intros r w. unfold handleLogin. case_match; [done|]. case_match; [|done]. case_match; [done|].
  apply all_neutral_bind; [|done]. by apply neutral_vis.
Qed.
Lemma ledger_harmless : harmless_route handleAPILedger.
Proof.
  intros r w. unfold handleAPILedger. case_match; [done|]. apply neutral_vis; [done|]. by intros [[[c e]|]|e].
Qed.
Lemma by_id_harmless : harmless_route (handleIntentByID lib).
Proof.
  intros r w. unfold handleIntentByID. destruct (negb _); [done|]. destruct (path_after 9 (Path r)) as [id|]; [|done].
  destruct (bool_decide (id = ""%string)); [done|]. apply all_neutral_bind; [apply neutral_rpc, neutral_get|].
  intros [resp|st]; [|done]. by destruct (GetIntentResponse.Intent resp).
Qed.
Lemma list_harmless : harmless_route (listIntents lib).
Proof.
  intros r w. apply all_neutral_bind; [apply neutral_rpc, neutral_list|]. by intros [resp|st].
Qed.

Lemma mux_route_in {A} (l : list (string * A)) r h : mux_route l r = RHandler h -> exists pat, (pat, h) ∈ l.
Proof.
  unfold mux_route. intros Hr. case_match eqn:Hm; [|by repeat case_match].
  case_bool_decide; [|done]. injection Hr as ->. apply mux_match_in in Hm as (pat & Hin & _). by exists pat.
Qed.

(** Whatever the route, a request submits an intent or does no harm. *)
Lemma mux_cases metrics ids r w :
  mux gw lib metrics ids r w = submitIntent lib ids r w \/ neutral (mux gw lib metrics ids r w).
Proof.
  unfold mux. case_bool_decide; [by right|]. destruct (mux_route _ r) as [h|path|] eqn:Hr; [|by right..].
  apply mux_route_in in Hr as [pat Hin]. apply list_elem_of_In in Hin. cbn [In routes] in Hin.
  destruct Hin as [[= _ <-]|[[= _ <-]|[[= _ <-]|[[= _ <-]|[[= _ <-]|[[= _ <-]|[[= _ <-]|[]]]]]]]].
  - by right.
  - right. apply ledger_harmless.
  - right. apply login_harmless.
  - right. apply health_harmless.
  - by right.
  - unfold handleIntents. case_bool_decide; [by left|]. right. case_bool_decide; [apply list_harmless|done].
  - right. apply by_id_harmless.
Qed.

(** ** Through the middleware *)
Lemma rate_headers_fresh n w : fresh w -> fresh (rate_headers n w).
Proof. unfold fresh, rate_headers. destruct w as [[c h b] s]. cbn. by intros ->. Qed.
Lemma refusal_code n m w :
  fresh w -> code_of (writeError StatusTooManyRequests m (set_header "Retry-After" n w)) = Some StatusTooManyRequests.
Proof.
  intros Hw. unfold writeError. rewrite writeJSON_code; [done|]. unfold fresh in *. destruct w as [[c h b] s].
  cbn in *. by subst c.
Qed.

Lemma safe_limiter next r w Q g :
  fresh w -> sound g ->
  (forall w' g', fresh w' -> sound g' -> safe (next r w') Q g') ->
  (forall d g', code_of d = Some StatusTooManyRequests -> Q (Some d) g') ->
  safe (rateLimitMiddleware gw next r w) Q g.
Proof.
  intros Hw Hg Hn Hr. unfold rateLimitMiddleware. case_bool_decide; [by apply Hn|]. case_match; [|by apply Hn].
  apply safe_gw; [done|]. intros now g1 _ Hg1. apply safe_gw; [done|]. intros incr g2 _ Hg2.
  assert (Hc : forall n g', sound g' -> safe (limit_count next n r w) Q g').
  { intros n g' Hg'. unfold limit_count. cbv zeta. pose proof (rate_headers_fresh n w Hw).
    destruct (10 <? n); [|by apply Hn]. intros g3 _ _. by apply Hr, refusal_code. }
  destruct incr as [n|e]; [|by apply Hn]. unfold limit_result. case_match; [|by apply Hc].
  apply safe_gw; [done|]. intros u g3 _ Hg3. by apply Hc.
Qed.

Lemma safe_auth next r w Q g :
  fresh w -> sound g ->
  (forall r' g', sound g' -> (auth_exempt (Path r) = false -> exists t, authorized gw lib t r = true) ->
     Body r' = Body r -> Method r' = Method r -> Path r' = Path r -> EscapedPath r' = EscapedPath r ->
     safe (next r' w) Q g') ->
  (forall d g', code_of d = Some StatusUnauthorized -> Q (Some d) g') ->
  safe (authMiddleware gw lib next r w) Q g.
Proof.
  intros Hw Hg Hn Hr. unfold authMiddleware. destruct (auth_exempt (Path r)) eqn:Hex; [by apply Hn|].
  unfold authorized in Hn. set (h := header_get r "Authorization") in *.
  assert (He : forall m g', safe (respond (writeError StatusUnauthorized m w)) Q g').
  { intros m g' g2 _ _. apply Hr. unfold writeError. by rewrite writeJSON_code. }
  destruct (bool_decide (h = "")); [apply He|]. destruct (has_prefix h "Bearer "); [|apply He].
  cbn [negb orb andb] in *. apply safe_bind; [apply _|done|]. unfold validateJWT.
  destruct (token_claims gw lib (trim_prefix h "Bearer ")) as [c|e]; [|intros g1 _ _; apply He].
  apply safe_gw; [done|]. intros now g1 _ _ g2 _ Hg2. destruct (Z.ltb_spec (JWTClaims.Exp c) (unix now)); [apply He|].
  apply Hn; [done| |done..]. intros _. exists now. by apply Z.leb_le.
Qed.

Lemma safe_logging next r w Q g :
  sound g ->
  safe (next r (mk_delegator w StatusOK))
    (fun d g' => forall g2, extends g' g2 -> sound g2 -> Q (inner <$> d) g2) g ->
  safe (loggingMiddleware next r w) Q g.
Proof.
  intros Hg Hn. unfold loggingMiddleware. apply safe_gw; [done|]. intros start g1 H01 Hg1. apply safe_bind; [apply _|done|].
  eapply safe_weaken; [|eapply safe_mono; [apply _|exact H01|exact Hn]]. cbn beta. intros [d|] g2 HQ; [|exact HQ].
  apply safe_gw; [done|]. intros now g3 H23 Hg3.
  assert (Hend : forall g4, extends g3 g4 -> safe (Ret (Some (inner d))) Q g4).
  { intros g4 H34 g5 H45 Hg5. apply HQ; [|done]. by do 2 (etransitivity; [eassumption|]). }
  destruct (negb _ && negb _); [|by apply Hend].
  apply safe_gw; [done|]. intros _ g4 H34 _. apply safe_gw; [done|]. intros _ g5 H45 _. apply Hend. by etransitivity.
Qed.

(** ** Threads *)
#[local] Instance post_intents_dec r : Decision (post_intents r).
Proof. unfold post_intents. apply _. Defined.

Lemma safe_serve metrics ids r g :
  drawn minted ids -> sound g ->
  safe (serve_http gw lib metrics ids r new_response) (fun a => end_promise gw lib (Answered ids r a)) g.
Proof.
  intros Hids Hg. destruct (decide (post_intents r)) as [Hr|Hr].
  - apply safe_logging; [done|]. pose proof Hr as (Hm & Hp & He).
    assert (Hother : forall c d g', code_of d = Some c -> c <> StatusCreated ->
      forall g2, extends g' g2 -> sound g2 -> end_promise gw lib (Answered ids r (Some (inner d))) g2).
    { intros c d g' Hc Hne g2 _ _ _ [= Hst]. unfold rw_status, code_of in *. rewrite Hc in Hst. by cbn in Hst. }
    apply safe_auth; [done|done| |].
    + intros r' g1 Hg1 Hauth Hb Hm' Hp' He'. apply safe_limiter; [done|done| |].
      * intros w' g2 Hw' Hg2. rewrite mux_intents by (split_and!; congruence).
        eapply safe_weaken; [|by apply safe_submitIntent]. intros [d|] g3 Hans; [|done].
        intros g4 H34 _ _ [= Hst]. split; [by apply Hauth; rewrite Hp|].
        apply (accepted_extends _ _ g3); [done|]. unfold answer_promise, accepted_intent in Hans. rewrite Hb in Hans.
        apply Hans. unfold code_of. unfold rw_status in Hst. destruct (rw_code (inner d)); cbn in Hst; by subst.
      * intros d g' Hc. by eapply Hother.
    + intros d g' Hc. by eapply Hother.
  - eapply safe_weaken with (Q := fun _ _ => True); [by intros [w|] g' _|].
    apply safe_logging; [done|]. apply safe_auth; [done|done| |done]. intros r' g1 Hg1 _ _ _ _ _.
    apply safe_limiter; [done|done| |done]. intros w' g2 Hw' Hg2.
    destruct (mux_cases metrics ids r' w') as [->|Hmux].
    + eapply safe_weaken; [|by apply safe_submitIntent]. done.
    + eapply safe_weaken; [|by apply safe_all_neutral]. done.
Qed.

Lemma end_promise_extends e g g' : extends g g' -> end_promise gw lib e g -> end_promise gw lib e g'.
Proof.
  intros Hgr. destruct e as [ids r [w|]|d []|]; [|done| |done..]; [|by apply (handled_grows minted _ _ _ Hgr)]. intros Hp Hr Hc. destruct (Hp Hr Hc) as [Ha Hs].
  split; [done|]. by eapply accepted_extends.
Qed.

Lemma enters_safe g p : sound g -> enters gw lib minted g p -> safe p (end_promise gw lib) g.
Proof.
  intros Hg Hp. destruct Hp as [metrics ids r Hids|p Hp|d arg m Hm _]; (apply safe_bind; [apply _|done|]).
  - eapply safe_weaken; [|by apply safe_serve]. cbn beta. intros a g1 Ha g2 Hgr _. by eapply end_promise_extends.
  - eapply safe_weaken; [|by apply safe_sys, background_safe]. by intros u g1 _.
  - eapply safe_weaken; [|by apply safe_sys, safe_message]. cbn beta. intros a g1 Ha g2 Hgr _.
    destruct a; [|done]. eapply (handled_grows minted); [exact Hgr|by apply Ha].
Qed.

Lemma shifts_keep g g' : sound g -> shifts g g' -> sound g' /\ extends g g'.
Proof. intros Hg Hs. destruct Hs as [w Hw|s]; [by apply moves_keep|by apply same_behind]. Qed.

Abbreviation platform_safe := (pool_safe gw_exec sound extends (end_promise gw lib)).
Lemma platform_safe_steps c c' :
  platform_safe c -> rtc (platform_step gw lib minted) c c' -> platform_safe c' /\ extends c.2 c'.2.
Proof.
  intros Hc Hr.
  exact (system_safe gw_exec sound extends _ _ _ c c' enters_safe shifts_keep Hc Hr).
Qed.

Lemma platform_invariant t0 g0 ps g :
  platform_initial t0 g0 -> rtc (platform_step gw lib minted) ([], g0) (ps, g) -> platform_safe (ps, g).
Proof.
  intros Hi Hr. apply platform_safe_steps in Hr as [Hc _]; [exact Hc|]. split; [by eapply initial_good|constructor].
Qed.

(** ** Accepted requests *)
Lemma stored_request_columns id req w :
  stored_request id req w -> exists row, intents (w_db w) !! id = Some row /\ stored_columns req row.
Proof.
  intros (now & row0 & row & Hrow0 & Hr & Hs). exists row. split; [done|]. unfold row_in in Hrow0.
  apply result_bind_Ok in Hrow0 as (ty & Hty & Hrow0). apply result_bind_Ok in Hrow0 as (st & _ & Hrow0).
  apply result_bind_Ok in Hrow0 as (sub & Hsub & Hrow0). apply result_bind_Ok in Hrow0 as (pay & Hp & Hrow0).
  apply result_bind_Ok in Hrow0 as (sg & Hsg & Hrow0). apply result_bind_Ok in Hrow0 as (pk & Hpk & Hrow0).
  injection Hrow0 as <-. destruct Hs as (Ety & Esub & Ep & Epr & Emr & Eid & Edl & Esg & Epk & _). unfold stored_columns.
  rewrite Ety, Esub, Ep, Epr, Emr, Eid, Edl, Esg, Epk. split_and!; [|done..]. unfold bytea in Hp. cbn in Hp. by case_match; [|injection Hp].
Qed.

(** What becomes of an accepted request: its intent is stored as it was sent and
    announced, and if it is a completed transfer it has been paid once. *)
Definition fulfilled (id : string) (req : SubmitIntentRequest.t) (w : world) : Prop :=
  exists row, intents (w_db w) !! id = Some row /\ stored_columns req row /\ announced w id /\
    (ir_status row = COMPLETED -> ir_type row = TRANSFER ->
     exists t, t ∈ wallet_transactions (w_wallet w) /\ pays id (SubmitIntentRequest.Payload req) t /\
       forall t', t' ∈ wallet_transactions (w_wallet w) -> tx_reference_id t' = tx_reference_id t -> t' = t).

Lemma stored_fulfilled id req w : good w -> stored_request id req w -> fulfilled id req w.
Proof.
  intros Hg (row & Hr & Hc)%stored_request_columns. exists row. split_and!; [done|done| |].
  - apply (good_announced _ _ Hg). by exists row.
  - destruct Hc as [Hp _]. intros Hst Hty. rewrite <-Hp. by apply (good_paid_once minted w id row).
Qed.

End obligations.
