(* ===== verification/Acks.v ===== *)
(** * The platform with acknowledged deliveries

    scheduler/main.go, execution-engine/main.go and validator/main.go subscribe
    with a durable name and manual acknowledgement: the stream delivers a message
    to a consumer again until a handler's Ack has arrived, and not afterwards.
    The platform of Platform.v, which may deliver everything at any time, has all
    runs of this system; here are the deliveries that are still due. *)
From S2P Require Import Prelude GoLib Effects Concurrent Sql Proto Float64 WalletProto Wallet Json Http Redis Ledger.
From S2P Require Import IntentDb System IntentStore Crypto IntentHandler Gateway IntentFacts GatewayFacts GatewayIntents.
From S2P Require Import Outbox Scheduler Engine Validator Pipeline PipelineFacts PipelineSafe Platform PlatformFacts.

Section acks.
Context `{Postgres} `{NumericCodec} `{ProtoCodec} `{TimeText} `{Ed25519} `{Redis}.
Context (gw : Gateway) (lib : libraries) (minted : string -> string).

(** What may start while the consumers have acknowledged [acked]. *)
Inductive due (acked : gset delivery) (g : gw_world) : proc gwE ended -> Prop :=
| due_request metrics ids r : drawn minted ids -> due acked g (request_thread gw lib metrics ids r)
| due_background p : background minted p -> due acked g (background_thread p)
| due_delivery d arg m :
    w_nats (gw_sys g) !! d.2 = Some m -> on_subject (listens_to d.1) m -> d ∉ acked ->
    due acked g (delivery_thread d arg m).

(** The threads, the acknowledged deliveries, and the world. *)
Definition acks_state : Type := list (proc gwE ended) * gset delivery * gw_world.

(** A delivery that has ended answers the stream; a thread that crashes, also
    just before its answer arrives, leaves its message to be delivered again. *)
Inductive acked_step : acks_state -> acks_state -> Prop :=
| acked_platform ps acked g ps' g' :
    system_step gw_exec (due acked) shifts (ps, g) (ps', g') -> acked_step (ps, acked, g) (ps', acked, g')
| acked_answer ps acked g i d a :
    ps !! i = Some (Ret (Delivered d a)) ->
    acked_step (ps, acked, g) (delete i ps, match a with Ack => {[d]} ∪ acked | Nak => acked end, g).

Lemma due_enters acked g p : due acked g p -> enters gw lib minted g p.
Proof. intros []; by constructor. Qed.

Lemma due_platform acked c c' :
  system_step gw_exec (due acked) shifts c c' -> platform_step gw lib minted c c'.
Proof.
  intros [c1 c2 Hev|ps g p Hp|ps g i|ps g g' Hm];
    [by apply system_event|by eapply system_spawn, due_enters|apply system_crash|by apply system_env].
Qed.

Lemma acked_step_platform s s' :
  acked_step s s' -> platform_step gw lib minted (s.1.1, s.2) (s'.1.1, s'.2).
Proof. intros [ps acked g ps' g' Hs|ps acked g i d a Hi]; [by eapply due_platform|apply system_crash]. Qed.

(** Every run is a run of the platform: what holds in all of its states holds
    here. *)
Lemma acked_run_platform ps acked g ps' acked' g' :
  rtc acked_step (ps, acked, g) (ps', acked', g') -> rtc (platform_step gw lib minted) (ps, g) (ps', g').
Proof.
  enough (Hgen : forall s s', rtc acked_step s s' -> rtc (platform_step gw lib minted) (s.1.1, s.2) (s'.1.1, s'.2)).
  { apply (Hgen (ps, acked, g) (ps', acked', g')). }
  induction 1 as [s|s1 s2 s3 Hs _ IH]; [reflexivity|]. eapply rtc_l; [by apply acked_step_platform|exact IH].
Qed.

(** ** What an acknowledgement means *)
Abbreviation platform_safe := (pool_safe gw_exec (sound minted) (extends minted) (end_promise gw lib)).
Definition acks_sound (s : acks_state) : Prop :=
  platform_safe (s.1.1, s.2) /\ forall d, d ∈ s.1.2 -> handled d (gw_sys s.2).

Lemma acked_step_sound s s' : acked_step s s' -> acks_sound s -> acks_sound s' /\ grows minted (gw_sys s.2) (gw_sys s'.2).
Proof.
  intros Hs [Hsafe Hacked]. pose proof (rtc_once _ _ (acked_step_platform _ _ Hs)) as Hp.
  apply (platform_safe_steps gw lib minted) in Hp as [Hsafe' Hgr]; [|exact Hsafe]. split; [|exact Hgr]. split; [exact Hsafe'|].
  destruct Hs as [ps acked g ps' g' Hs|ps acked g i d a Hi]; cbn [fst snd] in *; intros e He.
  - eapply (handled_grows minted); [exact Hgr|by apply Hacked].
  - destruct a; [|by apply Hacked]. apply elem_of_union in He as [->%elem_of_singleton|He]; [|by apply Hacked].
    apply list_elem_of_lookup_2 in Hi.
    exact (pool_finished gw_exec (sound minted) (extends minted) (end_promise gw lib) _ ps g Hsafe Hi).
Qed.

Lemma acked_steps_sound s s' :
  rtc acked_step s s' -> acks_sound s -> acks_sound s' /\ grows minted (gw_sys s.2) (gw_sys s'.2).
Proof.
  induction 1 as [s|s1 s2 s3 Hs _ IH]; intros Hi; [split; [done|reflexivity]|].
  destruct (acked_step_sound _ _ Hs Hi) as [Hi2 Hg]. destruct (IH Hi2) as [Hi3 Hg']. split; [done|]. by etransitivity.
Qed.

(** In every reachable state an acknowledged message is in the stream, and the
    intent of an acknowledged submission is past PENDING. *)
Lemma acks_invariant t0 g0 s :
  platform_initial t0 g0 -> rtc acked_step ([], ∅, g0) s -> acks_sound s.
Proof.
  intros Hi Hr. apply acked_steps_sound in Hr as [Hs _]; [exact Hs|]. split; [|done].
  split; [by eapply initial_good|constructor].
Qed.

Lemma acked_in_stream s d : acks_sound s -> d ∈ s.1.2 -> (d.2 < length (w_nats (gw_sys s.2)))%nat.
Proof. intros [_ Ha] (m & Hm & _)%Ha. by eapply lookup_lt_Some. Qed.

Lemma due_steps acked ps g ps' g' :
  rtc (system_step gw_exec (due acked) shifts) (ps, g) (ps', g') -> rtc acked_step (ps, acked, g) (ps', acked, g').
Proof.
  enough (Hgen : forall c c', rtc (system_step gw_exec (due acked) shifts) c c' ->
    rtc acked_step (c.1, acked, c.2) (c'.1, acked, c'.2)) by apply (Hgen (ps, g) (ps', g')).
  induction 1 as [c|c1 c2 c3 Hs _ IH]; [reflexivity|]. eapply rtc_l; [|exact IH].
  apply acked_platform. by destruct c1, c2.
Qed.
End acks.
