(* ===== verification/PlatformLive.v ===== *)
(** * No accepted intent is stuck before it is scheduled

    Runs of the platform in which the stream delivers nothing that was
    acknowledged (Acks.v): from every state an intent that is PENDING can still
    be settled, and so can one that is SCHEDULED while its event, its submission
    or its task is still to come. *)
From S2P Require Import Prelude GoLib Effects Concurrent Sql Proto Float64 WalletProto Wallet Json Http Redis Ledger.
From S2P Require Import IntentDb System SystemRules IntentStore Crypto IntentHandler Gateway IntentFacts GatewayFacts GatewayIntents.
From S2P Require Import Outbox Scheduler Engine Validator Pipeline PipelineFacts PipelineSafe PipelineProps ServiceFacts PipelineLive.
From S2P Require Import Platform PlatformFacts Acks.

Section live.
Context `{Postgres} `{NumericCodec} `{ProtoCodec} `{TimeText} `{Ed25519} `{Redis}.
Context (gw : Gateway) (lib : libraries) (minted : string -> string).
Abbreviation good := (good minted).
Abbreviation grows := (grows minted).
Abbreviation steps := (rtc (acked_step gw lib minted)).
Abbreviation background_runs := (rtc (system_step sys_exec (fun _ => background minted) moves)).

(** ** Handlers that no message starts
    A state of theirs, next to the threads [ps] and over the cache. *)
Definition beside (ps : list (proc gwE ended)) (cache : keyspace) (c : list (proc sysE unit) * world)
  : list (proc gwE ended) * gw_world :=
  (map background_thread c.1 ++ ps, mk_gw c.2 cache).

Lemma beside_step acked ps cache c c' :
  system_step sys_exec (fun _ => background minted) moves c c' ->
  system_step gw_exec (due gw lib minted acked) shifts (beside ps cache c) (beside ps cache c').
Proof.
  intros Hs. destruct Hs as [c c' Hev|qs w p Hp|qs w i|qs w w' Hm]; unfold beside; cbn [fst snd].
  - destruct Hev as [qs w i X e k o Hi]. cbn [fst snd].
    assert (Hlt : (i < length (map background_thread qs))%nat) by (rewrite length_map; by eapply lookup_lt_Some).
    assert (Hthread : (map background_thread qs ++ ps) !! i
      = Some (Vis (Sys e) (fun x => background_thread (k x)))).
    { rewrite lookup_app_l by done. change (map background_thread qs) with (background_thread <$> qs).
      by rewrite list_lookup_fmap, Hi. }
    pose proof (pool_event gw_exec _ (mk_gw w cache) i X (Sys e) _ o Hthread) as Hstep.
    rewrite gw_exec_sys in Hstep. cbn [fst snd gw_sys gw_redis] in Hstep. rewrite insert_app_l in Hstep by done.
    change (map background_thread (<[i := k (sys_exec X e o w).1]> qs))
      with (background_thread <$> <[i := k (sys_exec X e o w).1]> qs).
    rewrite list_fmap_insert. by apply system_event.
  - by apply system_spawn, due_background.
  - destruct (decide (i < length qs)%nat) as [Hlt|Hge].
    + replace (map background_thread (delete i qs) ++ ps) with (delete i (map background_thread qs ++ ps)); [apply system_crash|].
      rewrite delete_take_drop, take_app_le, drop_app_le by (rewrite length_map; lia).
      rewrite app_assoc. f_equal. rewrite delete_take_drop, map_app. f_equal; [apply firstn_map|apply skipn_map].
    + rewrite delete_take_drop, take_ge, drop_ge, app_nil_r by lia.
      apply system_env, (shift_redis (mk_gw w cache) cache).
  - apply system_env. by apply (shift_sys (mk_gw w cache)).
Qed.

Lemma background_beside ps acked w w' cache :
  background_runs ([], w) ([], w') -> steps (ps, acked, mk_gw w cache) (ps, acked, mk_gw w' cache).
Proof.
  intros Hr. apply (due_steps gw lib minted acked).
  enough (Hgen : forall c c', background_runs c c' ->
    rtc (system_step gw_exec (due gw lib minted acked) shifts) (beside ps cache c) (beside ps cache c'))
    by exact (Hgen _ _ Hr).
  clear Hr. induction 1 as [c|c1 c2 c3 Hs _ IH]; [reflexivity|]. eapply rtc_l; [by apply beside_step|exact IH].
Qed.

(** ** One delivery, from its start to its answer *)
Lemma delivery_run ps acked g d arg m (Q : world -> Prop) :
  w_nats (gw_sys g) !! d.2 = Some m -> on_subject (listens_to d.1) m -> d ∉ acked ->
  succeeds sys_exec (on_message d.1 arg m) (fun _ => Q) (gw_sys g) ->
  exists acked' w', steps (ps, acked, g) (ps, acked', mk_gw w' (gw_redis g)) /\ acked' ⊆ {[d]} ∪ acked /\ Q w'.
Proof.
  intros Hm Hs Hd HQ. set (w' := run_state sys_exec (on_message d.1 arg m) [] (gw_sys g)).
  set (a := run_result sys_exec (on_message d.1 arg m) [] (gw_sys g)). set (t := delivery_thread d arg m).
  assert (Hend : run_result gw_exec t [] g = Delivered d a /\ run_state gw_exec t [] g = mk_gw w' (gw_redis g)).
  { unfold t, delivery_thread, run_result, run_state, mbind, proc_mbind. rewrite run_bind, run_sys. by split. }
  destruct Hend as [Hres Hst].
  pose proof (run_system gw_exec (due gw lib minted acked) shifts (t :: ps) 0 t [] g eq_refl) as Hrun.
  rewrite Hres, Hst in Hrun. cbn in Hrun.
  exists (match a with Ack => {[d]} ∪ acked | Nak => acked end), w'. split_and!; [|destruct a; set_solver|exact HQ].
  eapply rtc_l; [apply acked_platform, system_spawn; by apply (due_delivery _ _ _ _ _ d arg m)|].
  etransitivity; [exact (due_steps gw lib minted acked _ _ _ _ Hrun)|].
  apply rtc_once. by apply (acked_answer gw lib minted (Ret (Delivered d a) :: ps) acked _ 0 d a).
Qed.

(** ** What is still to come for an intent *)
Inductive owed (u : string) (acked : gset delivery) (w : world) : Prop :=
(** Its event waits in the outbox. *)
| owed_event k o :
    outbox_events (w_db w) !! k = Some o -> announces u (content o) -> waiting o -> owed u acked w
(** Its event is in the stream and the scheduler has not acknowledged it. *)
| owed_submission n m :
    w_nats w !! n = Some m -> announces u m -> (AtScheduler, n) ∉ acked -> owed u acked w
(** Its task is in the stream and the engine has not acknowledged it. *)
| owed_task n m i :
    w_nats w !! n = Some m -> on_subject (listens_to AtEngine) m -> unmarshal_intent (Data m) = Some i ->
    Intent.Id i = u -> (AtEngine, n) ∉ acked -> owed u acked w.

(** A PENDING intent is owed its event, unless the worker gave it up. *)
Lemma pending_owed ps acked g u r :
  acks_sound gw lib minted (ps, acked, g) ->
  intents (w_db (gw_sys g)) !! u = Some r -> ir_status r = PENDING ->
  (forall k o, outbox_events (w_db (gw_sys g)) !! k = Some o -> announces u (content o) -> waiting o) ->
  (exists n m, w_nats (gw_sys g) !! n = Some m /\ announces u m /\ (AtScheduler, n) ∉ acked) \/
  (exists k o, outbox_events (w_db (gw_sys g)) !! k = Some o /\ announces u (content o) /\ waiting o).
Proof.
  intros [[Hg _] Hacked] Hu Hst Hout.
  destruct (good_announced _ _ Hg u) as (m & Hm & [Hn|(k & o & Hk & <-)]); [by exists r| |right; exists k, o; eauto].
  left. apply list_elem_of_lookup_1 in Hn as [n Hn]. exists n, m. split_and!; [done..|]. intros Hd.
  destruct (Hacked _ Hd) as (m' & Hm' & Hp). cbn [fst snd] in *. assert (m' = m) as -> by congruence.
  destruct Hm as (i & Hi & <- & _). destruct (Hp eq_refl eq_refl i Hi) as (r' & Hr' & Hpast). congruence.
Qed.

(** ** From the stream to the end *)
Context (reencodes : forall data i, unmarshal_intent data = Some i ->
  is_ok (marshal_intent (Intent.set_Status INTENT_STATUS_SCHEDULED i)) = true).
Abbreviation acks_sound := (acks_sound gw lib minted).

(** Where the platform can go from here. *)
Definition can_settle (u : string) (r : intent_row) (s : acks_state) : Prop :=
  exists acked' g', steps s (s.1.1, acked', g') /\ gw_redis g' = gw_redis s.2 /\ settled_since u r (gw_sys g').

Lemma task_settles ps acked g n m i r0 r :
  acks_sound (ps, acked, g) ->
  w_nats (gw_sys g) !! n = Some m -> on_subject (listens_to AtEngine) m -> unmarshal_intent (Data m) = Some i ->
  (AtEngine, n) ∉ acked -> intents (w_db (gw_sys g)) !! Intent.Id i = Some r -> ir_status r = SCHEDULED ->
  same_request r0 r -> can_settle (Intent.Id i) r0 (ps, acked, g).
Proof.
  intros Hs Hn Hsub Hi Hd Hr Hst Hsame.
  assert (Hid : uuid_in (Intent.Id i) = Some (Intent.Id i)).
  { destruct Hs as [[Hg _] _]. apply (good_nats _ _ Hg m (list_elem_of_lookup_2 _ _ _ Hn) i Hi). }
  assert (Hstat : has_status [SCHEDULED] (Intent.Id i) (gw_sys g)).
  { exists r. split; [done|]. rewrite Hst. left. }
  destruct (delivery_run ps acked g (AtEngine, n) "tx" m (has_status [COMPLETED; FAILED] (Intent.Id i)) Hn Hsub Hd)
    as (acked' & w' & Hrun & _ & Hset).
  { apply succeeds_bind. eapply succeeds_mono; [|by apply (engine_succeeds "tx" m i)]. intros a w1 Hw1. exact Hw1. }
  exists acked', (mk_gw w' (gw_redis g)). split_and!; [exact Hrun|done|].
  destruct (acked_steps_sound _ _ _ _ _ Hrun Hs) as [_ Hgr]. cbn [fst snd gw_sys] in Hgr.
  destruct (settled_by_growth minted _ _ _ _ Hgr Hr Hset) as (r' & Hr' & Hs' & Hst'). exists r'. split_and!; [done| |done].
  by eapply same_request_trans.
Qed.

Lemma submission_settles ps acked g n m u r0 r :
  acks_sound (ps, acked, g) ->
  w_nats (gw_sys g) !! n = Some m -> announces u m -> (AtScheduler, n) ∉ acked ->
  intents (w_db (gw_sys g)) !! u = Some r -> ir_status r ∈ [PENDING; SCHEDULED] -> same_request r0 r ->
  can_settle u r0 (ps, acked, g).
Proof.
  intros Hs Hn (i & Hi & <- & Hsub) Hd Hr Hst Hsame.
  assert (Hid : uuid_in (Intent.Id i) = Some (Intent.Id i)).
  { destruct Hs as [[Hg _] _]. apply (good_nats _ _ Hg m (list_elem_of_lookup_2 _ _ _ Hn) i Hi). }
  pose proof (reencodes _ _ Hi) as Hok. destruct (marshal_intent _) as [data|e] eqn:Hdata; [|done].
  destruct (delivery_run ps acked g (AtScheduler, n) "" m (moved_on i (length (w_nats (gw_sys g)))) Hn
    (announced_subject m i Hi Hsub) Hd (scheduler_succeeds i r Hid data Hdata m _ Hi Hr Hst))
    as (acked1 & w1 & Hrun & Hsub1 & Hmoved).
  destruct (acked_steps_sound _ _ _ _ _ Hrun Hs) as [Hs1 Hgr]. cbn [fst snd gw_sys] in Hgr.
  destruct (grows_intents _ _ _ Hgr _ _ Hr) as (r1 & Hr1 & Hsame1).
  assert (Hsame2 : same_request r0 r1) by (by eapply same_request_trans).
  destruct Hmoved as [(r' & Hr' & Hf%list_elem_of_singleton)|[(r' & Hr' & Hf%list_elem_of_singleton) (d & pos & Hdd & Hpos & Htask)]].
  - exists acked1, (mk_gw w1 (gw_redis g)). split_and!; [exact Hrun|done|]. exists r1. split_and!; [done..|].
    replace r1 with r' by congruence. rewrite Hf. right. left.
  - assert (Hnew : (AtEngine, pos) ∉ acked1).
    { intros [Hx%elem_of_singleton|Hx]%Hsub1%elem_of_union; [done|].
      pose proof (acked_in_stream gw lib minted (ps, acked, g) _ Hs Hx) as Hlt. cbn [fst snd] in Hlt. lia. }
    assert (Hdec : unmarshal_intent (Data (task_of i d)) = Some (Intent.set_Status INTENT_STATUS_SCHEDULED i)) by (by apply unmarshal_marshal).
    assert (Hon : on_subject (listens_to AtEngine) (task_of i d)).
    { unfold on_subject, task_of. cbn [Subject listens_to]. rewrite strip_prefix_app. by eexists. }
    destruct (task_settles ps acked1 (mk_gw w1 (gw_redis g)) pos _ _ r0 r' Hs1 Htask Hon Hdec Hnew Hr' Hf)
      as (acked2 & g2 & Hrun2 & Hc2 & Hset); [by replace r' with r1 by congruence|].
    exists acked2, g2. split_and!; [by etransitivity|done|exact Hset].
Qed.

Lemma event_settles ps acked g k o u r :
  acks_sound (ps, acked, g) ->
  outbox_events (w_db (gw_sys g)) !! k = Some o -> announces u (content o) -> waiting o ->
  intents (w_db (gw_sys g)) !! u = Some r -> ir_status r ∈ [PENDING; SCHEDULED] ->
  can_settle u r (ps, acked, g).
Proof.
  intros Hs Hk Ho Hw Hr Hst.
  assert (Hsafe : pool_safe sys_exec good grows (fun (_ : unit) _ => True) ([], gw_sys g)) by (split; [apply Hs|constructor]).
  destruct (event_delivered minted [] (gw_sys g) k o Hsafe Hk Hw) as (w1 & Hrun & Hint & l & Hl & Hin).
  apply (background_beside ps acked _ _ (gw_redis g)) in Hrun. replace (mk_gw (gw_sys g) (gw_redis g)) with g in Hrun by (by destruct g).
  destruct (acked_steps_sound _ _ _ _ _ Hrun Hs) as [Hs1 _]. apply list_elem_of_lookup_1 in Hin as [j Hj].
  destruct (submission_settles ps acked (mk_gw w1 (gw_redis g)) (length (w_nats (gw_sys g)) + j) (content o) u r r)
    as (acked' & g' & Hrun' & Hc & Hset); cbn [gw_sys]; try done.
  - rewrite Hl. rewrite lookup_app_r by lia. by replace (_ + j - _)%nat with j by lia.
  - intros Hx%(acked_in_stream gw lib minted _ _ Hs). cbn [fst snd] in Hx. lia.
  - by rewrite Hint.
  - exists acked', g'. split_and!; [by etransitivity|done|done].
Qed.

End live.
