(* ===== verification/LoadPlatform.v ===== *)
(** * The load tester against the running platform

    The goroutines of scripts/load_test_csv.go (WorkerPool.v, LoadMain.v) submit
    through the gateway while the whole platform of Platform.v works next to
    them on the same state: what the tester's counters say about the database. *)
From S2P Require Import Prelude GoLib Effects Concurrent WorkerPool Sql Proto Float64 WalletProto Wallet Json JsonFacts.
From S2P Require Import Http Redis Ledger IntentDb System IntentStore Crypto IntentHandler Gateway IntentFacts GatewayFacts.
From S2P Require Import GatewayIntents LoadTest LoadTestFacts LoadMain LoadMainFacts.
From S2P Require Import Outbox Scheduler Engine Validator Pipeline PipelineFacts PipelineSafe Platform PlatformFacts.

Section load.
Context `{Postgres} `{NumericCodec} `{ProtoCodec} `{TimeText} `{Ed25519} `{Redis} `{FloatText}.
Context (gw : Gateway) (lib : libraries) (minted : string -> string).
(** The metrics page and the identifiers drawn for the request of each job. *)
Context (metrics : nat -> list (string * list string)) (ids : nat -> string * string).
Context (addr token : string) (keys : string * string).
Abbreviation load_pool := (pool (E:=gwE) (S:=gw_world) (A:=job) (R:=bool)).

Definition serve_job (n : nat) : Request -> ResponseWriter -> proc gwE (option ResponseWriter) :=
  serve_http gw lib (metrics n) (ids n).

(** A goroutine of the tester moves, or the platform does. *)
Inductive loaded_step : load_pool * list (proc gwE ended) -> load_pool * list (proc gwE ended) -> Prop :=
| load_work c c' ps : submission_step serve_job addr token keys c c' -> loaded_step (c, ps) (c', ps)
| load_platform c ps ps' g' :
    platform_step gw lib minted (ps, shared c) (ps', g') -> loaded_step (c, ps) (with_shared g' c, ps').

Abbreviation sound := (sound minted).
Abbreviation extends := (extends minted).
Abbreviation safe := (safe gw_exec sound extends).

(** ** One job *)
(** A job that counts as a success has its intent accepted. *)
Definition job_promise (j : job) (b : bool) (g : gw_world) : Prop :=
  b = true -> exists q, build keys.1 keys.2 j.2 = Ok q /\
    accepted_intent (ids j.1).1 (submission_request addr token q) (gw_sys g).

Lemma safe_job j g : drawn minted (ids j.1) -> sound g -> safe (work serve_job addr token keys j) (job_promise j) g.
Proof.
  intros Hids Hg. unfold work, run_job. destruct (build keys.1 keys.2 j.2) as [q|e] eqn:Hq; [|done].
  unfold Do. apply safe_bind; [apply _|done|]. apply safe_gw; [done|]. intros [u|st] g1 _ Hg1; [|done].
  apply safe_bind; [apply _|done|]. eapply safe_weaken; [|by apply (safe_serve gw lib minted (metrics j.1))].
  cbn beta. intros [w|] g2 Hp; [|done]. apply safe_gw; [done|].
  intros [u'|st] g3 H23 _; [|done]. intros g4 H34 _ g5 H45 _ Hst%Z.eqb_eq. exists q. split; [done|].
  apply (accepted_extends minted _ _ g2); [by do 2 (etransitivity; [eassumption|])|].
  apply Hp; [by split_and!|by rewrite Hst].
Qed.

(** ** The counters *)
Abbreviation jobs_sound := (pool_sound gw_exec sound extends job_promise).
Definition loaded_sound (c : load_pool * list (proc gwE ended)) : Prop :=
  jobs_sound c.1 /\ pool_safe gw_exec sound extends (end_promise gw lib) (c.2, shared c.1).

Lemma loaded_step_sound c c' :
  (forall j, j ∈ items c.1 -> drawn minted (ids j.1)) -> loaded_step c c' -> loaded_sound c -> loaded_sound c' /\ items c.1 ≡ₚ items c'.1.
Proof.
  intros Hids Hs [Hc Hps]. destruct Hs as [c c' ps Hw|c ps ps' g' Hp]; unfold loaded_sound; cbn [fst snd] in *.
  - split; [|by apply (step_items _ _ _ _ Hw)].
    destruct (pool_sound_step _ _ _ _ _ _ _ (fun j g Hj => safe_job j g (Hids j Hj)) Hw Hc) as [Hc' Hgr].
    split; [done|]. apply (pool_safe_moves _ _ _ _ _ (shared c)); [apply Hc'|exact Hgr|exact Hps].
  - split; [|done]. destruct (platform_safe_steps gw lib minted _ _ Hps (rtc_once _ _ Hp)) as [Hps' Hgr]. cbn [snd] in Hgr.
    split; [|exact Hps']. apply pool_sound_moves; [apply _|apply Hps'|exact Hgr|exact Hc].
Qed.
Lemma loaded_steps_sound c c' :
  (forall j, j ∈ items c.1 -> drawn minted (ids j.1)) -> rtc loaded_step c c' -> loaded_sound c -> loaded_sound c' /\ items c.1 ≡ₚ items c'.1.
Proof.
  intros Hids Hr. revert Hids. induction Hr as [c|c1 c2 c3 Hs _ IH]; [done|]. intros Hids Hc.
  destruct (loaded_step_sound _ _ Hids Hs Hc) as [Hc2 Hi]. setoid_rewrite Hi in Hids.
  destruct (IH Hids Hc2) as [Hc3 Hi']. split; [done|]. by rewrite Hi.
Qed.

(** ** The request of a job *)
Lemma build_fields seed tx q :
  GenerateKeyPair (Ok seed) = Ok keys ->
  is_ascii (IntentPayload.From tx) = true -> is_ascii (IntentPayload.To tx) = true -> build keys.1 keys.2 tx = Ok q ->
  SubmitReq.Type_ q = "TRANSFER"%string /\ SubmitReq.Payload q = default ""%string (IntentPayload.marshal tx) /\
  SubmitReq.SubmitterID q = IntentPayload.From tx /\
  Forall (fun s => is_ascii s = true) [SubmitReq.Payload q; SubmitReq.Signature q; SubmitReq.SubmitterPublicKey q].
Proof.
  intros Hk Hf Ht Hq. unfold build in Hq. cbv zeta in Hq. apply result_bind_Ok in Hq as (sg & Hs & [= <-]).
  cbn [SubmitReq.Type_ SubmitReq.Payload SubmitReq.SubmitterID SubmitReq.Signature SubmitReq.SubmitterPublicKey].
  split_and!; [done..|]. repeat (apply Forall_cons; split); [| | |by constructor].
  - destruct (IntentPayload.marshal tx) as [p|] eqn:Hm; [by eapply payload_ascii|done].
  - unfold Sign in Hs. apply result_bind_Ok in Hs as (b & _ & [= <-]). auto with ascii.
  - unfold GenerateKeyPair in Hk. destruct (ed_keygen seed) as [p s]. injection Hk as <-. cbn. auto with ascii.
Qed.

Lemma job_accepted seed n tx q w :
  GenerateKeyPair (Ok seed) = Ok keys ->
  is_ascii (IntentPayload.From tx) = true -> is_ascii (IntentPayload.To tx) = true -> build keys.1 keys.2 tx = Ok q ->
  accepted_intent (ids n).1 (submission_request addr token q) w -> stored_request (ids n).1 (grpc_request q) w.
Proof.
  intros Hk Hf Ht Hq (http & Hread & _ & Hs). destruct (build_fields seed tx q Hk Hf Ht Hq) as (Hty & _ & Hsub & Hall).
  apply Forall_cons in Hall as [Hpay Hall]. apply Forall_cons in Hall as [Hsg Hall]. apply Forall_cons in Hall as [Hpk _].
  assert (Hq' : SubmitIntentHTTPRequest.unmarshal (SubmitReq.marshal q) = Some http) by exact Hread.
  rewrite gateway_reads_request in Hq' by (done || by rewrite ?Hty, ?Hsub). injection Hq' as <-. rewrite Hty in Hs. exact Hs.
Qed.

(** The identifiers of the first [k] jobs: well-formed, and no two alike. *)
Definition drawn_ids (k : nat) : Prop := forall n, (1 <= n <= k)%nat -> drawn minted (ids n).
Definition distinct_ids (k : nat) : Prop :=
  forall n m, (1 <= n <= k)%nat -> (1 <= m <= k)%nat -> (ids n).1 = (ids m).1 -> n = m.

Lemma job_numbers transactions n tx :
  (n, tx) ∈ jobs transactions -> (1 <= n <= length transactions)%nat /\ tx ∈ transactions.
Proof.
  intros (i & t & [= -> ->] & Ht)%elem_of_lookup_imap_1. split; [|by eapply list_elem_of_lookup_2].
  apply lookup_lt_Some in Ht. lia.
Qed.
Lemma served_job (c : load_pool) transactions n tx b :
  jobs transactions ≡ₚ items c -> (n, tx, b) ∈ served c -> (n, tx) ∈ jobs transactions.
Proof.
  intros Hitems Hin. rewrite Hitems. unfold items. rewrite !elem_of_app. right; right.
  by apply (list_elem_of_fmap_2' fst _ (n, tx, b)).
Qed.

(** As many rows as jobs that counted as a success. *)
Lemma success_rows (c : load_pool) transactions w :
  distinct_ids (length transactions) -> jobs transactions ≡ₚ items c ->
  (forall n tx, (n, tx, true) ∈ served c -> is_Some (intents (w_db w) !! (ids n).1)) ->
  successCount c <= Z.of_nat (size (intents (w_db w))).
Proof.
  intros Hinj Hitems Hrows.
  set (wins := filter (fun jr : job * bool => jr.2 = true) (served c)).
  assert (Hnum : forall f : nat -> nat, (forall a b, f a = f b -> a = b) ->
    forall l : list IntentPayload.t, NoDup (imap (fun i _ => f i) l)).
  { intros f Hf l. revert f Hf. induction l as [|t l IH]; intros f Hf; cbn; constructor.
    - intros (i & t' & Hl & _)%elem_of_lookup_imap_1. apply Hf in Hl. lia.
    - apply (IH (f ∘ S)). intros a b Hab%Hf. lia. }
  assert (Hall : NoDup (fst <$> items c)).
  { rewrite <-Hitems. unfold jobs. rewrite fmap_imap. apply (Hnum S). congruence. }
  assert (Hnd : NoDup ((fun jr : job * bool => (ids jr.1.1).1) <$> wins)).
  { rewrite (list_fmap_compose (fun jr : job * bool => jr.1.1) (fun n => (ids n).1)). apply NoDup_fmap_2_strong.
    { intros n m (jr & -> & [_ Hn]%list_elem_of_filter)%list_elem_of_fmap (jr' & -> & [_ Hm]%list_elem_of_filter)%list_elem_of_fmap.
      destruct jr as [[n tx] b], jr' as [[m tx'] b'].
      apply Hinj; [apply (job_numbers transactions n tx)|apply (job_numbers transactions m tx')]; by eapply served_job. }
    assert (Hsub : NoDup ((fun jr : job * bool => jr.1.1) <$> served c)).
    { unfold items in Hall. rewrite !fmap_app in Hall. apply NoDup_app in Hall as (_ & _ & Hall).
      apply NoDup_app in Hall as (_ & _ & Hall). by rewrite <-list_fmap_compose in Hall. }
    eapply sublist_NoDup; [exact Hsub|]. apply fmap_sublist, sublist_filter. }
  unfold successCount. fold wins. rewrite <-(length_fmap (fun jr : job * bool => (ids jr.1.1).1) wins).
  rewrite <-size_dom, <-(size_list_to_set (C:=gset string)) by done. apply inj_le, subseteq_size.
  intros k (jr & -> & [Htrue Hin]%list_elem_of_filter)%elem_of_list_to_set%list_elem_of_fmap. apply elem_of_dom.
  destruct jr as [[n tx] b]. cbn in Htrue. subst b. by apply (Hrows n tx).
Qed.

(** C15: the load tester's success counter can be trusted.  Its workers submit the
    transfers of the file while the whole platform works on the same state, in
    any interleaving and under any failures, from any state the platform has
    reached: at every moment each transfer counted as a success is stored under
    the identifier drawn for it, with the payload that was built from it and a
    signature that verified, its event is announced, and if it has been
    completed it has been paid exactly once; and the database holds at least as
    many intents as were counted. *)
Theorem counted_successes_are_stored seed concurrency transactions t0 g0 ps g c ps' :
  GenerateKeyPair (Ok seed) = Ok keys ->
  drawn_ids (length transactions) -> distinct_ids (length transactions) ->
  Forall (fun tx => is_ascii (IntentPayload.From tx) = true /\ is_ascii (IntentPayload.To tx) = true) transactions ->
  platform_initial t0 g0 -> rtc (platform_step gw lib minted) ([], g0) (ps, g) ->
  rtc loaded_step (submissions concurrency transactions g, ps) (c, ps') ->
  (forall n tx, (n, tx, true) ∈ served c -> tx ∈ transactions /\
     exists q, build keys.1 keys.2 tx = Ok q /\
       SubmitReq.Payload q = default ""%string (IntentPayload.marshal tx) /\
       fulfilled (ids n).1 (grpc_request q) (gw_sys (shared c))) /\
  successCount c <= Z.of_nat (size (intents (w_db (gw_sys (shared c))))).
Proof.
  intros Hk Hids Hinj Hascii Hi Hr Hl. apply (platform_invariant gw lib minted t0) in Hr; [|done].
  assert (Hstart : loaded_sound (submissions concurrency transactions g, ps)).
  { split; [|exact Hr]. apply start_sound, Hr. }
  assert (Hall : forall j, j ∈ items (submissions concurrency transactions g) -> drawn minted (ids j.1)).
  { unfold submissions. rewrite items_start. intros [n tx] Hj. by apply Hids, (job_numbers transactions n tx). }
  destruct (loaded_steps_sound (submissions concurrency transactions g, ps) (c, ps') Hall Hl Hstart) as [[Hc _] Hitems]. cbn [fst] in Hc, Hitems.
  unfold submissions in Hitems. rewrite items_start in Hitems.
  assert (Hone : forall n tx, (n, tx, true) ∈ served c -> tx ∈ transactions /\
     exists q, build keys.1 keys.2 tx = Ok q /\ SubmitReq.Payload q = default ""%string (IntentPayload.marshal tx) /\
       stored_request (ids n).1 (grpc_request q) (gw_sys (shared c))).
  { intros n tx Hin. destruct (pool_served _ _ _ _ _ _ _ Hc Hin eq_refl) as (q & Hq & Ha). cbn [fst snd] in Hq, Ha.
    destruct (job_numbers transactions n tx) as [_ Htx]; [by eapply served_job|].
    split; [done|]. rewrite Forall_forall in Hascii. destruct (Hascii tx Htx) as [Hf Ht]. exists q. split; [done|].
    split; [by apply (build_fields seed tx q)|by eapply job_accepted]. }
  split.
  - intros n tx Hin. destruct (Hone n tx Hin) as (Htx & q & Hq & Hp & Hs). split; [done|]. exists q. split_and!; [done..|].
    apply (stored_fulfilled minted); [apply Hc|done].
  - apply (success_rows c transactions); [done|done|]. intros n tx Hin. destruct (Hone n tx Hin) as (_ & q & _ & _ & Hs).
    destruct Hs as (now & row0 & row & _ & Hrow & _). by exists row.
Qed.
End load.
