(* ===== verification/PlatformTyped.v ===== *)
(** * Types of what the whole platform stores, sends and counts

    The discipline of Typed.v for the programs of the gateway, and with them for
    every state the platform of Platform.v reaches. *)
From S2P Require Import Prelude GoLib Effects Concurrent Sql Proto Float64 WalletProto Wallet Json Http HttpFacts Redis Ledger.
From S2P Require Import IntentDb System IntentStore Crypto IntentHandler Gateway IntentFacts GatewayFacts GatewayIntents.
From S2P Require Import Outbox Scheduler Engine Validator Mains Metrics Pipeline PipelineFacts PipelineSafe Typed Platform PlatformFacts.

Section typed.
Context `{Postgres} `{NumericCodec} `{ProtoCodec} `{TimeText} `{Ed25519} `{Redis}.
Context (gw : Gateway) (lib : libraries) (minted : string -> string).

Definition gw_event_typed {X} (e : gwE X) : Prop :=
  match e with Sys e => exists svc, event_typed svc e | _ => True end.
Definition gw_answer_typed {X} (e : gwE X) : X -> Prop :=
  match e in gwE X return X -> Prop with Sys e => answer_typed e | _ => fun _ => True end.
Fixpoint gw_typed {R} (p : proc gwE R) (Q : R -> Prop) : Prop :=
  match p with
  | Ret r => Q r
  | Vis e k => gw_event_typed e /\ forall x, gw_answer_typed e x -> gw_typed (k x) Q
  end.
Abbreviation fine p := (gw_typed p (fun _ => True)).

Lemma gw_typed_bind {A B} (p : proc gwE A) (f : A -> proc gwE B) : fine p -> (forall a, fine (f a)) -> fine (p ≫= f).
Proof. intros Hp Hf. induction p as [a|X e k IH]; cbn; [apply Hf|]. destruct Hp as [He Hk]. split; [done|]. auto. Qed.
Lemma gw_typed_sys svc {A} (p : proc sysE A) : typed svc p (fun _ => True) -> fine (sys p).
Proof. induction p as [a|X e k IH]; cbn; [done|]. intros [He Hk]. split; [by exists svc|]. intros x Hx. by apply IH, Hk. Qed.
Lemma gw_typed_rpc {A} name (serve : proc sysE (result grpc_status A)) :
  typed IntentService serve (fun _ => True) -> fine (rpc (metricsInterceptor (code_name lib) name serve)).
Proof.
  intros Hs. split; [done|]. intros [u|st] _; [|done]. apply gw_typed_bind; [|intros r; by split].
  by eapply gw_typed_sys, interceptor_typed.
Qed.
Lemma gw_typed_now {A} (k : Z -> proc gwE A) : (forall now, fine (k now)) -> fine (Vis (Sys Now) k).
Proof. intros Hk. split; [by exists ApiGateway|]. intros now _. apply Hk. Qed.

(** ** The handlers *)
Lemma forward_typed id ob sg req w : fine (forward_intent lib id ob sg req w).
Proof.
  apply gw_typed_bind; [apply gw_typed_rpc, submit_typed|]. intros [resp|st]; [|done]. cbv zeta.
  destruct (encode_json _); [|done]. by destruct (bool_decide (sg = "")).
Qed.
Lemma submit_route_typed ids r w : fine (submitIntent lib ids r w).
Proof.
  unfold submitIntent. destruct (BodyErr r); [done|]. destruct (SubmitIntentHTTPRequest.unmarshal (Body r)) as [q|]; [|done].
  cbv zeta. destruct (_ =? _); [done|]. destruct (bool_decide _); [apply forward_typed|]. split; [done|].
  intros [[|c s]|] _; [apply forward_typed|done|apply forward_typed].
Qed.
Lemma list_route_typed r w : fine (listIntents lib r w).
Proof. apply gw_typed_bind; [apply gw_typed_rpc, list_typed|]. by intros [resp|st]. Qed.
Lemma by_id_typed r w : fine (handleIntentByID lib r w).
Proof.
  unfold handleIntentByID. destruct (negb _); [done|]. destruct (path_after 9 (Path r)) as [id|]; [|done].
  destruct (bool_decide _); [done|]. apply gw_typed_bind; [apply gw_typed_rpc, get_typed|].
  intros [resp|st]; [|done]. by destruct (GetIntentResponse.Intent resp).
Qed.
Lemma health_typed r w : fine (handleHealth lib r w).
Proof. unfold handleHealth. destruct (negb _); [done|]. by apply gw_typed_now. Qed.
Lemma ledger_typed r w : fine (handleAPILedger r w).
Proof.
  unfold handleAPILedger. destruct (negb _); [done|]. split; [by exists ApiGateway|]. by intros [[[c e]|]|e] _.
Qed.
Lemma login_typed r w : fine (handleLogin gw r w).
Proof.
  unfold handleLogin. destruct (negb _); [done|]. destruct (decode_stream _ _ _ _ _); [|done].
  destruct (_ || _); [done|]. apply gw_typed_bind; [by apply gw_typed_now|done].
Qed.

Lemma mux_typed metrics ids r w : fine (mux gw lib metrics ids r w).
Proof.
  unfold mux. destruct (bool_decide _); [done|]. destruct (mux_route _ r) as [h|path|] eqn:Hr; [|done..].
  apply mux_route_in in Hr as [pat Hin]. apply list_elem_of_In in Hin. cbn [In routes] in Hin.
  destruct Hin as [[= _ <-]|[[= _ <-]|[[= _ <-]|[[= _ <-]|[[= _ <-]|[[= _ <-]|[[= _ <-]|[]]]]]]]].
  - done.
  - apply ledger_typed.
  - apply login_typed.
  - apply health_typed.
  - done.
  - unfold handleIntents. destruct (bool_decide _); [apply submit_route_typed|].
    destruct (bool_decide _); [apply list_route_typed|done].
  - apply by_id_typed.
Qed.

(** ** The middleware *)
Lemma limiter_typed next r w : (forall w, fine (next r w)) -> fine (rateLimitMiddleware gw next r w).
Proof.
  intros Hn. unfold rateLimitMiddleware. destruct (bool_decide _); [done|]. destruct (_ && _); [|done].
  apply gw_typed_now. intros now. split; [done|]. intros incr _.
  assert (Hc : forall n, fine (limit_count next n r w)).
  { intros n. unfold limit_count. cbv zeta. by destruct (10 <? n). }
  destruct incr as [n|e]; [|done]. unfold limit_result. destruct (n =? 1); [|done]. by split.
Qed.
Lemma auth_typed next r w : (forall r w, fine (next r w)) -> fine (authMiddleware gw lib next r w).
Proof.
  intros Hn. unfold authMiddleware. destruct (auth_exempt (Path r)); [done|]. cbv zeta. destruct (_ || _); [done|].
  apply gw_typed_bind; [|by intros [c|e]]. unfold validateJWT. destruct (token_claims _ _ _); [|done]. by apply gw_typed_now.
Qed.
Lemma logging_typed next r w : (forall w, fine (next r w)) -> fine (loggingMiddleware next r w).
Proof.
  intros Hn. apply gw_typed_now. intros start. apply gw_typed_bind; [done|]. intros [d|]; [|done].
  apply gw_typed_now. intros now. destruct (negb _ && negb _); [|done].
  split; [by exists ApiGateway|]. intros _ _. split; [by exists ApiGateway|]. done.
Qed.
Lemma serve_typed metrics ids r : fine (serve_http gw lib metrics ids r new_response).
Proof. apply logging_typed. intros w. apply auth_typed. intros r' w'. apply limiter_typed. apply mux_typed. Qed.

(** ** The platform *)
Definition platform_typed (c : list (proc gwE ended) * gw_world) : Prop :=
  world_typed (gw_sys c.2) /\ Forall (fun p => fine p) c.1.

Lemma enters_typed g p : enters gw lib minted g p -> fine p.
Proof.
  intros Hp. destruct Hp as [metrics ids r _|p Hp|d arg m _ _]; (apply gw_typed_bind; [|done]); [apply serve_typed|..].
  - by eapply gw_typed_sys, background_typed.
  - by eapply gw_typed_sys, message_typed_by.
Qed.

Lemma gw_event_sound X (e : gwE X) o g :
  gw_event_typed e -> world_typed (gw_sys g) ->
  gw_answer_typed e (gw_exec _ e o g).1 /\ world_typed (gw_sys (gw_exec _ e o g).2).
Proof.
  intros He Hw. destruct e as [X e|k|k v ttl|k|k ttl| |].
  - rewrite gw_exec_sys. destruct He as [svc He]. by eapply event_sound.
  - by split.
  - split; [done|]. by destruct o.
  - split; [done|]. cbn. destruct (redis_INCR _ _ _). by destruct o.
  - split; [done|]. by destruct o.
  - by split.
  - by split.
Qed.

Lemma platform_step_typed c c' : platform_step gw lib minted c c' -> platform_typed c -> platform_typed c'.
Proof.
  intros Hs [Hw Hps]. destruct Hs as [c c' Hev|ps g p Hp|ps g i|ps g g' Hm]; unfold platform_typed in *; cbn [fst snd] in *.
  - destruct Hev as [ps g i X e k o Hi]. cbn [fst snd] in *.
    destruct (Forall_lookup_1 _ _ _ _ Hps Hi) as [He Hk]. destruct (gw_event_sound X e o g He Hw) as [Ha Hw'].
    split; [exact Hw'|]. apply Forall_insert; [exact Hps|]. by apply Hk.
  - split; [exact Hw|]. constructor; [by eapply enters_typed|exact Hps].
  - split; [exact Hw|]. by apply Forall_delete.
  - split; [|exact Hps]. destruct Hm as [w Hm|s]; [|exact Hw]. destruct Hm; by apply (world_typed_same (gw_sys g)).
Qed.

(** C9: types are sound across the platform.  From a typed state, for instance
    one with empty tables, whatever runs and fails, every stored intent has one
    of the five statuses PENDING, SCHEDULED, EXECUTING, COMPLETED and FAILED, and
    its type column is the text of a type number other than 0: the declared name,
    or for a number without a name, which the intent service accepts over gRPC,
    its decimal digits.  Every outbox event is PENDING, PROCESSING or FAILED and
    its topic is "intents.submitted." with such a text; the subject of every
    message is one of the three prefixes the consumers listen to, with the text
    of a type number; and every metric that was updated, by the gateway or behind
    it, is registered by a service with that number of labels. *)
Theorem platform_well_typed g0 ps g :
  world_typed (gw_sys g0) -> rtc (platform_step gw lib minted) ([], g0) (ps, g) -> world_typed (gw_sys g).
Proof.
  intros Hw0 Hr. enough (Hp : platform_typed (ps, g)) by apply Hp.
  assert (Hstart : platform_typed ([], g0)) by (split; [exact Hw0|constructor]).
  revert Hstart. generalize (ps, g) ([] : list (proc gwE ended), g0) Hr. clear. intros c' c Hr.
  induction Hr as [c|c1 c2 c3 Hs _ IH]; [done|]. intros Hc. by eapply IH, platform_step_typed.
Qed.
End typed.
