(* ===== verification/GatewayRun.v ===== *)
(** * The gateway on concrete components: witnesses, and duplicates that race *)
From S2P Require Import Prelude GoLib Sha256 Effects Concurrent Sql Proto Float64 WalletProto Wallet Float64Facts WalletFacts WalletProps.
From S2P Require Import Json JsonFacts Http HttpFacts Redis Ledger LedgerFacts LedgerProps.
From S2P Require Import IntentDb System IntentStore Crypto IntentHandler IntentFacts Concrete Outbox Scheduler Engine Validator.
From S2P Require Import Gateway GatewayFacts GatewayTokens GatewayLimit GatewayIntents GatewayLedger LoadTest LoadTestFacts Keygen KeygenFacts.
From S2P Require Import Pipeline PipelineProps.

(** ** Number literals of whole floats *)
Definition whole_lit (n : Z) : num_lit := mk_num_lit false (utoa n) None None.
Definition whole_of (x : float64) : Z :=
  match x with
  | SpecFloat.S754_finite false m e => if 0 <=? e then Zpos m * 2 ^ e else Zpos m / 2 ^ (- e)
  | _ => 0
  end.
Definition whole_text (x : float64) : option string :=
  let n := whole_of x in
  if (0 <=? n) && bool_decide (num_float (whole_lit n) = Some x) then Some (utoa n) else None.
Definition concrete_float_text : FloatText.
Proof.
  refine {| float_text := whole_text |}.
  - unfold whole_text. intros x s. destruct (0 <=? whole_of x) eqn:Hn; [|done]. cbn [andb].
    case_bool_decide; [|done]. intros [= <-]. destruct (utoa_digits (whole_of x)) as [Hd _]; [lia|].
    revert Hd. generalize (utoa (whole_of x)) as t. induction t as [|c t IH]; [done|].
    unfold is_ascii in *. cbn [string_forall]. intros [Hc Ht]%andb_true_iff. rewrite IH by done.
    unfold is_digit in Hc. lia.
  - unfold whole_text. intros x s. destruct (0 <=? whole_of x) eqn:Hn; [|done]. cbn [andb].
    case_bool_decide as Hlit; [|done]. intros [= <-]. exists (whole_lit (whole_of x)). split; [done|].
    intros rest Hr. apply scan_number_utoa; [lia|done].
Defined.

#[local] Existing Instance concrete_postgres.
#[local] Existing Instance exact_codec.
#[local] Existing Instance concrete_codec.
#[local] Existing Instance concrete_time.
#[local] Existing Instance concrete_ed25519.
#[local] Existing Instance concrete_redis.
#[local] Existing Instance concrete_float_text.

Definition the_gateway : Gateway := mk_Gateway "aien-jwt-session-secret-key" (fun _ => ""%string).
Definition the_libraries : libraries :=
  mk_libraries (fun _ => "json error") (fun _ => "base64 error") (fun _ => "code")%string format_rfc3339
    (fun _ w => w) (fun _ _ w => w) (fun _ _ w => w).
Definition noon : Z := 1700000000 * second.
Definition g0 : gw_world := mk_gw (mk_world empty_db ∅ [] (seed_db 0) None noon []) empty_keyspace.
Definition serve (ids : string * string) := serve_http the_gateway the_libraries [] ids.
Definition ids1 : string * string :=
  ("00000000-0000-4000-8000-00000000000a", "00000000-0000-4000-8000-00000000000b")%string.
Definition ids2 : string * string :=
  ("00000000-0000-4000-8000-00000000000c", "00000000-0000-4000-8000-00000000000d")%string.

(** ** The load tester's course: log in, build, submit *)
Definition addr : string := "10.0.0.7:5000".
Definition token : string :=
  match run_result gw_exec (loginToGateway (serve ids1) addr) [] g0 with Ok t => t | Err e => e end.
Definition transfer25 : IntentPayload.t := IntentPayload.mk "user-alice-001" "user-bob-001" (f_of_Z 25).
Definition keys25 : string * string :=
  match GenerateKeyPair (Ok "seed"%string) with Ok k => k | Err _ => (""%string, ""%string) end.
Definition payload25 : string := default ""%string (IntentPayload.marshal transfer25).
Definition submission25 : SubmitReq.t :=
  match build keys25.1 keys25.2 transfer25 with Ok q => q | Err e => SubmitReq.mk "" "" "" e "" end.
Definition request25 : Request := submission_request addr token submission25.

Definition answer_of (a : option ResponseWriter) : Z * string :=
  match a with Some w => (rw_status w, rw_body w) | None => (0, ""%string) end.
Example submission_answer :
  (answer_of (run_result gw_exec (serve ids1 request25 new_response) [] g0)).1 = 201.
Proof. vm_compute. reflexivity. Qed.

(** ** Witnesses *)
Definition anonymous : Request := client_request addr MethodPost "/%69ntents" ∅ "{}".
Definition anonymous_unescaped : Request :=
  mk_Request MethodPost "/intents" "/%69ntents" "" ∅ addr "{}" None ∅.
Lemma unauthorized_reach_nothing_witness :
  exists answer, run_result gw_exec (serve ids1 anonymous_unescaped new_response) [] g0 = answer /\
    gw_redis (run_state gw_exec (serve ids1 anonymous_unescaped new_response) [] g0) = empty_keyspace.
Proof.
  destruct (unauthorized_reach_nothing the_gateway the_libraries noon [] ids1 anonymous_unescaped)
    as (answer & ms & Hrun & _); [vm_compute; reflexivity|vm_compute; reflexivity|].
  destruct (Hrun [] g0 eq_refl) as [Hres Hst]. exists answer. split; [exact Hres|]. unfold serve. rewrite Hst. reflexivity.
Defined.

Lemma login_opens_the_gateway_witness :
  exists d tok, run_result gw_exec (handleLogin the_gateway
      (client_request addr MethodPost "/api/login" ∅ login_body) (mk_delegator new_response StatusOK)) [] g0 = Some d /\
    rw_body (inner d) = (print_object [("token", SStr tok)] +:+ newline)%string.
Proof.
  destruct (login_opens_the_gateway the_gateway the_libraries noon (client_request addr MethodPost "/api/login" ∅ login_body) [] g0)
    as (d & Hd & Hok); [reflexivity|unfold noon, second; lia|vm_compute; reflexivity|].
  assert (Hg : good_login (client_request addr MethodPost "/api/login" ∅ login_body) = true) by (vm_compute; reflexivity).
  rewrite Hg in Hok. destruct Hok as (tok & _ & Hbody & _). exists d, tok. split; [exact Hd|exact Hbody].
Defined.

(** Twelve submissions at once, the increment of the third without effect: ten
    are counted and pass, the third passes uncounted, the last is refused. *)
Definition twelve_moves : list (nat * outcome) :=
  flat_map (fun i => [(i, Done); (i, if bool_decide (i = 2%nat) then Lost "i/o timeout" else Done); (i, Done)]) (seq 0 12).
Definition twelve : GatewayLimit.config :=
  limit_run twelve_moves (map (arrival the_gateway) (repeat request25 12), g0, 0%nat).
Lemma rate_limit_holds_witness :
  (length (filter (fun p => passed p = true) twelve.1.1) <= 10 + twelve.2)%nat /\
  twelve.2 = 1%nat /\ length (filter (fun p => passed p = true) twelve.1.1) = 11%nat /\
  length (filter (fun p => refused p = true) twelve.1.1) = 1%nat.
Proof.
  split; [|split_and!; vm_compute; reflexivity].
  apply (rate_limit_holds the_gateway "10.0.0.7" (Z.quot (unix noon) 60)) with (g0 := g0) (g := twelve.1.2).
  - vm_compute. discriminate.
  - discriminate.
  - split; [vm_compute; discriminate|vm_compute; reflexivity].
  - reflexivity.
  - vm_compute. reflexivity.
  - assert (Hs : Forall (submission "10.0.0.7") (repeat request25 12)) by (repeat (constructor; [split_and!; reflexivity|]); constructor).
    etransitivity; [exact (limit_arrivals _ _ _ (repeat request25 12) ([], g0, 0%nat) Hs)|].
    assert (He : forall c : GatewayLimit.config, (c.1.1, c.1.2, c.2) = c) by (by intros [[? ?] ?]).
    rewrite He. apply limit_run_steps.
Defined.

Definition answer25 : ResponseWriter :=
  match run_result gw_exec (serve ids1 request25 new_response) [] g0 with Some w => w | None => new_response end.
Lemma created_means_stored_witness :
  authorized the_gateway the_libraries noon request25 = true /\
  exists httpReq, SubmitIntentHTTPRequest.unmarshal (Body request25) = Some httpReq.
Proof.
  destruct (created_means_stored the_gateway the_libraries [] ids1 request25 [] g0 answer25) as (Ha & q & Hq & _).
  - split_and!; reflexivity.
  - vm_compute. reflexivity.
  - vm_compute. reflexivity.
  - split; [exact Ha|exists q; exact Hq].
Defined.

(** Somebody else's payload under the signature text of the first request. *)
Definition copied : Request :=
  submission_request addr token
    (SubmitReq.mk "QUERY" "other" "mallory" (SubmitReq.Signature submission25) "").
Definition http25 : SubmitIntentHTTPRequest.t :=
  default SubmitIntentHTTPRequest.zero (SubmitIntentHTTPRequest.unmarshal (Body request25)).
Definition delegator25 : responseWriterDelegator :=
  default start (run_result gw_exec (submitIntent the_libraries ids1 request25 start) [] g0).
Definition g25 : gw_world := run_state gw_exec (submitIntent the_libraries ids1 request25 start) [] g0.
Lemma resubmission_hits_cache_witness :
  exists d2, run_result gw_exec (submitIntent the_libraries ids2 copied start) [Done] g25 = Some d2 /\
    run_state gw_exec (submitIntent the_libraries ids2 copied start) [Done] g25 = g25 /\
    rw_header (inner d2) !! "X-Cache"%string = Some "HIT"%string.
Proof.
  destruct (resubmission_hits_cache the_libraries ids1 request25 http25 g0 delegator25
              eq_refl ltac:(vm_compute; reflexivity) ltac:(vm_compute; discriminate)
              ltac:(vm_compute; reflexivity) ltac:(vm_compute; reflexivity)
              ids2 copied
              (default SubmitIntentHTTPRequest.zero (SubmitIntentHTTPRequest.unmarshal (Body copied))) [] g25)
    as (d2 & Hres & Hst & _ & Hhit & _).
  - reflexivity.
  - vm_compute. reflexivity.
  - vm_compute. discriminate.
  - vm_compute. reflexivity.
  - split; [apply Z.leb_le; vm_compute; reflexivity|apply Z.ltb_lt; vm_compute; reflexivity].
  - reflexivity.
  - exists d2. split; [exact Hres|]. split; [exact Hst|exact Hhit].
Defined.

Definition ledger_world : gw_world :=
  mk_gw (mk_world empty_db ∅ [] (seed_db 0) (Some (render two_days)) noon []) empty_keyspace.
Lemma ledger_page_newest_first_witness :
  exists d, run_result gw_exec (handleAPILedger (client_request addr MethodGet "/api/ledger" ∅ "") start) [Done] ledger_world
    = Some d /\
    rw_body (inner d) = (array_text (map marshal_block (rev two_days)) +:+ newline)%string.
Proof.
  destruct (ledger_page_newest_first (client_request addr MethodGet "/api/ledger" ∅ "") ledger_world (render two_days) [])
    as (d & Hres & _ & _ & _ & Hbody); [reflexivity|reflexivity|vm_compute; reflexivity|].
  exists d. split; [exact Hres|]. apply Hbody; [reflexivity| |discriminate].
  repeat constructor; vm_compute; reflexivity.
Defined.

Definition claims25 : JWTClaims.t :=
  match token_claims the_gateway the_libraries token with Ok c => c | Err _ => JWTClaims.zero end.
Definition stored25 : world :=
  run_state sys_exec (PostgresStore.Create ids1.1 ids1.2 (grpc_request submission25)) [] (gw_sys g0).
Lemma stored25_created :
  created noon ids1.1 ids1.2 (grpc_request submission25) (w_db (gw_sys g0)) (w_db stored25).
Proof.
  assert (Hok : is_ok (run_result sys_exec (PostgresStore.Create ids1.1 ids1.2 (grpc_request submission25)) [] (gw_sys g0))
                = true) by (vm_compute; reflexivity).
  pose proof (wp_run sys_exec _ _ _ [] (wp_create ids1.1 ids1.2 (grpc_request submission25) (gw_sys g0))) as [_ Hc].
  fold stored25 in Hc. destruct (run_result _ _ _ _); [exact (proj2 Hc)|discriminate Hok].
Qed.

Lemma load_test_reaches_engine_witness :
  exists w u row, run_result gw_exec (serve ids1 request25 new_response) [] g0 = Some w /\ rw_status w = StatusCreated /\
    intents (w_db (gw_sys (run_state gw_exec (serve ids1 request25 new_response) [] g0))) !! u = Some row /\
    transfer.unmarshal (ir_payload row) = Some (transfer.mk "user-alice-001" "user-bob-001" (f_of_Z 25)).
Proof.
  destruct (load_test_reaches_engine the_gateway the_libraries "seed" keys25.1 keys25.2 transfer25 payload25 addr token
              claims25 [] ids1 g0 (w_db stored25)) as (q & Hq & Hrun).
  - reflexivity.
  - reflexivity.
  - reflexivity.
  - discriminate.
  - vm_compute. reflexivity.
  - vm_compute. reflexivity.
  - apply Z.leb_le. vm_compute. reflexivity.
  - assert (He : q = submission25).
    { unfold submission25. rewrite Hq. reflexivity. }
    subst q. destruct Hrun as (w & u & row & H1 & H2 & _ & H3 & _ & H4).
    + right. left. reflexivity.
    + reflexivity.
    + exact stored25_created.
    + exists w, u, row. split; [exact H1|]. split; [exact H2|]. split; [exact H3|exact H4].
Defined.

(** ** Two copies of one signed submission that race *)
Definition thread1 : proc gwE (option ResponseWriter) := serve ids1 request25 new_response.
Definition thread2 : proc gwE (option ResponseWriter) := serve ids2 request25 new_response.
(** Up to and including the look into the cache. *)
Definition looked : nat := 6.
Definition rest1 : proc gwE (option ResponseWriter) := (run_n gw_exec looked thread1 [] g0).1.
Definition g_looked : gw_world := (run_n gw_exec looked thread1 [] g0).2.
Definition g_second : gw_world := run_state gw_exec thread2 [] g_looked.
Definition g_both : gw_world := run_state gw_exec rest1 [] g_second.
Definition answer1 : option ResponseWriter := run_result gw_exec rest1 [] g_second.
Definition answer2 : option ResponseWriter := run_result gw_exec thread2 [] g_looked.

Lemma race_runs : rtc (pool_step gw_exec) ([thread1; thread2], g0) ([Ret answer1; Ret answer2], g_both).
Proof.
  etransitivity; [exact (run_n_pool gw_exec looked [thread1; thread2] 0 thread1 [] g0 eq_refl)|].
  cbn [list_insert insert]. fold rest1 g_looked.
  etransitivity; [exact (run_pool gw_exec [rest1; thread2] 1 thread2 [] g_looked eq_refl)|].
  exact (run_pool gw_exec [rest1; Ret answer2] 0 rest1 [] g_second eq_refl).
Qed.

(** The pipeline carries both out. *)
Definition w_published : world := Run.do (processBatch (NewWorker 0 0 0)) [] (gw_sys g_both).
Definition w_scheduled1 : world := Run.do (on_submitted (Run.message 0 w_published)) [] w_published.
Definition w_scheduled2 : world := Run.do (on_submitted (Run.message 1 w_published)) [] w_scheduled1.
Definition w_paid1 : world := Run.do (executeTask "tx-1" (Run.message 2 w_scheduled2)) [] w_scheduled2.
Definition w_paid2 : world := Run.do (executeTask "tx-2" (Run.message 3 w_scheduled2)) [] w_paid1.

Example race_outcome :
  (answer_of answer1).1 = 201 /\ (answer_of answer2).1 = 201 /\ size (intents (w_db (gw_sys g_both))) = 2%nat /\
  length (wallet_transactions (w_wallet w_paid2)) = 2%nat.
Proof. vm_compute. auto. Qed.

Lemma pipeline_pays : rtc (pipeline_step Run.minted) ([], gw_sys g_both) ([], w_paid2).
Proof.
  etransitivity; [apply (Run.do_steps (processBatch (NewWorker 0 0 0)) [] (gw_sys g_both)), start_background, back_batch|]. fold w_published.
  etransitivity; [apply (Run.do_steps (on_submitted (Run.message 0 w_published)) [] w_published), start_scheduler|].
  { apply Run.message_in. vm_compute. reflexivity. }
  { apply Run.some_is_Some. vm_compute. reflexivity. }
  fold w_scheduled1.
  etransitivity; [apply (Run.do_steps (on_submitted (Run.message 1 w_published)) [] w_scheduled1), start_scheduler|].
  { apply Run.message_in. vm_compute. reflexivity. }
  { apply Run.some_is_Some. vm_compute. reflexivity. }
  fold w_scheduled2.
  etransitivity; [apply (Run.do_steps (executeTask "tx-1" (Run.message 2 w_scheduled2)) [] w_scheduled2), start_engine|].
  { apply Run.message_in. vm_compute. reflexivity. }
  { apply Run.some_is_Some. vm_compute. reflexivity. }
  fold w_paid1. apply Run.do_steps, start_engine.
  { apply Run.message_in. vm_compute. reflexivity. }
  { apply Run.some_is_Some. vm_compute. reflexivity. }
Qed.

(** C39: the idempotency filter does not hold against concurrency.  The cache is
    looked up before the call and filled after it, so two copies of one signed
    submission that are handled at the same time are both answered 201 and
    stored under two identifiers; the pipeline then carries out both, and since
    the wallet deduplicates by intent identifier it moves the money twice. *)
Theorem concurrent_duplicates_pay_twice :
  exists r ids ids' g a a' g' w,
    wallet_transactions (w_wallet (gw_sys g)) = [] /\
    rtc (pool_step gw_exec)
      ([serve_http the_gateway the_libraries [] ids r new_response;
        serve_http the_gateway the_libraries [] ids' r new_response], g)
      ([Ret (Some a); Ret (Some a')], g') /\
    rw_status a = StatusCreated /\ rw_status a' = StatusCreated /\
    rtc (pipeline_step Run.minted) ([], gw_sys g') ([], w) /\
    map (fun t => (tx_from t, tx_to t, tx_amount t)) (wallet_transactions (w_wallet w))
    = let t := (Some "user-alice-001", Some "user-bob-001", Num (25 * units_per_one))%string in [t; t].
Proof.
  assert (Ha : answer1 = Some (default new_response answer1)) by (vm_compute; reflexivity).
  assert (Ha' : answer2 = Some (default new_response answer2)) by (vm_compute; reflexivity).
  exists request25, ids1, ids2, g0, (default new_response answer1), (default new_response answer2), g_both, w_paid2.
  split; [reflexivity|]. split; [|split; [vm_compute; reflexivity|split; [vm_compute; reflexivity|split]]].
  - pose proof race_runs as Hr. rewrite Ha, Ha' in Hr. exact Hr.
  - exact pipeline_pays.
  - vm_compute. reflexivity.
Qed.

(** ** A request of keygen *)
Definition keygen_body : string :=
  keygen_request (fun _ => true) (repeat_char 64 (Zbyte 0)) "TRANSFER" "user-alice-001" payload25.
Definition keygen_post : Request :=
  client_request addr MethodPost "/intents"
    (<["Content-Type" := "application/json"]> {["Authorization" := "Bearer " +:+ token]})%string keygen_body.
Lemma keygen_requests_refused_witness :
  exists w, run_result gw_exec (serve ids1 keygen_post new_response) [] g0 = Some w /\
    rw_status w <> StatusCreated /\ rw_status w = StatusUnauthorized.
Proof.
  eexists. split; [vm_compute; reflexivity|]. split; [|vm_compute; reflexivity]. intros Hst.
  destruct (keygen_requests_refused (fun _ => true) the_gateway the_libraries [] ids1 (repeat_char 64 (Zbyte 0)) "TRANSFER"
              "user-alice-001" payload25 keygen_post [] g0 _ eq_refl eq_refl eq_refl eq_refl
              (conj eq_refl (conj eq_refl eq_refl)) eq_refl ltac:(vm_compute; reflexivity) Hst) as [_ Hforged].
  vm_compute in Hforged. discriminate Hforged.
Defined.
