(* ===== verification/PlatformRun.v ===== *)
(** * The whole platform on concrete components: witnesses

    The load tester's request of GatewayRun.v runs through the gateway; a poll,
    the scheduler and the engine then carry it out, all as threads of the
    platform.  Stranded: the same request, when the stream twice does not take the
    task. *)
From S2P Require Import Prelude GoLib Sha256 Effects Concurrent WorkerPool Sql Proto Float64 WalletProto Wallet WalletFacts WalletProps.
From S2P Require Import Float64Facts Json JsonFacts Http HttpFacts Redis Ledger IntentDb System IntentStore Crypto IntentHandler IntentFacts.
From S2P Require Import Concrete Outbox Scheduler Engine Validator Gateway GatewayFacts GatewayIntents LoadTest LoadTestFacts LoadMain.
From S2P Require Import Pipeline PipelineFacts PipelineSafe PipelineProps Mains Metrics Typed Platform PlatformFacts PlatformTyped.
From S2P Require Import OutboxFacts ServiceFacts PipelineLive Acks PlatformLive LoadPlatform GatewayRun.

#[local] Existing Instance concrete_postgres.
#[local] Existing Instance exact_codec.
#[local] Existing Instance concrete_codec.
#[local] Existing Instance concrete_time.
#[local] Existing Instance concrete_ed25519.
#[local] Existing Instance concrete_redis.
#[local] Existing Instance concrete_float_text.

Abbreviation platform := (platform_step the_gateway the_libraries Run.minted).

Lemma g0_initial : platform_initial 0 g0.
Proof. split; [reflexivity|]. split; [reflexivity|]. apply rtc_refl. Qed.
Lemma ids1_drawn : drawn Run.minted ids1.
Proof. split_and!; vm_compute; reflexivity. Qed.

Definition g_answered : gw_world := run_state gw_exec (request_thread the_gateway the_libraries [] ids1 request25) [] g0.
Definition answered : ended := run_result gw_exec (request_thread the_gateway the_libraries [] ids1 request25) [] g0.
Abbreviation due_runs acked := (rtc (system_step gw_exec (due the_gateway the_libraries Run.minted acked) shifts)).
Abbreviation acked_platform_steps := (rtc (acked_step the_gateway the_libraries Run.minted)).
Lemma request_due : due_runs ∅ ([], g0) ([Ret answered], g_answered).
Proof.
  eapply rtc_l; [apply system_spawn, (due_request _ _ _ _ _ [] ids1 request25 ids1_drawn)|].
  exact (run_system gw_exec _ _ [request_thread the_gateway the_libraries [] ids1 request25] 0 _ [] g0 eq_refl).
Qed.
Lemma request_acked : acked_platform_steps ([], ∅, g0) ([Ret answered], ∅, g_answered).
Proof. exact (due_steps the_gateway the_libraries Run.minted ∅ _ _ _ _ request_due). Qed.
Lemma request_runs : rtc platform ([], g0) ([Ret answered], g_answered).
Proof. exact (acked_run_platform the_gateway the_libraries Run.minted _ _ _ _ _ _ request_acked). Qed.

(** A poll, and a delivery, from their start to their end. *)
Definition poll (g : gw_world) : gw_world :=
  run_state gw_exec (background_thread (_ ← processBatch (NewWorker 0 0 0); Ret tt)) [] g.
Lemma poll_due acked ps g : due_runs acked (ps, g) (ps, poll g).
Proof. apply run_to_end, due_background, back_batch. Qed.

Definition deliver (d : delivery) (sched : list outcome) (g : gw_world) : gw_world :=
  run_state gw_exec (delivery_thread d "tx-1" (Run.message d.2 (gw_sys g))) sched g.
Definition answer_of (d : delivery) (sched : list outcome) (g : gw_world) : ended :=
  run_result gw_exec (delivery_thread d "tx-1" (Run.message d.2 (gw_sys g))) sched g.
(** The message is there, and its consumer listens to it. *)
Definition deliverable (d : delivery) (g : gw_world) : bool :=
  bool_decide (d.2 < length (w_nats (gw_sys g)))%nat &&
  match strip_prefix (listens_to d.1) (Subject (Run.message d.2 (gw_sys g))) with Some _ => true | None => false end.
Lemma deliver_due acked d sched ps g :
  deliverable d g = true -> d ∉ acked ->
  due_runs acked (ps, g) (Ret (answer_of d sched g) :: ps, deliver d sched g).
Proof.
  intros [Hl%bool_decide_eq_true Hs]%andb_true_iff Hd.
  destruct (lookup_lt_is_Some_2 _ _ Hl) as [m Hm]. assert (Hmsg : Run.message d.2 (gw_sys g) = m).
  { unfold Run.message. by rewrite nth_lookup, Hm. }
  eapply rtc_l; [apply system_spawn, (due_delivery _ _ _ acked g d "tx-1" m Hm); [|exact Hd]|].
  - rewrite Hmsg in Hs. unfold on_subject. by destruct (strip_prefix _ _).
  - unfold answer_of, deliver. rewrite Hmsg.
    exact (run_system gw_exec _ _ (delivery_thread d "tx-1" m :: ps) 0 _ sched g eq_refl).
Qed.
(** With its answer. *)
Lemma deliver_acked acked d sched ps g a :
  deliverable d g = true -> d ∉ acked -> answer_of d sched g = Delivered d a ->
  acked_platform_steps (ps, acked, g) (ps, match a with Ack => {[d]} ∪ acked | Nak => acked end, deliver d sched g).
Proof.
  intros Hd Hn Ha. pose proof (deliver_due acked d sched ps g Hd Hn) as Hr. rewrite Ha in Hr.
  etransitivity; [exact (due_steps the_gateway the_libraries Run.minted _ _ _ _ _ Hr)|].
  apply rtc_once. by apply (acked_answer the_gateway the_libraries Run.minted (Ret (Delivered d a) :: ps) acked _ 0 d a).
Qed.

Definition g_published : gw_world := poll g_answered.
Definition g_scheduled : gw_world := deliver (AtScheduler, 0%nat) [] g_published.
Definition g_executed : gw_world := deliver (AtEngine, 1%nat) [] g_scheduled.
Lemma published_acked ps : acked_platform_steps (ps, ∅, g_answered) (ps, ∅, g_published).
Proof. exact (due_steps the_gateway the_libraries Run.minted ∅ _ _ _ _ (poll_due ∅ ps g_answered)). Qed.
Lemma scheduled_acked ps : acked_platform_steps (ps, ∅, g_published) (ps, {[(AtScheduler, 0%nat)]} ∪ ∅, g_scheduled).
Proof. apply (deliver_acked ∅ (AtScheduler, 0%nat) [] ps g_published Ack); [vm_compute; reflexivity|set_solver|vm_compute; reflexivity]. Qed.
Lemma executed_acked ps :
  acked_platform_steps (ps, {[(AtScheduler, 0%nat)]} ∪ ∅, g_scheduled)
    (ps, {[(AtEngine, 1%nat)]} ∪ ({[(AtScheduler, 0%nat)]} ∪ ∅), g_executed).
Proof. apply (deliver_acked _ (AtEngine, 1%nat) [] ps g_scheduled Ack); [vm_compute; reflexivity|set_solver|vm_compute; reflexivity]. Qed.
Lemma pipeline_runs ps : rtc platform (ps, g_answered) (ps, g_executed).
Proof.
  eapply (acked_run_platform the_gateway the_libraries Run.minted).
  etransitivity; [exact (published_acked ps)|]. etransitivity; [exact (scheduled_acked ps)|exact (executed_acked ps)].
Qed.

Definition row25 : option intent_row := intents (w_db (gw_sys g_executed)) !! ids1.1.

Lemma platform_well_typed_witness :
  world_typed (gw_sys g_executed) /\ length (w_nats (gw_sys g_executed)) = 3%nat /\
  existsb (declared ApiGateway) (w_metrics (gw_sys g_executed)) = true.
Proof.
  split; [|split; vm_compute; reflexivity].
  apply (platform_well_typed the_gateway the_libraries Run.minted g0 [Ret answered] g_executed).
  - apply empty_typed.
  - etransitivity; [exact request_runs|apply pipeline_runs].
Defined.

(** The row of the accepted request, before anything else has run, and once the
    scheduler has acknowledged it. *)
Definition row_in_state (g : gw_world) : option intent_row := intents (w_db (gw_sys g)) !! ids1.1.
Definition by_scheduler : gset delivery := {[(AtScheduler, 0%nat)]} ∪ ∅.
Lemma engine_not_acked : (AtEngine, 1%nat) ∉ by_scheduler.
Proof. unfold by_scheduler. set_solver. Qed.
Lemma at_scheduled : acked_platform_steps ([], ∅, g0) ([Ret answered], by_scheduler, g_scheduled).
Proof.
  etransitivity; [exact request_acked|]. etransitivity; [exact (published_acked _)|]. exact (scheduled_acked _).
Qed.
Lemma scheduled_task : exists task i,
  w_nats (gw_sys g_scheduled) !! 1%nat = Some task /\ on_subject (listens_to AtEngine) task /\
  unmarshal_intent (Data task) = Some i /\ Intent.Id i = ids1.1.
Proof.
  assert (Hall : (m ← w_nats (gw_sys g_scheduled) !! 1%nat; _ ← strip_prefix (listens_to AtEngine) (Subject m);
                  Intent.Id <$> unmarshal_intent (Data m)) = Some ids1.1) by (vm_compute; reflexivity).
  revert Hall. generalize (w_nats (gw_sys g_scheduled)). intros l. generalize ids1.1. intros u Hall.
  apply bind_Some in Hall as (m & Hm & Hall). apply bind_Some in Hall as (x & Hx & Hall).
  apply fmap_Some in Hall as (i & Hi & ->). exists m, i. split_and!; [exact Hm| |exact Hi|reflexivity]. by exists x.
Qed.

(** ** A stranded intent
    The scheduler commits SCHEDULED, and the publishing of the task fails: Nak.
    On the second delivery the publishing fails again, which [republish] does not
    look at: Ack. *)
Module Stranded.
Definition no_responders (n : nat) : list outcome := repeat Done n ++ [Lost "nats: no response from stream"].
Definition g_unsent : gw_world := deliver (AtScheduler, 0%nat) (no_responders 6) g_published.
Definition g_stranded : gw_world := deliver (AtScheduler, 0%nat) (no_responders 2) g_unsent.

Lemma unsent_acked ps : acked_platform_steps (ps, ∅, g_published) (ps, ∅, g_unsent).
Proof. apply (deliver_acked ∅ (AtScheduler, 0%nat) (no_responders 6) ps g_published Nak); [vm_compute; reflexivity|set_solver|vm_compute; reflexivity]. Qed.
Lemma stranded_acked ps : acked_platform_steps (ps, ∅, g_unsent) (ps, by_scheduler, g_stranded).
Proof. apply (deliver_acked ∅ (AtScheduler, 0%nat) (no_responders 2) ps g_unsent Ack); [vm_compute; reflexivity|set_solver|vm_compute; reflexivity]. Qed.

(** Nothing is left for an intent when the outbox is empty and the only message
    of the stream is no task and is acknowledged. *)
Lemma owed_nothing u acked w :
  bool_decide (outbox_events (w_db w) = ∅) = true ->
  (strip_prefix (listens_to AtEngine) ∘ Subject <$> w_nats w) = [None] ->
  (AtScheduler, 0%nat) ∈ acked -> ~ owed u acked w.
Proof.
  intros Hout%bool_decide_eq_true Hnats Ha. destruct (w_nats w) as [|m [|]] eqn:Hw; try discriminate Hnats.
  injection Hnats as Hm. intros [k o Hk|n m' Hn _ Hd|n m' i Hn [x Hs]].
  - rewrite Hout, lookup_empty in Hk. discriminate Hk.
  - rewrite Hw in Hn. by destruct n.
  - rewrite Hw in Hn. destruct n; [|done]. injection Hn as <-. cbn in Hm, Hs. by rewrite Hs in Hm.
Qed.

(** An intent that the gateway answered 201 for is SCHEDULED and owed nothing:
    the scheduler has acknowledged its submission and no task was published. *)
Lemma scheduled_intent_stranded :
  acked_platform_steps ([], ∅, g0) ([Ret answered], by_scheduler, g_stranded) /\
  (ir_status <$> intents (w_db (gw_sys g_stranded)) !! ids1.1) = Some SCHEDULED /\
  ~ owed ids1.1 by_scheduler (gw_sys g_stranded).
Proof.
  split_and!.
  - etransitivity; [exact request_acked|]. etransitivity; [exact (published_acked _)|].
    etransitivity; [exact (unsent_acked _)|exact (stranded_acked _)].
  - vm_compute. reflexivity.
  - apply owed_nothing; [vm_compute; reflexivity|vm_compute; reflexivity|set_solver].
Qed.
End Stranded.

(** ** The load tester, one transfer *)
Abbreviation tester_job := (work (serve_job the_gateway the_libraries (fun _ => []) (fun _ => ids1)) addr token keys25).
Definition served25 : bool := run_result gw_exec (tester_job (1%nat, transfer25)) [] g0.
Definition g_served : gw_world := run_state gw_exec (tester_job (1%nat, transfer25)) [] g0.
Definition tester_done : pool (E:=gwE) (S:=gw_world) (A:=job) (R:=bool) :=
  mk_pool [] [None] [(1%nat, transfer25, served25)] g_served.
Lemma tester_runs :
  rtc (loaded_step the_gateway the_libraries Run.minted (fun _ => []) (fun _ => ids1) addr token keys25)
    (submissions 1 [transfer25] g0, []) (tester_done, []).
Proof.
  assert (Hs : rtc (submission_step (serve_job the_gateway the_libraries (fun _ => []) (fun _ => ids1)) addr token keys25)
                 (submissions 1 [transfer25] g0) tester_done).
  { exact (serve_head gw_exec tester_job (1%nat, transfer25) [] [None] [] g0 0 [] eq_refl). }
  revert Hs. generalize (submissions 1 [transfer25] g0) tester_done. intros c c' Hs.
  induction Hs as [|c1 c2 c3 Hs _ IH]; [reflexivity|]. eapply rtc_l; [by apply load_work|exact IH].
Qed.

Lemma counted_successes_are_stored_witness :
  served25 = true /\ 1 <= Z.of_nat (size (intents (w_db (gw_sys g_served)))) /\
  exists q, build keys25.1 keys25.2 transfer25 = Ok q /\ fulfilled ids1.1 (grpc_request q) (gw_sys g_served).
Proof.
  assert (Htrue : served25 = true) by (vm_compute; reflexivity).
  destruct (counted_successes_are_stored the_gateway the_libraries Run.minted (fun _ => []) (fun _ => ids1) addr token keys25
              "seed" 1 [transfer25] 0 g0 [] g0 tester_done []) as [Hone Hcount].
  - vm_compute. reflexivity.
  - intros n _. exact ids1_drawn.
  - intros n m Hn Hm _. cbn in Hn, Hm. lia.
  - repeat constructor.
  - exact g0_initial.
  - reflexivity.
  - exact tester_runs.
  - split; [exact Htrue|]. split.
    + replace 1 with (successCount tester_done) by (vm_compute; reflexivity). exact Hcount.
    + destruct (Hone 1%nat transfer25) as (_ & q & Hq & _ & Hf); [|exists q; split; [exact Hq|exact Hf]].
      unfold tester_done. rewrite Htrue. left.
Defined.
